(** * Reference management and header scheduling of the VAAPI H.264 / H.265 encoders

    A shallow embedding of the reference-list, DPB-marking, short-term
    reference-set, SEI-scheduling and access-unit-writing code of
    [libavcodec/vaapi_encode_h264.c] and [libavcodec/vaapi_encode_h265.c],
    with the properties the design document states about it.

    Conventions of the embedding.
    - C [int] values are kept in [Z]; the code never relies on signed
      wrap-around (it would be undefined), and the unsigned computations
      ([size_t], [uint16_t]) have their reduction written out.
    - A picture pointer is modelled by the picture it points to (a snapshot
      of the fields this code reads); pointer comparison is comparison of
      the [addr] field.
    - A C array is a [list] read with [aget] and written with [aset]; an
      uninitialised array is a list of arbitrary contents handed in by the
      caller.
    - [av_assert0] aborts the process: a function that can hit one returns
      an [outcome], which also records accesses C leaves undefined (an
      array index out of range, a null [prev]). *)

From Stdlib Require Import ZArith Bool Lia.
From stdpp Require Import prelude sorting.

Local Open Scope Z_scope.
#[local] Set Warnings "-clear-no-such-hyp".

(** ** Outcomes of a C function that may abort *)

Inductive outcome (A : Type) : Type :=
| Ok (a : A)
| AssertionFailure
| Undefined.
Arguments Ok {A} a.
Arguments AssertionFailure {A}.
Arguments Undefined {A}.

Definition obind {A B} (m : outcome A) (k : A -> outcome B) : outcome B :=
  match m with
  | Ok a => k a
  | AssertionFailure => AssertionFailure
  | Undefined => Undefined
  end.

Declare Scope outcome_scope.
Delimit Scope outcome_scope with outcome.
Notation "'do' x <- m ; k" := (obind m (fun x => k))
  (at level 10, x name, m at level 100, k at level 200,
   format "'[v' 'do'  x  <-  m ; '/' k ']'") : outcome_scope.
Notation "'do' ' p <- m ; k" := (obind m (fun x => match x with p => k end))
  (at level 10, p pattern, m at level 100, k at level 200,
   format "'[v' 'do'  ' p  <-  m ; '/' k ']'") : outcome_scope.
Notation "m ;; k" := (obind m (fun _ => k))
  (at level 100, k at level 200, right associativity) : outcome_scope.
Local Open Scope outcome_scope.

(** [av_assert0(cond)] *)
Definition av_assert0 (cond : bool) : outcome unit :=
  if cond then Ok tt else AssertionFailure.

(** [a[i]] and [a[i] = x] on an array of [length a] cells. *)
Definition aget {A} (a : list A) (i : nat) : outcome A :=
  match a !! i with
  | Some x => Ok x
  | None => Undefined
  end.

Definition aset {A} (a : list A) (i : nat) (x : A) : outcome (list A) :=
  if decide (i < length a)%nat then Ok (<[i:=x]> a) else Undefined.

(** [FFSWAP(type, a[i], a[j])] *)
Definition FFSWAP {A} (a : list A) (i j : nat) : outcome (list A) :=
  do x <- aget a i;
  do y <- aget a j;
  do a' <- aset a i y;
  aset a' j x.

(** Monadic left fold: a [for] loop over the elements of an array. *)
Fixpoint ofold {S A} (body : S -> A -> outcome S) (s : S) (l : list A)
  : outcome S :=
  match l with
  | [] => Ok s
  | x :: l' => do s' <- body s x; ofold body s' l'
  end.

(** ** Pictures (hw_base_encode.h, as far as this code reads them) *)

Inductive PictureType : Type :=
| FF_HW_PICTURE_TYPE_IDR
| FF_HW_PICTURE_TYPE_I
| FF_HW_PICTURE_TYPE_P
| FF_HW_PICTURE_TYPE_B.

#[global] Instance PictureType_eq_dec : EqDecision PictureType.
Proof. solve_decision. Defined.

Definition PictureType_eqb (a b : PictureType) : bool :=
  match a, b with
  | FF_HW_PICTURE_TYPE_IDR, FF_HW_PICTURE_TYPE_IDR
  | FF_HW_PICTURE_TYPE_I, FF_HW_PICTURE_TYPE_I
  | FF_HW_PICTURE_TYPE_P, FF_HW_PICTURE_TYPE_P
  | FF_HW_PICTURE_TYPE_B, FF_HW_PICTURE_TYPE_B => true
  | _, _ => false
  end.

(** [FFHWBaseEncodePicture], with the codec's side record [priv_data] of type
    [P].  [refs0]/[refs1] are [refs[0][0..nb_refs[0])] and
    [refs[1][0..nb_refs[1])]; [dpb] is [dpb[0..nb_dpb_pics)]. *)
#[local] Set Warnings "-register-all".
Inductive FFHWBaseEncodePicture (P : Type) : Type := mkPicture {
  addr : N;
  display_order : Z;
  encode_order : Z;
  type : PictureType;
  is_reference : bool;
  b_depth : Z;
  refs0 : list (FFHWBaseEncodePicture P);
  refs1 : list (FFHWBaseEncodePicture P);
  dpb : list (FFHWBaseEncodePicture P);
  prev : option (FFHWBaseEncodePicture P);
  priv_data : P
}.
Arguments mkPicture {P}.
Arguments addr {P}.
Arguments display_order {P}.
Arguments encode_order {P}.
Arguments type {P}.
Arguments is_reference {P}.
Arguments b_depth {P}.
Arguments refs0 {P}.
Arguments refs1 {P}.
Arguments dpb {P}.
Arguments prev {P}.
Arguments priv_data {P}.

Definition set_prev {P} (pic : FFHWBaseEncodePicture P)
    (prv : option (FFHWBaseEncodePicture P)) : FFHWBaseEncodePicture P :=
  mkPicture (addr pic) (display_order pic) (encode_order pic) (type pic)
    (is_reference pic) (b_depth pic) (refs0 pic) (refs1 pic) (dpb pic)
    prv (priv_data pic).

Definition set_priv_data {P} (pic : FFHWBaseEncodePicture P) (h : P)
  : FFHWBaseEncodePicture P :=
  mkPicture (addr pic) (display_order pic) (encode_order pic) (type pic)
    (is_reference pic) (b_depth pic) (refs0 pic) (refs1 pic) (dpb pic)
    (prev pic) h.

(** Pointer comparison [p == q]. *)
Definition ptr_eqb {P} (p q : FFHWBaseEncodePicture P) : bool :=
  N.eqb (addr p) (addr q).

(** ** Shift-and-insert loops

    Both encoders build their sorted arrays with the same loop shape:
<<
    for (j = n; j > 0; j--) {
        hc = a[j - 1];
        ... assertions on hc ...
        if (... hc belongs before the new entry ...)
            break;
        a[j] = a[j - 1];
    }
    a[j] = new;
>>
    [test hc] is the body's verdict on [hc]: an assertion failure, [true]
    for [break], [false] for shifting on. *)

Section Shift.
Context {A : Type}.
Variable test : A -> outcome bool.

Fixpoint shift_loop (j : nat) (a : list A) : outcome (nat * list A) :=
  match j with
  | O => Ok (O, a)
  | S j' =>
      do hc <- aget a j';
      do brk <- test hc;
      if brk : bool then Ok (j, a)
      else do a' <- aset a j hc; shift_loop j' a'
  end.

Definition shift_insert (n : nat) (a : list A) (new : A) : outcome (list A) :=
  do '(j, a') <- shift_loop n a;
  aset a' j new.

(** The same insertion on the initialised prefix seen as a list, walked
    from its last element: [r] is the prefix reversed. *)
Fixpoint ins_rev (new : A) (r : list A) : outcome (list A) :=
  match r with
  | [] => Ok [new]
  | hc :: r' =>
      do brk <- test hc;
      if brk : bool then Ok (new :: r)
      else do l <- ins_rev new r'; Ok (hc :: l)
  end.

Definition ins_back (new : A) (pre : list A) : outcome (list A) :=
  do l <- ins_rev new (rev pre); Ok (rev l).
End Shift.

(** ** Error codes (libavutil/error.h) *)

Definition ENOSPC : Z := 28.
Definition AVERROR (e : Z) : Z := - e.
(** [FFERRTAG('E','O','F',' ')] *)
Definition AVERROR_EOF : Z := - (69 + 79 * 2^8 + 70 * 2^16 + 32 * 2^24).

(** ** The coded-bitstream fragment (cbs.h)

    The pending access unit: the units appended so far and, once written,
    the serialized bytes.  [data_size] and [data_bit_padding] are [size_t];
    [size_t_modulus] is the number of values of that type. *)

Definition size_t_modulus : Z := 2^64.

Inductive sei_payload_type : Type :=
| SEI_TYPE_BUFFERING_PERIOD
| SEI_TYPE_PIC_TIMING
| SEI_TYPE_USER_DATA_REGISTERED_ITU_T_T35
| SEI_TYPE_USER_DATA_UNREGISTERED
| SEI_TYPE_RECOVERY_POINT.

Inductive au_unit : Type :=
| RawAUD
| RawSPS
| RawPPS
| RawSlice
| SEIMessage (payload_type : sei_payload_type).

Record CodedBitstreamFragment : Type := mkFragment {
  data : list Byte.byte;
  data_size : Z;
  data_bit_padding : Z;
  units : list au_unit
}.

(** Modelled from the spec: [ff_cbs_fragment_reset] (cbs.c is not among the
    sources at hand) returns the pending unit list, and the serialized data
    with it, to empty. *)
Definition ff_cbs_fragment_reset (au : CodedBitstreamFragment)
  : CodedBitstreamFragment :=
  mkFragment [] 0 0 [].

Section CBS.
(** The allocation behaviour of the unit-insertion calls and the
    serializer of cbs.c are left open: [cbs_insert_err au u] is the
    error code ([< 0]) or [0] of appending [u] to [au], and
    [cbs_serialize us] the error code or the bytes and the number of
    trailing padding bits of the units [us]. *)
Variable cbs_insert_err : CodedBitstreamFragment -> au_unit -> Z.
Variable cbs_serialize : list au_unit -> Z * (list Byte.byte * Z).

(** Modelled from the spec: [ff_cbs_insert_unit_content(au, -1, ...)]
    appends the unit at the end of the pending list, or fails and leaves
    the list alone. *)
Definition ff_cbs_insert_unit_content (au : CodedBitstreamFragment)
    (u : au_unit) : Z * CodedBitstreamFragment :=
  let err := cbs_insert_err au u in
  if err <? 0 then (err, au)
  else (0, mkFragment (data au) (data_size au) (data_bit_padding au)
             (units au ++ [u])).

(** Modelled from the spec: [ff_cbs_sei_add_message(cbc, au, 1, type, ...)]
    appends the message to the pending access unit, or fails. *)
Definition ff_cbs_sei_add_message (au : CodedBitstreamFragment)
    (t : sei_payload_type) : Z * CodedBitstreamFragment :=
  ff_cbs_insert_unit_content au (SEIMessage t).

(** Modelled from the spec: [ff_cbs_write_fragment_data] serializes the
    pending units into [au->data], or fails. *)
Definition ff_cbs_write_fragment_data (au : CodedBitstreamFragment)
  : Z * CodedBitstreamFragment :=
  let '(err, (bytes, padding)) := cbs_serialize (units au) in
  if err <? 0 then (err, au)
  else (0, mkFragment bytes (Z.of_nat (length bytes)) padding (units au)).
End CBS.

(** [memcpy(dst, src, n)] *)
Definition memcpy {A} (dst src : list A) (n : nat) : list A :=
  take n src ++ drop n dst.

(** ** H.264: vaapi_encode_h264.c *)

Module H264.

Record VAAPIEncodeH264Picture : Type := mkH264Picture {
  frame_num : Z;
  pic_order_cnt : Z;
  last_idr_frame : Z;
  idr_pic_id : Z;
  primary_pic_type : Z;
  slice_type : Z;
  cpb_delay : Z;
  dpb_delay : Z
}.

Abbreviation Picture := (FFHWBaseEncodePicture VAAPIEncodeH264Picture).

(** [((VAAPIEncodeH264Picture * )p->priv_data)->frame_num] and
    [->pic_order_cnt] *)
Definition fn (p : Picture) : Z := frame_num (priv_data p).
Definition poc (p : Picture) : Z := pic_order_cnt (priv_data p).


(** *** The encoder context

    [VAAPIEncodeH264Context] with the fields of the base context and of
    the raw SPS/PPS that the functions below read. *)
Definition SEI_TIMING : Z := 1.
Definition SEI_IDENTIFIER : Z := 2.
Definition SEI_RECOVERY_POINT : Z := 4.
Definition SEI_A53_CC : Z := 8.

Record H264RawSEIPicTiming : Type := mkPicTiming {
  cpb_removal_delay : Z;
  dpb_output_delay : Z
}.

Record H264RawSEIRecoveryPoint : Type := mkRecoveryPoint {
  recovery_frame_cnt : Z;
  exact_match_flag : Z;
  broken_link_flag : Z
}.

Record VAAPIEncodeH264Context : Type := mkH264Context {
  (* base context *)
  max_b_depth : Z;
  b_per_p : Z;
  (* user options *)
  aud : bool;
  sei : Z;
  (* derived settings *)
  fixed_qp_idr : Z;
  fixed_qp_p : Z;
  fixed_qp_b : Z;
  dpb_frames : Z;
  (* raw_sps, raw_pps *)
  log2_max_frame_num_minus4 : Z;
  pic_order_cnt_type : Z;
  log2_max_pic_order_cnt_lsb_minus4 : Z;
  pic_parameter_set_id : Z;
  pic_init_qp_minus26 : Z;
  (* writer structures *)
  current_access_unit : CodedBitstreamFragment;
  raw_aud_primary_pic_type : Z;
  sei_pic_timing : H264RawSEIPicTiming;
  sei_recovery_point : H264RawSEIRecoveryPoint;
  sei_a53cc_data_length : Z;
  aud_needed : bool;
  sei_needed : Z
}.

Definition set_au (priv : VAAPIEncodeH264Context)
    (au : CodedBitstreamFragment) : VAAPIEncodeH264Context :=
  mkH264Context (max_b_depth priv) (b_per_p priv) (aud priv) (sei priv)
    (fixed_qp_idr priv) (fixed_qp_p priv) (fixed_qp_b priv)
    (dpb_frames priv) (log2_max_frame_num_minus4 priv)
    (pic_order_cnt_type priv) (log2_max_pic_order_cnt_lsb_minus4 priv)
    (pic_parameter_set_id priv) (pic_init_qp_minus26 priv)
    au (raw_aud_primary_pic_type priv) (sei_pic_timing priv)
    (sei_recovery_point priv) (sei_a53cc_data_length priv)
    (aud_needed priv) (sei_needed priv).

Definition set_aud_needed (priv : VAAPIEncodeH264Context) (b : bool)
  : VAAPIEncodeH264Context :=
  mkH264Context (max_b_depth priv) (b_per_p priv) (aud priv) (sei priv)
    (fixed_qp_idr priv) (fixed_qp_p priv) (fixed_qp_b priv)
    (dpb_frames priv) (log2_max_frame_num_minus4 priv)
    (pic_order_cnt_type priv) (log2_max_pic_order_cnt_lsb_minus4 priv)
    (pic_parameter_set_id priv) (pic_init_qp_minus26 priv)
    (current_access_unit priv) (raw_aud_primary_pic_type priv)
    (sei_pic_timing priv) (sei_recovery_point priv)
    (sei_a53cc_data_length priv) b (sei_needed priv).

Definition set_sei_needed (priv : VAAPIEncodeH264Context) (m : Z)
  : VAAPIEncodeH264Context :=
  mkH264Context (max_b_depth priv) (b_per_p priv) (aud priv) (sei priv)
    (fixed_qp_idr priv) (fixed_qp_p priv) (fixed_qp_b priv)
    (dpb_frames priv) (log2_max_frame_num_minus4 priv)
    (pic_order_cnt_type priv) (log2_max_pic_order_cnt_lsb_minus4 priv)
    (pic_parameter_set_id priv) (pic_init_qp_minus26 priv)
    (current_access_unit priv) (raw_aud_primary_pic_type priv)
    (sei_pic_timing priv) (sei_recovery_point priv)
    (sei_a53cc_data_length priv) (aud_needed priv) m.

Definition set_sei (priv : VAAPIEncodeH264Context) (m : Z)
  : VAAPIEncodeH264Context :=
  mkH264Context (max_b_depth priv) (b_per_p priv) (aud priv) m
    (fixed_qp_idr priv) (fixed_qp_p priv) (fixed_qp_b priv)
    (dpb_frames priv) (log2_max_frame_num_minus4 priv)
    (pic_order_cnt_type priv) (log2_max_pic_order_cnt_lsb_minus4 priv)
    (pic_parameter_set_id priv) (pic_init_qp_minus26 priv)
    (current_access_unit priv) (raw_aud_primary_pic_type priv)
    (sei_pic_timing priv) (sei_recovery_point priv)
    (sei_a53cc_data_length priv) (aud_needed priv) (sei_needed priv).

(** *** vaapi_encode_h264_configure (lines 1125-1128)

    [hrd] is [ctx->rc_mode->hrd]; the remainder of the function (fixed
    QPs, identifier string) does not touch [priv->sei]. *)
Definition vaapi_encode_h264_configure_sei (hrd : bool)
    (priv : VAAPIEncodeH264Context) : VAAPIEncodeH264Context :=
  if negb hrd then set_sei priv (Z.land (sei priv) (Z.lnot SEI_TIMING))
  else priv.

(** *** vaapi_encode_h264_init_picture_params

    Lines 634-668: the codec-side record of the picture. *)
Definition init_hpic (priv : VAAPIEncodeH264Context) (pic : Picture)
  : outcome VAAPIEncodeH264Picture :=
  let hprev := option_map priv_data (prev pic) in
  do '(frame_num, last_idr_frame, idr_pic_id, primary_pic_type, slice_type) <-
    (if PictureType_eqb (type pic) FF_HW_PICTURE_TYPE_IDR then
       av_assert0 (display_order pic =? encode_order pic);;
       Ok (0, display_order pic,
           match hprev with
           | Some hprev => (idr_pic_id hprev + 1) mod 2^16
           | None => 0
           end,
           0, 7)
     else
       match prev pic with
       | None => AssertionFailure
       | Some prv =>
           let hprev := priv_data prv in
           Ok (frame_num hprev + Z.b2z (is_reference prv),
               last_idr_frame hprev, idr_pic_id hprev,
               match type pic with
               | FF_HW_PICTURE_TYPE_I => 0
               | FF_HW_PICTURE_TYPE_P => 1
               | _ => 2
               end,
               match type pic with
               | FF_HW_PICTURE_TYPE_I => 7
               | FF_HW_PICTURE_TYPE_P => 5
               | _ => 6
               end)
       end);
  let pic_order_cnt := display_order pic - last_idr_frame in
  let pic_order_cnt :=
    if pic_order_cnt_type priv =? 2 then pic_order_cnt * 2
    else pic_order_cnt in
  Ok (mkH264Picture frame_num pic_order_cnt last_idr_frame idr_pic_id
        primary_pic_type slice_type
        (encode_order pic - last_idr_frame)
        (display_order pic - encode_order pic + max_b_depth priv)).

(** Lines 682-708 and 722: the SEI messages due for this picture.
    [a53] tells whether [ff_alloc_a53_sei] found caption data.  (The
    [!CONFIG_VAAPI_1] lines 686-689 name a variable the function does not
    declare and so cannot be part of a build.) *)
Definition init_sei_needed (priv : VAAPIEncodeH264Context) (pic : Picture)
    (a53 : bool) : Z :=
  let sei_needed := 0 in
  let sei_needed :=
    if negb (Z.land (sei priv) SEI_IDENTIFIER =? 0) && (encode_order pic =? 0)
    then Z.lor sei_needed SEI_IDENTIFIER else sei_needed in
  let sei_needed :=
    if negb (Z.land (sei priv) SEI_TIMING =? 0)
    then Z.lor sei_needed SEI_TIMING else sei_needed in
  let sei_needed :=
    if negb (Z.land (sei priv) SEI_RECOVERY_POINT =? 0)
       && PictureType_eqb (type pic) FF_HW_PICTURE_TYPE_I
    then Z.lor sei_needed SEI_RECOVERY_POINT else sei_needed in
  let sei_needed :=
    if negb (Z.land (sei priv) SEI_A53_CC =? 0) && a53
    then Z.lor sei_needed SEI_A53_CC else sei_needed in
  sei_needed.

(** The whole function.  [ff_alloc_a53_sei pic] stands for the call of
    line 714 on [pic->input_image]: its error code and, when caption data
    is attached, the length of the payload it allocated.  The result is the
    return value, the updated context and the picture with its side record
    filled in.  The hardware parameter buffer [vpic] is write-only here and
    is left out, but not the assertion of line 738 made while filling
    it. *)
Section InitPictureParams.
Variable ff_alloc_a53_sei : Picture -> Z * option Z.

Definition vaapi_encode_h264_init_picture_params
    (priv : VAAPIEncodeH264Context) (pic : Picture)
  : outcome (Z * VAAPIEncodeH264Context * Picture) :=
  do hpic <- init_hpic priv pic;
  let pic' := set_priv_data pic hpic in
  let want_a53 := negb (Z.land (sei priv) SEI_A53_CC =? 0) in
  let '(err, a53) := if want_a53 then ff_alloc_a53_sei pic else (0, None) in
  let timing := negb (Z.land (sei priv) SEI_TIMING =? 0) in
  let recovery := negb (Z.land (sei priv) SEI_RECOVERY_POINT =? 0)
                  && PictureType_eqb (type pic) FF_HW_PICTURE_TYPE_I in
  let failed := want_a53 && (err <? 0) in
  let priv' :=
    mkH264Context (max_b_depth priv) (b_per_p priv) (aud priv) (sei priv)
      (fixed_qp_idr priv) (fixed_qp_p priv) (fixed_qp_b priv)
      (dpb_frames priv) (log2_max_frame_num_minus4 priv)
      (pic_order_cnt_type priv) (log2_max_pic_order_cnt_lsb_minus4 priv)
      (pic_parameter_set_id priv) (pic_init_qp_minus26 priv)
      (current_access_unit priv)
      (if aud priv then primary_pic_type hpic
       else raw_aud_primary_pic_type priv)
      (if timing
       then mkPicTiming (2 * cpb_delay hpic) (2 * dpb_delay hpic)
       else sei_pic_timing priv)
      (if recovery
       then mkRecoveryPoint 0 1 (Z.b2z (b_per_p priv >? 0))
       else sei_recovery_point priv)
      (match a53 with
       | Some len => if failed then sei_a53cc_data_length priv else len - 1
       | None => sei_a53cc_data_length priv
       end)
      (aud priv)
      (init_sei_needed priv pic
         (negb failed && match a53 with Some _ => true | None => false end))
  in
  if failed then Ok (err, priv', pic')
  else
    av_assert0 (forallb (fun ref => encode_order ref <? encode_order pic)
                  (refs0 pic ++ refs1 pic));;
    Ok (0, priv', pic').

(** Modelled from the spec: the caller's loop (hw_base_encode.c and
    vaapi_encode.c are not among the sources at hand) hands the pictures
    over in coding order, each with the picture encoded just before it as
    [prev]; encoding stops at the first error. *)
Fixpoint encode_pictures (priv : VAAPIEncodeH264Context)
    (prv : option Picture) (pics : list Picture) : outcome (list Picture) :=
  match pics with
  | [] => Ok []
  | pic :: rest =>
      do '(err, priv', pic') <-
        vaapi_encode_h264_init_picture_params priv (set_prev pic prv);
      if err <? 0 then Ok []
      else do rest' <- encode_pictures priv' (Some pic') rest;
           Ok (pic' :: rest')
  end.
End InitPictureParams.


(** *** The access-unit writers (lines 113-294)

    The caller's buffer is the pair of [buf] (the bytes at [data]) and [data_len]
    ([*data_len]: on entry the capacity in bits, on success the number of
    bits written); every writer returns its error code, the context and
    the buffer. *)
Section Writers.
Variable cbs_insert_err : CodedBitstreamFragment -> au_unit -> Z.
Variable cbs_serialize : list au_unit -> Z * (list Byte.byte * Z).

(** The bit length compared with and stored to [*data_len], in
    [size_t] arithmetic. *)
Definition au_bit_length (au : CodedBitstreamFragment) : Z :=
  (8 * data_size au - data_bit_padding au) mod size_t_modulus.

Definition vaapi_encode_h264_write_access_unit
    (buf : list Byte.byte) (data_len : Z) (au : CodedBitstreamFragment)
  : Z * CodedBitstreamFragment * list Byte.byte * Z :=
  let '(err, au) := ff_cbs_write_fragment_data cbs_serialize au in
  if err <? 0 then (err, au, buf, data_len)
  else if data_len <? au_bit_length au
  then (AVERROR ENOSPC, au, buf, data_len)
  else (0, au, memcpy buf (data au) (Z.to_nat (data_size au)),
        au_bit_length au).

Definition vaapi_encode_h264_add_nal (au : CodedBitstreamFragment)
    (nal_unit : au_unit) : Z * CodedBitstreamFragment :=
  let '(err, au) := ff_cbs_insert_unit_content cbs_insert_err au nal_unit in
  if err <? 0 then (err, au) else (0, au).

(** [if (priv->aud_needed) { add the AUD; priv->aud_needed = 0; }],
    shared by the three writers; [inl] is the jump to [fail]. *)
Definition add_aud_if_needed (priv : VAAPIEncodeH264Context)
  : (Z * VAAPIEncodeH264Context) + VAAPIEncodeH264Context :=
  if aud_needed priv then
    let '(err, au) :=
      vaapi_encode_h264_add_nal (current_access_unit priv) RawAUD in
    if err <? 0 then inl (err, set_au priv au)
    else inr (set_aud_needed (set_au priv au) false)
  else inr priv.

(** [ff_cbs_fragment_reset(au); return err;]: the label [fail:] of the
    writers, and their regular exit. *)
Definition reset_and_return (err : Z) (priv : VAAPIEncodeH264Context)
    (buf : list Byte.byte) (data_len : Z)
  : Z * VAAPIEncodeH264Context * list Byte.byte * Z :=
  (err, set_au priv (ff_cbs_fragment_reset (current_access_unit priv)),
   buf, data_len).

Definition vaapi_encode_h264_write_sequence_header
    (priv : VAAPIEncodeH264Context) (buf : list Byte.byte) (data_len : Z)
  : Z * VAAPIEncodeH264Context * list Byte.byte * Z :=
  match add_aud_if_needed priv with
  | inl (err, priv) => reset_and_return err priv buf data_len
  | inr priv =>
      let '(err, au) :=
        vaapi_encode_h264_add_nal (current_access_unit priv) RawSPS in
      let priv := set_au priv au in
      if err <? 0 then reset_and_return err priv buf data_len
      else
        let '(err, au) :=
          vaapi_encode_h264_add_nal (current_access_unit priv) RawPPS in
        let priv := set_au priv au in
        if err <? 0 then reset_and_return err priv buf data_len
        else
          let '(err, au, buf, data_len) :=
            vaapi_encode_h264_write_access_unit buf data_len
              (current_access_unit priv) in
          reset_and_return err (set_au priv au) buf data_len
  end.

Definition vaapi_encode_h264_write_slice_header
    (priv : VAAPIEncodeH264Context) (buf : list Byte.byte) (data_len : Z)
  : Z * VAAPIEncodeH264Context * list Byte.byte * Z :=
  match add_aud_if_needed priv with
  | inl (err, priv) => reset_and_return err priv buf data_len
  | inr priv =>
      let '(err, au) :=
        vaapi_encode_h264_add_nal (current_access_unit priv) RawSlice in
      let priv := set_au priv au in
      if err <? 0 then reset_and_return err priv buf data_len
      else
        let '(err, au, buf, data_len) :=
          vaapi_encode_h264_write_access_unit buf data_len
            (current_access_unit priv) in
        reset_and_return err (set_au priv au) buf data_len
  end.

(** Lines 228-262 of [vaapi_encode_h264_write_extra_header]: the SEI
    messages selected by [priv->sei_needed] are added in turn; the first
    failure stops. *)
Definition sei_messages_due (sei_needed : Z) (pic : Picture)
  : list sei_payload_type :=
  (if negb (Z.land sei_needed SEI_IDENTIFIER =? 0)
   then [SEI_TYPE_USER_DATA_UNREGISTERED] else []) ++
  (if negb (Z.land sei_needed SEI_TIMING =? 0)
   then (if PictureType_eqb (type pic) FF_HW_PICTURE_TYPE_IDR
         then [SEI_TYPE_BUFFERING_PERIOD] else [])
        ++ [SEI_TYPE_PIC_TIMING]
   else []) ++
  (if negb (Z.land sei_needed SEI_RECOVERY_POINT =? 0)
   then [SEI_TYPE_RECOVERY_POINT] else []) ++
  (if negb (Z.land sei_needed SEI_A53_CC =? 0)
   then [SEI_TYPE_USER_DATA_REGISTERED_ITU_T_T35] else []).

Fixpoint add_sei_messages (au : CodedBitstreamFragment)
    (msgs : list sei_payload_type) : Z * CodedBitstreamFragment :=
  match msgs with
  | [] => (0, au)
  | t :: msgs' =>
      let '(err, au) := ff_cbs_sei_add_message cbs_insert_err au t in
      if err <? 0 then (err, au) else add_sei_messages au msgs'
  end.

(** The fourth component of the result is [*type]
    ([Some VAEncPackedHeaderRawData] once a header was written).  The
    [!CONFIG_VAAPI_1] branch is not part of a build (see
    [init_sei_needed]). *)
Inductive packed_header_type : Type := VAEncPackedHeaderRawData.

Definition vaapi_encode_h264_write_extra_header
    (priv : VAAPIEncodeH264Context) (pic : Picture)
    (buf : list Byte.byte) (data_len : Z)
  : Z * VAAPIEncodeH264Context * list Byte.byte * Z
    * option packed_header_type :=
  if negb (sei_needed priv =? 0) then
    match add_aud_if_needed priv with
    | inl (err, priv) => (reset_and_return err priv buf data_len, None)
    | inr priv =>
        let '(err, au) :=
          add_sei_messages (current_access_unit priv)
            (sei_messages_due (sei_needed priv) pic) in
        let priv := set_au priv au in
        if err <? 0 then (reset_and_return err priv buf data_len, None)
        else
          let priv := set_sei_needed priv 0 in
          let '(err, au, buf, data_len) :=
            vaapi_encode_h264_write_access_unit buf data_len
              (current_access_unit priv) in
          let priv := set_au priv au in
          if err <? 0 then (reset_and_return err priv buf data_len, None)
          else (reset_and_return 0 priv buf data_len,
                Some VAEncPackedHeaderRawData)
    end
  else (AVERROR_EOF, priv, buf, data_len, None).

(** The three entry points under one name, for statements about all of
    them. *)
Inductive writer_call : Type :=
| WriteSequenceHeader
| WriteSliceHeader
| WriteExtraHeader (pic : Picture).

Definition run_writer (call : writer_call)
    (priv : VAAPIEncodeH264Context) (buf : list Byte.byte) (data_len : Z)
  : Z * VAAPIEncodeH264Context * list Byte.byte * Z :=
  match call with
  | WriteSequenceHeader =>
      vaapi_encode_h264_write_sequence_header priv buf data_len
  | WriteSliceHeader =>
      vaapi_encode_h264_write_slice_header priv buf data_len
  | WriteExtraHeader pic =>
      fst (vaapi_encode_h264_write_extra_header priv pic buf data_len)
  end.

(** Whether the call has anything to write: the header writers always,
    the metadata writer when a message is due. *)
Definition writes (call : writer_call) (priv : VAAPIEncodeH264Context)
  : bool :=
  match call with
  | WriteExtraHeader _ => negb (sei_needed priv =? 0)
  | _ => true
  end.

(** The unit list the call hands to the serializer when no insertion
    fails. *)
Definition pending_units (call : writer_call)
    (priv : VAAPIEncodeH264Context) : list au_unit :=
  units (current_access_unit priv) ++
  (if aud_needed priv then [RawAUD] else []) ++
  match call with
  | WriteSequenceHeader => [RawSPS; RawPPS]
  | WriteSliceHeader => [RawSlice]
  | WriteExtraHeader pic =>
      SEIMessage <$> sei_messages_due (sei_needed priv) pic
  end.
End Writers.

(** Lines 894-895: the [frame_num] written into the slice header. *)
Definition slice_frame_num (priv : VAAPIEncodeH264Context)
    (hpic : VAAPIEncodeH264Picture) : Z :=
  Z.land (frame_num hpic)
    (Z.shiftl 1 (4 + log2_max_frame_num_minus4 priv) - 1).

(** *** vaapi_encode_h264_default_ref_pic_list *)

(** Body of the P-picture loop (lines 788-794) for list entry [hc] when
    [hn] is being inserted. *)
Definition test_p (hn hc : Picture) : outcome bool :=
  av_assert0 (negb (fn hc =? fn hn));;
  Ok (fn hc >? fn hn).

(** Body of the B-picture list 0 loop (lines 798-810). *)
Definition test_b0 (hp hn hc : Picture) : outcome bool :=
  av_assert0 (negb (poc hc =? poc hp));;
  Ok (if poc hc <? poc hp
      then (poc hn >? poc hp) || (poc hn <? poc hc)
      else poc hn >? poc hc).

(** Body of the B-picture list 1 loop (lines 813-825). *)
Definition test_b1 (hp hn hc : Picture) : outcome bool :=
  av_assert0 (negb (poc hc =? poc hp));;
  Ok (if poc hc >? poc hp
      then (poc hn <? poc hp) || (poc hn >? poc hc)
      else poc hn <? poc hc).

(** One iteration of the loop over [prev->dpb] (lines 783-830); the state
    is [(rpl0, rpl1, n)]. *)
Definition add_candidate (pic : Picture)
    (st : list Picture * list Picture * nat) (hn : Picture)
  : outcome (list Picture * list Picture * nat) :=
  let '(rpl0, rpl1, n) := st in
  av_assert0 (fn hn <? fn pic);;
  match type pic with
  | FF_HW_PICTURE_TYPE_P =>
      do rpl0' <- shift_insert (test_p hn) n rpl0 hn;
      Ok (rpl0', rpl1, S n)
  | FF_HW_PICTURE_TYPE_B =>
      do rpl0' <- shift_insert (test_b0 pic hn) n rpl0 hn;
      do rpl1' <- shift_insert (test_b1 pic hn) n rpl1 hn;
      Ok (rpl0', rpl1', S n)
  | _ => Ok (rpl0, rpl1, S n)
  end.

(** The loop of lines 783-830 as a whole. *)
Definition insert_candidates (pic prev : Picture) (rpl0 rpl1 : list Picture)
  : outcome (list Picture * list Picture * nat) :=
  ofold (add_candidate pic) (rpl0, rpl1, O) (dpb prev).

(** [for (i = 0; i < n; i++) if (rpl0[i] != rpl1[i]) break;], started at
    [i] with [k = n - i] iterations to go; the result is the final [i]. *)
Fixpoint first_difference (rpl0 rpl1 : list Picture) (i k : nat)
  : outcome nat :=
  match k with
  | O => Ok i
  | S k' =>
      do a <- aget rpl0 i;
      do b <- aget rpl1 i;
      if negb (ptr_eqb a b) then Ok i
      else first_difference rpl0 rpl1 (S i) k'
  end.

(** Lines 832-839. *)
Definition degenerate_correction (pic : Picture)
    (rpl0 rpl1 : list Picture) (n : nat) : outcome (list Picture) :=
  match type pic with
  | FF_HW_PICTURE_TYPE_B =>
      do i <- first_difference rpl0 rpl1 O n;
      if (i =? n)%nat then FFSWAP rpl1 0 1 else Ok rpl1
  | _ => Ok rpl1
  end.

(** The arrays [rpl0], [rpl1] come in with whatever the caller's stack
    holds and go out with the default lists in their first [n] cells; the
    third component is [*rpl_size]. *)
Definition vaapi_encode_h264_default_ref_pic_list (pic : Picture)
    (rpl0 rpl1 : list Picture)
  : outcome (list Picture * list Picture * nat) :=
  match prev pic with
  | None => AssertionFailure
  | Some prev =>
      do '(rpl0', rpl1', n) <- insert_candidates pic prev rpl0 rpl1;
      do rpl1'' <- degenerate_correction pic rpl0' rpl1' n;
      Ok (rpl0', rpl1'', n)
  end.


(** *** vaapi_encode_h264_init_slice_params *)

Definition H264_NAL_SLICE : Z := 1.
Definition H264_NAL_IDR_SLICE : Z := 5.

(** The two fields of an entry of [sh->mmco] and of [sh->rplm_l0/l1] that
    the encoder writes (the long-term fields are never touched). *)
Record MMCO : Type := mkMMCO {
  memory_management_control_operation : Z;
  difference_of_pic_nums_minus1 : Z
}.

Record RPLM : Type := mkRPLM {
  modification_of_pic_nums_idc : Z;
  abs_diff_pic_num_minus1 : Z
}.

(** Lines 915-926: the discard list and the number of pictures kept.  The
    inner loop is a search for [prev->dpb[i]] among [pic->dpb]; the local
    array [discard_list] is filled from index 0 upwards. *)
Definition in_dpb (pic c : Picture) : bool := existsb (ptr_eqb c) (dpb pic).

Definition discard_step (pic : Picture) (st : list Picture * Z)
    (c : Picture) : list Picture * Z :=
  let '(discard_list, keep) := st in
  if in_dpb pic c then (discard_list, keep + 1)
  else (discard_list ++ [c], keep).

Definition discard_scan (pic prv : Picture) : list Picture * Z :=
  fold_left (discard_step pic) (dpb prv) ([], 0).

(** Lines 933-939, from index [i] on; the result carries the final [i]. *)
Fixpoint write_mmco (hpic : VAAPIEncodeH264Picture)
    (discard_list : list Picture) (i : nat) (mmco : list MMCO)
  : outcome (nat * list MMCO) :=
  match discard_list with
  | [] => Ok (i, mmco)
  | old :: rest =>
      av_assert0 (fn old <? frame_num hpic);;
      do m <- aget mmco i;
      do mmco <- aset mmco i (mkMMCO 1 (frame_num hpic - fn old - 1));
      write_mmco hpic rest (S i) mmco
  end.

(** Lines 909-942; the state is [sh->adaptive_ref_pic_marking_mode_flag]
    and [sh->mmco]. *)
Definition slice_marking (priv : VAAPIEncodeH264Context) (pic : Picture)
    (flag : Z) (mmco : list MMCO) : outcome (Z * list MMCO) :=
  if is_reference pic
     && negb (PictureType_eqb (type pic) FF_HW_PICTURE_TYPE_IDR) then
    match prev pic with
    | None => Undefined
    | Some prv =>
        let '(discard_list, keep) := discard_scan pic prv in
        av_assert0 (keep <=? dpb_frames priv);;
        match discard_list with
        | [] => Ok (0, mmco)
        | _ =>
            do '(i, mmco) <- write_mmco (priv_data pic) discard_list O mmco;
            do m <- aget mmco i;
            do mmco <- aset mmco i
                         (mkMMCO 0 (difference_of_pic_nums_minus1 m));
            Ok (1, mmco)
        end
    end
  else Ok (flag, mmco).

(** The comparison loops of lines 956-960, 985-992 and 994-1001, from
    index [i] on: [check] is the assertion the B loops make about each
    reference. *)
Fixpoint need_rplm (check : Picture -> bool) (refs def_l : list Picture)
    (i : nat) (need : bool) : outcome bool :=
  match refs with
  | [] => Ok need
  | ref :: rest =>
      av_assert0 (check ref);;
      do d <- aget def_l i;
      need_rplm check rest def_l (S i) (need || negb (ptr_eqb ref d))
  end.

(** The command loops of lines 964-979, 1005-1022 and 1027-1044, from
    index [i] on. *)
Fixpoint write_rplm (refs : list Picture) (pic_num : Z) (i : nat)
    (rplm : list RPLM) : outcome (list RPLM) :=
  match refs with
  | [] =>
      do m <- aget rplm i;
      aset rplm i (mkRPLM 3 (abs_diff_pic_num_minus1 m))
  | href :: rest =>
      av_assert0 (negb (fn href =? pic_num));;
      do _ <- aget rplm i;
      do rplm <- aset rplm i
                   (if fn href <? pic_num
                    then mkRPLM 0 (pic_num - fn href - 1)
                    else mkRPLM 1 (fn href - pic_num - 1));
      write_rplm rest (fn href) (S i) rplm
  end.

(** [if (need_rplm) { ... commands ... }] *)
Definition emit_rplm (need : bool) (pic : Picture) (refs : list Picture)
    (rplm : list RPLM) : outcome (list RPLM) :=
  if need then write_rplm refs (fn pic) O rplm else Ok rplm.

(** Lines 946-1047.  [def_l0], [def_l1] are the local arrays as the stack
    holds them on entry; the state is
    [(ref_pic_list_modification_flag_l0, rplm_l0,
      ref_pic_list_modification_flag_l1, rplm_l1)].  (The assertions
    [j == n0], [j == n1] compare two counters of the same loop.) *)
Definition slice_rplm (pic : Picture) (def_l0 def_l1 : list Picture)
    (st : Z * list RPLM * Z * list RPLM)
  : outcome (Z * list RPLM * Z * list RPLM) :=
  let '(flag_l0, rplm_l0, flag_l1, rplm_l1) := st in
  match type pic with
  | FF_HW_PICTURE_TYPE_P =>
      do '(def_l0, def_l1, n) <-
        vaapi_encode_h264_default_ref_pic_list pic def_l0 def_l1;
      do need_rplm <- need_rplm (fun _ => true) (refs0 pic) def_l0 O false;
      do rplm_l0 <- emit_rplm need_rplm pic (refs0 pic) rplm_l0;
      Ok (Z.b2z need_rplm, rplm_l0, flag_l1, rplm_l1)
  | FF_HW_PICTURE_TYPE_B =>
      do '(def_l0, def_l1, n) <-
        vaapi_encode_h264_default_ref_pic_list pic def_l0 def_l1;
      do need_rplm_l0 <- need_rplm (fun href => poc href <? poc pic)
                           (refs0 pic) def_l0 O false;
      do need_rplm_l1 <- need_rplm (fun href => poc href >? poc pic)
                           (refs1 pic) def_l1 O false;
      do rplm_l0 <- emit_rplm need_rplm_l0 pic (refs0 pic) rplm_l0;
      do rplm_l1 <- emit_rplm need_rplm_l1 pic (refs1 pic) rplm_l1;
      Ok (Z.b2z need_rplm_l0, rplm_l0, Z.b2z need_rplm_l1, rplm_l1)
  | _ => Ok st
  end.

(** The raw slice header [priv->raw_slice.header], as far as the function
    fills it in.  It lives in the context, so fields a call does not
    assign keep the value of the previous call. *)
Record H264RawSliceHeader : Type := mkSliceHeader {
  nal_unit_type : Z;
  nal_ref_idc : Z;
  first_mb_in_slice : Z;
  sh_slice_type : Z;
  sh_pic_parameter_set_id : Z;
  sh_frame_num : Z;
  sh_idr_pic_id : Z;
  pic_order_cnt_lsb : Z;
  direct_spatial_mv_pred_flag : Z;
  slice_qp_delta : Z;
  adaptive_ref_pic_marking_mode_flag : Z;
  mmco : list MMCO;
  ref_pic_list_modification_flag_l0 : Z;
  rplm_l0 : list RPLM;
  ref_pic_list_modification_flag_l1 : Z;
  rplm_l1 : list RPLM
}.

(** The function: [block_start] is [slice->block_start], [sh] the header
    as the previous call left it.  The hardware slice buffer [vslice] is
    write-only here and is left out, but not the assertions of lines
    1071-1077 made while filling it. *)
Definition vaapi_encode_h264_init_slice_params
    (priv : VAAPIEncodeH264Context) (pic : Picture) (block_start : Z)
    (def_l0 def_l1 : list Picture) (sh : H264RawSliceHeader)
  : outcome H264RawSliceHeader :=
  let hpic := priv_data pic in
  let idr := PictureType_eqb (type pic) FF_HW_PICTURE_TYPE_IDR in
  let qp :=
    match type pic with
    | FF_HW_PICTURE_TYPE_B => fixed_qp_b priv
    | FF_HW_PICTURE_TYPE_P => fixed_qp_p priv
    | _ => fixed_qp_idr priv
    end in
  do '(marking_flag, mmco) <-
    slice_marking priv pic (adaptive_ref_pic_marking_mode_flag sh) (mmco sh);
  do '(flag_l0, rplm_l0, flag_l1, rplm_l1) <-
    slice_rplm pic def_l0 def_l1
      (ref_pic_list_modification_flag_l0 sh, rplm_l0 sh,
       ref_pic_list_modification_flag_l1 sh, rplm_l1 sh);
  av_assert0 (match refs0 pic with
              | [] => true
              | _ => PictureType_eqb (type pic) FF_HW_PICTURE_TYPE_P
                     || PictureType_eqb (type pic) FF_HW_PICTURE_TYPE_B
              end);;
  av_assert0 (match refs1 pic with
              | [] => true
              | _ => PictureType_eqb (type pic) FF_HW_PICTURE_TYPE_B
              end);;
  Ok (mkSliceHeader
        (if idr then H264_NAL_IDR_SLICE else H264_NAL_SLICE)
        (if idr then 3 else Z.b2z (is_reference pic))
        block_start
        (slice_type hpic)
        (pic_parameter_set_id priv)
        (slice_frame_num priv hpic)
        (idr_pic_id hpic)
        (Z.land (pic_order_cnt hpic)
           (Z.shiftl 1 (4 + log2_max_pic_order_cnt_lsb_minus4 priv) - 1))
        1
        (qp - (pic_init_qp_minus26 priv + 26))
        marking_flag mmco flag_l0 rplm_l0 flag_l1 rplm_l1).

(** *** Reading the modification commands back

    Modelled from the spec: the round trip of the design document applies
    the commands to the default list as a decoder does for short-term
    pictures (H.264 8.2.4.3): starting from the current [frame_num], a
    command with idc 0 subtracts and one with idc 1 adds
    [abs_diff_pic_num_minus1 + 1] to the running picture number; the
    candidate bearing that number moves to the next index of the list,
    the entries behind it shift up and its old copy is dropped; idc 3
    ends the list.  [None] is a command sequence a decoder rejects. *)
Fixpoint apply_rplm (cands : list Picture) (pic_num_pred : Z) (idx : nat)
    (l : list Picture) (cmds : list RPLM) : option (list Picture) :=
  match cmds with
  | [] => None
  | c :: cmds' =>
      let idc := modification_of_pic_nums_idc c in
      if idc =? 3 then Some l
      else if (idc =? 0) || (idc =? 1) then
        let pic_num :=
          if idc =? 0 then pic_num_pred - (abs_diff_pic_num_minus1 c + 1)
          else pic_num_pred + (abs_diff_pic_num_minus1 c + 1) in
        match List.find (fun p => fn p =? pic_num) cands with
        | Some p =>
            apply_rplm cands pic_num (S idx)
              (take idx l ++ p ::
               List.filter (fun q => negb (fn q =? pic_num)) (drop idx l))
              cmds'
        | None => None
        end
      else None
  end.

(** The scheduler's list [refs] and the default list [def_l] differ at
    some index (as arrays of pointers). *)
Definition differs_at_some_index (refs def_l : list Picture) : Prop :=
  exists i ref d, refs !! i = Some ref /\ def_l !! i = Some d /\
                  addr ref <> addr d.

(** The commands of [write_rplm] as a list. *)
Fixpoint rplm_commands (refs : list Picture) (pic_num : Z) : list RPLM :=
  match refs with
  | [] => []
  | href :: rest =>
      (if fn href <? pic_num
       then mkRPLM 0 (pic_num - fn href - 1)
       else mkRPLM 1 (fn href - pic_num - 1))
      :: rplm_commands rest (fn href)
  end.

(** *** The default lists as lists

    [add_candidate] seen on the initialised prefixes [(l0, l1)] of the two
    arrays; the refinement lemmas below relate the two. *)
Definition add_candidate_l (pic : Picture)
    (st : list Picture * list Picture) (hn : Picture)
  : outcome (list Picture * list Picture) :=
  let '(l0, l1) := st in
  av_assert0 (fn hn <? fn pic);;
  match type pic with
  | FF_HW_PICTURE_TYPE_P =>
      do l0' <- ins_back (test_p hn) hn l0;
      Ok (l0', l1)
  | FF_HW_PICTURE_TYPE_B =>
      do l0' <- ins_back (test_b0 pic hn) hn l0;
      do l1' <- ins_back (test_b1 pic hn) hn l1;
      Ok (l0', l1')
  | _ => Ok (l0, l1)
  end.

(** Orders of the default lists.  [fn_desc]: P pictures, list 0. *)
Definition fn_desc (a b : Picture) : Prop := fn a > fn b.

(** [before0 cur a b]: [a] may stand before [b] in list 0 of a B picture
    with POC [cur]: the past before the future, the past by decreasing
    and the future by increasing POC. *)
Definition before0 (cur : Z) (a b : Picture) : Prop :=
  (poc a < cur /\ cur < poc b) \/
  (poc a < cur /\ poc b < cur /\ poc b <= poc a) \/
  (cur < poc a /\ cur < poc b /\ poc a <= poc b).

(** [before1 cur a b]: the same for list 1: the future before the past,
    the future by increasing and the past by decreasing POC. *)
Definition before1 (cur : Z) (a b : Picture) : Prop :=
  (cur < poc a /\ poc b < cur) \/
  (cur < poc a /\ cur < poc b /\ poc a <= poc b) \/
  (poc a < cur /\ poc b < cur /\ poc b <= poc a).

(** Decreasing and increasing POC. *)
Definition poc_desc (a b : Picture) : Prop := poc b <= poc a.
Definition poc_asc (a b : Picture) : Prop := poc a <= poc b.

(** "Identical element for element" on the first [n] cells: equal as
    arrays of pointers. *)
Definition same_entries (n : nat) (rpl0 rpl1 : list Picture) : Prop :=
  addr <$> take n rpl0 = addr <$> take n rpl1.

(** The assertions of the command loops: no reference has the picture
    number the loop stands at. *)
Fixpoint consecutive_distinct (refs : list Picture) (pic_num : Z) : Prop :=
  match refs with
  | [] => True
  | href :: rest => fn href <> pic_num /\ consecutive_distinct rest (fn href)
  end.

(** What one list's modification signalling has to satisfy: [flag] and
    [rplm] are the flag and the command array written for the scheduler's
    list [refs], given the default list in the first [n] cells of [def_l],
    the DPB candidates [cands] and the command array [rplm_old] from
    before. *)
Definition list_modification_ok (pic : Picture)
    (cands refs def_l : list Picture) (n : nat)
    (flag : Z) (rplm_old rplm : list RPLM) : Prop :=
  (flag = 1 <-> differs_at_some_index refs def_l) /\
  (flag <> 1 -> flag = 0 /\ rplm = rplm_old) /\
  (flag = 1 ->
   (exists stale,
      take (S (length refs)) rplm
      = rplm_commands refs (fn pic) ++ [mkRPLM 3 stale]) /\
   exists out,
     apply_rplm cands (fn pic) O (take n def_l)
       (take (S (length refs)) rplm) = Some out /\
     take (length refs) out = refs).

End H264.

(** ** H.265: vaapi_encode_h265.c *)

Module H265.

Record VAAPIEncodeH265Picture : Type := mkH265Picture {
  pic_order_cnt : Z;
  last_idr_frame : Z;
  slice_nal_unit : Z;
  slice_type : Z;
  pic_type : Z
}.

Abbreviation Picture := (FFHWBaseEncodePicture VAAPIEncodeH265Picture).

Definition poc (p : Picture) : Z := pic_order_cnt (priv_data p).

(** *** The short-term reference picture set of
    vaapi_encode_h265_init_slice_params (lines 1009-1093)

    The local arrays [rps_poc] and [rps_used] are always indexed together;
    they are kept as one array of pairs [(rps_poc[i], rps_used[i])], filled
    from index 0 upwards. *)
Abbreviation rps_entry := (Z * Z)%type.

(** Lines 1022-1029: every reference of list 0, then of list 1, used. *)
Definition rps_used_entries (pic : Picture) : list rps_entry :=
  (fun strp => (poc strp, 1)) <$> (refs0 pic ++ refs1 pic).

(** Lines 1032-1047: the three [continue]s. *)
Definition rps_skipped (pic d : Picture) : bool :=
  ptr_eqb d pic
  || existsb (ptr_eqb d) (refs0 pic)
  || existsb (ptr_eqb d) (refs1 pic).

(** Lines 1031-1053: the other pictures of the DPB, unused. *)
Definition rps_unused_entries (pic : Picture) : list rps_entry :=
  (fun strp => (poc strp, 0))
    <$> List.filter (fun d => negb (rps_skipped pic d)) (dpb pic).

Definition rps_entries (pic : Picture) : list rps_entry :=
  rps_used_entries pic ++ rps_unused_entries pic.

(** Lines 1056-1062: the inner loop of the sort, at [j]. *)
Fixpoint rps_sort_inner (j : nat) (rps : list rps_entry)
  : outcome (list rps_entry) :=
  match j with
  | O => Ok rps
  | S j' =>
      do x <- aget rps j;
      do y <- aget rps j';
      if x.1 >? y.1 then Ok rps
      else
        av_assert0 (negb (x.1 =? y.1));;
        do rps <- FFSWAP rps j j';
        rps_sort_inner j' rps
  end.

(** Lines 1055-1063: [for (i = 1; i < rps_pics; i++)]. *)
Definition rps_sort (rps : list rps_entry) : outcome (list rps_entry) :=
  ofold (fun rps i => rps_sort_inner i rps) rps
    (seq 1 (length rps - 1)).

(** Lines 1073-1077, from [i] on with [k = rps_pics - i] entries to go;
    the result is the final [i]. *)
Fixpoint rps_partition (cur : Z) (rps : list rps_entry) (i k : nat)
  : outcome nat :=
  match k with
  | O => Ok i
  | S k' =>
      do x <- aget rps i;
      av_assert0 (negb (x.1 =? cur));;
      if x.1 >? cur then Ok i
      else rps_partition cur rps (S i) k'
  end.

(** Lines 1080-1085 on the entries [rps[i-1], ..., rps[0]] and lines
    1088-1093 on the entries [rps[i], ..., rps[rps_pics-1]], in the order
    the loops visit them; [poc] is the loop variable of that name. *)
Fixpoint s0_deltas (poc : Z) (visited : list rps_entry) : list rps_entry :=
  match visited with
  | [] => []
  | e :: rest => (poc - e.1 - 1, e.2) :: s0_deltas e.1 rest
  end.

Fixpoint s1_deltas (poc : Z) (visited : list rps_entry) : list rps_entry :=
  match visited with
  | [] => []
  | e :: rest => (e.1 - poc - 1, e.2) :: s1_deltas e.1 rest
  end.

(** [H265RawSTRefPicSet] after the [memset]: the first
    [num_negative_pics] / [num_positive_pics] cells of the four arrays
    (the cells behind them stay 0). *)
Record H265RawSTRefPicSet : Type := mkSTRefPicSet {
  num_negative_pics : Z;
  num_positive_pics : Z;
  delta_poc_s0_minus1 : list Z;
  used_by_curr_pic_s0_flag : list Z;
  delta_poc_s1_minus1 : list Z;
  used_by_curr_pic_s1_flag : list Z
}.

(** The block of lines 1009-1093 for a non-IDR picture [pic]. *)
Definition short_term_ref_pic_set (pic : Picture)
  : outcome H265RawSTRefPicSet :=
  let rps := rps_entries pic in
  do rps <- rps_sort rps;
  do i <- rps_partition (poc pic) rps O (length rps);
  let s0 := s0_deltas (poc pic) (rev (take i rps)) in
  let s1 := s1_deltas (poc pic) (drop i rps) in
  Ok (mkSTRefPicSet (Z.of_nat i) (Z.of_nat (length rps - i))
        (fst <$> s0) (snd <$> s0) (fst <$> s1) (snd <$> s1)).

(** [if (pic->type != FF_HW_PICTURE_TYPE_IDR) { ... }]: the set in the slice
    header [sh], which an IDR picture leaves as the previous call wrote
    it. *)
Definition init_slice_params_rps (pic : Picture) (sh_rps : H265RawSTRefPicSet)
  : outcome H265RawSTRefPicSet :=
  if PictureType_eqb (type pic) FF_HW_PICTURE_TYPE_IDR then Ok sh_rps
  else short_term_ref_pic_set pic.

(** *** Reading the set back

    The list-level insertion test of the sort, the order it produces, and
    the POCs a decoder derives from the two delta chains (H.265 7.4.8:
    each delta is taken from the POC derived just before it, the first
    from the current POC). *)
Definition rps_test (x hc : rps_entry) : outcome bool :=
  if x.1 >? hc.1 then Ok true
  else av_assert0 (negb (x.1 =? hc.1));; Ok false.

Definition rps_insert (l : list rps_entry) (x : rps_entry)
  : outcome (list rps_entry) := ins_back (rps_test x) x l.

Definition poc_lt (a b : rps_entry) : Prop := a.1 < b.1.

Fixpoint s0_pocs (poc : Z) (deltas : list Z) : list Z :=
  match deltas with
  | [] => []
  | d :: rest => (poc - (d + 1)) :: s0_pocs (poc - (d + 1)) rest
  end.

Fixpoint s1_pocs (poc : Z) (deltas : list Z) : list Z :=
  match deltas with
  | [] => []
  | d :: rest => (poc + (d + 1)) :: s1_pocs (poc + (d + 1)) rest
  end.

(** The encoding the design document words: every delta taken from the
    current POC. *)
Definition s0_from_current (cur : Z) (visited : list rps_entry) : list Z :=
  (fun e => cur - e.1 - 1) <$> visited.

Definition s1_from_current (cur : Z) (visited : list rps_entry) : list Z :=
  (fun e => e.1 - cur - 1) <$> visited.

End H265.

(** ** Sample sessions

    H.264: an IDR picture, two P pictures and a B picture between them,
    with the DPBs the scheduler keeps; the pictures carry the side records
    [vaapi_encode_h264_init_picture_params] gives them. *)

Module Sample.
Import H264.

Definition h264_pic (a : N) (ty : PictureType) (ref : bool)
    (display encode fnum pocnt : Z)
    (r0 r1 d : list Picture) (prv : option Picture) : Picture :=
  mkPicture a display encode ty ref 0 r0 r1 d prv
    (mkH264Picture fnum pocnt 0 0 0 0 0 0).

Definition idr : Picture :=
  h264_pic 1 FF_HW_PICTURE_TYPE_IDR true 0 0 0 0 [] [] [] None.
Definition idr_kept : Picture :=
  h264_pic 1 FF_HW_PICTURE_TYPE_IDR true 0 0 0 0 [] [] [idr] None.

(** coding order IDR, P1, P2: display order 0, 1, 2 *)
Definition p1 : Picture :=
  h264_pic 2 FF_HW_PICTURE_TYPE_P true 1 1 1 2 [idr] [] [idr]
    (Some idr_kept).
Definition p1_kept : Picture :=
  h264_pic 2 FF_HW_PICTURE_TYPE_P true 1 1 1 2 [idr] [] [idr; p1]
    (Some idr_kept).
Definition p2 : Picture :=
  h264_pic 3 FF_HW_PICTURE_TYPE_P true 2 2 2 4 [p1] [] [p1]
    (Some p1_kept).
(** the same picture, had the scheduler chosen the IDR picture instead *)
Definition p2_far : Picture :=
  h264_pic 3 FF_HW_PICTURE_TYPE_P true 2 2 2 4 [idr] [] [p1]
    (Some p1_kept).

(** coding order IDR, P (display 2), B (display 1) *)
Definition pb : Picture :=
  h264_pic 2 FF_HW_PICTURE_TYPE_P true 2 1 1 2 [idr] [] [idr]
    (Some idr_kept).
Definition pb_kept : Picture :=
  h264_pic 2 FF_HW_PICTURE_TYPE_P true 2 1 1 2 [idr] [] [idr; pb]
    (Some idr_kept).
Definition b : Picture :=
  h264_pic 3 FF_HW_PICTURE_TYPE_B false 1 2 2 1 [idr] [pb] [idr; pb]
    (Some pb_kept).
(** a B picture handed a DPB that lies wholly in its past *)
Definition b_late : Picture :=
  h264_pic 3 FF_HW_PICTURE_TYPE_B false 3 2 2 3 [idr] [pb] [idr; pb]
    (Some pb_kept).

(** what the stack holds in [def_l0] / [def_l1] on entry *)
Definition stale : Picture :=
  h264_pic 99 FF_HW_PICTURE_TYPE_I false 0 0 0 0 [] [] [] None.
Definition stack_array : list Picture := replicate 16 stale.

Definition priv0 : VAAPIEncodeH264Context :=
  mkH264Context 1 1 true (SEI_IDENTIFIER + SEI_TIMING + SEI_RECOVERY_POINT)
    26 26 26 2 4 0 4 0 0 (mkFragment [] 0 0 []) 0
    (mkPicTiming 0 0) (mkRecoveryPoint 0 0 0) 0 true SEI_TIMING.

Definition no_captions (_ : Picture) : Z * option Z := (0, None).

(** the pictures as the scheduler hands them over *)
Definition scheduled (ty : PictureType) (ref : bool) (display encode : Z)
  : Picture :=
  mkPicture 0 display encode ty ref 0 [] [] [] None
    (mkH264Picture 0 0 0 0 0 0 0 0).

Definition sequence : list Picture :=
  [ scheduled FF_HW_PICTURE_TYPE_IDR true 0 0;
    scheduled FF_HW_PICTURE_TYPE_P true 2 1;
    scheduled FF_HW_PICTURE_TYPE_B false 1 2;
    scheduled FF_HW_PICTURE_TYPE_P true 3 3 ].

Definition encoded : list Picture :=
  match encode_pictures no_captions priv0 None sequence with
  | Ok out => out
  | _ => []
  end.

Definition encoded_last : Picture :=
  match encoded !! 3%nat with
  | Some p => p
  | None => stale
  end.

Definition mmco0 : list MMCO := replicate 4 (mkMMCO 7 7).
Definition rplm0 : list RPLM := replicate 4 (mkRPLM 7 7).

(** a serializer that spends one byte per unit, and an allocator that
    never fails *)
Definition one_byte_per_unit (us : list au_unit) : Z * (list Byte.byte * Z) :=
  (0, (replicate (length us) Byte.x00, 0)).
Definition never_fails (_ : CodedBitstreamFragment) (_ : au_unit) : Z := 0.

(** H.265: a picture with POC 4 that uses the picture with POC 2 and
    keeps the one with POC 0 in its DPB. *)
Definition h265_pic (a : N) (ty : PictureType) (pocnt : Z)
    (r0 r1 d : list H265.Picture) : H265.Picture :=
  mkPicture a pocnt pocnt ty true 0 r0 r1 d None
    (H265.mkH265Picture pocnt 0 0 0 0).

Definition h0 : H265.Picture := h265_pic 1 FF_HW_PICTURE_TYPE_IDR 0 [] [] [].
Definition h2 : H265.Picture := h265_pic 2 FF_HW_PICTURE_TYPE_P 2 [h0] [] [h0].
Definition h4_bare : H265.Picture :=
  h265_pic 3 FF_HW_PICTURE_TYPE_P 4 [h2] [] [h0; h2].
Definition h4 : H265.Picture :=
  h265_pic 3 FF_HW_PICTURE_TYPE_P 4 [h2] [] [h0; h2; h4_bare].

Definition h4_rps : H265.H265RawSTRefPicSet :=
  H265.mkSTRefPicSet 2 0 [1; 1] [1; 0] [] [].
End Sample.


(** ** H.264: session set-up

    [vaapi_encode_h264_init], [vaapi_encode_h264_configure] and
    [vaapi_encode_h264_init_sequence_params] (lines 296-620 and
    1086-1267), as far as they decide on errors and derive the settings the
    per-picture functions above read. *)

Module H264Setup.
Import H264.

Definition EINVAL : Z := 22.
Definition ENOMEM : Z := 12.
(** [FFERRTAG('P','A','W','E')] *)
Definition AVERROR_PATCHWELCOME : Z :=
  - (80 + 65 * 2^8 + 87 * 2^16 + 69 * 2^24).

(** The profile and level constants (libavcodec/defs.h). *)
Definition AV_PROFILE_UNKNOWN : Z := -99.
Definition AV_LEVEL_UNKNOWN : Z := -99.
Definition FF_COMPRESSION_DEFAULT : Z := -1.
Definition AV_PROFILE_H264_CONSTRAINED : Z := Z.shiftl 1 9.
Definition AV_PROFILE_H264_INTRA : Z := Z.shiftl 1 11.
Definition AV_PROFILE_H264_BASELINE : Z := 66.
Definition AV_PROFILE_H264_CONSTRAINED_BASELINE : Z :=
  Z.lor 66 AV_PROFILE_H264_CONSTRAINED.
Definition AV_PROFILE_H264_MAIN : Z := 77.
Definition AV_PROFILE_H264_EXTENDED : Z := 88.
Definition AV_PROFILE_H264_HIGH : Z := 100.
Definition AV_PROFILE_H264_HIGH_10 : Z := 110.
Definition AV_PROFILE_H264_HIGH_10_INTRA : Z :=
  Z.lor 110 AV_PROFILE_H264_INTRA.
Definition AV_PROFILE_H264_HIGH_422 : Z := 122.
Definition AV_PROFILE_H264_HIGH_422_INTRA : Z :=
  Z.lor 122 AV_PROFILE_H264_INTRA.
Definition AV_PROFILE_H264_HIGH_444 : Z := 144.
Definition AV_PROFILE_H264_HIGH_444_PREDICTIVE : Z := 244.
Definition AV_PROFILE_H264_HIGH_444_INTRA : Z :=
  Z.lor 244 AV_PROFILE_H264_INTRA.
Definition AV_PROFILE_H264_CAVLC_444 : Z := 44.

(** Modelled from the spec: the resolution is rounded up to the
    coding-block grid with the macro [FFALIGN(x, a)] of libavutil/macros.h
    (not among the sources at hand), [(((x)+(a)-1)&~((a)-1))]. *)
Definition FFALIGN (x a : Z) : Z := Z.land (x + a - 1) (Z.lnot (a - 1)).

(** Modelled from the spec: the quantizer is kept within its bounds with
    [av_clip(a, amin, amax)] of libavutil/common.h (not among the sources at
    hand). *)
Definition av_clip (a amin amax : Z) : Z :=
  if a <? amin then amin else if a >? amax then amax else a.

(** *** vaapi_encode_h264_init (lines 1206-1267)

    The fields of [avctx], [base_ctx] and [ctx] the function assigns
    ([desired_packed_headers], a constant, apart). *)
Record InitState : Type := mkInitState {
  avctx_profile : Z;
  avctx_level : Z;
  avctx_compression_level : Z;
  surface_width : Z;
  surface_height : Z;
  slice_block_width : Z;
  slice_block_height : Z;
  explicit_qp : Z
}.

(** The profiles the [switch] of lines 1222-1245 returns
    [AVERROR_PATCHWELCOME] for. *)
Definition rejected_profiles : list Z :=
  [ AV_PROFILE_H264_EXTENDED; AV_PROFILE_H264_HIGH_10_INTRA;
    AV_PROFILE_H264_HIGH_422; AV_PROFILE_H264_HIGH_422_INTRA;
    AV_PROFILE_H264_HIGH_444; AV_PROFILE_H264_HIGH_444_PREDICTIVE;
    AV_PROFILE_H264_HIGH_444_INTRA; AV_PROFILE_H264_CAVLC_444 ].

(** Lines 1214-1264: [inl] is an early [return] with its error code, [inr]
    the state with which line 1266 calls [ff_vaapi_encode_init].  [width]
    and [height] are [avctx->width] and [avctx->height]; [priv_profile],
    [priv_level], [priv_quality] and [priv_qp] the options of the private
    context. *)
Definition init_checks (width height : Z)
    (priv_profile priv_level priv_quality priv_qp : Z) (st : InitState)
  : Z * InitState + InitState :=
  let profile :=
    if avctx_profile st =? AV_PROFILE_UNKNOWN then priv_profile
    else avctx_profile st in
  let level :=
    if avctx_level st =? AV_LEVEL_UNKNOWN then priv_level
    else avctx_level st in
  let compression_level :=
    if avctx_compression_level st =? FF_COMPRESSION_DEFAULT
    then priv_quality else avctx_compression_level st in
  let st :=
    mkInitState profile level compression_level (surface_width st)
      (surface_height st) (slice_block_width st) (slice_block_height st)
      (explicit_qp st) in
  if existsb (Z.eqb profile) rejected_profiles
  then inl (AVERROR_PATCHWELCOME, st)
  else
    let profile :=
      if profile =? AV_PROFILE_H264_BASELINE
      then AV_PROFILE_H264_CONSTRAINED_BASELINE else profile in
    let st :=
      mkInitState profile level compression_level (surface_width st)
        (surface_height st) (slice_block_width st) (slice_block_height st)
        (explicit_qp st) in
    if negb (level =? AV_LEVEL_UNKNOWN)
       && negb (Z.land level (Z.lnot 255) =? 0)
    then inl (AVERROR EINVAL, st)
    else
      inr (mkInitState profile level compression_level
             (FFALIGN width 16) (FFALIGN height 16) 16 16
             (if priv_qp >? 0 then priv_qp else explicit_qp st)).

(** The function: [ff_vaapi_encode_init] (vaapi_encode.c) is the generic
    initialisation the function ends in. *)
Definition vaapi_encode_h264_init (ff_vaapi_encode_init : InitState -> Z)
    (width height : Z)
    (priv_profile priv_level priv_quality priv_qp : Z) (st : InitState)
  : Z * InitState :=
  match init_checks width height priv_profile priv_level priv_quality
          priv_qp st with
  | inl r => r
  | inr st => (ff_vaapi_encode_init st, st)
  end.

(** *** vaapi_encode_h264_configure (lines 1086-1161)

    What the function reads besides the private context.  The two quantizer
    expressions of lines 1103 and 1109 are computed in floating point:
    [i_quant] is [None] when [avctx->i_quant_factor > 0.0] does not hold,
    and otherwise the function taking [fixed_qp_p] to the value of
    [(i_quant_factor * fixed_qp_p + i_quant_offset) + 0.5] as converted to
    the [int] parameter of [av_clip]; [b_quant] likewise. *)
Record ConfigureParams : Type := mkConfigureParams {
  ff_cbs_init : Z;
  cfg_width : Z;
  cfg_height : Z;
  va_rc_mode_is_CQP : bool;
  rc_quality : Z;
  i_quant : option (Z -> Z);
  b_quant : option (Z -> Z);
  rc_mode_hrd : bool;
  snprintf_len : Z;
  av_malloc_fails : bool;
  profile_depth : Z
}.

(** The derived settings that are not part of
    [H264.VAAPIEncodeH264Context]. *)
Record Derived : Type := mkDerived {
  mb_width : Z;
  mb_height : Z;
  roi_quant_range : Z
}.

Definition set_fixed_qp (priv : VAAPIEncodeH264Context) (idr p b : Z)
  : VAAPIEncodeH264Context :=
  mkH264Context (max_b_depth priv) (b_per_p priv) (aud priv) (sei priv)
    idr p b
    (dpb_frames priv) (log2_max_frame_num_minus4 priv)
    (pic_order_cnt_type priv) (log2_max_pic_order_cnt_lsb_minus4 priv)
    (pic_parameter_set_id priv) (pic_init_qp_minus26 priv)
    (current_access_unit priv) (raw_aud_primary_pic_type priv)
    (sei_pic_timing priv) (sei_recovery_point priv)
    (sei_a53cc_data_length priv) (aud_needed priv) (sei_needed priv).

(** Lines 1099-1123. *)
Definition configure_fixed_qp (c : ConfigureParams)
    (priv : VAAPIEncodeH264Context) : VAAPIEncodeH264Context :=
  if va_rc_mode_is_CQP c then
    let qp_p := av_clip (rc_quality c) 1 51 in
    let qp_idr :=
      match i_quant c with
      | Some f => av_clip (f qp_p) 1 51
      | None => qp_p
      end in
    let qp_b :=
      match b_quant c with
      | Some f => av_clip (f qp_p) 1 51
      | None => qp_p
      end in
    set_fixed_qp priv qp_idr qp_p qp_b
  else set_fixed_qp priv 26 26 26.

Definition vaapi_encode_h264_configure (c : ConfigureParams)
    (priv : VAAPIEncodeH264Context) (d : Derived)
  : Z * VAAPIEncodeH264Context * Derived :=
  if ff_cbs_init c <? 0 then (ff_cbs_init c, priv, d)
  else
    let d :=
      mkDerived (FFALIGN (cfg_width c) 16 ÷ 16) (FFALIGN (cfg_height c) 16 ÷ 16)
        (roi_quant_range d) in
    let priv := configure_fixed_qp c priv in
    let priv := vaapi_encode_h264_configure_sei (rc_mode_hrd c) priv in
    if negb (Z.land (sei priv) SEI_IDENTIFIER =? 0)
       && (snprintf_len c >=? 0) && av_malloc_fails c
    then (AVERROR ENOMEM, priv, d)
    else
      (0, priv,
       mkDerived (mb_width d) (mb_height d) (51 + 6 * (profile_depth c - 8))).

(** *** vaapi_encode_h264_init_sequence_params (lines 296-620) *)

(** [AVPixFmtDescriptor], as far as it is read. *)
Record AVPixFmtDescriptor : Type := mkPixFmtDescriptor {
  nb_components : Z;
  log2_chroma_w : Z;
  log2_chroma_h : Z;
  comp0_depth : Z
}.

(** What the function reads besides the private context and the derived
    settings. *)
Record SequenceParams : Type := mkSequenceParams {
  desc : AVPixFmtDescriptor;
  seq_profile : Z;
  seq_level : Z;
  gop_size : Z;
  seq_width : Z;
  seq_height : Z;
  bit_rate : Z;
  framerate_num : Z;
  framerate_den : Z;
  time_base_num : Z;
  time_base_den : Z;
  coder : Z
}.

(** The fields of [raw_sps] and [raw_pps] that are not part of
    [H264.VAAPIEncodeH264Context], each with the value the function assigns
    to it (the fields are of unsigned 8, 16 and 32 bit types); the colour,
    aspect-ratio and HRD fields of the VUI and the two hardware parameter
    buffers are left out. *)
Record RawSPS : Type := mkRawSPS {
  profile_idc : Z;
  constraint_set1_flag : Z;
  constraint_set3_flag : Z;
  constraint_set4_flag : Z;
  constraint_set5_flag : Z;
  level_idc : Z;
  chroma_format_idc : Z;
  bit_depth_luma_minus8 : Z;
  bit_depth_chroma_minus8 : Z;
  max_num_ref_frames : Z;
  pic_width_in_mbs_minus1 : Z;
  pic_height_in_map_units_minus1 : Z;
  frame_cropping_flag : Z;
  frame_crop_left_offset : Z;
  frame_crop_right_offset : Z;
  frame_crop_top_offset : Z;
  frame_crop_bottom_offset : Z;
  num_units_in_tick : Z;
  time_scale : Z;
  fixed_frame_rate_flag : Z;
  max_num_reorder_frames : Z;
  max_dec_frame_buffering : Z;
  entropy_coding_mode_flag : Z;
  more_rbsp_data : Z;
  transform_8x8_mode_flag : Z
}.

Definition set_sequence (priv : VAAPIEncodeH264Context)
    (dpb_frames log2_max_frame_num_minus4 pic_order_cnt_type
     log2_max_pic_order_cnt_lsb_minus4 pic_parameter_set_id
     pic_init_qp_minus26 : Z) : VAAPIEncodeH264Context :=
  mkH264Context (max_b_depth priv) (b_per_p priv) (aud priv) (sei priv)
    (fixed_qp_idr priv) (fixed_qp_p priv) (fixed_qp_b priv)
    dpb_frames log2_max_frame_num_minus4 pic_order_cnt_type
    log2_max_pic_order_cnt_lsb_minus4 pic_parameter_set_id
    pic_init_qp_minus26
    (current_access_unit priv) (raw_aud_primary_pic_type priv)
    (sei_pic_timing priv) (sei_recovery_point priv)
    (sei_a53cc_data_length priv) (aud_needed priv) (sei_needed priv).

Definition zero_sps : RawSPS :=
  mkRawSPS 0 0 0 0 0 0 0 0 0 0 0 0 0 0 0 0 0 0 0 0 0 0 0 0 0.

Section InitSequenceParams.
(** [ff_h264_guess_level(profile_idc, bit_rate, framerate, width, height,
    dpb_frames)] (h264_levels.c): [None] for a null pointer, otherwise the
    [level_idc] and the [constraint_set3_flag] of the level found. *)
Variable ff_h264_guess_level : Z -> Z -> Z -> Z -> Z -> Z -> option (Z * Z).

(** The two [memset]s of lines 308-309 come first, so the function does not
    depend on what [raw_sps] and [raw_pps] held, and on the error return
    they are left zeroed. *)
Definition vaapi_encode_h264_init_sequence_params (s : SequenceParams)
    (d : Derived) (priv : VAAPIEncodeH264Context)
  : Z * VAAPIEncodeH264Context * RawSPS :=
  if (nb_components (desc s) =? 1)
     || negb (log2_chroma_w (desc s) =? 1)
     || negb (log2_chroma_h (desc s) =? 1)
  then (AVERROR EINVAL, set_sequence priv (dpb_frames priv) 0 0 0 0 0,
        zero_sps)
  else
    let bit_depth := comp0_depth (desc s) in
    let profile := seq_profile s in
    let profile_idc := Z.land profile 255 in
    let constraint_set1_flag :=
      if (profile =? AV_PROFILE_H264_CONSTRAINED_BASELINE)
         || (profile =? AV_PROFILE_H264_MAIN) then 1 else 0 in
    let constraint_set3_flag :=
      if (profile =? AV_PROFILE_H264_HIGH)
         || (profile =? AV_PROFILE_H264_HIGH_10)
      then Z.b2z (gop_size s =? 1) else 0 in
    let main_or_high :=
      (profile =? AV_PROFILE_H264_MAIN) || (profile =? AV_PROFILE_H264_HIGH)
      || (profile =? AV_PROFILE_H264_HIGH_10) in
    let constraint_set4_flag := if main_or_high then 1 else 0 in
    let constraint_set5_flag :=
      if main_or_high then Z.b2z (b_per_p priv =? 0) else 0 in
    let dpb_frames := if gop_size s =? 1 then 0 else 1 + max_b_depth priv in
    let '(constraint_set3_flag, level_idc) :=
      if negb (seq_level s =? AV_LEVEL_UNKNOWN)
      then (constraint_set3_flag, seq_level s)
      else
        let framerate :=
          if (framerate_num s >? 0) && (framerate_den s >? 0)
          then framerate_num s ÷ framerate_den s else 0 in
        match ff_h264_guess_level profile_idc (bit_rate s) framerate
                (mb_width d * 16) (mb_height d * 16) dpb_frames with
        | Some (level_idc, level_constraint_set3_flag) =>
            (if negb (level_constraint_set3_flag =? 0) then 1
             else constraint_set3_flag, level_idc)
        | None => (constraint_set3_flag, 62)
        end in
    let pic_order_cnt_type := if negb (max_b_depth priv =? 0) then 0 else 2 in
    let log2_max_pic_order_cnt_lsb_minus4 :=
      if pic_order_cnt_type =? 0 then 4 else 0 in
    let cropping :=
      negb (seq_width s =? 16 * mb_width d)
      || negb (seq_height s =? 16 * mb_height d) in
    let fixed_rate := (framerate_num s >? 0) && (framerate_den s >? 0) in
    let entropy_coding_mode_flag :=
      negb ((profile_idc =? AV_PROFILE_H264_BASELINE)
            || (profile_idc =? AV_PROFILE_H264_EXTENDED)
            || (profile_idc =? AV_PROFILE_H264_CAVLC_444)) in
    let entropy_coding_mode_flag :=
      if (coder s =? 0) && entropy_coding_mode_flag then false
      else entropy_coding_mode_flag in
    let low_profile :=
      (profile_idc =? AV_PROFILE_H264_BASELINE)
      || (profile_idc =? AV_PROFILE_H264_EXTENDED)
      || (profile_idc =? AV_PROFILE_H264_MAIN) in
    (0,
     set_sequence priv dpb_frames 4 pic_order_cnt_type
       log2_max_pic_order_cnt_lsb_minus4 0 (fixed_qp_idr priv - 26),
     mkRawSPS profile_idc constraint_set1_flag constraint_set3_flag
       constraint_set4_flag constraint_set5_flag level_idc
       1 (bit_depth - 8) (bit_depth - 8)
       dpb_frames
       (mb_width d - 1) (mb_height d - 1)
       (Z.b2z cropping)
       0 (if cropping then (16 * mb_width d - seq_width s) ÷ 2 else 0)
       0 (if cropping then (16 * mb_height d - seq_height s) ÷ 2 else 0)
       (if fixed_rate then framerate_den s else time_base_num s)
       (if fixed_rate then 2 * framerate_num s else 2 * time_base_den s)
       (Z.b2z fixed_rate)
       (max_b_depth priv) (max_b_depth priv + 1)
       (Z.b2z entropy_coding_mode_flag)
       (if low_profile then 0 else 1)
       (if low_profile then 0 else 1)).
End InitSequenceParams.

End H264Setup.

(** ** H.264: the reference entries of the hardware parameter buffers

    [vpic->ReferenceFrames] of [vaapi_encode_h264_init_picture_params]
    (lines 733-756) and [vslice->RefPicList0/1] of
    [vaapi_encode_h264_init_slice_params] (lines 1062-1079). *)

Module H264Hardware.
Import H264.

(** [VAPictureH264] and its flags (va.h of libva). *)
Record VAPictureH264 : Type := mkVAPictureH264 {
  picture_id : Z;
  frame_idx : Z;
  flags : Z;
  TopFieldOrderCnt : Z;
  BottomFieldOrderCnt : Z
}.

Definition VA_INVALID_ID : Z := 0xffffffff.
Definition VA_PICTURE_H264_INVALID : Z := 0x00000001.
Definition VA_PICTURE_H264_SHORT_TERM_REFERENCE : Z := 0x00000008.

Definition invalid_picture : VAPictureH264 :=
  mkVAPictureH264 VA_INVALID_ID 0 VA_PICTURE_H264_INVALID 0 0.

Section ReferenceFrames.
(** [recon_surface ref] is [((VAAPIEncodePicture * )ref)->recon_surface]. *)
Variable recon_surface : Picture -> Z.

(** Lines 741-747: the entry written for reference [ref]. *)
Definition reference_frame (ref : Picture) : VAPictureH264 :=
  mkVAPictureH264 (recon_surface ref) (fn ref)
    VA_PICTURE_H264_SHORT_TERM_REFERENCE (poc ref) (poc ref).

(** Lines 734-748 for one list, from [j] on. *)
Fixpoint fill_reference_frames (pic : Picture) (refs : list Picture)
    (j : nat) (ReferenceFrames : list VAPictureH264)
  : outcome (nat * list VAPictureH264) :=
  match refs with
  | [] => Ok (j, ReferenceFrames)
  | ref :: rest =>
      av_assert0 (encode_order ref <? encode_order pic);;
      do ReferenceFrames <- aset ReferenceFrames j (reference_frame ref);
      fill_reference_frames pic rest (S j) ReferenceFrames
  end.

(** Lines 733-756. *)
Definition init_reference_frames (pic : Picture)
    (ReferenceFrames : list VAPictureH264) : outcome (list VAPictureH264) :=
  do '(j, ReferenceFrames) <-
    fill_reference_frames pic (refs0 pic) O ReferenceFrames;
  do '(j, ReferenceFrames) <-
    fill_reference_frames pic (refs1 pic) j ReferenceFrames;
  Ok (take j ReferenceFrames
      ++ replicate (length ReferenceFrames - j) invalid_picture).
End ReferenceFrames.

(** The loop of lines 1062-1067 assigns two of the five fields of an
    entry. *)
Definition invalidate (e : VAPictureH264) : VAPictureH264 :=
  mkVAPictureH264 VA_INVALID_ID (frame_idx e) VA_PICTURE_H264_INVALID
    (TopFieldOrderCnt e) (BottomFieldOrderCnt e).

(** Lines 1062-1079, from the two arrays as the previous slice left
    them. *)
Definition slice_ref_pic_lists (pic : Picture)
    (ReferenceFrames RefPicList0 RefPicList1 : list VAPictureH264)
  : outcome (list VAPictureH264 * list VAPictureH264) :=
  let l0 := invalidate <$> RefPicList0 in
  let l1 := invalidate <$> RefPicList1 in
  do l0 <-
    match refs0 pic with
    | [] => Ok l0
    | _ =>
        av_assert0 (PictureType_eqb (type pic) FF_HW_PICTURE_TYPE_P
                    || PictureType_eqb (type pic) FF_HW_PICTURE_TYPE_B);;
        do r <- aget ReferenceFrames 0;
        aset l0 0 r
    end;
  do l1 <-
    match refs1 pic with
    | [] => Ok l1
    | _ =>
        av_assert0 (PictureType_eqb (type pic) FF_HW_PICTURE_TYPE_B);;
        do r <- aget ReferenceFrames 1;
        aset l1 0 r
    end;
  Ok (l0, l1).

End H264Hardware.

(** ** H.264: the IDR period of a picture

    For statements about a sequence of encoded pictures: the IDR pictures
    among the pictures [l] encoded so far, and the latest of them. *)

Module H264Sequence.
Import H264.

Definition idr_pictures (l : list Picture) : list Picture :=
  filter (fun p => type p = FF_HW_PICTURE_TYPE_IDR) l.

Definition last_idr (l : list Picture) : option Picture :=
  last (idr_pictures l).

(** What the side record of picture [p] says about its place in the
    pictures [seen] encoded up to and including it. *)
Definition in_idr_period (priv : VAAPIEncodeH264Context)
    (seen : list Picture) (p : Picture) : Prop :=
  exists q,
    last_idr seen = Some q /\
    last_idr_frame (priv_data p) = display_order q /\
    idr_pic_id (priv_data p)
    = (Z.of_nat (length (idr_pictures seen)) - 1) mod 2^16 /\
    pic_order_cnt (priv_data p)
    = (display_order p - display_order q)
      * (if pic_order_cnt_type priv =? 2 then 2 else 1) /\
    cpb_delay (priv_data p) = encode_order p - encode_order q /\
    dpb_delay (priv_data p)
    = display_order p - encode_order p + max_b_depth priv /\
    display_order q = encode_order q.

End H264Sequence.

(** ** H.265: the access-unit writers, the picture parameters and the slice
    reference lists of vaapi_encode_h265.c *)

Module H265Session.
Import H265.

(** Lines 42-46. *)
Definition SEI_MASTERING_DISPLAY : Z := 8.
Definition SEI_CONTENT_LIGHT_LEVEL : Z := 16.
Definition SEI_A53_CC : Z := 32.

(** NAL unit and slice types (hevc.h). *)
Definition HEVC_NAL_TRAIL_N : Z := 0.
Definition HEVC_NAL_TRAIL_R : Z := 1.
Definition HEVC_NAL_RASL_N : Z := 8.
Definition HEVC_NAL_RASL_R : Z := 9.
Definition HEVC_NAL_IDR_W_RADL : Z := 19.
Definition HEVC_NAL_CRA_NUT : Z := 21.
Definition HEVC_SLICE_B : Z := 0.
Definition HEVC_SLICE_P : Z := 1.
Definition HEVC_SLICE_I : Z := 2.

(** *** The pending access unit

    What the writers hand to [vaapi_encode_h265_add_nal] are pointers into
    the private context: the five raw structures and, at line 213, the
    address of the [aud] option. *)
Inductive sei_payload_type : Type :=
| SEI_TYPE_MASTERING_DISPLAY_COLOUR_VOLUME
| SEI_TYPE_CONTENT_LIGHT_LEVEL_INFO
| SEI_TYPE_USER_DATA_REGISTERED_ITU_T_T35.

Inductive nal_unit : Type :=
| raw_aud
| raw_vps
| raw_sps
| raw_pps
| raw_slice
| aud_option
| SEIMessage (payload_type : sei_payload_type).

Record CodedBitstreamFragment : Type := mkFragment {
  data : list Byte.byte;
  data_size : Z;
  data_bit_padding : Z;
  units : list nal_unit
}.

(** Modelled from the spec: [ff_cbs_fragment_reset] returns the pending
    unit list, and the serialized data with it, to empty. *)
Definition ff_cbs_fragment_reset (au : CodedBitstreamFragment)
  : CodedBitstreamFragment :=
  mkFragment [] 0 0 [].

Section CBS.
(** As for H.264, the allocation behaviour of the insertion calls and the
    serializer are left open. *)
Variable cbs_insert_err : CodedBitstreamFragment -> nal_unit -> Z.
Variable cbs_serialize : list nal_unit -> Z * (list Byte.byte * Z).

(** Modelled from the spec: [ff_cbs_insert_unit_content(au, -1, ...)]
    appends the unit at the end of the pending list, or fails and leaves
    the list alone. *)
Definition ff_cbs_insert_unit_content (au : CodedBitstreamFragment)
    (u : nal_unit) : Z * CodedBitstreamFragment :=
  let err := cbs_insert_err au u in
  if err <? 0 then (err, au)
  else (0, mkFragment (data au) (data_size au) (data_bit_padding au)
             (units au ++ [u])).

(** Modelled from the spec: [ff_cbs_sei_add_message(cbc, au, 1, type, ...)]
    appends the message to the pending access unit, or fails. *)
Definition ff_cbs_sei_add_message (au : CodedBitstreamFragment)
    (t : sei_payload_type) : Z * CodedBitstreamFragment :=
  ff_cbs_insert_unit_content au (SEIMessage t).

(** Modelled from the spec: [ff_cbs_write_fragment_data] serializes the
    pending units into [au->data], or fails. *)
Definition ff_cbs_write_fragment_data (au : CodedBitstreamFragment)
  : Z * CodedBitstreamFragment :=
  let '(err, (bytes, padding)) := cbs_serialize (units au) in
  if err <? 0 then (err, au)
  else (0, mkFragment bytes (Z.of_nat (length bytes)) padding (units au)).
End CBS.

(** *** The encoder context

    [VAAPIEncodeH265Context] with the fields of the base context and of the
    raw SPS/PPS that the functions below read. *)
Record SEIRawContentLightLevelInfo : Type := mkContentLightLevel {
  max_content_light_level : Z;
  max_pic_average_light_level : Z
}.

Record VAAPIEncodeH265Context : Type := mkH265Context {
  (* base context *)
  max_b_depth : Z;
  p_to_gpb : bool;
  (* user options *)
  aud : bool;
  sei : Z;
  (* derived settings *)
  fixed_qp_idr : Z;
  fixed_qp_p : Z;
  fixed_qp_b : Z;
  (* raw_sps, raw_pps *)
  log2_max_pic_order_cnt_lsb_minus4 : Z;
  pps_pic_parameter_set_id : Z;
  init_qp_minus26 : Z;
  (* writer structures *)
  current_access_unit : CodedBitstreamFragment;
  raw_aud_pic_type : Z;
  sei_content_light_level : SEIRawContentLightLevelInfo;
  sei_a53cc_data_length : Z;
  aud_needed : bool;
  sei_needed : Z
}.

Definition set_au (priv : VAAPIEncodeH265Context)
    (au : CodedBitstreamFragment) : VAAPIEncodeH265Context :=
  mkH265Context (max_b_depth priv) (p_to_gpb priv) (aud priv) (sei priv)
    (fixed_qp_idr priv) (fixed_qp_p priv) (fixed_qp_b priv)
    (log2_max_pic_order_cnt_lsb_minus4 priv) (pps_pic_parameter_set_id priv)
    (init_qp_minus26 priv)
    au (raw_aud_pic_type priv) (sei_content_light_level priv)
    (sei_a53cc_data_length priv) (aud_needed priv) (sei_needed priv).

Definition set_aud_needed (priv : VAAPIEncodeH265Context) (b : bool)
  : VAAPIEncodeH265Context :=
  mkH265Context (max_b_depth priv) (p_to_gpb priv) (aud priv) (sei priv)
    (fixed_qp_idr priv) (fixed_qp_p priv) (fixed_qp_b priv)
    (log2_max_pic_order_cnt_lsb_minus4 priv) (pps_pic_parameter_set_id priv)
    (init_qp_minus26 priv)
    (current_access_unit priv) (raw_aud_pic_type priv)
    (sei_content_light_level priv) (sei_a53cc_data_length priv)
    b (sei_needed priv).

Definition set_sei_needed (priv : VAAPIEncodeH265Context) (m : Z)
  : VAAPIEncodeH265Context :=
  mkH265Context (max_b_depth priv) (p_to_gpb priv) (aud priv) (sei priv)
    (fixed_qp_idr priv) (fixed_qp_p priv) (fixed_qp_b priv)
    (log2_max_pic_order_cnt_lsb_minus4 priv) (pps_pic_parameter_set_id priv)
    (init_qp_minus26 priv)
    (current_access_unit priv) (raw_aud_pic_type priv)
    (sei_content_light_level priv) (sei_a53cc_data_length priv)
    (aud_needed priv) m.

(** *** The access-unit writers (lines 100-259)

    The caller's buffer is the pair of [buf] and [data_len] as for H.264. *)
Section Writers.
Variable cbs_insert_err : CodedBitstreamFragment -> nal_unit -> Z.
Variable cbs_serialize : list nal_unit -> Z * (list Byte.byte * Z).

Definition au_bit_length (au : CodedBitstreamFragment) : Z :=
  (8 * data_size au - data_bit_padding au) mod size_t_modulus.

Definition vaapi_encode_h265_write_access_unit
    (buf : list Byte.byte) (data_len : Z) (au : CodedBitstreamFragment)
  : Z * CodedBitstreamFragment * list Byte.byte * Z :=
  let '(err, au) := ff_cbs_write_fragment_data cbs_serialize au in
  if err <? 0 then (err, au, buf, data_len)
  else if data_len <? au_bit_length au
  then (AVERROR ENOSPC, au, buf, data_len)
  else (0, au, memcpy buf (data au) (Z.to_nat (data_size au)),
        au_bit_length au).

Definition vaapi_encode_h265_add_nal (au : CodedBitstreamFragment)
    (nal_unit : nal_unit) : Z * CodedBitstreamFragment :=
  let '(err, au) := ff_cbs_insert_unit_content cbs_insert_err au nal_unit in
  if err <? 0 then (err, au) else (0, au).

(** [if (priv->aud_needed) { add [delimiter]; priv->aud_needed = 0; }];
    [inl] is the jump to [fail]. *)
Definition add_aud_if_needed (delimiter : nal_unit)
    (priv : VAAPIEncodeH265Context)
  : (Z * VAAPIEncodeH265Context) + VAAPIEncodeH265Context :=
  if aud_needed priv then
    let '(err, au) :=
      vaapi_encode_h265_add_nal (current_access_unit priv) delimiter in
    if err <? 0 then inl (err, set_au priv au)
    else inr (set_aud_needed (set_au priv au) false)
  else inr priv.

(** [ff_cbs_fragment_reset(au); return err;] *)
Definition reset_and_return (err : Z) (priv : VAAPIEncodeH265Context)
    (buf : list Byte.byte) (data_len : Z)
  : Z * VAAPIEncodeH265Context * list Byte.byte * Z :=
  (err, set_au priv (ff_cbs_fragment_reset (current_access_unit priv)),
   buf, data_len).

(** The units are added one after the other; the first failure stops. *)
Fixpoint add_nals (au : CodedBitstreamFragment) (us : list nal_unit)
  : Z * CodedBitstreamFragment :=
  match us with
  | [] => (0, au)
  | u :: us' =>
      let '(err, au) := vaapi_encode_h265_add_nal au u in
      if err <? 0 then (err, au) else add_nals au us'
  end.

Definition vaapi_encode_h265_write_sequence_header
    (priv : VAAPIEncodeH265Context) (buf : list Byte.byte) (data_len : Z)
  : Z * VAAPIEncodeH265Context * list Byte.byte * Z :=
  match add_aud_if_needed raw_aud priv with
  | inl (err, priv) => reset_and_return err priv buf data_len
  | inr priv =>
      let '(err, au) :=
        add_nals (current_access_unit priv) [raw_vps; raw_sps; raw_pps] in
      let priv := set_au priv au in
      if err <? 0 then reset_and_return err priv buf data_len
      else
        let '(err, au, buf, data_len) :=
          vaapi_encode_h265_write_access_unit buf data_len
            (current_access_unit priv) in
        reset_and_return err (set_au priv au) buf data_len
  end.

Definition vaapi_encode_h265_write_slice_header
    (priv : VAAPIEncodeH265Context) (buf : list Byte.byte) (data_len : Z)
  : Z * VAAPIEncodeH265Context * list Byte.byte * Z :=
  match add_aud_if_needed raw_aud priv with
  | inl (err, priv) => reset_and_return err priv buf data_len
  | inr priv =>
      let '(err, au) := add_nals (current_access_unit priv) [raw_slice] in
      let priv := set_au priv au in
      if err <? 0 then reset_and_return err priv buf data_len
      else
        let '(err, au, buf, data_len) :=
          vaapi_encode_h265_write_access_unit buf data_len
            (current_access_unit priv) in
        reset_and_return err (set_au priv au) buf data_len
  end.

(** Lines 219-240. *)
Definition sei_messages_due (sei_needed : Z) : list sei_payload_type :=
  (if negb (Z.land sei_needed SEI_MASTERING_DISPLAY =? 0)
   then [SEI_TYPE_MASTERING_DISPLAY_COLOUR_VOLUME] else []) ++
  (if negb (Z.land sei_needed SEI_CONTENT_LIGHT_LEVEL =? 0)
   then [SEI_TYPE_CONTENT_LIGHT_LEVEL_INFO] else []) ++
  (if negb (Z.land sei_needed SEI_A53_CC =? 0)
   then [SEI_TYPE_USER_DATA_REGISTERED_ITU_T_T35] else []).

Fixpoint add_sei_messages (au : CodedBitstreamFragment)
    (msgs : list sei_payload_type) : Z * CodedBitstreamFragment :=
  match msgs with
  | [] => (0, au)
  | t :: msgs' =>
      let '(err, au) := ff_cbs_sei_add_message cbs_insert_err au t in
      if err <? 0 then (err, au) else add_sei_messages au msgs'
  end.

(** The fifth component of the result is [*type]. *)
Definition vaapi_encode_h265_write_extra_header
    (priv : VAAPIEncodeH265Context) (buf : list Byte.byte) (data_len : Z)
  : Z * VAAPIEncodeH265Context * list Byte.byte * Z
    * option H264.packed_header_type :=
  if negb (sei_needed priv =? 0) then
    match add_aud_if_needed aud_option priv with
    | inl (err, priv) => (reset_and_return err priv buf data_len, None)
    | inr priv =>
        let '(err, au) :=
          add_sei_messages (current_access_unit priv)
            (sei_messages_due (sei_needed priv)) in
        let priv := set_au priv au in
        if err <? 0 then (reset_and_return err priv buf data_len, None)
        else
          let priv := set_sei_needed priv 0 in
          let '(err, au, buf, data_len) :=
            vaapi_encode_h265_write_access_unit buf data_len
              (current_access_unit priv) in
          let priv := set_au priv au in
          if err <? 0 then (reset_and_return err priv buf data_len, None)
          else (reset_and_return 0 priv buf data_len,
                Some H264.VAEncPackedHeaderRawData)
    end
  else (AVERROR_EOF, priv, buf, data_len, None).

(** The three entry points under one name. *)
Inductive writer_call : Type :=
| WriteSequenceHeader
| WriteSliceHeader
| WriteExtraHeader.

Definition run_writer (call : writer_call)
    (priv : VAAPIEncodeH265Context) (buf : list Byte.byte) (data_len : Z)
  : Z * VAAPIEncodeH265Context * list Byte.byte * Z :=
  match call with
  | WriteSequenceHeader =>
      vaapi_encode_h265_write_sequence_header priv buf data_len
  | WriteSliceHeader =>
      vaapi_encode_h265_write_slice_header priv buf data_len
  | WriteExtraHeader =>
      fst (vaapi_encode_h265_write_extra_header priv buf data_len)
  end.

Definition writes (call : writer_call) (priv : VAAPIEncodeH265Context)
  : bool :=
  match call with
  | WriteExtraHeader => negb (sei_needed priv =? 0)
  | _ => true
  end.

(** The unit list the call hands to the serializer when no insertion
    fails. *)
Definition pending_units (call : writer_call)
    (priv : VAAPIEncodeH265Context) : list nal_unit :=
  units (current_access_unit priv) ++
  match call with
  | WriteSequenceHeader =>
      (if aud_needed priv then [raw_aud] else [])
      ++ [raw_vps; raw_sps; raw_pps]
  | WriteSliceHeader =>
      (if aud_needed priv then [raw_aud] else []) ++ [raw_slice]
  | WriteExtraHeader =>
      (if aud_needed priv then [aud_option] else [])
      ++ (SEIMessage <$> sei_messages_due (sei_needed priv))
  end.
End Writers.

(** *** vaapi_encode_h265_init_picture_params (lines 759-973) *)

(** Lines 795-798: the walk along the first list 1 references, starting at
    the picture itself; the result tells whether it stopped at an I
    picture.  A picture without list 1 references has a null [refs[1][0]]
    (pictures are allocated zeroed), where the walk ends. *)
Fixpoint irap_ref (p : Picture) : bool :=
  match p with
  | mkPicture _ _ _ ty _ _ _ r1 _ _ _ =>
      match ty with
      | FF_HW_PICTURE_TYPE_I => true
      | _ => match r1 with
             | [] => false
             | r :: _ => irap_ref r
             end
      end
  end.

(** Lines 771-810: the codec-side record of the picture.  (The assertion of
    line 788 is on the address of an array and cannot fail.) *)
Definition init_hpic (priv : VAAPIEncodeH265Context) (pic : Picture)
  : outcome VAAPIEncodeH265Picture :=
  do '(last_idr_frame, slice_nal_unit, slice_type, pic_type) <-
    (if PictureType_eqb (type pic) FF_HW_PICTURE_TYPE_IDR then
       av_assert0 (display_order pic =? encode_order pic);;
       Ok (display_order pic, HEVC_NAL_IDR_W_RADL, HEVC_SLICE_I, 0)
     else
       match prev pic with
       | None => AssertionFailure
       | Some prv =>
           let last_idr_frame := last_idr_frame (priv_data prv) in
           match type pic with
           | FF_HW_PICTURE_TYPE_I =>
               Ok (last_idr_frame, HEVC_NAL_CRA_NUT, HEVC_SLICE_I, 0)
           | FF_HW_PICTURE_TYPE_P =>
               Ok (last_idr_frame, HEVC_NAL_TRAIL_R, HEVC_SLICE_P, 1)
           | _ =>
               av_assert0 (match refs0 pic, refs1 pic with
                           | _ :: _, _ :: _ => true
                           | _, _ => false
                           end);;
               Ok (last_idr_frame,
                   if b_depth pic =? max_b_depth priv
                   then (if irap_ref pic then HEVC_NAL_RASL_N
                         else HEVC_NAL_TRAIL_N)
                   else (if irap_ref pic then HEVC_NAL_RASL_R
                         else HEVC_NAL_TRAIL_R),
                   HEVC_SLICE_B, 2)
           end
       end);
  Ok (mkH265Picture (display_order pic - last_idr_frame) last_idr_frame
        slice_nal_unit slice_type pic_type).

(** Lines 826-912: the messages due for this picture.  [mdm] is the
    mastering-display side data of the input image, if any, as the pair of
    its [has_primaries] and [has_luminance] flags; [clm] tells whether
    content-light-level side data is attached, [a53] whether
    [ff_alloc_a53_sei] found caption data. *)
Definition init_sei_needed (priv : VAAPIEncodeH265Context) (pic : Picture)
    (mdm : option (bool * bool)) (clm a53 : bool) : Z :=
  let intra :=
    PictureType_eqb (type pic) FF_HW_PICTURE_TYPE_I
    || PictureType_eqb (type pic) FF_HW_PICTURE_TYPE_IDR in
  let sei_needed := 0 in
  let sei_needed :=
    if negb (Z.land (sei priv) SEI_MASTERING_DISPLAY =? 0) && intra then
      match mdm with
      | Some (has_primaries, has_luminance) =>
          if has_primaries && has_luminance
          then Z.lor sei_needed SEI_MASTERING_DISPLAY else sei_needed
      | None => sei_needed
      end
    else sei_needed in
  let sei_needed :=
    if negb (Z.land (sei priv) SEI_CONTENT_LIGHT_LEVEL =? 0) && intra && clm
    then Z.lor sei_needed SEI_CONTENT_LIGHT_LEVEL else sei_needed in
  let sei_needed :=
    if negb (Z.land (sei priv) SEI_A53_CC =? 0) && a53
    then Z.lor sei_needed SEI_A53_CC else sei_needed in
  sei_needed.

(** [VAPictureHEVC] and its flags (va.h of libva). *)
Record VAPictureHEVC : Type := mkVAPictureHEVC {
  picture_id : Z;
  va_pic_order_cnt : Z;
  flags : Z
}.

Definition VA_INVALID_ID : Z := 0xffffffff.
Definition VA_PICTURE_HEVC_INVALID : Z := 0x00000001.
Definition VA_PICTURE_HEVC_RPS_ST_CURR_BEFORE : Z := 0x00000010.
Definition VA_PICTURE_HEVC_RPS_ST_CURR_AFTER : Z := 0x00000020.

Definition invalid_picture : VAPictureHEVC :=
  mkVAPictureHEVC VA_INVALID_ID 0 VA_PICTURE_HEVC_INVALID.

Section InitPictureParams.
(** [ff_alloc_a53_sei] as for H.264; [recon_surface ref] is
    [((VAAPIEncodePicture * )ref)->recon_surface]; the two side-data
    functions stand for [av_frame_get_side_data] on [pic->input_image]:
    the flags of the mastering-display metadata, and [MaxCLL] and [MaxFALL]
    of the content-light-level metadata. *)
Variable ff_alloc_a53_sei : Picture -> Z * option Z.
Variable recon_surface : Picture -> Z.
Variable mastering_display_metadata : Picture -> option (bool * bool).
Variable content_light_metadata : Picture -> option (Z * Z).

(** Lines 928-935: the entry written for reference [ref]. *)
Definition reference_frame (pic ref : Picture) : VAPictureHEVC :=
  mkVAPictureHEVC (recon_surface ref) (poc ref)
    (Z.lor
       (if display_order ref <? display_order pic
        then VA_PICTURE_HEVC_RPS_ST_CURR_BEFORE else 0)
       (if display_order ref >? display_order pic
        then VA_PICTURE_HEVC_RPS_ST_CURR_AFTER else 0)).

(** Lines 921-936 for one list, from [j] on. *)
Fixpoint fill_reference_frames (pic : Picture) (refs : list Picture)
    (j : nat) (reference_frames : list VAPictureHEVC)
  : outcome (nat * list VAPictureHEVC) :=
  match refs with
  | [] => Ok (j, reference_frames)
  | ref :: rest =>
      av_assert0 (encode_order ref <? encode_order pic);;
      do reference_frames <- aset reference_frames j (reference_frame pic ref);
      fill_reference_frames pic rest (S j) reference_frames
  end.

(** Lines 920-944: [vpic->reference_frames]. *)
Definition init_reference_frames (pic : Picture)
    (reference_frames : list VAPictureHEVC)
  : outcome (list VAPictureHEVC) :=
  do '(j, reference_frames) <-
    fill_reference_frames pic (refs0 pic) O reference_frames;
  do '(j, reference_frames) <-
    fill_reference_frames pic (refs1 pic) j reference_frames;
  Ok (take j reference_frames
      ++ replicate (length reference_frames - j) invalid_picture).

(** The function: the result is the return value, the updated context,
    the picture with its side record filled in and
    [vpic->reference_frames].  The values of the mastering-display message
    (lines 845-872, computed in floating point) and the other fields of
    [vpic] are left out. *)
Definition vaapi_encode_h265_init_picture_params
    (priv : VAAPIEncodeH265Context) (pic : Picture)
    (reference_frames : list VAPictureHEVC)
  : outcome (Z * VAAPIEncodeH265Context * Picture * list VAPictureHEVC) :=
  do hpic <- init_hpic priv pic;
  let pic' := set_priv_data pic hpic in
  let intra :=
    PictureType_eqb (type pic) FF_HW_PICTURE_TYPE_I
    || PictureType_eqb (type pic) FF_HW_PICTURE_TYPE_IDR in
  let want_clm :=
    negb (Z.land (sei priv) SEI_CONTENT_LIGHT_LEVEL =? 0) && intra in
  let want_a53 := negb (Z.land (sei priv) SEI_A53_CC =? 0) in
  let '(err, a53) := if want_a53 then ff_alloc_a53_sei pic else (0, None) in
  let failed := want_a53 && (err <? 0) in
  let priv' :=
    mkH265Context (max_b_depth priv) (p_to_gpb priv) (aud priv) (sei priv)
      (fixed_qp_idr priv) (fixed_qp_p priv) (fixed_qp_b priv)
      (log2_max_pic_order_cnt_lsb_minus4 priv)
      (pps_pic_parameter_set_id priv) (init_qp_minus26 priv)
      (current_access_unit priv)
      (if aud priv then pic_type hpic else raw_aud_pic_type priv)
      (match content_light_metadata pic with
       | Some (MaxCLL, MaxFALL) =>
           if want_clm
           then mkContentLightLevel (Z.min MaxCLL 65535) (Z.min MaxFALL 65535)
           else sei_content_light_level priv
       | None => sei_content_light_level priv
       end)
      (match a53 with
       | Some len => if failed then sei_a53cc_data_length priv else len - 1
       | None => sei_a53cc_data_length priv
       end)
      (aud priv)
      (init_sei_needed priv pic (mastering_display_metadata pic)
         (match content_light_metadata pic with
          | Some _ => true
          | None => false
          end)
         (negb failed && match a53 with Some _ => true | None => false end))
  in
  if failed then Ok (err, priv', pic', reference_frames)
  else
    do reference_frames <- init_reference_frames pic' reference_frames;
    Ok (0, priv', pic', reference_frames).
End InitPictureParams.

(** *** vaapi_encode_h265_init_slice_params (lines 975-1197) *)

(** Lines 1001-1007 and 1116-1121: the slice header fields that are
    computed; the short-term reference picture set is
    [H265.init_slice_params_rps]. *)
Definition slice_header_type (priv : VAAPIEncodeH265Context)
    (pic : Picture) : Z :=
  let slice_type := slice_type (priv_data pic) in
  if (slice_type =? HEVC_SLICE_P) && p_to_gpb priv then HEVC_SLICE_B
  else slice_type.

Definition slice_pic_order_cnt_lsb (priv : VAAPIEncodeH265Context)
    (pic : Picture) : Z :=
  Z.land (poc pic)
    (Z.shiftl 1 (log2_max_pic_order_cnt_lsb_minus4 priv + 4) - 1).

Definition slice_qp_delta (priv : VAAPIEncodeH265Context)
    (pic : Picture) : Z :=
  match type pic with
  | FF_HW_PICTURE_TYPE_B => fixed_qp_b priv - (init_qp_minus26 priv + 26)
  | FF_HW_PICTURE_TYPE_P => fixed_qp_p priv - (init_qp_minus26 priv + 26)
  | _ => fixed_qp_idr priv - (init_qp_minus26 priv + 26)
  end.

(** [FF_ARRAY_ELEMS(vslice->ref_pic_list0)], the same for
    [ref_pic_list1] (va_enc_hevc.h of libva). *)
Definition ref_pic_list_size : nat := 15.

(** The loop of lines 1190-1193 copies two of the three fields of each
    entry. *)
Definition copy_id_and_flags (dst src : VAPictureHEVC) : VAPictureHEVC :=
  mkVAPictureHEVC (picture_id src) (va_pic_order_cnt dst) (flags src).

Fixpoint copy_list (l1 l0 : list VAPictureHEVC)
  : outcome (list VAPictureHEVC) :=
  match l0 with
  | [] => Ok l1
  | e0 :: l0' =>
      match l1 with
      | [] => Undefined
      | e1 :: l1' =>
          do l1'' <- copy_list l1' l0'; Ok (copy_id_and_flags e1 e0 :: l1'')
      end
  end.

(** Lines 1166-1194: [vslice->slice_type], [vslice->ref_pic_list0] and
    [vslice->ref_pic_list1], from [vpic->reference_frames].  The
    assignment to [*vslice] of line 1124 has zeroed the two arrays, and the
    loop of lines 1166-1171 then marks every entry invalid. *)
Definition slice_ref_pic_lists (priv : VAAPIEncodeH265Context)
    (pic : Picture) (reference_frames : list VAPictureHEVC)
  : outcome (Z * list VAPictureHEVC * list VAPictureHEVC) :=
  let is_P := PictureType_eqb (type pic) FF_HW_PICTURE_TYPE_P in
  let is_B := PictureType_eqb (type pic) FF_HW_PICTURE_TYPE_B in
  let l0 := replicate ref_pic_list_size invalid_picture in
  let l1 := replicate ref_pic_list_size invalid_picture in
  do '(l0, l1) <-
    match refs0 pic with
    | [] => Ok (l0, l1)
    | _ =>
        av_assert0 (is_P || is_B);;
        do r <- aget reference_frames 0;
        do l0 <- aset l0 0 r;
        if p_to_gpb priv && is_P
        then do l1 <- aset l1 0 r; Ok (l0, l1)
        else Ok (l0, l1)
    end;
  do l1 <-
    match refs1 pic with
    | [] => Ok l1
    | _ =>
        av_assert0 is_B;;
        do r <- aget reference_frames 1;
        aset l1 0 r
    end;
  if is_P && p_to_gpb priv
  then do l1 <- copy_list l1 l0; Ok (HEVC_SLICE_B, l0, l1)
  else Ok (slice_header_type priv pic, l0, l1).

End H265Session.


(** ** H.265: pictures in coding order and their IDR period *)

Module H265Sequence.
Import H265 H265Session.

Section EncodePictures.
Variable ff_alloc_a53_sei : Picture -> Z * option Z.
Variable recon_surface : Picture -> Z.
Variable mastering_display_metadata : Picture -> option (bool * bool).
Variable content_light_metadata : Picture -> option (Z * Z).

(** Modelled from the spec: the caller's loop (hw_base_encode.c and
    vaapi_encode.c are not among the sources at hand) hands the pictures
    over in coding order, each with the picture encoded just before it as
    [prev]; encoding stops at the first error.  Each picture has its own
    parameter buffer, which starts as [reference_frames]. *)
Fixpoint encode_pictures (priv : VAAPIEncodeH265Context)
    (prv : option Picture) (pics : list Picture)
    (reference_frames : list VAPictureHEVC) : outcome (list Picture) :=
  match pics with
  | [] => Ok []
  | pic :: rest =>
      do '(err, priv', pic', _) <-
        vaapi_encode_h265_init_picture_params ff_alloc_a53_sei recon_surface
          mastering_display_metadata content_light_metadata priv
          (set_prev pic prv) reference_frames;
      if err <? 0 then Ok []
      else do rest' <- encode_pictures priv' (Some pic') rest reference_frames;
           Ok (pic' :: rest')
  end.
End EncodePictures.

Definition idr_pictures (l : list Picture) : list Picture :=
  filter (fun p => type p = FF_HW_PICTURE_TYPE_IDR) l.

Definition last_idr (l : list Picture) : option Picture :=
  last (idr_pictures l).

(** What the side record of picture [p] says about its place in the
    pictures [seen] encoded up to and including it. *)
Definition in_idr_period (seen : list Picture) (p : Picture) : Prop :=
  exists q,
    last_idr seen = Some q /\
    last_idr_frame (priv_data p) = display_order q /\
    poc p = display_order p - display_order q.

(** The NAL unit type and the slice type [init_hpic] chooses. *)
Definition nal_unit_ok (priv : VAAPIEncodeH265Context) (p : Picture)
  : Prop :=
  let h := priv_data p in
  match type p with
  | FF_HW_PICTURE_TYPE_IDR =>
      slice_nal_unit h = HEVC_NAL_IDR_W_RADL /\ slice_type h = HEVC_SLICE_I
  | FF_HW_PICTURE_TYPE_I =>
      slice_nal_unit h = HEVC_NAL_CRA_NUT /\ slice_type h = HEVC_SLICE_I
  | FF_HW_PICTURE_TYPE_P =>
      slice_nal_unit h = HEVC_NAL_TRAIL_R /\ slice_type h = HEVC_SLICE_P
  | FF_HW_PICTURE_TYPE_B =>
      slice_type h = HEVC_SLICE_B /\ refs0 p <> [] /\ refs1 p <> [] /\
      slice_nal_unit h
      = (if irap_ref p then HEVC_NAL_RASL_N else HEVC_NAL_TRAIL_N)
        + (if b_depth p =? max_b_depth priv then 0 else 1)
  end.

End H265Sequence.

(** ** H.265: session set-up

    [vaapi_encode_h265_init], [vaapi_encode_h265_get_encoder_caps],
    [vaapi_encode_h265_configure] and
    [vaapi_encode_h265_init_sequence_params] (lines 261-757 and 1199-1386),
    as far as they decide on errors and derive the sizes, the quantizers and
    the tile layout of the session. *)

Module H265Setup.
Import H265 H265Session.

(** [FFERRTAG('E','X','T',' ')] *)
Definition AVERROR_EXTERNAL : Z := - (69 + 88 * 2^8 + 84 * 2^16 + 32 * 2^24).

(** va.h of libva. *)
Definition VA_ATTRIB_NOT_SUPPORTED : Z := 0x80000000.

(** Modelled from the spec: the sizes of the coding-block grid are powers
    of two, and the sequence header carries their exponents, which the code
    takes with [ff_ctz] of libavutil/intmath.h (not among the sources at
    hand), the number of trailing zero bits. *)
Definition ff_ctz (v : Z) : Z := Z.log2 (Z.land v (- v)).

(** [!!x] *)
Definition to_flag (x : Z) : Z := if x =? 0 then 0 else 1.

(** *** vaapi_encode_h265_init (lines 1359-1386)

    The fields of [avctx] and [ctx] the function assigns
    ([desired_packed_headers], a constant, apart). *)
Record InitState : Type := mkInitState {
  avctx_profile : Z;
  avctx_level : Z;
  explicit_qp : Z
}.

(** Lines 1366-1383; [inl] is the early return. *)
Definition init_checks (priv_profile priv_level priv_qp : Z)
    (st : InitState) : Z * InitState + InitState :=
  let profile :=
    if avctx_profile st =? H264Setup.AV_PROFILE_UNKNOWN then priv_profile
    else avctx_profile st in
  let level :=
    if avctx_level st =? H264Setup.AV_LEVEL_UNKNOWN then priv_level
    else avctx_level st in
  let st := mkInitState profile level (explicit_qp st) in
  if negb (level =? H264Setup.AV_LEVEL_UNKNOWN)
     && negb (Z.land level (Z.lnot 0xff) =? 0)
  then inl (AVERROR H264Setup.EINVAL, st)
  else
    inr (mkInitState profile level
           (if priv_qp >? 0 then priv_qp else explicit_qp st)).

Definition vaapi_encode_h265_init (ff_vaapi_encode_init : InitState -> Z)
    (priv_profile priv_level priv_qp : Z) (st : InitState)
  : Z * InitState :=
  match init_checks priv_profile priv_level priv_qp st with
  | inl r => r
  | inr st => (ff_vaapi_encode_init st, st)
  end.

(** *** vaapi_encode_h265_get_encoder_caps (lines 1199-1260)

    The two attribute values of the driver are unions of a 32-bit [value]
    and its bit fields (va.h of libva); both views are kept, and nothing
    is assumed on how the fields lie within the value. *)
Record VAConfigAttribValEncHEVCFeatures : Type := mkFeatures {
  features_value : Z;
  amp : Z;
  sao : Z;
  temporal_mvp : Z;
  pcm : Z;
  cu_qp_delta : Z;
  transform_skip : Z
}.

Record VAConfigAttribValEncHEVCBlockSizes : Type := mkBlockSizes {
  block_sizes_value : Z;
  log2_max_coding_tree_block_size_minus3 : Z;
  log2_min_luma_coding_block_size_minus3 : Z;
  log2_max_luma_transform_block_size_minus2 : Z;
  log2_min_luma_transform_block_size_minus2 : Z;
  max_max_transform_hierarchy_depth_inter : Z;
  max_max_transform_hierarchy_depth_intra : Z
}.

(** The fields of [priv] and [base_ctx] the function assigns. *)
Record CapsState : Type := mkCapsState {
  va_features : VAConfigAttribValEncHEVCFeatures;
  va_bs : VAConfigAttribValEncHEVCBlockSizes;
  ctu_size : Z;
  min_cb_size : Z;
  surface_width : Z;
  surface_height : Z;
  slice_block_width : Z;
  slice_block_height : Z
}.

(** Lines 1246-1259. *)
Definition finish_encoder_caps (width height : Z) (st : CapsState)
  : Z * CapsState :=
  let '(ctu, min_cb) :=
    if ctu_size st =? 0 then (32, 16) else (ctu_size st, min_cb_size st) in
  (0, mkCapsState (va_features st) (va_bs st) ctu min_cb
        (H264Setup.FFALIGN width min_cb) (H264Setup.FFALIGN height min_cb)
        ctu ctu).

(** [va_check_version_1_13] is [VA_CHECK_VERSION(1, 13, 0)]; a query is
    [None] when [vaGetConfigAttributes] does not return
    [VA_STATUS_SUCCESS] and [attr.value] otherwise.  The two sizes are
    32-bit unsigned. *)
Definition vaapi_encode_h265_get_encoder_caps (va_check_version_1_13 : bool)
    (features_query : option VAConfigAttribValEncHEVCFeatures)
    (block_sizes_query : option VAConfigAttribValEncHEVCBlockSizes)
    (width height : Z) (st : CapsState) : Z * CapsState :=
  if va_check_version_1_13 then
    match features_query with
    | None => (AVERROR_EXTERNAL, st)
    | Some features =>
        let st :=
          if features_value features =? VA_ATTRIB_NOT_SUPPORTED then st
          else
            mkCapsState features (va_bs st) (ctu_size st) (min_cb_size st)
              (surface_width st) (surface_height st)
              (slice_block_width st) (slice_block_height st) in
        match block_sizes_query with
        | None => (AVERROR_EXTERNAL, st)
        | Some block_size =>
            let st :=
              if block_sizes_value block_size =? VA_ATTRIB_NOT_SUPPORTED
              then st
              else
                mkCapsState (va_features st) block_size
                  (Z.shiftl 1
                     (log2_max_coding_tree_block_size_minus3 block_size + 3)
                   mod 2^32)
                  (Z.shiftl 1
                     (log2_min_luma_coding_block_size_minus3 block_size + 3)
                   mod 2^32)
                  (surface_width st) (surface_height st)
                  (slice_block_width st) (slice_block_height st) in
            finish_encoder_caps width height st
        end
    end
  else finish_encoder_caps width height st.

(** *** vaapi_encode_h265_configure (lines 1262-1305)

    What the function reads besides the private context; the two quantizer
    expressions of lines 1276 and 1282 are computed in floating point and
    given as for H.264. *)
Record ConfigureParams : Type := mkConfigureParams {
  ff_cbs_init : Z;
  va_rc_mode_is_CQP : bool;
  rc_quality : Z;
  i_quant : option (Z -> Z);
  b_quant : option (Z -> Z);
  profile_depth : Z
}.

Definition set_fixed_qp (priv : VAAPIEncodeH265Context) (idr p b : Z)
  : VAAPIEncodeH265Context :=
  mkH265Context (max_b_depth priv) (p_to_gpb priv) (aud priv) (sei priv)
    idr p b
    (log2_max_pic_order_cnt_lsb_minus4 priv) (pps_pic_parameter_set_id priv)
    (init_qp_minus26 priv)
    (current_access_unit priv) (raw_aud_pic_type priv)
    (sei_content_light_level priv) (sei_a53cc_data_length priv)
    (aud_needed priv) (sei_needed priv).

(** The result is the return value, the context and
    [ctx->roi_quant_range]. *)
Definition vaapi_encode_h265_configure (c : ConfigureParams)
    (priv : VAAPIEncodeH265Context) (roi_quant_range : Z)
  : Z * VAAPIEncodeH265Context * Z :=
  if ff_cbs_init c <? 0 then (ff_cbs_init c, priv, roi_quant_range)
  else
    let priv :=
      if va_rc_mode_is_CQP c then
        let qp_p := H264Setup.av_clip (rc_quality c) 1 51 in
        let qp_idr :=
          match i_quant c with
          | Some f => H264Setup.av_clip (f qp_p) 1 51
          | None => qp_p
          end in
        let qp_b :=
          match b_quant c with
          | Some f => H264Setup.av_clip (f qp_p) 1 51
          | None => qp_p
          end in
        set_fixed_qp priv qp_idr qp_p qp_b
      else set_fixed_qp priv 30 30 30 in
    (0, priv, 51 + 6 * (profile_depth c - 8)).

(** *** vaapi_encode_h265_init_sequence_params (lines 261-757)

    What the function reads besides the private context and the sizes set
    by [vaapi_encode_h265_get_encoder_caps]; [guessed_level] is the result
    of [ff_h265_guess_level] at line 355, [None] for a null pointer and
    the [level_idc] of the descriptor otherwise. *)
Record SequenceParams : Type := mkSequenceParams {
  desc : H264Setup.AVPixFmtDescriptor;
  seq_profile : Z;
  seq_level : Z;
  tier : Z;
  seq_width : Z;
  seq_height : Z;
  guessed_level : option Z;
  framerate_num : Z;
  framerate_den : Z;
  time_base_num : Z;
  time_base_den : Z;
  seq_rc_mode_is_CQP : bool;
  seq_va_check_version_1_13 : bool;
  tile_rows : Z;
  tile_cols : Z;
  slice_block_rows : Z;
  slice_block_cols : Z;
  col_width : list Z;
  row_height : list Z
}.

(** The fields of the VPS, the SPS and the PPS that are followed here, each
    with the value the code computes for it (the structures of cbs_h265.h
    store them in 8-bit and 16-bit fields).  The profile compatibility and
    constraint flags, the VUI and the two parameter buffers of the
    hardware, which copy these fields, are left out;
    [log2_max_pic_order_cnt_lsb_minus4], [pps_pic_parameter_set_id] and
    [init_qp_minus26] are in [VAAPIEncodeH265Context].  Of the two tile
    arrays the entries written are given. *)
Record ParameterSets : Type := mkParameterSets {
  general_profile_idc : Z;
  general_tier_flag : Z;
  general_level_idc : Z;
  vps_max_dec_pic_buffering_minus1 : Z;
  vps_max_num_reorder_pics : Z;
  vps_num_units_in_tick : Z;
  vps_time_scale : Z;
  vps_poc_proportional_to_timing_flag : Z;
  chroma_format_idc : Z;
  pic_width_in_luma_samples : Z;
  pic_height_in_luma_samples : Z;
  conformance_window_flag : Z;
  conf_win_left_offset : Z;
  conf_win_right_offset : Z;
  conf_win_top_offset : Z;
  conf_win_bottom_offset : Z;
  bit_depth_luma_minus8 : Z;
  bit_depth_chroma_minus8 : Z;
  sps_log2_min_luma_coding_block_size_minus3 : Z;
  log2_diff_max_min_luma_coding_block_size : Z;
  sps_log2_min_luma_transform_block_size_minus2 : Z;
  log2_diff_max_min_luma_transform_block_size : Z;
  max_transform_hierarchy_depth_inter : Z;
  max_transform_hierarchy_depth_intra : Z;
  amp_enabled_flag : Z;
  sample_adaptive_offset_enabled_flag : Z;
  sps_temporal_mvp_enabled_flag : Z;
  pcm_enabled_flag : Z;
  cu_qp_delta_enabled_flag : Z;
  diff_cu_qp_delta_depth : Z;
  transform_skip_enabled_flag : Z;
  tiles_enabled_flag : Z;
  num_tile_columns_minus1 : Z;
  num_tile_rows_minus1 : Z;
  uniform_spacing_flag : Z;
  column_width_minus1 : list Z;
  row_height_minus1 : list Z
}.

(** The three [memset]s of lines 277-279. *)
Definition zero_parameter_sets : ParameterSets :=
  mkParameterSets 0 0 0 0 0 0 0 0 0 0 0 0 0 0 0 0 0 0 0 0 0 0 0 0 0 0 0 0 0 0
    0 0 0 0 0 [] [].

Definition set_sequence (priv : VAAPIEncodeH265Context)
    (log2_max_poc_lsb_minus4 pps_id qp_minus26 : Z)
  : VAAPIEncodeH265Context :=
  mkH265Context (max_b_depth priv) (p_to_gpb priv) (aud priv) (sei priv)
    (fixed_qp_idr priv) (fixed_qp_p priv) (fixed_qp_b priv)
    log2_max_poc_lsb_minus4 pps_id qp_minus26
    (current_access_unit priv) (raw_aud_pic_type priv)
    (sei_content_light_level priv) (sei_a53cc_data_length priv)
    (aud_needed priv) (sei_needed priv).

(** Lines 284-298: [None] is the unsupported chroma format. *)
Definition chroma_format (d : H264Setup.AVPixFmtDescriptor) : option Z :=
  if H264Setup.nb_components d =? 1 then Some 0
  else if (H264Setup.log2_chroma_w d =? 1) && (H264Setup.log2_chroma_h d =? 1)
  then Some 1
  else if (H264Setup.log2_chroma_w d =? 1) && (H264Setup.log2_chroma_h d =? 0)
  then Some 2
  else if (H264Setup.log2_chroma_w d =? 0) && (H264Setup.log2_chroma_h d =? 0)
  then Some 3
  else None.

(** One of the loops of lines 613-626, from [i] on with [n] iterations
    left: whether each size is the one of the uniform spacing of H.265.
    The loop stops at the first size that is not. *)
Fixpoint uniform_spacing_loop (sizes : list Z) (blocks tiles : Z)
    (i n : nat) : outcome bool :=
  match n with
  | O => Ok true
  | S n' =>
      do size <- aget sizes i;
      if negb (size =? ((Z.of_nat i + 1) * blocks) ÷ tiles
                       - (Z.of_nat i * blocks) ÷ tiles)
      then Ok false
      else uniform_spacing_loop sizes blocks tiles (S i) n'
  end.

(** One of the loops of lines 629-632. *)
Fixpoint sizes_minus1 (sizes : list Z) (i n : nat) : outcome (list Z) :=
  match n with
  | O => Ok []
  | S n' =>
      do size <- aget sizes i;
      do rest <- sizes_minus1 sizes (S i) n';
      Ok (size - 1 :: rest)
  end.

(** The number of iterations of [for (i = 0; i <= minus1; i++)]. *)
Definition iterations (minus1 : Z) : nat := Z.to_nat (minus1 + 1).

(** Lines 604-637: the tile layout, as [tiles_enabled_flag], the two
    counts, [uniform_spacing_flag] and the two size arrays.  The two counts
    are 8-bit fields of the PPS. *)
Definition tile_layout (s : SequenceParams)
  : outcome (Z * Z * Z * Z * list Z * list Z) :=
  if negb (tile_rows s =? 0) && negb (tile_cols s =? 0) then
    let num_tile_columns_minus1 := (tile_cols s - 1) mod 2^8 in
    let num_tile_rows_minus1 := (tile_rows s - 1) mod 2^8 in
    do uniform_spacing <-
      uniform_spacing_loop (col_width s) (slice_block_cols s) (tile_cols s) O
        (iterations num_tile_columns_minus1);
    do uniform_spacing <-
      (if uniform_spacing then
         uniform_spacing_loop (row_height s) (slice_block_rows s)
           (tile_rows s) O (iterations num_tile_rows_minus1)
       else Ok false);
    do column_width_minus1 <-
      sizes_minus1 (col_width s) O (iterations num_tile_columns_minus1);
    do row_height_minus1 <-
      sizes_minus1 (row_height s) O (iterations num_tile_rows_minus1);
    Ok (1, num_tile_columns_minus1, num_tile_rows_minus1,
        Z.b2z uniform_spacing, column_width_minus1, row_height_minus1)
  else Ok (0, 0, 0, 0, [], []).

(** The function: the result is the return value, the updated context and
    the parameter sets. *)
Definition vaapi_encode_h265_init_sequence_params (s : SequenceParams)
    (st : CapsState) (priv : VAAPIEncodeH265Context)
  : outcome (Z * VAAPIEncodeH265Context * ParameterSets) :=
  match chroma_format (desc s) with
  | None =>
      Ok (AVERROR H264Setup.EINVAL, set_sequence priv 0 0 0,
          zero_parameter_sets)
  | Some chroma_format =>
      let bit_depth := H264Setup.comp0_depth (desc s) in
      let '(level_idc, tier_flag) :=
        if negb (seq_level s =? H264Setup.AV_LEVEL_UNKNOWN)
        then (seq_level s, tier s)
        else
          match guessed_level s with
          | Some level_idc => (level_idc, tier s)
          | None => (255, 1)
          end in
      let timing := (framerate_num s >? 0) && (framerate_den s >? 0) in
      let window :=
        negb (seq_width s =? surface_width st)
        || negb (seq_height s =? surface_height st) in
      let use_features :=
        seq_va_check_version_1_13 s
        && negb (features_value (va_features st) =? 0) in
      let use_bs :=
        seq_va_check_version_1_13 s
        && negb (block_sizes_value (va_bs st) =? 0) in
      let log2_diff_max_min_luma_coding_block_size :=
        if use_bs then ff_ctz (ctu_size st) - ff_ctz (min_cb_size st)
        else 2 in
      let cu_qp_delta_enabled_flag :=
        if use_features && negb (seq_rc_mode_is_CQP s)
        then to_flag (cu_qp_delta (va_features st))
        else Z.b2z (negb (seq_rc_mode_is_CQP s)) in
      do '(tiles_enabled_flag, num_tile_columns_minus1, num_tile_rows_minus1,
           uniform_spacing_flag, column_width_minus1, row_height_minus1) <-
        tile_layout s;
      Ok (0,
          set_sequence priv 8 0 (fixed_qp_idr priv - 26),
          mkParameterSets
            (seq_profile s) tier_flag level_idc
            (max_b_depth priv + 1) (max_b_depth priv)
            (if timing then framerate_den s else time_base_num s)
            (if timing then framerate_num s else time_base_den s)
            (Z.b2z timing)
            chroma_format
            (surface_width st) (surface_height st)
            (Z.b2z window)
            0
            (if window
             then Z.shiftr (surface_width st - seq_width s)
                    (H264Setup.log2_chroma_w (desc s))
             else 0)
            0
            (if window
             then Z.shiftr (surface_height st - seq_height s)
                    (H264Setup.log2_chroma_h (desc s))
             else 0)
            (bit_depth - 8) (bit_depth - 8)
            (if use_bs then ff_ctz (min_cb_size st) - 3 else 0)
            log2_diff_max_min_luma_coding_block_size
            (if use_bs
             then log2_min_luma_transform_block_size_minus2 (va_bs st)
             else 0)
            (if use_bs
             then log2_max_luma_transform_block_size_minus2 (va_bs st)
                  - log2_min_luma_transform_block_size_minus2 (va_bs st)
             else 3)
            (if use_bs
             then max_max_transform_hierarchy_depth_inter (va_bs st) else 3)
            (if use_bs
             then max_max_transform_hierarchy_depth_intra (va_bs st) else 3)
            (if use_features then to_flag (amp (va_features st)) else 1)
            (if use_features then to_flag (sao (va_features st)) else 0)
            (if use_features then to_flag (temporal_mvp (va_features st))
             else 0)
            (if use_features then to_flag (pcm (va_features st)) else 0)
            cu_qp_delta_enabled_flag
            (if use_features && negb (cu_qp_delta_enabled_flag =? 0)
             then log2_diff_max_min_luma_coding_block_size else 0)
            (if use_features then to_flag (transform_skip (va_features st))
             else 0)
            tiles_enabled_flag num_tile_columns_minus1 num_tile_rows_minus1
            uniform_spacing_flag column_width_minus1 row_height_minus1)
  end.

End H265Setup.


(** ** H.264: the HRD parameters of the sequence header

    Lines 459-499 of [vaapi_encode_h264_init_sequence_params]. *)

Module H264HRD.
Import H264.

(** Modelled from the spec: bit rate and buffer size are scaled into a
    4-bit exponent and a value minus one, with [av_log2] and
    [av_clip_uintp2] of libavutil/common.h (not among the sources at hand):
    the position of the highest set bit of an unsigned value, 0 for 0, and
    the clipping of a signed value into [0 .. 2^p - 1]. *)
Definition av_log2 (v : Z) : Z := Z.log2 v.

Definition av_clip_uintp2 (a p : Z) : Z :=
  if a <? 0 then 0 else if a >? 2 ^ p - 1 then 2 ^ p - 1 else a.

(** What the lines read: [ctx->va_bit_rate], the two fields of
    [ctx->hrd_params] (32-bit unsigned, all three),
    [sps->vui.fixed_frame_rate_flag], and the two fields of the
    buffering-period message that they may replace. *)
Record HRDInput : Type := mkHRDInput {
  va_bit_rate : Z;
  buffer_size : Z;
  initial_buffer_fullness : Z;
  fixed_frame_rate_flag : Z;
  bp_initial_cpb_removal_delay : Z;
  bp_initial_cpb_removal_delay_offset : Z
}.

(** The fields of [sps->vui], of [sps->vui.nal_hrd_parameters] and of
    [priv->sei_buffering_period.nal] that the lines decide on; the fields
    of the SPS are zero before (the [memset] of line 308). *)
Record RawHRD : Type := mkRawHRD {
  nal_hrd_parameters_present_flag : Z;
  low_delay_hrd_flag : Z;
  cpb_cnt_minus1 : Z;
  bit_rate_scale : Z;
  bit_rate_value_minus1 : Z;
  cpb_size_scale : Z;
  cpb_size_value_minus1 : Z;
  cbr_flag : Z;
  initial_cpb_removal_delay_length_minus1 : Z;
  cpb_removal_delay_length_minus1 : Z;
  dpb_output_delay_length_minus1 : Z;
  time_offset_length : Z;
  initial_cpb_removal_delay : Z;
  initial_cpb_removal_delay_offset : Z
}.

(** The two values minus one are 32-bit unsigned, and so is the initial
    removal delay, which is computed in 64 bits; a buffer of size 0 is a
    division by zero. *)
Definition init_sequence_params_hrd (priv : VAAPIEncodeH264Context)
    (h : HRDInput) : outcome RawHRD :=
  if negb (Z.land (sei priv) SEI_TIMING =? 0) then
    let bit_rate_scale := av_clip_uintp2 (av_log2 (va_bit_rate h) - 15 - 6) 4 in
    let cpb_size_scale := av_clip_uintp2 (av_log2 (buffer_size h) - 15 - 4) 4 in
    if buffer_size h =? 0 then Undefined
    else
      Ok (mkRawHRD 1 0 0
            bit_rate_scale
            ((Z.shiftr (va_bit_rate h) (bit_rate_scale + 6) - 1) mod 2 ^ 32)
            cpb_size_scale
            ((Z.shiftr (buffer_size h) (cpb_size_scale + 4) - 1) mod 2 ^ 32)
            0 23 23 7 0
            ((((90000 * initial_buffer_fullness h) mod 2 ^ 64)
              / buffer_size h) mod 2 ^ 32)
            0)
  else
    Ok (mkRawHRD 0 (1 - fixed_frame_rate_flag h) 0 0 0 0 0 0 0 0 0 0
          (bp_initial_cpb_removal_delay h)
          (bp_initial_cpb_removal_delay_offset h)).

End H264HRD.


(** ** Sample sessions: set-up, hardware entries and H.265 pictures *)

Module SampleSetup.
Import Sample.

(** *** H.264 *)

Definition sh0 : H264.H264RawSliceHeader :=
  H264.mkSliceHeader 0 0 0 0 0 0 0 0 0 0 0 mmco0 0 rplm0 0 rplm0.

Definition buffer8 : list Byte.byte := replicate 8 Byte.xff.

(** what the metadata writer hands back for the IDR picture *)
Definition extra_written
  : Z * H264.VAAPIEncodeH264Context * list Byte.byte * Z
    * option H264.packed_header_type :=
  H264.vaapi_encode_h264_write_extra_header never_fails one_byte_per_unit
    priv0 idr buffer8 64.



(** a B picture whose previous picture keeps a single reference *)
Definition b_single : H264.Picture :=
  h264_pic 3 FF_HW_PICTURE_TYPE_B false 1 2 1 2 [idr] [idr] [idr]
    (Some idr_kept).

(** a reference picture that keeps three pictures where the context has
    room for two *)
Definition crowded_prev : H264.Picture :=
  h264_pic 4 FF_HW_PICTURE_TYPE_P true 3 3 3 6 [p2] [] [idr; p1; p2]
    (Some p1_kept).
Definition crowded : H264.Picture :=
  h264_pic 5 FF_HW_PICTURE_TYPE_P true 4 4 4 8 [p2] [] [idr; p1; p2]
    (Some crowded_prev).

(** an IDR picture that was handed a reference *)
Definition idr_with_ref : H264.Picture :=
  h264_pic 1 FF_HW_PICTURE_TYPE_IDR true 0 0 0 0 [idr] [] [] None.

(** 1920x1080, 4:2:0 with 8 bits, constant quantizer 23, level found by
    the level guess *)
Definition cfg : H264Setup.ConfigureParams :=
  H264Setup.mkConfigureParams 0 1920 1080 true 23 None None false 0 false 8.
Definition derived0 : H264Setup.Derived := H264Setup.mkDerived 0 0 0.
Definition yuv420p : H264Setup.AVPixFmtDescriptor :=
  H264Setup.mkPixFmtDescriptor 3 1 1 8.
Definition seq : H264Setup.SequenceParams :=
  H264Setup.mkSequenceParams yuv420p 100 (-99) 30 1920 1080 4000000 30 1 1
    30 1.
Definition level_4 (_ _ _ _ _ _ : Z) : option (Z * Z) := Some (40, 0).

Definition configured
  : Z * H264.VAAPIEncodeH264Context * H264Setup.Derived :=
  H264Setup.vaapi_encode_h264_configure cfg priv0 derived0.
Definition sequenced
  : Z * H264.VAAPIEncodeH264Context * H264Setup.RawSPS :=
  H264Setup.vaapi_encode_h264_init_sequence_params level_4 seq
    configured.2 configured.1.2.
Definition p2_slice : H264.H264RawSliceHeader :=
  match H264.vaapi_encode_h264_init_slice_params sequenced.1.2 p2 0
          (p1 :: idr :: replicate 14 stale) stack_array sh0 with
  | Ok sh => sh
  | _ => sh0
  end.

(** the surfaces, and the arrays of the hardware buffers as allocated *)
Definition surface_of (p : H264.Picture) : Z := 100 + Z.of_N (addr p).
Definition va_zero : H264Hardware.VAPictureH264 :=
  H264Hardware.mkVAPictureH264 0 0 0 0 0.
Definition b_frames : list H264Hardware.VAPictureH264 :=
  match H264Hardware.init_reference_frames surface_of b
          (replicate 16 va_zero) with
  | Ok frames => frames
  | _ => []
  end.

(** timing messages at 4 Mbit/s with a buffer of 8 Mbit, three quarters
    full at the start *)
Definition hrd_input : H264HRD.HRDInput :=
  H264HRD.mkHRDInput 4000000 8000000 6000000 1 0 0.
Definition hrd_output : H264HRD.RawHRD :=
  match H264HRD.init_sequence_params_hrd priv0 hrd_input with
  | Ok hrd => hrd
  | _ => H264HRD.mkRawHRD 0 0 0 0 0 0 0 0 0 0 0 0 0 0
  end.

(** *** H.265 *)

Definition h265_never_fails (_ : H265Session.CodedBitstreamFragment)
    (_ : H265Session.nal_unit) : Z := 0.
Definition h265_one_byte_per_unit (us : list H265Session.nal_unit)
  : Z * (list Byte.byte * Z) :=
  (0, (replicate (length us) Byte.x00, 0)).

(** all three messages enabled, delimiters on, P pictures coded as
    generalised B pictures; a delimiter and a mastering-display message
    are pending *)
Definition h265_priv0 : H265Session.VAAPIEncodeH265Context :=
  H265Session.mkH265Context 1 true true
    (H265Session.SEI_MASTERING_DISPLAY + H265Session.SEI_CONTENT_LIGHT_LEVEL
     + H265Session.SEI_A53_CC)
    30 30 30 8 0 4 (H265Session.mkFragment [] 0 0 []) 0
    (H265Session.mkContentLightLevel 0 0) 0 true
    H265Session.SEI_MASTERING_DISPLAY.

Definition h265_no_captions (_ : H265.Picture) : Z * option Z := (0, None).
Definition h265_surface_of (p : H265.Picture) : Z := 100 + Z.of_N (addr p).
Definition hdr10 (_ : H265.Picture) : option (bool * bool) :=
  Some (true, true).
Definition light_level (_ : H265.Picture) : option (Z * Z) :=
  Some (1000, 400).
Definition hevc_zero : H265Session.VAPictureHEVC :=
  H265Session.mkVAPictureHEVC 0 0 0.

(** a B picture between the IDR picture and the P picture of the sample *)
Definition hb : H265.Picture :=
  mkPicture 4 1 3 FF_HW_PICTURE_TYPE_B false 1 [h0] [h2] [h0; h2] (Some h2)
    (H265.mkH265Picture 0 0 0 0 0).

Definition h265_pictured (pic : H265.Picture)
  : Z * H265Session.VAAPIEncodeH265Context * H265.Picture
    * list H265Session.VAPictureHEVC :=
  match H265Session.vaapi_encode_h265_init_picture_params h265_no_captions
          h265_surface_of hdr10 light_level h265_priv0 pic
          (replicate 15 hevc_zero) with
  | Ok r => r
  | _ => (-1, h265_priv0, pic, [])
  end.

(** an IDR picture, a P picture and a B picture between them, as the
    scheduler hands them over *)
Definition h265_scheduled (ty : PictureType) (display encode : Z)
    (r0 r1 : list H265.Picture) : H265.Picture :=
  mkPicture 0 display encode ty true 0 r0 r1 [] None
    (H265.mkH265Picture 0 0 0 0 0).

Definition h265_sequence : list H265.Picture :=
  [ h265_scheduled FF_HW_PICTURE_TYPE_IDR 0 0 [] [];
    h265_scheduled FF_HW_PICTURE_TYPE_P 2 2 [h0] [];
    h265_scheduled FF_HW_PICTURE_TYPE_B 1 3 [h0] [h2] ].

Definition h265_encoded : list H265.Picture :=
  match H265Sequence.encode_pictures h265_no_captions h265_surface_of hdr10
          light_level h265_priv0 None h265_sequence
          (replicate 15 hevc_zero) with
  | Ok out => out
  | _ => []
  end.

Definition h265_encoded_last : H265.Picture :=
  match h265_encoded !! 2%nat with
  | Some p => p
  | None => h0
  end.

(** a driver that reports 32x32 coding tree blocks and 16x16 minimum coding
    blocks; 1920x1080 in 7 by 3 uniformly spaced tiles *)
Definition no_features : H265Setup.VAConfigAttribValEncHEVCFeatures :=
  H265Setup.mkFeatures 0 0 0 0 0 0 0.
Definition no_block_sizes : H265Setup.VAConfigAttribValEncHEVCBlockSizes :=
  H265Setup.mkBlockSizes 0 0 0 0 0 0 0.
Definition driver_features : H265Setup.VAConfigAttribValEncHEVCFeatures :=
  H265Setup.mkFeatures 1 1 0 0 0 0 0.
Definition driver_block_sizes : H265Setup.VAConfigAttribValEncHEVCBlockSizes :=
  H265Setup.mkBlockSizes 1 2 1 3 0 2 2.
Definition caps0 : H265Setup.CapsState :=
  H265Setup.mkCapsState no_features no_block_sizes 0 0 0 0 0 0.
Definition h265_seq : H265Setup.SequenceParams :=
  H265Setup.mkSequenceParams yuv420p 1 (-99) 0 1920 1080 (Some 120)
    30 1 1 30 true true 3 7 34 60 [8; 9; 8; 9; 8; 9; 9] [11; 11; 12].
Definition h265_cfg : H265Setup.ConfigureParams :=
  H265Setup.mkConfigureParams 0 true 23 None None 8.

Definition h265_caps : Z * H265Setup.CapsState :=
  H265Setup.vaapi_encode_h265_get_encoder_caps true (Some driver_features)
    (Some driver_block_sizes) 1920 1080 caps0.
Definition h265_configured : Z * H265Session.VAAPIEncodeH265Context * Z :=
  H265Setup.vaapi_encode_h265_configure h265_cfg h265_priv0 0.
Definition h265_sequenced
  : Z * H265Session.VAAPIEncodeH265Context * H265Setup.ParameterSets :=
  match H265Setup.vaapi_encode_h265_init_sequence_params h265_seq
          h265_caps.2 h265_configured.1.2 with
  | Ok r => r
  | _ => (-1, h265_priv0, H265Setup.zero_parameter_sets)
  end.
End SampleSetup.


(** * Properties *)

(** ** The outcome monad and arrays *)

Lemma obind_Ok {A B} (m : outcome A) (k : A -> outcome B) b :
  obind m k = Ok b <-> exists a, m = Ok a /\ k a = Ok b.
Proof.
  destruct m; simpl; split; try (intros [a0 [H1 H2]]); eauto; try discriminate.
  by inversion H1; subst.
Qed.

Lemma av_assert0_Ok c : av_assert0 c = Ok tt <-> c = true.
Proof. destruct c; simpl; split; intros; done. Qed.

Lemma aget_app_r {A} (pre suf : list A) x :
  aget (pre ++ x :: suf) (length pre) = Ok x.
Proof. unfold aget. by rewrite list_lookup_middle. Qed.

Lemma aset_app_r {A} (pre suf : list A) x y :
  aset (pre ++ x :: suf) (length pre) y = Ok (pre ++ y :: suf).
Proof.
  unfold aset. rewrite length_app. simpl.
  destruct (decide _) as [_|Hn]; [|lia].
  f_equal. rewrite insert_app_r_alt by lia.
  by replace (length pre - length pre)%nat with O by lia.
Qed.

(** ** The shift-and-insert loop inserts into the initialised prefix *)

Section ShiftFacts.
Context {A : Type}.
Variable test : A -> outcome bool.

Lemma shift_insert_rev new (r : list A) : forall h suf,
  shift_insert test (length r) (rev r ++ h :: suf) new =
  do l <- ins_rev test new r; Ok (rev l ++ suf).
Proof.
  unfold shift_insert.
  induction r as [|hc r' IH]; intros h suf.
  - cbn. unfold aset. cbn [length]. case_decide; [done|lia].
  - cbn [length shift_loop ins_rev rev].
    rewrite <- (length_rev r') at 1.
    rewrite <- app_assoc. cbn [app]. rewrite aget_app_r. cbn [obind].
    destruct (test hc) as [[|]| |]; cbn [obind]; try done.
    + replace (S (length r')) with (length (rev r' ++ [hc]))
        by (rewrite length_app, length_rev; simpl; lia).
      rewrite (cons_middle hc (rev r') (h :: suf)), app_assoc.
      rewrite aset_app_r. cbn [rev]. by rewrite <- !app_assoc.
    + replace (S (length r')) with (length (rev r' ++ [hc]))
        by (rewrite length_app, length_rev; simpl; lia).
      rewrite (cons_middle hc (rev r') (h :: suf)), app_assoc.
      rewrite aset_app_r. cbn [obind].
      rewrite <- app_assoc. cbn [app].
      rewrite IH.
      destruct (ins_rev test new r') as [l| |]; cbn [obind]; try done.
      cbn [rev]. by rewrite <- app_assoc.
Qed.

Lemma shift_insert_prefix new (pre : list A) h suf :
  shift_insert test (length pre) (pre ++ h :: suf) new =
  do l <- ins_back test new pre; Ok (l ++ suf).
Proof.
  rewrite <- (rev_involutive pre) at 2.
  rewrite <- (length_rev pre).
  rewrite shift_insert_rev. unfold ins_back.
  by destruct (ins_rev test new (rev pre)).
Qed.
End ShiftFacts.

Section InsertFacts.
Context {A : Type}.
Variable test : A -> outcome bool.

(** Where [ins_rev] puts the new entry: after the entries that say
    "shift on", in front of the first one that says "break". *)
Lemma ins_rev_split new (r l : list A) :
  ins_rev test new r = Ok l ->
  exists r1 r2, r = r1 ++ r2 /\ l = r1 ++ new :: r2 /\
    Forall (fun hc => test hc = Ok false) r1 /\
    (r2 = [] \/ exists hc r2', r2 = hc :: r2' /\ test hc = Ok true).
Proof.
  revert l. induction r as [|hc r' IH]; intros l; cbn [ins_rev].
  - intros [= <-]. exists [], []. repeat split; auto.
  - destruct (test hc) as [[|]| |] eqn:Ht; cbn [obind]; try discriminate.
    + intros [= <-]. exists [], (hc :: r'). repeat split; eauto.
    + destruct (ins_rev test new r') as [l'| |]; cbn [obind]; try discriminate.
      intros [= <-]. destruct (IH l' eq_refl) as (r1 & r2 & -> & -> & Hf & Hb).
      exists (hc :: r1), r2. repeat split; auto.
Qed.

Lemma ins_back_split new (pre l : list A) :
  ins_back test new pre = Ok l ->
  exists p1 p2, pre = p1 ++ p2 /\ l = p1 ++ new :: p2 /\
    Forall (fun hc => test hc = Ok false) p2 /\
    (p1 = [] \/ exists p1' hc, p1 = p1' ++ [hc] /\ test hc = Ok true).
Proof.
  unfold ins_back.
  destruct (ins_rev test new (rev pre)) as [l'| |] eqn:E; cbn [obind];
    try discriminate.
  intros [= <-].
  destruct (ins_rev_split _ _ _ E) as (r1 & r2 & Hr & -> & Hf & Hb).
  exists (rev r2), (rev r1). repeat split.
  - rewrite <- rev_app_distr, <- Hr. by rewrite rev_involutive.
  - rewrite rev_app_distr. cbn [rev]. by rewrite <- app_assoc.
  - rewrite Forall_forall in *. intros x Hx. apply Hf.
    by rewrite list_elem_of_In, in_rev, <- list_elem_of_In.
  - destruct Hb as [->|(hc & r2' & -> & Ht)]; [by left|right].
    exists (rev r2'), hc. by split.
Qed.

Lemma ins_back_length new (pre l : list A) :
  ins_back test new pre = Ok l -> length l = S (length pre).
Proof.
  intros (p1 & p2 & -> & -> & _)%ins_back_split.
  rewrite !length_app. simpl. lia.
Qed.

Lemma ins_back_Permutation new (pre l : list A) :
  ins_back test new pre = Ok l -> l ≡ₚ pre ++ [new].
Proof.
  intros (p1 & p2 & -> & -> & _)%ins_back_split.
  rewrite <- app_assoc. apply Permutation_app_head.
  rewrite <- Permutation_cons_append. done.
Qed.

(** The loop cannot fail when no test does. *)
Lemma ins_rev_total new (r : list A) :
  Forall (fun hc => exists b, test hc = Ok b) r ->
  exists l, ins_rev test new r = Ok l.
Proof.
  induction 1 as [|hc r' [b Hb] _ [l IH]]; cbn [ins_rev]; eauto.
  rewrite Hb. cbn [obind]. destruct b; eauto. rewrite IH. cbn. eauto.
Qed.

Lemma ins_back_total new (pre : list A) :
  Forall (fun hc => exists b, test hc = Ok b) pre ->
  exists l, ins_back test new pre = Ok l.
Proof.
  intros H. unfold ins_back.
  destruct (ins_rev_total new (rev pre)) as [l ->]; cbn; eauto.
  rewrite Forall_forall in *. intros x Hx. apply H.
  by rewrite list_elem_of_In, in_rev, <- list_elem_of_In.
Qed.

(** Insertion keeps a list sorted for any transitive order the tests
    agree with. *)
Lemma ins_back_sorted (R : relation A) `{!Transitive R} new pre l :
  (forall hc, hc ∈ pre -> test hc = Ok true -> R hc new) ->
  (forall hc, hc ∈ pre -> test hc = Ok false -> R new hc) ->
  StronglySorted R pre ->
  ins_back test new pre = Ok l ->
  StronglySorted R l.
Proof.
  intros Hbrk Hcont Hs (p1 & p2 & -> & -> & Hf & Hb)%ins_back_split.
  apply StronglySorted_app in Hs as (H12 & Hs1 & Hs2).
  apply StronglySorted_app. split_and!; [|done|].
  - intros x1 x2 Hx1 Hx2.
    apply elem_of_cons in Hx2 as [->|Hx2]; [|auto].
    destruct Hb as [->|(p1' & hc & -> & Ht)]; [by apply elem_of_nil in Hx1|].
    assert (R hc new) as Hhc.
    { apply Hbrk; [|done]. rewrite !elem_of_app, list_elem_of_singleton. auto. }
    apply elem_of_app in Hx1 as [Hx1|Hx1].
    + etrans; [|exact Hhc].
      apply StronglySorted_app in Hs1 as (H' & _ & _).
      apply H'; [done|by apply list_elem_of_singleton].
    + apply list_elem_of_singleton in Hx1 as ->. done.
  - apply StronglySorted_cons. split; [|done].
    rewrite Forall_forall in *. intros x Hx.
    apply Hcont; [|auto]. apply elem_of_app. auto.
Qed.
End InsertFacts.

(** ** H.264 default reference lists *)

Section H264DefaultLists.
Import H264.

(** The array loop computes the list-level insertion on the first [n]
    cells and leaves the cells behind them alone. *)
Lemma insert_candidates_P_refine (pic : Picture) (cands : list Picture) :
  type pic = FF_HW_PICTURE_TYPE_P ->
  forall (l0 rest0 rpl1 l1 : list Picture),
  (length cands <= length rest0)%nat ->
  ofold (add_candidate pic) (l0 ++ rest0, rpl1, length l0) cands =
  do '(l0', _) <- ofold (add_candidate_l pic) (l0, l1) cands;
  Ok (l0' ++ drop (length cands) rest0, rpl1, length l0').
Proof.
  intros Hty. induction cands as [|hn cands IH]; intros l0 rest0 rpl1 l1 Hlen.
  - cbn. by rewrite drop_0.
  - destruct rest0 as [|h suf]; [simpl in Hlen; lia|].
    cbn [ofold add_candidate add_candidate_l]. rewrite Hty.
    destruct (av_assert0 (fn hn <? fn pic)) as [[]| |]; cbn [obind]; try done.
    rewrite shift_insert_prefix.
    destruct (ins_back (test_p hn) hn l0) as [l0'| |] eqn:E; cbn [obind];
      try done.
    rewrite <- (ins_back_length _ _ _ _ E).
    rewrite (IH l0' suf rpl1 l1) by (simpl in Hlen; lia).
    done.
Qed.

Lemma insert_candidates_B_refine (pic : Picture) (cands : list Picture) :
  type pic = FF_HW_PICTURE_TYPE_B ->
  forall (l0 rest0 l1 rest1 : list Picture),
  length l1 = length l0 ->
  (length cands <= length rest0)%nat ->
  (length cands <= length rest1)%nat ->
  ofold (add_candidate pic) (l0 ++ rest0, l1 ++ rest1, length l0) cands =
  do '(l0', l1') <- ofold (add_candidate_l pic) (l0, l1) cands;
  Ok (l0' ++ drop (length cands) rest0,
      l1' ++ drop (length cands) rest1, length l0').
Proof.
  intros Hty.
  induction cands as [|hn cands IH]; intros l0 rest0 l1 rest1 Hl Hlen0 Hlen1.
  - cbn. by rewrite !drop_0.
  - destruct rest0 as [|h0 suf0]; [simpl in Hlen0; lia|].
    destruct rest1 as [|h1 suf1]; [simpl in Hlen1; lia|].
    cbn [ofold add_candidate add_candidate_l]. rewrite Hty.
    destruct (av_assert0 (fn hn <? fn pic)) as [[]| |]; cbn [obind]; try done.
    rewrite shift_insert_prefix.
    destruct (ins_back (test_b0 pic hn) hn l0) as [l0'| |] eqn:E0;
      cbn [obind]; try done.
    rewrite <- Hl at 1. rewrite shift_insert_prefix.
    destruct (ins_back (test_b1 pic hn) hn l1) as [l1'| |] eqn:E1;
      cbn [obind]; try done.
    rewrite <- (ins_back_length _ _ _ _ E0).
    rewrite (IH l0' suf0 l1' suf1); simpl in *; try lia; [done|].
    rewrite (ins_back_length _ _ _ _ E0), (ins_back_length _ _ _ _ E1). lia.
Qed.

(** *** P pictures: descending [frame_num] *)

Lemma test_p_true hn hc : test_p hn hc = Ok true -> fn hc > fn hn.
Proof.
  unfold test_p. destruct (fn hc =? fn hn); cbn; [done|].
  intros [= H]. lia.
Qed.

Lemma test_p_false hn hc : test_p hn hc = Ok false -> fn hc < fn hn.
Proof.
  unfold test_p. destruct (Z.eqb_spec (fn hc) (fn hn)); cbn; [done|].
  intros [= H]. lia.
Qed.

Lemma test_p_defined hn hc : test_p hn hc <> Undefined.
Proof. unfold test_p. by destruct (fn hc =? fn hn). Qed.

#[local] Instance fn_desc_trans : Transitive fn_desc.
Proof. unfold fn_desc. intros a b c. lia. Qed.

Lemma fn_desc_NoDup l : StronglySorted fn_desc l -> NoDup (fn <$> l).
Proof.
  induction 1 as [|a l _ IH Hf]; cbn; [constructor|].
  constructor; [|done].
  rewrite list_elem_of_fmap. intros (b & Hb & Hin).
  rewrite Forall_forall in Hf. specialize (Hf b Hin). unfold fn_desc in Hf. lia.
Qed.

Lemma ins_rev_defined {A} (test : A -> outcome bool) new r :
  (forall hc, test hc <> Undefined) -> ins_rev test new r <> Undefined.
Proof.
  intros Ht. induction r as [|hc r IH]; cbn [ins_rev]; [done|].
  specialize (Ht hc).
  destruct (test hc) as [[|]| |]; cbn [obind]; try done.
  by destruct (ins_rev test new r).
Qed.

Lemma ins_back_defined {A} (test : A -> outcome bool) new pre :
  (forall hc, test hc <> Undefined) -> ins_back test new pre <> Undefined.
Proof.
  intros Ht. unfold ins_back. pose proof (ins_rev_defined test new (rev pre) Ht).
  by destruct (ins_rev test new (rev pre)).
Qed.

(** Inserting a fresh [frame_num] keeps the list sorted ... *)
Lemma ins_back_P_ok hn l0 :
  StronglySorted fn_desc l0 -> fn hn ∉ (fn <$> l0) ->
  exists l0', ins_back (test_p hn) hn l0 = Ok l0' /\
    StronglySorted fn_desc l0' /\ l0' ≡ₚ l0 ++ [hn].
Proof.
  intros Hs Hfresh.
  destruct (ins_back_total (test_p hn) hn l0) as [l0' E].
  { rewrite Forall_forall. intros hc Hhc. unfold test_p.
    destruct (Z.eqb_spec (fn hc) (fn hn)) as [e|]; cbn; [|eauto].
    exfalso. apply Hfresh. rewrite <- e. by apply list_elem_of_fmap_2. }
  exists l0'. split_and!; [done| |by eapply ins_back_Permutation].
  eapply (ins_back_sorted _ fn_desc); [| |exact Hs|exact E].
  - intros hc _ H%test_p_true. exact H.
  - intros hc _ H%test_p_false. unfold fn_desc. lia.
Qed.

(** ... and inserting a [frame_num] that is already there trips the
    assertion of line 790. *)
Lemma ins_back_P_dup hn l0 :
  StronglySorted fn_desc l0 -> fn hn ∈ (fn <$> l0) ->
  ins_back (test_p hn) hn l0 = AssertionFailure.
Proof.
  intros Hs Hdup.
  destruct (ins_back (test_p hn) hn l0) as [l| |] eqn:E; [exfalso|done|].
  - apply ins_back_split in E as (p1 & p2 & -> & _ & Hf & Hb).
    apply StronglySorted_app in Hs as (_ & Hs1 & _).
    apply list_elem_of_fmap in Hdup as (c & Hc & Hin).
    apply elem_of_app in Hin as [Hin|Hin].
    + destruct Hb as [->|(p1' & hc & -> & Ht%test_p_true)];
        [by apply elem_of_nil in Hin|].
      apply StronglySorted_app in Hs1 as (H' & _ & _).
      apply elem_of_app in Hin as [Hin|Hin%list_elem_of_singleton].
      * specialize (H' c hc Hin). unfold fn_desc in H'.
        rewrite list_elem_of_singleton in H'. specialize (H' eq_refl). lia.
      * subst c. lia.
    + rewrite Forall_forall in Hf. apply Hf, test_p_false in Hin. lia.
  - exfalso. eapply ins_back_defined; [|exact E]. apply test_p_defined.
Qed.

Lemma fold_P_ok pic cands : type pic = FF_HW_PICTURE_TYPE_P ->
  forall l0 l1,
  StronglySorted fn_desc l0 ->
  NoDup (fn <$> (l0 ++ cands)) ->
  Forall (fun c => fn c < fn pic) cands ->
  exists l0', ofold (add_candidate_l pic) (l0, l1) cands = Ok (l0', l1) /\
    StronglySorted fn_desc l0' /\ l0' ≡ₚ l0 ++ cands.
Proof.
  intros Hty. induction cands as [|hn cands IH]; intros l0 l1 Hs Hnd Hlt.
  - exists l0. cbn. by rewrite app_nil_r.
  - apply Forall_cons in Hlt as [Hhn Hlt].
    destruct (ins_back_P_ok hn l0 Hs) as (l0' & E & Hs' & Hp).
    { rewrite fmap_app, fmap_cons in Hnd.
      apply NoDup_app in Hnd as (_ & Hnd & _).
      intros Hin. apply (Hnd _ Hin). by left. }
    destruct (IH l0' l1 Hs') as (l0'' & E' & Hs'' & Hp'); [|done|].
    { rewrite Hp, <- app_assoc. done. }
    exists l0''. split_and!; [|done|].
    + cbn [ofold add_candidate_l]. rewrite Hty.
      replace (fn hn <? fn pic) with true by lia. cbn [av_assert0 obind].
      rewrite E. cbn [obind]. exact E'.
    + rewrite Hp', Hp, <- app_assoc. done.
Qed.

Lemma fold_P_dup pic cands : type pic = FF_HW_PICTURE_TYPE_P ->
  forall l0 l1,
  StronglySorted fn_desc l0 ->
  ~ NoDup (fn <$> (l0 ++ cands)) ->
  ofold (add_candidate_l pic) (l0, l1) cands = AssertionFailure.
Proof.
  intros Hty. induction cands as [|hn cands IH]; intros l0 l1 Hs Hnd.
  - exfalso. apply Hnd. rewrite app_nil_r. by apply fn_desc_NoDup.
  - cbn [ofold add_candidate_l]. rewrite Hty.
    destruct (fn hn <? fn pic); cbn [av_assert0 obind]; [|done].
    destruct (decide (fn hn ∈ (fn <$> l0))) as [Hin|Hnin].
    + by rewrite ins_back_P_dup.
    + destruct (ins_back_P_ok hn l0 Hs Hnin) as (l0' & -> & Hs' & Hp).
      cbn [obind]. apply IH; [done|].
      rewrite Hp, <- app_assoc. done.
Qed.

(** *** B pictures: the loop of lines 797-827 *)

Lemma test_b0_true hp hn hc :
  test_b0 hp hn hc = Ok true -> before0 (poc hp) hc hn.
Proof.
  unfold test_b0, before0.
  destruct (Z.eqb_spec (poc hc) (poc hp)); cbn; [done|].
  intros [= H]. destruct (Z.ltb_spec (poc hc) (poc hp)); lia.
Qed.

Lemma test_b0_false hp hn hc :
  poc hn <> poc hp -> test_b0 hp hn hc = Ok false -> before0 (poc hp) hn hc.
Proof.
  unfold test_b0, before0. intros Hn.
  destruct (Z.eqb_spec (poc hc) (poc hp)); cbn; [done|].
  intros [= H]. destruct (Z.ltb_spec (poc hc) (poc hp)); lia.
Qed.

Lemma test_b1_true hp hn hc :
  test_b1 hp hn hc = Ok true -> before1 (poc hp) hc hn.
Proof.
  unfold test_b1, before1.
  destruct (Z.eqb_spec (poc hc) (poc hp)); cbn; [done|].
  intros [= H]. destruct (Z.gtb_spec (poc hc) (poc hp)); lia.
Qed.

Lemma test_b1_false hp hn hc :
  poc hn <> poc hp -> test_b1 hp hn hc = Ok false -> before1 (poc hp) hn hc.
Proof.
  unfold test_b1, before1. intros Hn.
  destruct (Z.eqb_spec (poc hc) (poc hp)); cbn; [done|].
  intros [= H]. destruct (Z.gtb_spec (poc hc) (poc hp)); lia.
Qed.

Lemma test_b0_total hp hn hc :
  poc hc <> poc hp -> exists b, test_b0 hp hn hc = Ok b.
Proof.
  intros H. unfold test_b0.
  destruct (Z.eqb_spec (poc hc) (poc hp)); [done|]. cbn. eauto.
Qed.

Lemma test_b1_total hp hn hc :
  poc hc <> poc hp -> exists b, test_b1 hp hn hc = Ok b.
Proof.
  intros H. unfold test_b1.
  destruct (Z.eqb_spec (poc hc) (poc hp)); [done|]. cbn. eauto.
Qed.

#[local] Instance before0_trans cur : Transitive (before0 cur).
Proof. unfold before0. intros a b c. lia. Qed.

#[local] Instance before1_trans cur : Transitive (before1 cur).
Proof. unfold before1. intros a b c. lia. Qed.

Lemma fold_B_ok pic cands : type pic = FF_HW_PICTURE_TYPE_B ->
  Forall (fun c => fn c < fn pic) cands ->
  Forall (fun c => poc c <> poc pic) cands ->
  forall l0 l1,
  Forall (fun c => poc c <> poc pic) l0 ->
  Forall (fun c => poc c <> poc pic) l1 ->
  StronglySorted (before0 (poc pic)) l0 ->
  StronglySorted (before1 (poc pic)) l1 ->
  exists l0' l1',
    ofold (add_candidate_l pic) (l0, l1) cands = Ok (l0', l1') /\
    StronglySorted (before0 (poc pic)) l0' /\
    StronglySorted (before1 (poc pic)) l1' /\
    l0' ≡ₚ l0 ++ cands /\ l1' ≡ₚ l1 ++ cands.
Proof.
  intros Hty Hlt Hne. induction cands as [|hn cands IH];
    intros l0 l1 Hne0 Hne1 Hs0 Hs1.
  - exists l0, l1. cbn. by rewrite !app_nil_r.
  - apply Forall_cons in Hlt as [Hhn Hlt].
    apply Forall_cons in Hne as [Hhne Hne].
    destruct (ins_back_total (test_b0 pic hn) hn l0) as [l0' E0].
    { eapply Forall_impl; [exact Hne0|]. intros hc. apply test_b0_total. }
    destruct (ins_back_total (test_b1 pic hn) hn l1) as [l1' E1].
    { eapply Forall_impl; [exact Hne1|]. intros hc. apply test_b1_total. }
    pose proof (ins_back_Permutation _ _ _ _ E0) as Hp0.
    pose proof (ins_back_Permutation _ _ _ _ E1) as Hp1.
    destruct (IH Hlt Hne l0' l1') as (l0'' & l1'' & E & Hs0' & Hs1' & Hp0' & Hp1').
    { rewrite Hp0. apply Forall_app. auto. }
    { rewrite Hp1. apply Forall_app. auto. }
    { eapply (ins_back_sorted _ (before0 (poc pic))); [| |exact Hs0|exact E0].
      - intros hc _. apply test_b0_true.
      - intros hc _. by apply test_b0_false. }
    { eapply (ins_back_sorted _ (before1 (poc pic))); [| |exact Hs1|exact E1].
      - intros hc _. apply test_b1_true.
      - intros hc _. by apply test_b1_false. }
    exists l0'', l1''. split_and!; try done.
    + cbn [ofold add_candidate_l]. rewrite Hty.
      replace (fn hn <? fn pic) with true by lia. cbn [av_assert0 obind].
      rewrite E0. cbn [obind]. rewrite E1. cbn [obind]. exact E.
    + rewrite Hp0', Hp0, <- app_assoc. done.
    + rewrite Hp1', Hp1, <- app_assoc. done.
Qed.

(** A list in list-0 order is its past part by decreasing POC followed by
    its future part by increasing POC. *)
Lemma before0_decompose cur l :
  Forall (fun c => poc c <> cur) l ->
  StronglySorted (before0 cur) l ->
  exists past future, l = past ++ future /\
    Forall (fun c => poc c < cur) past /\
    Forall (fun c => ~ poc c < cur) future /\
    StronglySorted poc_desc past /\ StronglySorted poc_asc future.
Proof.
  intros Hne Hs. induction Hs as [|a l Hs IH Ha].
  - exists [], []. split_and!; constructor.
  - apply Forall_cons in Hne as [Hane Hne].
    destruct (IH Hne) as (past & future & -> & Hp & Hf & Hsp & Hsf).
    apply Forall_app in Ha as [Hap Haf].
    destruct (decide (poc a < cur)) as [Hlt|Hge].
    + exists (a :: past), future. split_and!; try done.
      * by constructor.
      * constructor; [done|].
        rewrite Forall_forall in *. intros b Hb.
        specialize (Hap b Hb). specialize (Hp b Hb).
        unfold before0, poc_desc in *. lia.
    + destruct past as [|b past].
      * exists [], (a :: future). split_and!; try done.
        -- by constructor.
        -- constructor; [done|].
           rewrite Forall_forall in *. intros b Hb.
           specialize (Haf b Hb). unfold before0, poc_asc in *. lia.
      * exfalso. apply Forall_cons in Hap as [Hab _].
        apply Forall_cons in Hp as [Hb _]. unfold before0 in Hab. lia.
Qed.

Lemma before1_decompose cur l :
  Forall (fun c => poc c <> cur) l ->
  StronglySorted (before1 cur) l ->
  exists future past, l = future ++ past /\
    Forall (fun c => poc c > cur) future /\
    Forall (fun c => ~ poc c > cur) past /\
    StronglySorted poc_asc future /\ StronglySorted poc_desc past.
Proof.
  intros Hne Hs. induction Hs as [|a l Hs IH Ha].
  - exists [], []. split_and!; constructor.
  - apply Forall_cons in Hne as [Hane Hne].
    destruct (IH Hne) as (future & past & -> & Hf & Hp & Hsf & Hsp).
    apply Forall_app in Ha as [Haf Hap].
    destruct (decide (poc a > cur)) as [Hgt|Hle].
    + exists (a :: future), past. split_and!; try done.
      * by constructor.
      * constructor; [done|].
        rewrite Forall_forall in *. intros b Hb.
        specialize (Haf b Hb). specialize (Hf b Hb).
        unfold before1, poc_asc in *. lia.
    + destruct future as [|b future].
      * exists [], (a :: past). split_and!; try done.
        -- by constructor.
        -- constructor; [done|].
           rewrite Forall_forall in *. intros b Hb.
           specialize (Hap b Hb). unfold before1, poc_desc in *. lia.
      * exfalso. apply Forall_cons in Haf as [Hab _].
        apply Forall_cons in Hf as [Hb _]. unfold before1 in Hab. lia.
Qed.

Lemma filter_split {A} (P : A -> Prop) `{!forall x, Decision (P x)}
    (l l1 l2 : list A) :
  l ≡ₚ l1 ++ l2 -> Forall P l1 -> Forall (fun x => ~ P x) l2 ->
  l1 ≡ₚ filter P l /\ l2 ≡ₚ filter (fun x => ~ P x) l.
Proof.
  intros Hp H1 H2. rewrite Hp, !filter_app.
  assert (forall (Q : A -> Prop) `{!forall x, Decision (Q x)} (k : list A),
    Forall Q k -> filter Q k = k) as Hall.
  { intros Q ? k. induction 1; [done|].
    rewrite filter_cons_True by done. by f_equal. }
  assert (forall (Q : A -> Prop) `{!forall x, Decision (Q x)} (k : list A),
    Forall (fun x => ~ Q x) k -> filter Q k = []) as Hnone.
  { intros Q ? k. induction 1; [done|].
    by rewrite filter_cons_False by done. }
  rewrite (Hall P _ l1 H1), (Hnone P _ l2 H2), app_nil_r.
  rewrite (Hall _ _ l2 H2), (Hnone (fun x => ~ P x) _ l1), app_nil_l; [done|].
  eapply Forall_impl; [exact H1|]. cbn. tauto.
Qed.

Lemma fold_B_Permutation pic cands : type pic = FF_HW_PICTURE_TYPE_B ->
  forall l0 l1 l0' l1',
  ofold (add_candidate_l pic) (l0, l1) cands = Ok (l0', l1') ->
  l0' ≡ₚ l0 ++ cands /\ l1' ≡ₚ l1 ++ cands.
Proof.
  intros Hty. induction cands as [|hn cands IH]; intros l0 l1 l0' l1'.
  - cbn. intros [= <- <-]. by rewrite !app_nil_r.
  - cbn [ofold add_candidate_l]. rewrite Hty.
    intros ([k0 k1] & H1 & H2)%obind_Ok.
    apply obind_Ok in H1 as ([] & _ & H1).
    apply obind_Ok in H1 as (m0 & E0 & H1).
    apply obind_Ok in H1 as (m1 & E1 & [= <- <-]).
    apply IH in H2 as [-> ->].
    rewrite (ins_back_Permutation _ _ _ _ E0).
    rewrite (ins_back_Permutation _ _ _ _ E1).
    by rewrite <- !app_assoc.
Qed.

(** What the loop leaves in the arrays of a B picture, whenever it
    returns. *)
Lemma insert_candidates_B_shape pic prv rpl0 rpl1 rpl0' rpl1' n :
  type pic = FF_HW_PICTURE_TYPE_B ->
  (length (dpb prv) <= length rpl0)%nat ->
  (length (dpb prv) <= length rpl1)%nat ->
  insert_candidates pic prv rpl0 rpl1 = Ok (rpl0', rpl1', n) ->
  n = length (dpb prv) /\
  take n rpl0' ≡ₚ dpb prv /\ take n rpl1' ≡ₚ dpb prv /\
  length rpl0' = length rpl0 /\ length rpl1' = length rpl1.
Proof.
  intros Hty Hl0 Hl1. unfold insert_candidates.
  change (rpl0, rpl1, O)
    with ([] ++ rpl0, [] ++ rpl1, length (@nil Picture)).
  rewrite (insert_candidates_B_refine pic (dpb prv) Hty [] rpl0 [] rpl1)
    by done.
  intros ([l0 l1] & E & [= <- <- <-])%obind_Ok.
  apply (fold_B_Permutation pic _ Hty) in E as [Hp0 Hp1].
  cbn [app] in Hp0, Hp1.
  assert (length l0 = length (dpb prv)) as Hn0 by (by rewrite Hp0).
  assert (length l1 = length (dpb prv)) as Hn1 by (by rewrite Hp1).
  rewrite take_app_length. rewrite Hn0, <- Hn1, take_app_length.
  rewrite !length_app, !length_drop. split_and!; try done; lia.
Qed.

(** *** The degenerate-list correction of lines 832-839 *)

Lemma first_difference_spec (rpl0 rpl1 : list Picture) (k : nat) :
  forall i, (i + k <= length rpl0)%nat -> (i + k <= length rpl1)%nat ->
  exists j, first_difference rpl0 rpl1 i k = Ok j /\
    (j = (i + k)%nat <->
     addr <$> take k (drop i rpl0) = addr <$> take k (drop i rpl1)).
Proof.
  induction k as [|k IH]; intros i H0 H1.
  - exists i. split; [done|]. split; [done|lia].
  - destruct (lookup_lt_is_Some_2 rpl0 i) as [a Ha]; [lia|].
    destruct (lookup_lt_is_Some_2 rpl1 i) as [b Hb]; [lia|].
    cbn [first_difference]. unfold aget. rewrite Ha, Hb. cbn [obind].
    rewrite (drop_S _ _ _ Ha), (drop_S _ _ _ Hb). cbn [take fmap list_fmap].
    unfold ptr_eqb. destruct (N.eqb_spec (addr a) (addr b)) as [e|ne]; cbn.
    + destruct (IH (S i)) as (j & -> & Hj); [lia..|].
      exists j. split; [done|]. rewrite e.
      replace (i + S k)%nat with (S i + k)%nat by lia.
      rewrite Hj. split; [by intros ->|by intros [= ->]].
    + exists i. split; [done|]. split; [lia|by intros [= ?]].
Qed.

Lemma degenerate_correction_spec pic rpl0 rpl1 n :
  type pic = FF_HW_PICTURE_TYPE_B ->
  (n <= length rpl0)%nat -> (n <= length rpl1)%nat ->
  (same_entries n rpl0 rpl1 ->
   degenerate_correction pic rpl0 rpl1 n = FFSWAP rpl1 0 1) /\
  (~ same_entries n rpl0 rpl1 ->
   degenerate_correction pic rpl0 rpl1 n = Ok rpl1).
Proof.
  intros Hty H0 H1. unfold degenerate_correction, same_entries. rewrite Hty.
  destruct (first_difference_spec rpl0 rpl1 n O) as (j & -> & Hj); [lia..|].
  cbn [obind]. rewrite !drop_0 in Hj. cbn in Hj.
  destruct (Nat.eqb_spec j n) as [e|ne]; split; try done.
  - intros Hne. exfalso. by apply Hne, Hj.
  - intros He. exfalso. by apply ne, Hj.
Qed.

Lemma FFSWAP_first_two {A} (a b : A) rest :
  FFSWAP (a :: b :: rest) 0 1 = Ok (b :: a :: rest).
Proof.
  unfold FFSWAP, aget, aset. cbn [lookup list_lookup obind length].
  rewrite decide_True by lia. cbn [obind insert list_insert length].
  by rewrite decide_True by lia.
Qed.

(** The lists the loop of lines 797-827 builds for a B picture. *)
Lemma insert_candidates_B_ordered
    (pic prv : Picture) (rpl0 rpl1 : list Picture) :
  type pic = FF_HW_PICTURE_TYPE_B ->
  prev pic = Some prv ->
  (length (dpb prv) <= length rpl0)%nat ->
  (length (dpb prv) <= length rpl1)%nat ->
  Forall (fun c => fn c < fn pic) (dpb prv) ->
  Forall (fun c => poc c <> poc pic) (dpb prv) ->
  let n := length (dpb prv) in
  exists rpl0' rpl1',
    insert_candidates pic prv rpl0 rpl1 = Ok (rpl0', rpl1', n) /\
    (exists past future,
       take n rpl0' = past ++ future /\
       past ≡ₚ filter (fun c => poc c < poc pic) (dpb prv) /\
       StronglySorted poc_desc past /\
       future ≡ₚ filter (fun c => ~ poc c < poc pic) (dpb prv) /\
       StronglySorted poc_asc future) /\
    (exists future past,
       take n rpl1' = future ++ past /\
       future ≡ₚ filter (fun c => poc c > poc pic) (dpb prv) /\
       StronglySorted poc_asc future /\
       past ≡ₚ filter (fun c => ~ poc c > poc pic) (dpb prv) /\
       StronglySorted poc_desc past) /\
    (~ same_entries n rpl0' rpl1' ->
     vaapi_encode_h264_default_ref_pic_list pic rpl0 rpl1
       = Ok (rpl0', rpl1', n)).
Proof.
  intros Hty Hprev Hl0 Hl1 Hlt Hne n.
  destruct (fold_B_ok pic (dpb prv) Hty Hlt Hne [] [])
    as (l0 & l1 & E & Hs0 & Hs1 & Hp0 & Hp1); try constructor.
  cbn [app] in Hp0, Hp1.
  assert (length l0 = n) as Hn0 by (by rewrite Hp0).
  assert (length l1 = n) as Hn1 by (by rewrite Hp1).
  assert (insert_candidates pic prv rpl0 rpl1
          = Ok (l0 ++ drop n rpl0, l1 ++ drop n rpl1, n)) as Hret.
  { unfold insert_candidates.
    change (rpl0, rpl1, O)
      with ([] ++ rpl0, [] ++ rpl1, length (@nil Picture)).
    rewrite (insert_candidates_B_refine pic (dpb prv) Hty [] rpl0 [] rpl1)
      by done.
    rewrite E. cbn [obind]. by rewrite Hn0. }
  exists (l0 ++ drop n rpl0), (l1 ++ drop n rpl1).
  split; [exact Hret|].
  rewrite !take_app_length' by done.
  split_and!.
  - destruct (before0_decompose (poc pic) l0)
      as (past & future & -> & Hpa & Hfu & Hspa & Hsfu); [by rewrite Hp0|done|].
    exists past, future.
    destruct (filter_split (fun c => poc c < poc pic) (dpb prv) past future)
      as [H1 H2]; [by rewrite <- Hp0|done|done|].
    by split_and!.
  - destruct (before1_decompose (poc pic) l1)
      as (future & past & -> & Hfu & Hpa & Hsfu & Hspa); [by rewrite Hp1|done|].
    exists future, past.
    destruct (filter_split (fun c => poc c > poc pic) (dpb prv) future past)
      as [H1 H2]; [by rewrite <- Hp1|done|done|].
    by split_and!.
  - intros Hdiff.
    unfold vaapi_encode_h264_default_ref_pic_list. rewrite Hprev, Hret.
    cbn [obind].
    destruct (degenerate_correction_spec pic
                (l0 ++ drop n rpl0) (l1 ++ drop n rpl1) n Hty) as [_ ->];
      [rewrite length_app; lia..|done|done].
Qed.

(** Two lists of which one starts in the past and the other in the future
    of the current picture differ at index 0. *)
Lemma two_sided_lists_differ (cands : list Picture) cur n rpl0 rpl1
    past0 future0 future1 past1 :
  (forall x y, x ∈ cands -> y ∈ cands -> addr x = addr y -> x = y) ->
  take n rpl0 = past0 ++ future0 ->
  past0 ≡ₚ filter (fun c => poc c < cur) cands ->
  take n rpl1 = future1 ++ past1 ->
  future1 ≡ₚ filter (fun c => poc c > cur) cands ->
  (exists c, c ∈ cands /\ poc c < cur) ->
  (exists c, c ∈ cands /\ poc c > cur) ->
  ~ same_entries n rpl0 rpl1.
Proof.
  intros Hinj H0 Hp0 H1 Hp1 (c0 & Hc0 & Hlt) (c1 & Hc1 & Hgt) Hsame.
  unfold same_entries in Hsame. rewrite H0, H1 in Hsame.
  assert (c0 ∈ past0) as Hin0 by (rewrite Hp0; by apply list_elem_of_filter).
  assert (c1 ∈ future1) as Hin1 by (rewrite Hp1; by apply list_elem_of_filter).
  destruct past0 as [|x past0]; [by apply elem_of_nil in Hin0|].
  destruct future1 as [|y future1]; [by apply elem_of_nil in Hin1|].
  cbn in Hsame. injection Hsame as Hxy _.
  assert (x ∈ filter (fun c => poc c < cur) cands) as Hx
    by (rewrite <- Hp0; by left).
  assert (y ∈ filter (fun c => poc c > cur) cands) as Hy
    by (rewrite <- Hp1; by left).
  apply list_elem_of_filter in Hx as [Hxl Hx].
  apply list_elem_of_filter in Hy as [Hyg Hy].
  assert (x = y) as -> by (by apply Hinj). lia.
Qed.

(** C2.  For a B picture whose DPB candidates all precede it in coding
    order (the assertion of line 785) and have a POC different from its
    own, the loop of lines 797-827 returns with, in the first
    [nb_dpb_pics] cells of [rpl0], the candidates of smaller POC by
    decreasing POC followed by the remaining ones by increasing POC, and
    in those of [rpl1] the candidates of greater POC by increasing POC
    followed by the remaining ones by decreasing POC.  These are the lists
    the function hands back whenever they differ somewhere (otherwise the
    correction of lines 832-839 applies to list 1); they always differ when
    the DPB holds candidates on both sides of the current picture, as it
    does for a B picture whose two references are in it. *)
Theorem default_ref_pic_list_B_order
    (pic prv : Picture) (rpl0 rpl1 : list Picture) :
  type pic = FF_HW_PICTURE_TYPE_B ->
  prev pic = Some prv ->
  (length (dpb prv) <= length rpl0)%nat ->
  (length (dpb prv) <= length rpl1)%nat ->
  Forall (fun c => fn c < fn pic) (dpb prv) ->
  Forall (fun c => poc c <> poc pic) (dpb prv) ->
  let n := length (dpb prv) in
  exists rpl0' rpl1',
    insert_candidates pic prv rpl0 rpl1 = Ok (rpl0', rpl1', n) /\
    (exists past future,
       take n rpl0' = past ++ future /\
       past ≡ₚ filter (fun c => poc c < poc pic) (dpb prv) /\
       StronglySorted poc_desc past /\
       future ≡ₚ filter (fun c => ~ poc c < poc pic) (dpb prv) /\
       StronglySorted poc_asc future) /\
    (exists future past,
       take n rpl1' = future ++ past /\
       future ≡ₚ filter (fun c => poc c > poc pic) (dpb prv) /\
       StronglySorted poc_asc future /\
       past ≡ₚ filter (fun c => ~ poc c > poc pic) (dpb prv) /\
       StronglySorted poc_desc past) /\
    (~ same_entries n rpl0' rpl1' ->
     vaapi_encode_h264_default_ref_pic_list pic rpl0 rpl1
       = Ok (rpl0', rpl1', n)) /\
    ((forall x y, x ∈ dpb prv -> y ∈ dpb prv -> addr x = addr y -> x = y) ->
     (exists c, c ∈ dpb prv /\ poc c < poc pic) ->
     (exists c, c ∈ dpb prv /\ poc c > poc pic) ->
     vaapi_encode_h264_default_ref_pic_list pic rpl0 rpl1
       = Ok (rpl0', rpl1', n)).
Proof.
  intros Hty Hprev Hl0 Hl1 Hlt Hne n.
  destruct (insert_candidates_B_ordered pic prv rpl0 rpl1 Hty Hprev Hl0 Hl1
              Hlt Hne) as (rpl0' & rpl1' & Hret & Hl0' & Hl1' & Hdiff).
  exists rpl0', rpl1'. split_and!; try done.
  intros Hinj Hpast Hfuture. apply Hdiff.
  destruct Hl0' as (past0 & future0 & H0 & Hp0 & _).
  destruct Hl1' as (future1 & past1 & H1 & Hp1 & _).
  by eapply (two_sided_lists_differ (dpb prv)).
Qed.

(** C3.  For a B picture, once the loop has filled the arrays: if the two
    default lists are identical element for element, the call returns
    list 1 with its first two cells exchanged; if they differ somewhere it
    returns list 1 as computed; and with at least two candidates (pairwise
    distinct pictures) the lists returned differ. *)
Theorem default_ref_pic_list_B_degenerate_correction
    (pic prv : Picture) (rpl0 rpl1 rpl0' rpl1' : list Picture) (n : nat) :
  type pic = FF_HW_PICTURE_TYPE_B ->
  prev pic = Some prv ->
  (length (dpb prv) <= length rpl0)%nat ->
  (length (dpb prv) <= length rpl1)%nat ->
  (2 <= length rpl1)%nat ->
  insert_candidates pic prv rpl0 rpl1 = Ok (rpl0', rpl1', n) ->
  exists rpl1'',
    vaapi_encode_h264_default_ref_pic_list pic rpl0 rpl1
      = Ok (rpl0', rpl1'', n) /\
    (same_entries n rpl0' rpl1' ->
     exists a b rest, rpl1' = a :: b :: rest /\ rpl1'' = b :: a :: rest) /\
    (~ same_entries n rpl0' rpl1' -> rpl1'' = rpl1') /\
    ((2 <= n)%nat -> NoDup (addr <$> dpb prv) ->
     ~ same_entries n rpl0' rpl1'').
Proof.
  intros Hty Hprev Hl0 Hl1 Hl2 Hret.
  destruct (insert_candidates_B_shape _ _ _ _ _ _ _ Hty Hl0 Hl1 Hret)
    as (Hn & Hp0 & Hp1 & Hlen0 & Hlen1).
  destruct (degenerate_correction_spec pic rpl0' rpl1' n Hty)
    as [Hsame Hdiff]; [lia..|].
  unfold vaapi_encode_h264_default_ref_pic_list. rewrite Hprev, Hret.
  cbn [obind].
  destruct (decide (addr <$> take n rpl0' = addr <$> take n rpl1'))
    as [He|Hne]; fold (same_entries n rpl0' rpl1') in *.
  - destruct rpl1' as [|a [|b rest]]; [simpl in *; lia..|].
    rewrite (Hsame He), FFSWAP_first_two. cbn [obind].
    exists (b :: a :: rest). split_and!; [done| |done|].
    + intros _. by exists a, b, rest.
    + intros Hn2 Hnd He'. unfold same_entries in He, He'.
      rewrite He in He'.
      destruct n as [|[|n']]; [lia..|]. cbn in He'.
      injection He' as Hab _.
      assert (NoDup (addr <$> take (S (S n')) (a :: b :: rest))) as Hnd'
        by (by rewrite Hp1).
      cbn in Hnd'. apply NoDup_cons in Hnd' as [Hnin _].
      apply Hnin. rewrite Hab. by left.
  - rewrite (Hdiff Hne). cbn [obind].
    exists rpl1'. by split_and!.
Qed.

(** C9.  For a P picture the default list 0 is built by insertion into
    the array [rpl0]: when the DPB candidates of the previous picture have
    pairwise distinct [frame_num]s, all below the current one, the call
    returns with the candidates in the first [nb_dpb_pics] cells in
    strictly descending [frame_num] order (the other cells and [rpl1]
    untouched); when two candidates share a [frame_num] the call does not
    return an error code but dies in an assertion. *)
Theorem default_ref_pic_list_P_descending_frame_num
    (pic prv : Picture) (rpl0 rpl1 : list Picture) :
  type pic = FF_HW_PICTURE_TYPE_P ->
  prev pic = Some prv ->
  (length (dpb prv) <= length rpl0)%nat ->
  let n := length (dpb prv) in
  (NoDup (fn <$> dpb prv) ->
   Forall (fun c => fn c < fn pic) (dpb prv) ->
   exists rpl0',
     vaapi_encode_h264_default_ref_pic_list pic rpl0 rpl1
       = Ok (rpl0', rpl1, n) /\
     take n rpl0' ≡ₚ dpb prv /\
     StronglySorted fn_desc (take n rpl0') /\
     drop n rpl0' = drop n rpl0) /\
  (~ NoDup (fn <$> dpb prv) ->
   vaapi_encode_h264_default_ref_pic_list pic rpl0 rpl1 = AssertionFailure).
Proof.
  intros Hty Hprev Hlen n.
  unfold vaapi_encode_h264_default_ref_pic_list, insert_candidates.
  rewrite Hprev.
  change (rpl0, rpl1, O) with ([] ++ rpl0, rpl1, length (@nil Picture)).
  rewrite (insert_candidates_P_refine pic (dpb prv) Hty [] rpl0 rpl1 [] Hlen).
  split.
  - intros Hnd Hlt.
    destruct (fold_P_ok pic (dpb prv) Hty [] [] (SSorted_nil _) Hnd Hlt)
      as (l0 & -> & Hs & Hp).
    assert (length l0 = n) as Hn by (by rewrite Hp).
    cbn [obind]. unfold degenerate_correction. rewrite Hty. cbn [obind].
    rewrite Hn. eexists. split; [reflexivity|].
    rewrite take_app_length' by done. rewrite drop_app_length' by done.
    done.
  - intros Hnd.
    by rewrite (fold_P_dup pic (dpb prv) Hty [] [] (SSorted_nil _) Hnd).
Qed.
End H264DefaultLists.

(** ** H.264 access-unit writers *)

Section H264Writers.
Import H264.
Variable cbs_insert_err : CodedBitstreamFragment -> au_unit -> Z.
Variable cbs_serialize : list au_unit -> Z * (list Byte.byte * Z).

Abbreviation write_access_unit :=
  (vaapi_encode_h264_write_access_unit cbs_serialize).
Abbreviation add_nal := (vaapi_encode_h264_add_nal cbs_insert_err).

Lemma reset_and_return_units err priv buf len :
  units (current_access_unit (reset_and_return err priv buf len).1.1.2) = [].
Proof. done. Qed.

(** The capacity check comes before the copy. *)
Lemma write_access_unit_ENOSPC buf data_len au e bytes pad :
  cbs_serialize (units au) = (e, (bytes, pad)) -> 0 <= e ->
  data_len < (8 * Z.of_nat (length bytes) - pad) mod size_t_modulus ->
  exists au', write_access_unit buf data_len au
              = (AVERROR ENOSPC, au', buf, data_len).
Proof.
  intros Hs He Hlt. unfold vaapi_encode_h264_write_access_unit,
    ff_cbs_write_fragment_data. rewrite Hs.
  replace (e <? 0) with false by lia. cbn [Z.ltb Z.compare].
  unfold au_bit_length. cbn [data_size data_bit_padding].
  replace (data_len <? _) with true by lia. eauto.
Qed.

Hypothesis no_alloc_failure : forall au u, 0 <= cbs_insert_err au u.

Lemma add_nal_ok au u :
  add_nal au u
  = (0, mkFragment (data au) (data_size au) (data_bit_padding au)
          (units au ++ [u])).
Proof.
  unfold vaapi_encode_h264_add_nal, ff_cbs_insert_unit_content.
  specialize (no_alloc_failure au u).
  replace (cbs_insert_err au u <? 0) with false by lia. done.
Qed.

Lemma add_sei_messages_ok msgs : forall au,
  add_sei_messages cbs_insert_err au msgs
  = (0, mkFragment (data au) (data_size au) (data_bit_padding au)
          (units au ++ (SEIMessage <$> msgs))).
Proof.
  induction msgs as [|t msgs IH]; intros au; cbn [add_sei_messages].
  - rewrite app_nil_r. by destruct au.
  - unfold ff_cbs_sei_add_message, ff_cbs_insert_unit_content.
    specialize (no_alloc_failure au (SEIMessage t)).
    replace (cbs_insert_err au (SEIMessage t) <? 0) with false by lia.
    cbn [Z.ltb Z.compare]. rewrite IH. cbn [data data_size data_bit_padding units].
    by rewrite <- app_assoc.
Qed.

Lemma add_aud_if_needed_ok priv :
  exists priv', add_aud_if_needed cbs_insert_err priv = inr priv' /\
    units (current_access_unit priv')
    = units (current_access_unit priv)
      ++ (if aud_needed priv then [RawAUD] else []) /\
    sei_needed priv' = sei_needed priv.
Proof.
  unfold add_aud_if_needed. destruct (aud_needed priv).
  - rewrite add_nal_ok. cbn. eauto.
  - exists priv. by rewrite app_nil_r.
Qed.
End H264Writers.

Section H264WritersMain.
Import H264.
Variable cbs_insert_err : CodedBitstreamFragment -> au_unit -> Z.
Variable cbs_serialize : list au_unit -> Z * (list Byte.byte * Z).

Abbreviation run := (run_writer cbs_insert_err cbs_serialize).

(** Every path of a writer that has something to write ends in
    [ff_cbs_fragment_reset]. *)
Lemma run_writer_reset call priv buf data_len :
  writes call priv = true ->
  units (current_access_unit (run call priv buf data_len).1.1.2) = [].
Proof.
  intros Hw. destruct call as [| |pic]; cbn [run_writer].
  - unfold vaapi_encode_h264_write_sequence_header.
    destruct (add_aud_if_needed _ priv) as [[e p]|p]; [done|].
    destruct (vaapi_encode_h264_add_nal _ _ RawSPS) as [e1 au1].
    destruct (e1 <? 0); [done|].
    destruct (vaapi_encode_h264_add_nal _ _ RawPPS) as [e2 au2].
    destruct (e2 <? 0); [done|].
    by destruct (vaapi_encode_h264_write_access_unit _ _ _ _)
      as [[[e3 au3] b3] l3].
  - unfold vaapi_encode_h264_write_slice_header.
    destruct (add_aud_if_needed _ priv) as [[e p]|p]; [done|].
    destruct (vaapi_encode_h264_add_nal _ _ RawSlice) as [e1 au1].
    destruct (e1 <? 0); [done|].
    by destruct (vaapi_encode_h264_write_access_unit _ _ _ _)
      as [[[e3 au3] b3] l3].
  - unfold vaapi_encode_h264_write_extra_header.
    cbn [writes] in Hw. rewrite Hw.
    destruct (add_aud_if_needed _ priv) as [[e p]|p]; [done|].
    destruct (add_sei_messages _ _ _) as [e1 au1].
    destruct (e1 <? 0); [done|].
    destruct (vaapi_encode_h264_write_access_unit _ _ _ _)
      as [[[e3 au3] b3] l3].
    by destruct (e3 <? 0).
Qed.

Lemma run_writer_nothing_due call priv buf data_len :
  writes call priv = false ->
  run call priv buf data_len = (AVERROR_EOF, priv, buf, data_len).
Proof.
  destruct call as [| |pic]; cbn [writes run_writer]; try done.
  intros Hw. unfold vaapi_encode_h264_write_extra_header. by rewrite Hw.
Qed.

Lemma run_writer_ENOSPC call priv buf data_len e bytes pad :
  (forall au u, 0 <= cbs_insert_err au u) ->
  writes call priv = true ->
  cbs_serialize (pending_units call priv) = (e, (bytes, pad)) ->
  0 <= e ->
  data_len < (8 * Z.of_nat (length bytes) - pad) mod size_t_modulus ->
  exists priv', run call priv buf data_len
                = (AVERROR ENOSPC, priv', buf, data_len).
Proof.
  intros Hok Hw Hs He Hlt. unfold pending_units in Hs.
  destruct (add_aud_if_needed_ok cbs_insert_err Hok priv)
    as (p & Hp & Hu & Hsn).
  destruct call as [| |pic]; cbn [run_writer].
  - unfold vaapi_encode_h264_write_sequence_header. rewrite Hp.
    rewrite !(add_nal_ok _ Hok). cbn [Z.ltb Z.compare].
    destruct (write_access_unit_ENOSPC cbs_serialize buf data_len
      (current_access_unit (set_au (set_au p
         (mkFragment (data (current_access_unit p))
            (data_size (current_access_unit p))
            (data_bit_padding (current_access_unit p))
            (units (current_access_unit p) ++ [RawSPS])))
         (mkFragment (data (current_access_unit p))
            (data_size (current_access_unit p))
            (data_bit_padding (current_access_unit p))
            ((units (current_access_unit p) ++ [RawSPS]) ++ [RawPPS]))))
      e bytes pad) as [au' Hau]; [|done|done|].
    { cbn. rewrite Hu, <- Hs. f_equal. by rewrite <- !app_assoc. }
    cbn in Hau |- *. rewrite Hau. cbn. eauto.
  - unfold vaapi_encode_h264_write_slice_header. rewrite Hp.
    rewrite !(add_nal_ok _ Hok). cbn [Z.ltb Z.compare].
    destruct (write_access_unit_ENOSPC cbs_serialize buf data_len
      (current_access_unit (set_au p
         (mkFragment (data (current_access_unit p))
            (data_size (current_access_unit p))
            (data_bit_padding (current_access_unit p))
            (units (current_access_unit p) ++ [RawSlice]))))
      e bytes pad) as [au' Hau]; [|done|done|].
    { cbn. rewrite Hu, <- Hs. f_equal. by rewrite <- !app_assoc. }
    cbn in Hau |- *. rewrite Hau. cbn. eauto.
  - unfold vaapi_encode_h264_write_extra_header.
    cbn [writes] in Hw. rewrite Hw, Hp.
    rewrite (add_sei_messages_ok _ Hok). cbn [Z.ltb Z.compare].
    destruct (write_access_unit_ENOSPC cbs_serialize buf data_len
      (current_access_unit (set_sei_needed (set_au p
         (mkFragment (data (current_access_unit p))
            (data_size (current_access_unit p))
            (data_bit_padding (current_access_unit p))
            (units (current_access_unit p)
               ++ (SEIMessage <$> sei_messages_due (sei_needed p) pic)))) 0))
      e bytes pad) as [au' Hau]; [|done|done|].
    { cbn. rewrite Hu, Hsn, <- Hs. f_equal. by rewrite <- !app_assoc. }
    cbn in Hau |- *. rewrite Hau. cbn. eauto.
Qed.

(** C7.  Each of the three writers (sequence header, slice header,
    metadata) empties the pending unit list before it returns, whatever
    the list held on entry and whichever step failed; the metadata writer
    with no message due returns the nothing-pending code without touching
    anything, so that a list empty on entry is empty on return in every
    case.  If no insertion fails and the serialized units need more bits
    (8 times the byte size minus the padding bits, as a [size_t]) than
    [*data_len] offers, the writer returns [AVERROR(ENOSPC)] and leaves the
    caller's buffer and [*data_len] as they were. *)
Theorem write_header_capacity_error_and_reset
    (call : writer_call) (priv : VAAPIEncodeH264Context)
    (buf : list Byte.byte) (data_len : Z) :
  let '(err, priv', buf', data_len') := run call priv buf data_len in
  (writes call priv = true -> units (current_access_unit priv') = []) /\
  (writes call priv = false ->
   (err, priv', buf', data_len') = (AVERROR_EOF, priv, buf, data_len)) /\
  (units (current_access_unit priv) = [] ->
   units (current_access_unit priv') = []) /\
  (writes call priv = true ->
   (forall au u, 0 <= cbs_insert_err au u) ->
   forall e bytes pad,
   cbs_serialize (pending_units call priv) = (e, (bytes, pad)) ->
   0 <= e ->
   data_len < (8 * Z.of_nat (length bytes) - pad) mod size_t_modulus ->
   err = AVERROR ENOSPC /\ buf' = buf /\ data_len' = data_len /\
   units (current_access_unit priv') = []).
Proof.
  pose proof (run_writer_reset call priv buf data_len) as Hreset.
  pose proof (run_writer_nothing_due call priv buf data_len) as Hnone.
  pose proof (run_writer_ENOSPC call priv buf data_len) as Hcap.
  destruct (run call priv buf data_len) as [[[err priv'] buf'] data_len'].
  cbn [fst snd] in Hreset. split_and!; [done|done| |].
  - destruct (writes call priv); [auto|].
    specialize (Hnone eq_refl). intros Hu. by injection Hnone as -> -> -> ->.
  - intros Hw Hok e bytes pad Hs He Hlt.
    destruct (Hcap e bytes pad Hok Hw Hs He Hlt) as [p [= -> -> -> ->]].
    split_and!; auto.
Qed.
End H264WritersMain.

(** ** H.264 SEI scheduling *)

Section H264SEI.
Import H264.

Lemma configure_clears_timing priv :
  Z.land (sei (vaapi_encode_h264_configure_sei false priv)) SEI_TIMING = 0.
Proof.
  cbn. rewrite <- Z.land_assoc. change (Z.land (Z.lnot SEI_TIMING) SEI_TIMING)
    with 0. apply Z.land_0_r.
Qed.

(** The bits of [sei_needed] after [init_sei_needed]. *)
Lemma init_sei_needed_bits priv pic a53 :
  let m := init_sei_needed priv pic a53 in
  (Z.land m SEI_IDENTIFIER =? 0)
    = negb (negb (Z.land (sei priv) SEI_IDENTIFIER =? 0)
            && (encode_order pic =? 0)) /\
  (Z.land m SEI_TIMING =? 0)
    = negb (negb (Z.land (sei priv) SEI_TIMING =? 0)) /\
  (Z.land m SEI_RECOVERY_POINT =? 0)
    = negb (negb (Z.land (sei priv) SEI_RECOVERY_POINT =? 0)
            && PictureType_eqb (type pic) FF_HW_PICTURE_TYPE_I).
Proof.
  unfold init_sei_needed.
  destruct (negb (Z.land (sei priv) SEI_IDENTIFIER =? 0)
            && (encode_order pic =? 0));
  destruct (negb (Z.land (sei priv) SEI_TIMING =? 0));
  destruct (negb (Z.land (sei priv) SEI_RECOVERY_POINT =? 0)
            && PictureType_eqb (type pic) FF_HW_PICTURE_TYPE_I);
  destruct (negb (Z.land (sei priv) SEI_A53_CC =? 0) && a53);
  by vm_compute.
Qed.

Lemma PictureType_eqb_eq a b : PictureType_eqb a b = true <-> a = b.
Proof. destruct a, b; cbn; split; intros; done. Qed.

Lemma elem_of_sei_messages_due t m pic :
  t ∈ sei_messages_due m pic <->
  match t with
  | SEI_TYPE_USER_DATA_UNREGISTERED => Z.land m SEI_IDENTIFIER <> 0
  | SEI_TYPE_PIC_TIMING => Z.land m SEI_TIMING <> 0
  | SEI_TYPE_BUFFERING_PERIOD =>
      Z.land m SEI_TIMING <> 0 /\ type pic = FF_HW_PICTURE_TYPE_IDR
  | SEI_TYPE_RECOVERY_POINT => Z.land m SEI_RECOVERY_POINT <> 0
  | SEI_TYPE_USER_DATA_REGISTERED_ITU_T_T35 => Z.land m SEI_A53_CC <> 0
  end.
Proof.
  unfold sei_messages_due.
  destruct (Z.eqb_spec (Z.land m SEI_IDENTIFIER) 0);
  destruct (Z.eqb_spec (Z.land m SEI_TIMING) 0);
  destruct (Z.eqb_spec (Z.land m SEI_RECOVERY_POINT) 0);
  destruct (Z.eqb_spec (Z.land m SEI_A53_CC) 0);
  destruct (PictureType_eqb (type pic) FF_HW_PICTURE_TYPE_IDR) eqn:E;
  try apply PictureType_eqb_eq in E;
  try (assert (type pic <> FF_HW_PICTURE_TYPE_IDR)
         by (intros E'%PictureType_eqb_eq; congruence));
  cbn [negb app];
  destruct t; rewrite ?elem_of_cons, ?elem_of_nil; naive_solver.
Qed.

(** [vaapi_encode_h264_init_picture_params] leaves [init_sei_needed] in
    [priv->sei_needed]. *)
Lemma init_picture_params_sei_needed ff_alloc_a53_sei priv pic err priv' pic' :
  vaapi_encode_h264_init_picture_params ff_alloc_a53_sei priv pic
    = Ok (err, priv', pic') ->
  exists a53, sei_needed priv' = init_sei_needed priv pic a53.
Proof.
  unfold vaapi_encode_h264_init_picture_params.
  intros (h & _ & H)%obind_Ok.
  destruct (if negb _ then _ else _) as [e a53].
  destruct (negb _ && (e <? 0)).
  - injection H as _ <- _. cbn. eauto.
  - apply obind_Ok in H as ([] & _ & [= _ <- _]). cbn. eauto.
Qed.

(** C8.  The messages the metadata writer adds for a picture whose
    [sei_needed] was set by [vaapi_encode_h264_init_picture_params]: the
    identifier message exactly when the identifier option is on and the
    picture is the first in coding order; the picture-timing message
    exactly when the timing option is on, whatever the picture; the
    buffering-period message exactly when the timing option is on and the
    picture is an IDR picture; the recovery-point message exactly when the
    recovery-point option is on and the picture is a (non-IDR) I picture.
    Configuration with a rate-control mode without HRD clears the timing
    option, and leaves the options alone otherwise. *)
Theorem sei_message_schedule
    (priv : VAAPIEncodeH264Context) (pic : Picture) (a53 : bool) :
  let due := sei_messages_due (init_sei_needed priv pic a53) pic in
  (SEI_TYPE_USER_DATA_UNREGISTERED ∈ due <->
     Z.land (sei priv) SEI_IDENTIFIER <> 0 /\ encode_order pic = 0) /\
  (SEI_TYPE_PIC_TIMING ∈ due <-> Z.land (sei priv) SEI_TIMING <> 0) /\
  (SEI_TYPE_BUFFERING_PERIOD ∈ due <->
     Z.land (sei priv) SEI_TIMING <> 0 /\
     type pic = FF_HW_PICTURE_TYPE_IDR) /\
  (SEI_TYPE_RECOVERY_POINT ∈ due <->
     Z.land (sei priv) SEI_RECOVERY_POINT <> 0 /\
     type pic = FF_HW_PICTURE_TYPE_I) /\
  Z.land (sei (vaapi_encode_h264_configure_sei false priv)) SEI_TIMING = 0 /\
  vaapi_encode_h264_configure_sei true priv = priv.
Proof.
  intros due. subst due.
  destruct (init_sei_needed_bits priv pic a53) as (Hi & Ht & Hr).
  cbn zeta in Hi, Ht, Hr.
  rewrite !elem_of_sei_messages_due.
  split_and!; [..|apply configure_clears_timing|done].
  - rewrite <- Z.eqb_neq, Hi.
    destruct (Z.eqb_spec (Z.land (sei priv) SEI_IDENTIFIER) 0);
    destruct (Z.eqb_spec (encode_order pic) 0); cbn; naive_solver.
  - rewrite <- Z.eqb_neq, Ht.
    destruct (Z.eqb_spec (Z.land (sei priv) SEI_TIMING) 0); cbn; naive_solver.
  - rewrite <- Z.eqb_neq, Ht.
    destruct (Z.eqb_spec (Z.land (sei priv) SEI_TIMING) 0); cbn; naive_solver.
  - rewrite <- Z.eqb_neq, Hr. rewrite <- PictureType_eqb_eq.
    destruct (Z.eqb_spec (Z.land (sei priv) SEI_RECOVERY_POINT) 0);
    destruct (PictureType_eqb (type pic) FF_HW_PICTURE_TYPE_I);
      cbn; naive_solver.
Qed.
End H264SEI.

(** ** H.264 frame_num *)

Section H264FrameNum.
Import H264.
Variable ff_alloc_a53_sei : Picture -> Z * option Z.

Lemma init_hpic_frame_num priv pic h :
  init_hpic priv pic = Ok h ->
  (type pic = FF_HW_PICTURE_TYPE_IDR -> frame_num h = 0) /\
  (type pic <> FF_HW_PICTURE_TYPE_IDR ->
   exists prv, prev pic = Some prv /\
     frame_num h = fn prv + Z.b2z (is_reference prv)).
Proof.
  unfold init_hpic.
  destruct (PictureType_eqb (type pic) FF_HW_PICTURE_TYPE_IDR) eqn:E.
  - apply PictureType_eqb_eq in E.
    destruct (av_assert0 _) as [[]| |]; cbn [obind]; try done.
    intros [= <-]. cbn. split; [done|congruence].
  - assert (type pic <> FF_HW_PICTURE_TYPE_IDR) as Hne
      by (intros E'%PictureType_eqb_eq; congruence).
    destruct (prev pic) as [prv|]; cbn [obind]; try done.
    intros [= <-]. cbn. split; [done|]. intros _. by exists prv.
Qed.

Lemma init_picture_params_inv priv pic err priv' pic' :
  vaapi_encode_h264_init_picture_params ff_alloc_a53_sei priv pic
    = Ok (err, priv', pic') ->
  exists h, init_hpic priv pic = Ok h /\ pic' = set_priv_data pic h.
Proof.
  unfold vaapi_encode_h264_init_picture_params.
  intros (h & Hh & H)%obind_Ok. exists h. split; [done|].
  destruct (if negb _ then _ else _) as [e a53].
  destruct (negb _ && (e <? 0)).
  - by injection H as _ _ <-.
  - apply obind_Ok in H as ([] & _ & [= _ _ <-]). done.
Qed.

Lemma encode_pictures_spec pics : forall priv prv out,
  encode_pictures ff_alloc_a53_sei priv prv pics = Ok out ->
  forall i p, out !! i = Some p ->
  (exists pic, pics !! i = Some pic /\ type p = type pic /\
     is_reference p = is_reference pic) /\
  (type p = FF_HW_PICTURE_TYPE_IDR -> fn p = 0) /\
  (type p <> FF_HW_PICTURE_TYPE_IDR ->
   exists q, match i with O => prv | S i' => out !! i' end = Some q /\
     fn p = fn q + Z.b2z (is_reference q)).
Proof.
  induction pics as [|pic pics IH]; intros priv prv out; cbn [encode_pictures].
  - intros [= <-] i p Hi. by rewrite lookup_nil in Hi.
  - intros ([[err priv'] pic'] & Hinit & H)%obind_Ok.
    destruct (init_picture_params_inv _ _ _ _ _ Hinit) as (h & Hh & ->).
    apply init_hpic_frame_num in Hh as [Hidr Hnon].
    destruct (err <? 0).
    + injection H as <-. intros i p Hi. by rewrite lookup_nil in Hi.
    + apply obind_Ok in H as (rest & Hrest & [= <-]).
      intros [|i] p Hi.
      * injection Hi as <-. split_and!.
        -- by exists pic.
        -- exact Hidr.
        -- exact Hnon.
      * cbn in Hi. destruct (IH _ _ _ Hrest i p Hi) as (Hpic & Hi0 & Hi1).
        split_and!; [done|done|].
        intros Hne. destruct (Hi1 Hne) as (q & Hq & Hfn).
        exists q. split; [|done]. by destruct i.
Qed.

Lemma slice_frame_num_mod priv h :
  0 <= log2_max_frame_num_minus4 priv ->
  slice_frame_num priv h
  = frame_num h mod 2 ^ (4 + log2_max_frame_num_minus4 priv).
Proof.
  intros Hn. unfold slice_frame_num.
  rewrite Z.shiftl_1_l, Z.sub_1_r, <- Z.ones_equiv.
  apply Z.land_ones. lia.
Qed.

(** C1.  Along any sequence of pictures encoded in order, the picture at
    position [i] has [frame_num] 0 if it is an IDR picture and otherwise
    the [frame_num] of the picture before it plus that picture's
    [is_reference] flag (so one more after a reference picture and the
    same after a non-reference picture; a non-IDR picture is never first);
    the [frame_num] written into the slice header obeys the same
    recurrence modulo [2^(4 + log2_max_frame_num_minus4)]. *)
Theorem frame_num_recurrence
    (priv : VAAPIEncodeH264Context) (pics out : list Picture) :
  0 <= log2_max_frame_num_minus4 priv ->
  encode_pictures ff_alloc_a53_sei priv None pics = Ok out ->
  forall i p, out !! i = Some p ->
  (exists pic, pics !! i = Some pic /\ type p = type pic /\
     is_reference p = is_reference pic) /\
  (type p = FF_HW_PICTURE_TYPE_IDR ->
   fn p = 0 /\ slice_frame_num priv (priv_data p) = 0) /\
  (type p <> FF_HW_PICTURE_TYPE_IDR ->
   exists i' q, i = S i' /\ out !! i' = Some q /\
     fn p = fn q + Z.b2z (is_reference q) /\
     slice_frame_num priv (priv_data p)
     = (slice_frame_num priv (priv_data q) + Z.b2z (is_reference q))
         mod 2 ^ (4 + log2_max_frame_num_minus4 priv)).
Proof.
  intros Hn Hrun i p Hi.
  destruct (encode_pictures_spec _ _ _ _ Hrun i p Hi) as (Hpic & Hidr & Hnon).
  split_and!; [done| |].
  - intros Ht. specialize (Hidr Ht). split; [done|].
    rewrite slice_frame_num_mod by done. unfold fn in Hidr. rewrite Hidr.
    apply Z.mod_0_l. lia.
  - intros Ht. destruct (Hnon Ht) as (q & Hq & Hfn).
    destruct i as [|i']; [done|]. exists i', q. split_and!; try done.
    rewrite !slice_frame_num_mod by done. unfold fn in Hfn. rewrite Hfn.
    by rewrite Zplus_mod_idemp_l.
Qed.

(** The counter stays within the index, hence within [int] for any
    sequence a session can see. *)
Lemma frame_num_bounded
    (priv : VAAPIEncodeH264Context) (pics out : list Picture) :
  encode_pictures ff_alloc_a53_sei priv None pics = Ok out ->
  forall i p, out !! i = Some p -> 0 <= fn p <= Z.of_nat i.
Proof.
  intros Hrun i. induction i as [|i IH]; intros p Hi;
    destruct (encode_pictures_spec _ _ _ _ Hrun _ p Hi) as (_ & Hidr & Hnon);
    destruct (decide (type p = FF_HW_PICTURE_TYPE_IDR)) as [e|ne].
  - rewrite (Hidr e). lia.
  - by destruct (Hnon ne) as (q & Hq & _).
  - rewrite (Hidr e). lia.
  - destruct (Hnon ne) as (q & Hq & ->). specialize (IH q Hq).
    destruct (is_reference q); cbn; lia.
Qed.
End H264FrameNum.

(** ** H.264 DPB marking *)

Section H264Marking.
Import H264.

Lemma in_dpb_spec (pic c : Picture) :
  in_dpb pic c = true <-> addr c ∈ (addr <$> dpb pic).
Proof.
  unfold in_dpb. rewrite existsb_exists, list_elem_of_fmap.
  split.
  - intros (x & Hx%list_elem_of_In & He). exists x. split; [|done].
    unfold ptr_eqb in He. by apply N.eqb_eq in He.
  - intros (x & He & Hx). exists x. split; [by apply list_elem_of_In|].
    unfold ptr_eqb. by apply N.eqb_eq.
Qed.

Lemma discard_scan_fold pic l : forall dl k,
  fold_left (discard_step pic) l (dl, k)
  = (dl ++ filter (fun c => addr c ∉ (addr <$> dpb pic)) l,
     k + Z.of_nat (length (filter (fun c => addr c ∈ (addr <$> dpb pic)) l))).
Proof.
  induction l as [|c l IH]; intros dl k; cbn [fold_left].
  - cbn. rewrite app_nil_r. f_equal. lia.
  - unfold discard_step at 2. rewrite !filter_cons.
    destruct (in_dpb pic c) eqn:E.
    + apply in_dpb_spec in E. rewrite IH.
      rewrite decide_False by tauto. rewrite decide_True by done.
      f_equal. cbn [length]. lia.
    + assert (addr c ∉ (addr <$> dpb pic)) as Hn
        by (rewrite <- in_dpb_spec; congruence).
      rewrite IH. rewrite decide_True by done. rewrite decide_False by done.
      by rewrite <- app_assoc.
Qed.

Lemma write_mmco_ok hpic dl : forall pre suf,
  (length dl <= length suf)%nat ->
  Forall (fun old => fn old < frame_num hpic) dl ->
  write_mmco hpic dl (length pre) (pre ++ suf)
  = Ok ((length pre + length dl)%nat,
        pre ++ ((fun old => mkMMCO 1 (frame_num hpic - fn old - 1)) <$> dl)
            ++ drop (length dl) suf).
Proof.
  induction dl as [|old dl IH]; intros pre suf Hlen Hall.
  - cbn. by rewrite Nat.add_0_r, drop_0.
  - destruct suf as [|m suf]; [simpl in Hlen; lia|].
    apply Forall_cons in Hall as [Hold Hall].
    cbn [write_mmco]. replace (fn old <? frame_num hpic) with true by lia.
    cbn [av_assert0 obind]. rewrite aget_app_r, aset_app_r. cbn [obind].
    rewrite (cons_middle _ pre suf), app_assoc.
    replace (S (length pre)) with (length (pre ++ [mkMMCO 1 (frame_num hpic - fn old - 1)]))
      by (rewrite length_app; simpl; lia).
    rewrite IH by (simpl in Hlen; done || lia).
    rewrite length_app. cbn [length fmap list_fmap drop].
    rewrite <- !app_assoc. cbn [app]. do 2 f_equal. lia.
Qed.

Lemma write_mmco_fail hpic dl : forall pre suf,
  (length dl <= length suf)%nat ->
  ~ Forall (fun old => fn old < frame_num hpic) dl ->
  write_mmco hpic dl (length pre) (pre ++ suf) = AssertionFailure.
Proof.
  induction dl as [|old dl IH]; intros pre suf Hlen Hall.
  - exfalso. apply Hall. constructor.
  - destruct suf as [|m suf]; [simpl in Hlen; lia|].
    cbn [write_mmco].
    destruct (Z.ltb_spec (fn old) (frame_num hpic)) as [Hlt|Hge];
      cbn [av_assert0 obind]; [|done].
    rewrite aget_app_r, aset_app_r. cbn [obind].
    rewrite (cons_middle _ pre suf), app_assoc.
    replace (S (length pre)) with (length (pre ++ [mkMMCO 1 (frame_num hpic - fn old - 1)]))
      by (rewrite length_app; simpl; lia).
    apply IH; [simpl in Hlen; lia|].
    intros H. apply Hall. by constructor.
Qed.

(** C6.  For a reference picture that is not an IDR picture, let
    [discard] be the pictures of the previous picture's DPB that are not
    in its own DPB (in DPB order).  If [discard] is empty the marking flag
    is set to 0 and the operation array is left alone.  Otherwise, when
    every discarded picture has a [frame_num] below the current one, the
    flag is set to 1 and the array starts with one operation 1 per
    discarded picture, carrying the current [frame_num] minus the
    discarded one minus 1, followed by an operation 0; when some discarded
    picture has no smaller [frame_num], the call dies in an assertion. *)
Theorem slice_marking_discards
    (priv : VAAPIEncodeH264Context) (pic prv : Picture)
    (flag : Z) (mmco : list MMCO) :
  is_reference pic = true ->
  type pic <> FF_HW_PICTURE_TYPE_IDR ->
  prev pic = Some prv ->
  let discard := filter (fun c => addr c ∉ (addr <$> dpb pic)) (dpb prv) in
  let keep := filter (fun c => addr c ∈ (addr <$> dpb pic)) (dpb prv) in
  Z.of_nat (length keep) <= dpb_frames priv ->
  (length discard < length mmco)%nat ->
  (discard = [] -> slice_marking priv pic flag mmco = Ok (0, mmco)) /\
  (discard <> [] ->
   Forall (fun old => fn old < fn pic) discard ->
   exists stale,
     slice_marking priv pic flag mmco
     = Ok (1, ((fun old => mkMMCO 1 (fn pic - fn old - 1)) <$> discard)
              ++ mkMMCO 0 stale :: drop (S (length discard)) mmco)) /\
  (~ Forall (fun old => fn old < fn pic) discard ->
   slice_marking priv pic flag mmco = AssertionFailure).
Proof.
  intros Href Hty Hprev discard keep Hkeep Hlen.
  assert (PictureType_eqb (type pic) FF_HW_PICTURE_TYPE_IDR = false) as Hb.
  { destruct (PictureType_eqb _ _) eqn:E; [|done].
    by apply PictureType_eqb_eq in E. }
  unfold slice_marking. rewrite Href, Hb, Hprev. cbn [andb negb].
  unfold discard_scan. rewrite discard_scan_fold. cbn [app].
  fold discard keep. rewrite Z.add_0_l.
  replace (Z.of_nat (length keep) <=? dpb_frames priv) with true by lia.
  cbn [av_assert0 obind].
  split_and!.
  - by intros ->.
  - intros Hne Hall. destruct discard as [|d0 dl] eqn:Hd; [done|].
    rewrite <- Hd in *.
    pose proof (write_mmco_ok (priv_data pic) discard [] mmco) as Hw.
    cbn [length app] in Hw. rewrite Hw by (done || lia). clear Hw.
    cbn [obind].
    destruct (lookup_lt_is_Some_2 (drop (length discard) mmco) 0) as [m Hm].
    { rewrite length_drop. lia. }
    destruct (drop (length discard) mmco) as [|m' suf] eqn:Hdrop; [done|].
    injection Hm as ->. rewrite !Nat.add_0_l.
    pose proof (length_fmap
      (fun old => mkMMCO 1 (frame_num (priv_data pic) - fn old - 1)) discard)
      as Hl.
    rewrite <- Hl.
    rewrite aget_app_r. cbn [obind]. rewrite aset_app_r. cbn [obind].
    exists (difference_of_pic_nums_minus1 m). do 4 f_equal.
    rewrite Hl.
    replace (S (length discard)) with (length discard + 1)%nat by lia.
    by rewrite <- drop_drop, Hdrop.
  - intros Hall. destruct discard as [|d0 dl] eqn:Hd.
    { exfalso. apply Hall. constructor. }
    rewrite <- Hd in *.
    pose proof (write_mmco_fail (priv_data pic) discard [] mmco) as Hw.
    cbn [length app] in Hw. rewrite Hw by (done || lia). done.
Qed.
End H264Marking.

(** ** H.264 reference-list modification *)

Section H264Modification.
Import H264.

Lemma need_rplm_spec check refs def_l : forall i need,
  Forall (fun r => check r = true) refs ->
  (i + length refs <= length def_l)%nat ->
  exists b, need_rplm check refs def_l i need = Ok b /\
    (b = true <->
     need = true \/
     exists k ref d, refs !! k = Some ref /\ def_l !! (i + k)%nat = Some d /\
                     addr ref <> addr d).
Proof.
  induction refs as [|r refs IH]; intros i need Hchk Hlen.
  - exists need. split; [done|]. split; [auto|].
    intros [H|(k & ref & d & Hk & _)]; [done|by rewrite lookup_nil in Hk].
  - apply Forall_cons in Hchk as [Hr Hchk]. cbn [need_rplm length] in *.
    rewrite Hr. cbn [av_assert0 obind].
    destruct (lookup_lt_is_Some_2 def_l i) as [d Hd]; [lia|].
    unfold aget. rewrite Hd. cbn [obind].
    destruct (IH (S i) (need || negb (ptr_eqb r d)) Hchk) as (b & -> & Hb);
      [lia|].
    exists b. split; [done|]. rewrite Hb. clear Hb.
    unfold ptr_eqb. split.
    + intros [H|(k & ref & d' & Hk & Hd' & Hne)].
      * apply orb_true_iff in H as [H|H]; [by left|].
        right. exists O, r, d. rewrite Nat.add_0_r. split_and!; try done.
        apply negb_true_iff, N.eqb_neq in H. done.
      * right. exists (S k), ref, d'. split_and!; try done.
        by replace (i + S k)%nat with (S i + k)%nat by lia.
    + intros [H|(k & ref & d' & Hk & Hd' & Hne)].
      * left. by rewrite H.
      * destruct k as [|k].
        -- left. injection Hk as <-. rewrite Nat.add_0_r, Hd in Hd'.
           injection Hd' as <-. apply orb_true_iff. right.
           by apply negb_true_iff, N.eqb_neq.
        -- right. exists k, ref, d'. split_and!; try done.
           by replace (S i + k)%nat with (i + S k)%nat by lia.
Qed.

Lemma write_rplm_ok refs : forall pic_num pre suf,
  (length refs < length suf)%nat ->
  consecutive_distinct refs pic_num ->
  exists stale,
    write_rplm refs pic_num (length pre) (pre ++ suf)
    = Ok (pre ++ rplm_commands refs pic_num
              ++ mkRPLM 3 stale :: drop (S (length refs)) suf).
Proof.
  induction refs as [|href refs IH]; intros pic_num pre suf Hlen Hcd.
  - destruct suf as [|m suf]; [simpl in Hlen; lia|].
    cbn [write_rplm]. rewrite aget_app_r. cbn [obind]. rewrite aset_app_r.
    exists (abs_diff_pic_num_minus1 m). cbn. by rewrite drop_0.
  - destruct suf as [|m suf]; [simpl in Hlen; lia|].
    destruct Hcd as [Hne Hcd]. cbn [write_rplm].
    replace (fn href =? pic_num) with false by lia.
    cbn [negb av_assert0 obind]. rewrite aget_app_r. cbn [obind].
    rewrite aset_app_r. cbn [obind].
    set (c := if fn href <? pic_num then _ else _).
    rewrite (cons_middle c pre suf), app_assoc.
    replace (S (length pre)) with (length (pre ++ [c]))
      by (rewrite length_app; simpl; lia).
    destruct (IH (fn href) (pre ++ [c]) suf) as [stale ->];
      [simpl in Hlen; lia|done|].
    exists stale. cbn [rplm_commands length drop]. fold c.
    by rewrite <- !app_assoc.
Qed.

Lemma length_rplm_commands refs : forall pic_num,
  length (rplm_commands refs pic_num) = length refs.
Proof. induction refs; intros; cbn; auto. Qed.

Lemma fn_injective (cands : list Picture) :
  NoDup (fn <$> cands) ->
  forall a b, a ∈ cands -> b ∈ cands -> fn a = fn b -> a = b.
Proof.
  induction cands as [|c cands IH]; intros Hnd a b Ha Hb Hfn.
  - by apply elem_of_nil in Ha.
  - cbn in Hnd. apply NoDup_cons in Hnd as [Hc Hnd].
    apply elem_of_cons in Ha as [->|Ha]; apply elem_of_cons in Hb as [->|Hb].
    + done.
    + exfalso. apply Hc. rewrite Hfn. by apply list_elem_of_fmap_2.
    + exfalso. apply Hc. rewrite <- Hfn. by apply list_elem_of_fmap_2.
    + by apply IH.
Qed.

Lemma find_candidate (cands : list Picture) href :
  NoDup (fn <$> cands) -> href ∈ cands ->
  List.find (fun p => fn p =? fn href) cands = Some href.
Proof.
  intros Hnd Hin.
  destruct (List.find _ cands) as [p|] eqn:E.
  - apply find_some in E as [Hp%list_elem_of_In He].
    f_equal. apply (fn_injective cands Hnd); [done..|lia].
  - apply list_elem_of_In in Hin.
    pose proof (find_none _ _ E href Hin) as H. cbn in H. lia.
Qed.

(** Reading the commands back puts the references at the head of the
    list. *)
Lemma apply_rplm_commands cands refs : forall pic_num idx l stale,
  NoDup (fn <$> cands) ->
  Forall (fun r => r ∈ cands) refs ->
  (idx <= length l)%nat ->
  exists out,
    apply_rplm cands pic_num idx l
      (rplm_commands refs pic_num ++ [mkRPLM 3 stale]) = Some out /\
    take (idx + length refs) out = take idx l ++ refs.
Proof.
  induction refs as [|href refs IH]; intros pic_num idx l stale Hnd Hin Hidx.
  - exists l. cbn. split; [done|]. by rewrite Nat.add_0_r, app_nil_r.
  - apply Forall_cons in Hin as [Hhref Hin].
    cbn [rplm_commands app apply_rplm].
    set (c := if fn href <? pic_num then _ else _).
    assert ((modification_of_pic_nums_idc c =? 3) = false) as ->
      by (subst c; by destruct (fn href <? pic_num)).
    assert ((modification_of_pic_nums_idc c =? 0)
            || (modification_of_pic_nums_idc c =? 1) = true) as ->
      by (subst c; by destruct (fn href <? pic_num)).
    assert ((if modification_of_pic_nums_idc c =? 0
             then pic_num - (abs_diff_pic_num_minus1 c + 1)
             else pic_num + (abs_diff_pic_num_minus1 c + 1)) = fn href) as ->
      by (subst c; destruct (fn href <? pic_num); cbn; lia).
    rewrite (find_candidate cands href Hnd Hhref).
    set (l' := take idx l ++ href :: _).
    destruct (IH (fn href) (S idx) l' stale Hnd Hin) as (out & -> & Hout).
    { subst l'. rewrite length_app, length_take. simpl. lia. }
    exists out. split; [done|].
    replace (idx + length (href :: refs))%nat
      with (S idx + length refs)%nat by (simpl; lia).
    rewrite Hout. subst l'.
    replace (S idx) with (idx + 1)%nat by lia.
    rewrite (take_app_add' (take idx l) _ idx 1)
      by (rewrite length_take; lia).
    cbn [take]. by rewrite <- app_assoc.
Qed.

Lemma consecutive_distinct_NoDup refs pic_num :
  NoDup (fn <$> refs) -> Forall (fun r => fn r <> pic_num) refs ->
  consecutive_distinct refs pic_num.
Proof.
  revert pic_num. induction refs as [|r refs IH]; intros pic_num Hnd Hne;
    [done|].
  cbn in Hnd. apply NoDup_cons in Hnd as [Hr Hnd].
  apply Forall_cons in Hne as [Hr' Hne]. split; [done|].
  apply IH; [done|]. rewrite Forall_forall. intros x Hx Hfn.
  apply Hr. rewrite <- Hfn. by apply list_elem_of_fmap_2.
Qed.

(** One list: the flag and the commands. *)
Lemma emit_rplm_ok check pic cands refs def_l n rplm :
  NoDup (fn <$> cands) ->
  Forall (fun r => r ∈ cands) refs ->
  NoDup refs ->
  Forall (fun c => fn c < fn pic) cands ->
  Forall (fun r => check r = true) refs ->
  (length refs <= length def_l)%nat ->
  (length refs < length rplm)%nat ->
  exists need rplm',
    need_rplm check refs def_l O false = Ok need /\
    emit_rplm need pic refs rplm = Ok rplm' /\
    list_modification_ok pic cands refs def_l n (Z.b2z need) rplm rplm'.
Proof.
  intros Hnd Hin Hndr Hlt Hchk Hl1 Hl2.
  destruct (need_rplm_spec check refs def_l O false Hchk) as (need & Hneed & Hiff);
    [lia|].
  assert (need = true <-> differs_at_some_index refs def_l) as Hiff'.
  { rewrite Hiff. unfold differs_at_some_index. split; [|by right].
    by intros [?|?]. }
  exists need. rewrite Hneed. unfold emit_rplm, list_modification_ok.
  destruct need.
  - assert (consecutive_distinct refs (fn pic)) as Hcd.
    { apply consecutive_distinct_NoDup.
      - apply NoDup_fmap_2_strong; [|done].
        intros a b Ha Hb. rewrite Forall_forall in Hin.
        apply (fn_injective cands Hnd); auto.
      - rewrite Forall_forall in *. intros r Hr.
        specialize (Hlt r (Hin r Hr)). lia. }
    destruct (write_rplm_ok refs (fn pic) [] rplm Hl2 Hcd) as [stale Hw].
    cbn [length app] in Hw. rewrite Hw.
    eexists. split_and!; try done.
    + cbn. tauto.
    + intros _.
      assert (take (S (length refs))
                (rplm_commands refs (fn pic)
                 ++ mkRPLM 3 stale :: drop (S (length refs)) rplm)
              = rplm_commands refs (fn pic) ++ [mkRPLM 3 stale]) as Htk.
      { rewrite (cons_middle _ (rplm_commands _ _)), app_assoc.
        apply take_app_length'. rewrite length_app, length_rplm_commands.
        cbn. lia. }
      rewrite Htk. split; [by exists stale|].
      destruct (apply_rplm_commands cands refs (fn pic) O (take n def_l)
                  stale Hnd Hin) as (out & Hout & Htake); [lia|].
      exists out. split; [done|]. by rewrite Nat.add_0_l in Htake.
  - eexists. split_and!; try done.
    cbn. split; [done|]. by intros H%Hiff'.
Qed.

(** The arrays keep their size, and a call that returns has checked every
    candidate against the current [frame_num] (line 785). *)
Lemma aset_length {A} (a a' : list A) i x :
  aset a i x = Ok a' -> length a' = length a.
Proof.
  unfold aset. case_decide; [|done]. intros [= <-]. apply length_insert.
Qed.

Lemma shift_loop_length {A} (test : A -> outcome bool) j : forall a j' a',
  shift_loop test j a = Ok (j', a') -> length a' = length a.
Proof.
  induction j as [|j IH]; intros a j' a'; cbn [shift_loop].
  - by intros [= _ <-].
  - intros (hc & _ & H)%obind_Ok. apply obind_Ok in H as ([|] & _ & H).
    + by injection H as _ <-.
    + apply obind_Ok in H as (a1 & Ha1%aset_length & H).
      apply IH in H. congruence.
Qed.

Lemma shift_insert_length {A} (test : A -> outcome bool) n a x a' :
  shift_insert test n a x = Ok a' -> length a' = length a.
Proof.
  unfold shift_insert. intros ([j a1] & H1%shift_loop_length & H2)%obind_Ok.
  apply aset_length in H2. congruence.
Qed.

Lemma insert_candidates_checked pic cands : forall st r0 r1 n,
  ofold (add_candidate pic) st cands = Ok (r0, r1, n) ->
  Forall (fun c => fn c < fn pic) cands /\
  length r0 = length st.1.1 /\ length r1 = length st.1.2.
Proof.
  induction cands as [|hn cands IH]; intros [[a0 a1] k] r0 r1 n;
    cbn [ofold].
  - intros [= <- <- <-]. done.
  - intros ([[b0 b1] k'] & Hstep & Hrest)%obind_Ok.
    apply IH in Hrest as (Hall & Hl0 & Hl1). cbn [fst snd] in *.
    unfold add_candidate in Hstep.
    apply obind_Ok in Hstep as ([] & Hlt%av_assert0_Ok & Hstep).
    split; [constructor; [lia|done]|].
    destruct (type pic).
    + injection Hstep as <- <- _. done.
    + injection Hstep as <- <- _. done.
    + apply obind_Ok in Hstep as (c0 & H0%shift_insert_length & [= <- <- _]).
      split; congruence.
    + apply obind_Ok in Hstep as (c0 & H0%shift_insert_length & Hstep).
      apply obind_Ok in Hstep as (c1 & H1%shift_insert_length & [= <- <- _]).
      split; congruence.
Qed.

Lemma FFSWAP_length {A} (a a' : list A) i j :
  FFSWAP a i j = Ok a' -> length a' = length a.
Proof.
  unfold FFSWAP. intros (x & _ & H)%obind_Ok.
  apply obind_Ok in H as (y & _ & H).
  apply obind_Ok in H as (a1 & H1%aset_length & H2%aset_length). congruence.
Qed.

Lemma default_ref_pic_list_checked pic prv def_l0 def_l1 d0 d1 n :
  prev pic = Some prv ->
  vaapi_encode_h264_default_ref_pic_list pic def_l0 def_l1
    = Ok (d0, d1, n) ->
  Forall (fun c => fn c < fn pic) (dpb prv) /\
  length d0 = length def_l0 /\ length d1 = length def_l1.
Proof.
  intros Hprev. unfold vaapi_encode_h264_default_ref_pic_list.
  rewrite Hprev. intros ([[a0 a1] k] & Hins & H)%obind_Ok.
  apply insert_candidates_checked in Hins as (Hall & Hl0 & Hl1).
  cbn [fst snd] in *.
  apply obind_Ok in H as (a1' & Hfix & [= <- <- _]).
  split_and!; [done..|].
  unfold degenerate_correction in Hfix.
  destruct (type pic); try (injection Hfix as <-; done).
  apply obind_Ok in Hfix as (i & _ & Hfix).
  destruct (i =? k)%nat.
  - apply FFSWAP_length in Hfix. congruence.
  - injection Hfix as <-. done.
Qed.

(** The parts of the slice header of a call that returns. *)
Lemma init_slice_params_inv priv pic block_start def_l0 def_l1 sh sh' :
  vaapi_encode_h264_init_slice_params priv pic block_start def_l0 def_l1 sh
    = Ok sh' ->
  sh_frame_num sh' = slice_frame_num priv (priv_data pic) /\
  slice_marking priv pic (adaptive_ref_pic_marking_mode_flag sh) (mmco sh)
    = Ok (adaptive_ref_pic_marking_mode_flag sh', mmco sh') /\
  slice_rplm pic def_l0 def_l1
    (ref_pic_list_modification_flag_l0 sh, rplm_l0 sh,
     ref_pic_list_modification_flag_l1 sh, rplm_l1 sh)
  = Ok (ref_pic_list_modification_flag_l0 sh', rplm_l0 sh',
        ref_pic_list_modification_flag_l1 sh', rplm_l1 sh').
Proof.
  unfold vaapi_encode_h264_init_slice_params.
  intros ([flag m] & Hm & H)%obind_Ok.
  apply obind_Ok in H as ([[[f0 r0] f1] r1] & Hr & H).
  apply obind_Ok in H as ([] & _ & H).
  apply obind_Ok in H as ([] & _ & [= <-]). by cbn.
Qed.

(** C4.  For a P or B picture whose default lists have been computed,
    whose chosen references are pairwise distinct pictures of the previous
    picture's DPB and whose DPB candidates carry pairwise distinct
    [frame_num]s: for list 0, and for list 1 of a B picture, the
    modification flag is 1 exactly when the chosen list differs from the
    default list at some index; when it is 0 the command array is left
    alone; when it is 1 the array starts with one difference-of-pic-num
    command per chosen reference, each measured from the reference before
    it and the first from the current [frame_num], followed by the idc 3
    marker, and reading these commands back onto the default list yields a
    list that starts with the chosen references in their order.  A P
    picture leaves the list 1 fields alone. *)
Theorem slice_rplm_roundtrip
    (pic prv : Picture) (def_l0 def_l1 d0 d1 : list Picture) (n : nat)
    (flag_l0 : Z) (rplm_l0 : list RPLM) (flag_l1 : Z) (rplm_l1 : list RPLM) :
  prev pic = Some prv ->
  type pic = FF_HW_PICTURE_TYPE_P \/ type pic = FF_HW_PICTURE_TYPE_B ->
  vaapi_encode_h264_default_ref_pic_list pic def_l0 def_l1
    = Ok (d0, d1, n) ->
  NoDup (fn <$> dpb prv) ->
  Forall (fun r => r ∈ dpb prv) (refs0 pic) ->
  NoDup (refs0 pic) ->
  (length (refs0 pic) <= length def_l0)%nat ->
  (length (refs0 pic) < length rplm_l0)%nat ->
  (type pic = FF_HW_PICTURE_TYPE_B ->
   Forall (fun r => r ∈ dpb prv) (refs1 pic) /\
   NoDup (refs1 pic) /\
   (length (refs1 pic) <= length def_l1)%nat /\
   (length (refs1 pic) < length rplm_l1)%nat /\
   Forall (fun r => poc r < poc pic) (refs0 pic) /\
   Forall (fun r => poc r > poc pic) (refs1 pic)) ->
  exists f0 r0 f1 r1,
    slice_rplm pic def_l0 def_l1 (flag_l0, rplm_l0, flag_l1, rplm_l1)
      = Ok (f0, r0, f1, r1) /\
    list_modification_ok pic (dpb prv) (refs0 pic) d0 n f0 rplm_l0 r0 /\
    (type pic = FF_HW_PICTURE_TYPE_B ->
     list_modification_ok pic (dpb prv) (refs1 pic) d1 n f1 rplm_l1 r1) /\
    (type pic = FF_HW_PICTURE_TYPE_P -> f1 = flag_l1 /\ r1 = rplm_l1).
Proof.
  intros Hprev Hty Hdef Hnd Hin0 Hnd0 Hl0 Hr0 HB.
  destruct (default_ref_pic_list_checked _ _ _ _ _ _ _ Hprev Hdef)
    as (Hlt & Hd0 & Hd1).
  unfold slice_rplm. destruct Hty as [Hty|Hty]; rewrite Hty, Hdef; cbn [obind].
  - destruct (emit_rplm_ok (fun _ => true) pic (dpb prv) (refs0 pic) d0 n
                rplm_l0) as (need & r0 & Hn & He & Hok); try done.
    { by apply Forall_true. }
    { lia. }
    rewrite Hn. cbn [obind]. rewrite He. cbn [obind].
    exists (Z.b2z need), r0, flag_l1, rplm_l1. by split_and!.
  - destruct (HB Hty) as (Hin1 & Hnd1 & Hl1 & Hr1 & Hp0 & Hp1).
    destruct (emit_rplm_ok (fun href => poc href <? poc pic) pic (dpb prv)
                (refs0 pic) d0 n rplm_l0)
      as (need0 & r0 & Hn0 & E0 & Hok0); try done.
    { eapply Forall_impl; [exact Hp0|]. cbn. intros; lia. }
    { lia. }
    destruct (emit_rplm_ok (fun href => poc href >? poc pic) pic (dpb prv)
                (refs1 pic) d1 n rplm_l1)
      as (need1 & r1 & Hn1 & E1 & Hok1); try done.
    { eapply Forall_impl; [exact Hp1|]. cbn. intros; lia. }
    { lia. }
    rewrite Hn0. cbn [obind]. rewrite Hn1. cbn [obind]. rewrite E0.
    cbn [obind]. rewrite E1. cbn [obind].
    exists (Z.b2z need0), r0, (Z.b2z need1), r1. by split_and!.
Qed.
End H264Modification.

(** ** H.265 short-term reference picture set *)

Section H265RPS.
Import H265.

Lemma FFSWAP_adjacent {A} (pre suf : list A) (y x : A) :
  FFSWAP (pre ++ y :: x :: suf) (S (length pre)) (length pre)
  = Ok (pre ++ x :: y :: suf).
Proof.
  unfold FFSWAP.
  replace (S (length pre)) with (length (pre ++ [y]))
    by (rewrite length_app; simpl; lia).
  rewrite (cons_middle y pre (x :: suf)), app_assoc, aget_app_r.
  cbn [obind]. rewrite <- app_assoc. cbn [app]. rewrite aget_app_r.
  cbn [obind]. rewrite (cons_middle y pre (x :: suf)), app_assoc.
  rewrite aset_app_r. cbn [obind]. rewrite <- app_assoc. cbn [app].
  by rewrite aset_app_r.
Qed.

(** The swapping loop inserts [x] into the prefix in front of it. *)
Lemma rps_sort_inner_rev x (r : list rps_entry) : forall suf,
  rps_sort_inner (length r) (rev r ++ x :: suf)
  = do l <- ins_rev (rps_test x) x r; Ok (rev l ++ suf).
Proof.
  induction r as [|hc r IH]; intros suf.
  - done.
  - cbn [length rps_sort_inner ins_rev rev].
    assert (aget ((rev r ++ [hc]) ++ x :: suf) (S (length r)) = Ok x) as E1.
    { replace (S (length r)) with (length (rev r ++ [hc]))
        by (rewrite length_app, length_rev; simpl; lia).
      apply aget_app_r. }
    assert (aget ((rev r ++ [hc]) ++ x :: suf) (length r) = Ok hc) as E2.
    { rewrite <- app_assoc, <- (length_rev r). apply aget_app_r. }
    assert (FFSWAP ((rev r ++ [hc]) ++ x :: suf) (S (length r)) (length r)
            = Ok (rev r ++ x :: hc :: suf)) as E3.
    { rewrite <- app_assoc, <- (length_rev r). apply FFSWAP_adjacent. }
    rewrite E1, E2. cbn [obind]. unfold rps_test at 1.
    destruct (x.1 >? hc.1); cbn [obind].
    + cbn [rev]. by rewrite <- !app_assoc.
    + destruct (negb (x.1 =? hc.1)); cbn [av_assert0 obind]; [|done].
      rewrite E3. cbn [obind]. rewrite IH.
      destruct (ins_rev (rps_test x) x r) as [l| |]; cbn [obind]; try done.
      cbn [rev]. by rewrite <- app_assoc.
Qed.

Lemma rps_sort_inner_prefix x (pre suf : list rps_entry) :
  rps_sort_inner (length pre) (pre ++ x :: suf)
  = do l <- ins_back (rps_test x) x pre; Ok (l ++ suf).
Proof.
  rewrite <- (rev_involutive pre) at 2. rewrite <- (length_rev pre).
  rewrite rps_sort_inner_rev. unfold ins_back.
  by destruct (ins_rev (rps_test x) x (rev pre)).
Qed.

(** The sort as a list-level insertion sort. *)
Lemma rps_sort_fold (rest : list rps_entry) : forall sorted,
  ofold (fun rps i => rps_sort_inner i rps) (sorted ++ rest)
    (seq (length sorted) (length rest))
  = ofold rps_insert sorted rest.
Proof.
  induction rest as [|x rest IH]; intros sorted.
  - cbn. by rewrite app_nil_r.
  - cbn [length seq ofold]. rewrite rps_sort_inner_prefix.
    unfold rps_insert at 1.
    destruct (ins_back (rps_test x) x sorted) as [l| |] eqn:E; cbn [obind];
      try done.
    rewrite <- (ins_back_length _ _ _ _ E). apply IH.
Qed.

Lemma rps_sort_insertion (rps : list rps_entry) :
  rps_sort rps = ofold rps_insert [] rps.
Proof.
  unfold rps_sort. destruct rps as [|x rest]; [done|].
  replace (length (x :: rest) - 1)%nat with (length rest) by (simpl; lia).
  change (x :: rest) with ([x] ++ rest) at 1.
  change 1%nat with (length [x]). by rewrite rps_sort_fold.
Qed.

Lemma rps_test_true x hc : rps_test x hc = Ok true -> poc_lt hc x.
Proof.
  unfold rps_test, poc_lt. destruct (Z.gtb_spec x.1 hc.1); [lia|].
  by destruct (negb _).
Qed.

Lemma rps_test_false x hc : rps_test x hc = Ok false -> poc_lt x hc.
Proof.
  unfold rps_test, poc_lt. destruct (Z.gtb_spec x.1 hc.1); [done|].
  destruct (Z.eqb_spec x.1 hc.1); cbn; [done|lia].
Qed.

Lemma rps_test_defined x hc : rps_test x hc <> Undefined.
Proof.
  unfold rps_test. destruct (x.1 >? hc.1); [done|]. by destruct (negb _).
Qed.

Lemma rps_test_total x hc : x.1 <> hc.1 -> exists b, rps_test x hc = Ok b.
Proof.
  intros H. unfold rps_test. destruct (x.1 >? hc.1); [eauto|].
  destruct (Z.eqb_spec x.1 hc.1); [done|]. cbn. eauto.
Qed.

#[local] Instance poc_lt_trans : Transitive poc_lt.
Proof. unfold poc_lt. intros a b c. lia. Qed.

Lemma poc_lt_NoDup l : StronglySorted poc_lt l -> NoDup (fst <$> l).
Proof.
  induction 1 as [|a l _ IH Hf]; cbn; [constructor|].
  constructor; [|done].
  rewrite list_elem_of_fmap. intros (b & Hb & Hin).
  rewrite Forall_forall in Hf. specialize (Hf b Hin). unfold poc_lt in Hf. lia.
Qed.

Lemma rps_insert_inv sorted x l :
  StronglySorted poc_lt sorted -> rps_insert sorted x = Ok l ->
  StronglySorted poc_lt l /\ l ≡ₚ sorted ++ [x].
Proof.
  intros Hs E. split; [|by eapply ins_back_Permutation].
  eapply (ins_back_sorted _ poc_lt); [| |exact Hs|exact E].
  - intros hc _. apply rps_test_true.
  - intros hc _. apply rps_test_false.
Qed.

Lemma rps_insert_fresh sorted x :
  x.1 ∉ (fst <$> sorted) -> exists l, rps_insert sorted x = Ok l.
Proof.
  intros Hfresh. apply ins_back_total. rewrite Forall_forall.
  intros hc Hhc. apply rps_test_total. intros e. apply Hfresh.
  rewrite e. by apply list_elem_of_fmap_2.
Qed.

Lemma rps_insert_dup sorted x :
  StronglySorted poc_lt sorted -> x.1 ∈ (fst <$> sorted) ->
  rps_insert sorted x = AssertionFailure.
Proof.
  intros Hs Hdup. unfold rps_insert.
  destruct (ins_back (rps_test x) x sorted) as [l| |] eqn:E; [exfalso|done|].
  - apply ins_back_split in E as (p1 & p2 & -> & _ & Hf & Hb).
    apply StronglySorted_app in Hs as (_ & Hs1 & _).
    apply list_elem_of_fmap in Hdup as (c & Hc & Hin).
    apply elem_of_app in Hin as [Hin|Hin].
    + destruct Hb as [->|(p1' & hc & -> & Ht%rps_test_true)];
        [by apply elem_of_nil in Hin|].
      apply StronglySorted_app in Hs1 as (H' & _ & _).
      unfold poc_lt in *.
      apply elem_of_app in Hin as [Hin|Hin%list_elem_of_singleton].
      * specialize (H' c hc Hin).
        rewrite list_elem_of_singleton in H'. specialize (H' eq_refl). lia.
      * subst c. lia.
    + rewrite Forall_forall in Hf. apply Hf, rps_test_false in Hin.
      unfold poc_lt in Hin. lia.
  - exfalso. eapply ins_back_defined; [|exact E]. apply rps_test_defined.
Qed.

Lemma rps_fold_inv rest : forall sorted l,
  StronglySorted poc_lt sorted ->
  ofold rps_insert sorted rest = Ok l ->
  StronglySorted poc_lt l /\ l ≡ₚ sorted ++ rest.
Proof.
  induction rest as [|x rest IH]; intros sorted l Hs; cbn [ofold].
  - intros [= <-]. by rewrite app_nil_r.
  - intros (l1 & E1 & E)%obind_Ok.
    destruct (rps_insert_inv _ _ _ Hs E1) as [Hs1 Hp1].
    destruct (IH _ _ Hs1 E) as [Hs2 Hp2]. split; [done|].
    by rewrite Hp2, Hp1, <- app_assoc.
Qed.

Lemma rps_fold_total rest : forall sorted,
  StronglySorted poc_lt sorted ->
  NoDup (fst <$> (sorted ++ rest)) ->
  exists l, ofold rps_insert sorted rest = Ok l.
Proof.
  induction rest as [|x rest IH]; intros sorted Hs Hnd; cbn [ofold];
    [eauto|].
  destruct (rps_insert_fresh sorted x) as [l1 E1].
  { rewrite fmap_app, fmap_cons in Hnd.
    apply NoDup_app in Hnd as (_ & Hnd & _).
    intros Hin. apply (Hnd _ Hin). by left. }
  rewrite E1. cbn [obind].
  destruct (rps_insert_inv _ _ _ Hs E1) as [Hs1 Hp1].
  apply IH; [done|]. by rewrite Hp1, <- app_assoc.
Qed.

Lemma rps_fold_dup rest : forall sorted,
  StronglySorted poc_lt sorted ->
  ~ NoDup (fst <$> (sorted ++ rest)) ->
  ofold rps_insert sorted rest = AssertionFailure.
Proof.
  induction rest as [|x rest IH]; intros sorted Hs Hnd; cbn [ofold].
  - exfalso. apply Hnd. rewrite app_nil_r. by apply poc_lt_NoDup.
  - destruct (decide (x.1 ∈ (fst <$> sorted))) as [Hin|Hnin].
    + by rewrite rps_insert_dup.
    + destruct (rps_insert_fresh sorted x Hnin) as [l1 E1].
      rewrite E1. cbn [obind].
      destruct (rps_insert_inv _ _ _ Hs E1) as [Hs1 Hp1].
      apply IH; [done|]. by rewrite Hp1, <- app_assoc.
Qed.

(** The partition loop. *)
Lemma rps_partition_inv cur rps k : forall i i0,
  rps_partition cur rps i k = Ok i0 ->
  (i <= i0 <= i + k)%nat /\
  (forall j e, (i <= j < i0)%nat -> rps !! j = Some e -> e.1 < cur) /\
  ((i0 < i + k)%nat -> exists e, rps !! i0 = Some e /\ e.1 > cur).
Proof.
  induction k as [|k IH]; intros i i0; cbn [rps_partition].
  - intros [= <-]. split; [lia|]. split; [intros; lia|lia].
  - intros (x & Hx & H)%obind_Ok.
    unfold aget in Hx. destruct (rps !! i) as [x'|] eqn:Hi; [|done].
    injection Hx as ->.
    apply obind_Ok in H as ([] & Hne%av_assert0_Ok & H).
    apply negb_true_iff, Z.eqb_neq in Hne.
    destruct (Z.gtb_spec x.1 cur) as [Hgt|Hle].
    + injection H as <-. split; [lia|]. split; [intros; lia|].
      intros _. exists x. split; [done|lia].
    + apply IH in H as (Hr & Hlt & Hgt). split; [lia|]. split.
      * intros j e Hj Hje. destruct (decide (j = i)) as [->|].
        -- rewrite Hi in Hje. injection Hje as <-. lia.
        -- apply (Hlt j e); [lia|done].
      * intros ?. apply Hgt. lia.
Qed.

Lemma rps_partition_total cur rps k : forall i,
  (i + k <= length rps)%nat ->
  Forall (fun e => e.1 <> cur) rps ->
  exists i0, rps_partition cur rps i k = Ok i0.
Proof.
  induction k as [|k IH]; intros i Hlen Hne; cbn [rps_partition]; [eauto|].
  destruct (lookup_lt_is_Some_2 rps i) as [x Hx]; [lia|].
  unfold aget. rewrite Hx. cbn [obind].
  rewrite Forall_forall in Hne.
  assert (x.1 <> cur) as Hxc by (eapply Hne, list_elem_of_lookup_2, Hx).
  replace (x.1 =? cur) with false by lia. cbn [negb av_assert0 obind].
  destruct (x.1 >? cur); [eauto|]. apply IH; [lia|].
  by rewrite Forall_forall.
Qed.

Lemma rps_partition_sorted cur rps i0 :
  StronglySorted poc_lt rps ->
  rps_partition cur rps O (length rps) = Ok i0 ->
  (i0 <= length rps)%nat /\
  Forall (fun e => e.1 < cur) (take i0 rps) /\
  Forall (fun e => e.1 > cur) (drop i0 rps).
Proof.
  intros Hs (Hr & Hlt & Hgt)%rps_partition_inv. split; [lia|]. split.
  - rewrite Forall_forall. intros e (j & Hj)%list_elem_of_lookup_1.
    apply lookup_take_Some in Hj as [Hj Hji]. apply (Hlt j e); [lia|done].
  - destruct (decide (i0 < length rps)%nat) as [Hi|Hi].
    + destruct Hgt as (e & He & Hec); [lia|].
      rewrite (drop_S _ _ _ He).
      rewrite <- (take_drop i0 rps) in Hs.
      apply StronglySorted_app in Hs as (_ & _ & Hs).
      rewrite (drop_S _ _ _ He) in Hs.
      apply StronglySorted_cons in Hs as [Hall _].
      constructor; [done|].
      eapply Forall_impl; [exact Hall|]. unfold poc_lt. cbn. intros; lia.
    + rewrite drop_ge by lia. constructor.
Qed.

(** Reading the delta chains back. *)
Lemma s0_pocs_deltas visited : forall poc,
  s0_pocs poc (fst <$> s0_deltas poc visited) = fst <$> visited.
Proof.
  induction visited as [|e rest IH]; intros poc; cbn; [done|].
  replace (poc - (poc - e.1 - 1 + 1)) with e.1 by lia. by rewrite IH.
Qed.

Lemma s1_pocs_deltas visited : forall poc,
  s1_pocs poc (fst <$> s1_deltas poc visited) = fst <$> visited.
Proof.
  induction visited as [|e rest IH]; intros poc; cbn; [done|].
  replace (poc + (e.1 - poc - 1 + 1)) with e.1 by lia. by rewrite IH.
Qed.

Lemma s0_deltas_used visited : forall poc,
  snd <$> s0_deltas poc visited = snd <$> visited.
Proof. induction visited as [|e rest IH]; intros; cbn; [done|by rewrite IH]. Qed.

Lemma s1_deltas_used visited : forall poc,
  snd <$> s1_deltas poc visited = snd <$> visited.
Proof. induction visited as [|e rest IH]; intros; cbn; [done|by rewrite IH]. Qed.

(** What a call that returns has computed. *)
Lemma short_term_ref_pic_set_inv pic rps :
  short_term_ref_pic_set pic = Ok rps ->
  exists before after,
    before ++ after ≡ₚ rps_entries pic /\
    StronglySorted poc_lt (before ++ after) /\
    Forall (fun e => e.1 < poc pic) before /\
    Forall (fun e => e.1 > poc pic) after /\
    rps = mkSTRefPicSet (Z.of_nat (length before)) (Z.of_nat (length after))
            (fst <$> s0_deltas (poc pic) (rev before)) (snd <$> rev before)
            (fst <$> s1_deltas (poc pic) after) (snd <$> after).
Proof.
  unfold short_term_ref_pic_set. rewrite rps_sort_insertion.
  intros (l & Hsort & H)%obind_Ok.
  apply obind_Ok in H as (i & Hpart & [= <-]).
  apply rps_fold_inv in Hsort as [Hs Hp]; [|constructor].
  apply rps_partition_sorted in Hpart as (Hi & Hb & Ha); [|done].
  exists (take i l), (drop i l). rewrite take_drop.
  split_and!; try done.
  rewrite length_take, length_drop, !s0_deltas_used, !s1_deltas_used.
  by replace (i `min` length l)%nat with i by lia.
Qed.

Lemma short_term_ref_pic_set_total pic :
  NoDup (fst <$> rps_entries pic) ->
  Forall (fun e => e.1 <> poc pic) (rps_entries pic) ->
  exists rps, short_term_ref_pic_set pic = Ok rps.
Proof.
  intros Hnd Hne. unfold short_term_ref_pic_set. rewrite rps_sort_insertion.
  destruct (rps_fold_total (rps_entries pic) []) as [l Hl];
    [constructor|done|].
  rewrite Hl. cbn [obind].
  apply rps_fold_inv in Hl as [Hs Hp]; [|constructor].
  destruct (rps_partition_total (poc pic) l (length l) O) as [i ->];
    [lia|by rewrite Hp|].
  cbn [obind]. eauto.
Qed.

Lemma init_slice_params_rps_non_idr pic sh_rps :
  type pic <> FF_HW_PICTURE_TYPE_IDR ->
  init_slice_params_rps pic sh_rps = short_term_ref_pic_set pic.
Proof.
  intros Hty. unfold init_slice_params_rps.
  destruct (PictureType_eqb _ _) eqn:E; [|done].
  by destruct (type pic).
Qed.

(** C5, as the code has it.  For a picture whose collected entries (the
    used references, then the other pictures of its DPB) have pairwise
    distinct POCs, all different from its own, the set is the collected
    entries sorted by ascending POC and cut where the POC first exceeds the
    current one: the entries before the cut, walked from the nearest to
    the farthest, each encoded as the POC of the entry before it in that
    walk (the current POC for the first) minus its own POC minus 1, and the
    entries after the cut, in ascending order, each encoded as its own POC
    minus the POC of the entry before it (the current POC for the first)
    minus 1, every entry with its used flag.  Adding the deltas up again
    from the current POC gives back the POC of every collected entry, each
    exactly once.  A duplicate POC among the collected entries ends in an
    assertion failure. *)
Theorem short_term_ref_pic_set_chained (pic : Picture) :
  (NoDup (fst <$> rps_entries pic) ->
   Forall (fun e => e.1 <> poc pic) (rps_entries pic) ->
   exists rps before after,
     short_term_ref_pic_set pic = Ok rps /\
     before ++ after ≡ₚ rps_entries pic /\
     StronglySorted poc_lt (before ++ after) /\
     Forall (fun e => e.1 < poc pic) before /\
     Forall (fun e => e.1 > poc pic) after /\
     num_negative_pics rps = Z.of_nat (length before) /\
     num_positive_pics rps = Z.of_nat (length after) /\
     delta_poc_s0_minus1 rps = fst <$> s0_deltas (poc pic) (rev before) /\
     used_by_curr_pic_s0_flag rps = snd <$> rev before /\
     delta_poc_s1_minus1 rps = fst <$> s1_deltas (poc pic) after /\
     used_by_curr_pic_s1_flag rps = snd <$> after /\
     s0_pocs (poc pic) (delta_poc_s0_minus1 rps) = fst <$> rev before /\
     s1_pocs (poc pic) (delta_poc_s1_minus1 rps) = fst <$> after) /\
  (~ NoDup (fst <$> rps_entries pic) ->
   short_term_ref_pic_set pic = AssertionFailure).
Proof.
  split.
  - intros Hnd Hne.
    destruct (short_term_ref_pic_set_total pic Hnd Hne) as [rps Hrps].
    destruct (short_term_ref_pic_set_inv pic rps Hrps)
      as (before & after & Hp & Hs & Hb & Ha & ->).
    eexists _, before, after. split; [exact Hrps|]. cbn.
    rewrite s0_pocs_deltas, s1_pocs_deltas. by split_and!.
  - intros Hnd. unfold short_term_ref_pic_set. rewrite rps_sort_insertion.
    by rewrite (rps_fold_dup (rps_entries pic) [] (SSorted_nil _) Hnd).
Qed.

Lemma rps_skipped_spec pic d :
  rps_skipped pic d = false <->
  addr d <> addr pic /\ (addr d ∉ (addr <$> refs0 pic))
  /\ (addr d ∉ (addr <$> refs1 pic)).
Proof.
  assert (forall l, existsb (ptr_eqb d) l = false <-> addr d ∉ (addr <$> l))
    as Hex.
  { intros l. rewrite <- not_true_iff_false, existsb_exists, list_elem_of_fmap.
    unfold ptr_eqb. split.
    - intros Hn (x & He & Hx). apply Hn. exists x.
      split; [by apply list_elem_of_In|by apply N.eqb_eq].
    - intros Hn (x & Hx%list_elem_of_In & He%N.eqb_eq). apply Hn. by exists x. }
  unfold rps_skipped. rewrite !orb_false_iff, !Hex.
  unfold ptr_eqb. rewrite N.eqb_neq. tauto.
Qed.

(** C10.  The entries collected for a picture are its used references
    followed by those pictures of its DPB that are neither the picture
    itself nor one of its references; and whenever the set is produced,
    no collected entry has the POC of the current picture. *)
Theorem rps_excludes_current_picture (pic : Picture) :
  rps_entries pic
  = ((fun r => (poc r, 1)) <$> (refs0 pic ++ refs1 pic))
    ++ ((fun d => (poc d, 0))
          <$> filter (fun d => addr d <> addr pic
                               /\ (addr d ∉ (addr <$> refs0 pic))
                               /\ (addr d ∉ (addr <$> refs1 pic)))
                (dpb pic)) /\
  (forall rps, short_term_ref_pic_set pic = Ok rps ->
     Forall (fun e => e.1 <> poc pic) (rps_entries pic) /\
     Forall (fun p => p <> poc pic)
       (s0_pocs (poc pic) (delta_poc_s0_minus1 rps)
        ++ s1_pocs (poc pic) (delta_poc_s1_minus1 rps))).
Proof.
  split.
  - unfold rps_entries, rps_used_entries, rps_unused_entries. do 2 f_equal.
    induction (dpb pic) as [|d l IH]; [done|].
    cbn [List.filter]. rewrite filter_cons.
    destruct (rps_skipped pic d) eqn:E; cbn [negb].
    + rewrite decide_False; [done|].
      rewrite <- rps_skipped_spec. congruence.
    + rewrite decide_True by (by apply rps_skipped_spec). by f_equal.
  - intros rps (before & after & Hp & Hs & Hb & Ha & ->)%short_term_ref_pic_set_inv.
    cbn. rewrite s0_pocs_deltas, s1_pocs_deltas. split.
    + rewrite <- Hp. apply Forall_app. split.
      * eapply Forall_impl; [exact Hb|]. cbn. intros; lia.
      * eapply Forall_impl; [exact Ha|]. cbn. intros; lia.
    + apply Forall_app. split; apply Forall_fmap.
      * apply Forall_rev. eapply Forall_impl; [exact Hb|]. cbn. intros; lia.
      * eapply Forall_impl; [exact Ha|]. cbn. intros; lia.
Qed.
End H265RPS.

(** ** The sample sessions *)

Section Samples.
Import H264 Sample.

Example sample_p2_default_list :
  vaapi_encode_h264_default_ref_pic_list p2 stack_array stack_array
  = Ok (p1 :: idr :: replicate 14 stale, stack_array, 2%nat).
Proof. vm_compute. reflexivity. Qed.

Example sample_b_default_lists :
  vaapi_encode_h264_default_ref_pic_list b stack_array stack_array
  = Ok (idr :: pb :: replicate 14 stale,
        pb :: idr :: replicate 14 stale, 2%nat).
Proof. vm_compute. reflexivity. Qed.

Example sample_b_late_default_lists :
  vaapi_encode_h264_default_ref_pic_list b_late stack_array stack_array
  = Ok (pb :: idr :: replicate 14 stale,
        idr :: pb :: replicate 14 stale, 2%nat).
Proof. vm_compute. reflexivity. Qed.

Example sample_encoded_frame_nums :
  (fun p => (fn p, poc p)) <$> encoded = [(0, 0); (1, 2); (2, 1); (2, 3)].
Proof. vm_compute. reflexivity. Qed.

Example sample_h4_rps :
  H265.short_term_ref_pic_set h4 = Ok h4_rps.
Proof. vm_compute. reflexivity. Qed.
End Samples.

(** ** The theorems at the sample sessions *)

Ltac concrete_NoDup :=
  cbn; repeat (apply NoDup_cons; split;
               [rewrite ?elem_of_cons, ?elem_of_nil; cbn;
                intuition (discriminate || lia)|]);
  apply NoDup_nil_2.

Ltac concrete_Forall :=
  cbn; repeat (apply Forall_cons; split;
               [cbn; first [lia | reflexivity | discriminate
                           | by repeat constructor]|]);
  apply Forall_nil_2.

Section Witnesses.
Import H264 Sample.

Lemma frame_num_recurrence_witness :
  0 <= log2_max_frame_num_minus4 priv0 /\
  encode_pictures no_captions priv0 None sequence = Ok encoded /\
  encoded !! 3%nat = Some encoded_last /\
  ((exists pic, sequence !! 3%nat = Some pic /\
      type encoded_last = type pic /\
      is_reference encoded_last = is_reference pic) /\
   (type encoded_last = FF_HW_PICTURE_TYPE_IDR ->
    fn encoded_last = 0 /\
    slice_frame_num priv0 (priv_data encoded_last) = 0) /\
   (type encoded_last <> FF_HW_PICTURE_TYPE_IDR ->
    exists i' q, 3%nat = S i' /\ encoded !! i' = Some q /\
      fn encoded_last = fn q + Z.b2z (is_reference q) /\
      slice_frame_num priv0 (priv_data encoded_last)
      = (slice_frame_num priv0 (priv_data q) + Z.b2z (is_reference q))
          mod 2 ^ (4 + log2_max_frame_num_minus4 priv0))).
Proof.
  assert (0 <= log2_max_frame_num_minus4 priv0) as H1 by (cbn; lia).
  assert (encode_pictures no_captions priv0 None sequence = Ok encoded)
    as H2 by (vm_compute; reflexivity).
  assert (encoded !! 3%nat = Some encoded_last) as H3
    by (vm_compute; reflexivity).
  split; [exact H1|]. split; [exact H2|]. split; [exact H3|].
  exact (frame_num_recurrence no_captions priv0 sequence encoded H1 H2
           3%nat encoded_last H3).
Defined.

Lemma default_ref_pic_list_B_order_witness :
  type b = FF_HW_PICTURE_TYPE_B /\
  prev b = Some pb_kept /\
  (length (dpb pb_kept) <= length stack_array)%nat /\
  Forall (fun c => fn c < fn b) (dpb pb_kept) /\
  Forall (fun c => poc c <> poc b) (dpb pb_kept) /\
  exists rpl0' rpl1',
    insert_candidates b pb_kept stack_array stack_array
      = Ok (rpl0', rpl1', 2%nat) /\
    (exists past future,
       take 2 rpl0' = past ++ future /\
       past ≡ₚ filter (fun c => poc c < poc b) (dpb pb_kept) /\
       StronglySorted poc_desc past /\
       future ≡ₚ filter (fun c => ~ poc c < poc b) (dpb pb_kept) /\
       StronglySorted poc_asc future) /\
    (exists future past,
       take 2 rpl1' = future ++ past /\
       future ≡ₚ filter (fun c => poc c > poc b) (dpb pb_kept) /\
       StronglySorted poc_asc future /\
       past ≡ₚ filter (fun c => ~ poc c > poc b) (dpb pb_kept) /\
       StronglySorted poc_desc past) /\
    (~ same_entries 2 rpl0' rpl1' ->
     vaapi_encode_h264_default_ref_pic_list b stack_array stack_array
       = Ok (rpl0', rpl1', 2%nat)) /\
    ((forall x y, x ∈ dpb pb_kept -> y ∈ dpb pb_kept ->
                  addr x = addr y -> x = y) ->
     (exists c, c ∈ dpb pb_kept /\ poc c < poc b) ->
     (exists c, c ∈ dpb pb_kept /\ poc c > poc b) ->
     vaapi_encode_h264_default_ref_pic_list b stack_array stack_array
       = Ok (rpl0', rpl1', 2%nat)).
Proof.
  assert (length (dpb pb_kept) <= length stack_array)%nat as Hl
    by (cbn; lia).
  assert (Forall (fun c => fn c < fn b) (dpb pb_kept)) as Hf
    by concrete_Forall.
  assert (Forall (fun c => poc c <> poc b) (dpb pb_kept)) as Hp
    by concrete_Forall.
  split; [reflexivity|]. split; [reflexivity|]. split; [exact Hl|].
  split; [exact Hf|]. split; [exact Hp|].
  exact (default_ref_pic_list_B_order b pb_kept stack_array stack_array
           eq_refl eq_refl Hl Hl Hf Hp).
Defined.

Lemma default_ref_pic_list_B_degenerate_correction_witness :
  type b_late = FF_HW_PICTURE_TYPE_B /\
  prev b_late = Some pb_kept /\
  (length (dpb pb_kept) <= length stack_array)%nat /\
  (2 <= length stack_array)%nat /\
  insert_candidates b_late pb_kept stack_array stack_array
    = Ok (pb :: idr :: replicate 14 stale,
          pb :: idr :: replicate 14 stale, 2%nat) /\
  exists rpl1'',
    vaapi_encode_h264_default_ref_pic_list b_late stack_array stack_array
      = Ok (pb :: idr :: replicate 14 stale, rpl1'', 2%nat) /\
    (same_entries 2 (pb :: idr :: replicate 14 stale)
       (pb :: idr :: replicate 14 stale) ->
     exists x y rest, pb :: idr :: replicate 14 stale = x :: y :: rest /\
                      rpl1'' = y :: x :: rest) /\
    (~ same_entries 2 (pb :: idr :: replicate 14 stale)
         (pb :: idr :: replicate 14 stale) ->
     rpl1'' = pb :: idr :: replicate 14 stale) /\
    ((2 <= 2)%nat -> NoDup (addr <$> dpb pb_kept) ->
     ~ same_entries 2 (pb :: idr :: replicate 14 stale) rpl1'').
Proof.
  assert (length (dpb pb_kept) <= length stack_array)%nat as Hl
    by (cbn; lia).
  assert (2 <= length stack_array)%nat as Hl2 by (cbn; lia).
  assert (insert_candidates b_late pb_kept stack_array stack_array
          = Ok (pb :: idr :: replicate 14 stale,
                pb :: idr :: replicate 14 stale, 2%nat)) as Hret
    by (vm_compute; reflexivity).
  split; [reflexivity|]. split; [reflexivity|]. split; [exact Hl|].
  split; [exact Hl2|]. split; [exact Hret|].
  exact (default_ref_pic_list_B_degenerate_correction b_late pb_kept
           stack_array stack_array _ _ 2%nat eq_refl eq_refl Hl Hl Hl2 Hret).
Defined.

Lemma default_ref_pic_list_P_witness :
  type p2 = FF_HW_PICTURE_TYPE_P /\
  prev p2 = Some p1_kept /\
  (length (dpb p1_kept) <= length stack_array)%nat /\
  NoDup (fn <$> dpb p1_kept) /\
  Forall (fun c => fn c < fn p2) (dpb p1_kept) /\
  exists rpl0',
    vaapi_encode_h264_default_ref_pic_list p2 stack_array stack_array
      = Ok (rpl0', stack_array, 2%nat) /\
    take 2 rpl0' ≡ₚ dpb p1_kept /\
    StronglySorted fn_desc (take 2 rpl0') /\
    drop 2 rpl0' = drop 2 stack_array.
Proof.
  assert (length (dpb p1_kept) <= length stack_array)%nat as Hl
    by (cbn; lia).
  assert (NoDup (fn <$> dpb p1_kept)) as Hnd by concrete_NoDup.
  assert (Forall (fun c => fn c < fn p2) (dpb p1_kept)) as Hf
    by concrete_Forall.
  split; [reflexivity|]. split; [reflexivity|]. split; [exact Hl|].
  split; [exact Hnd|]. split; [exact Hf|].
  exact (proj1 (default_ref_pic_list_P_descending_frame_num p2 p1_kept
                  stack_array stack_array eq_refl eq_refl Hl) Hnd Hf).
Defined.

Lemma slice_rplm_roundtrip_witness :
  prev p2_far = Some p1_kept /\
  (type p2_far = FF_HW_PICTURE_TYPE_P \/
   type p2_far = FF_HW_PICTURE_TYPE_B) /\
  vaapi_encode_h264_default_ref_pic_list p2_far stack_array stack_array
    = Ok (p1 :: idr :: replicate 14 stale, stack_array, 2%nat) /\
  NoDup (fn <$> dpb p1_kept) /\
  Forall (fun r => r ∈ dpb p1_kept) (refs0 p2_far) /\
  NoDup (refs0 p2_far) /\
  (length (refs0 p2_far) <= length stack_array)%nat /\
  (length (refs0 p2_far) < length rplm0)%nat /\
  exists f0 r0 f1 r1,
    slice_rplm p2_far stack_array stack_array (0, rplm0, 0, rplm0)
      = Ok (f0, r0, f1, r1) /\
    list_modification_ok p2_far (dpb p1_kept) (refs0 p2_far)
      (p1 :: idr :: replicate 14 stale) 2 f0 rplm0 r0 /\
    (type p2_far = FF_HW_PICTURE_TYPE_B ->
     list_modification_ok p2_far (dpb p1_kept) (refs1 p2_far)
       stack_array 2 f1 rplm0 r1) /\
    (type p2_far = FF_HW_PICTURE_TYPE_P -> f1 = 0 /\ r1 = rplm0).
Proof.
  assert (vaapi_encode_h264_default_ref_pic_list p2_far stack_array
            stack_array
          = Ok (p1 :: idr :: replicate 14 stale, stack_array, 2%nat))
    as Hdef by (vm_compute; reflexivity).
  assert (NoDup (fn <$> dpb p1_kept)) as Hnd by concrete_NoDup.
  assert (Forall (fun r => r ∈ dpb p1_kept) (refs0 p2_far)) as Hin
    by concrete_Forall.
  assert (NoDup (refs0 p2_far)) as Hndr by concrete_NoDup.
  assert (length (refs0 p2_far) <= length stack_array)%nat as Hl0
    by (cbn; lia).
  assert (length (refs0 p2_far) < length rplm0)%nat as Hr0 by (cbn; lia).
  split; [reflexivity|]. split; [left; reflexivity|]. split; [exact Hdef|].
  split; [exact Hnd|]. split; [exact Hin|]. split; [exact Hndr|].
  split; [exact Hl0|]. split; [exact Hr0|].
  refine (slice_rplm_roundtrip p2_far p1_kept stack_array stack_array _ _
            2%nat 0 rplm0 0 rplm0 eq_refl (or_introl eq_refl) Hdef Hnd Hin
            Hndr Hl0 Hr0 _).
  intros H. discriminate H.
Defined.

Lemma slice_marking_discards_witness :
  is_reference p2 = true /\
  type p2 <> FF_HW_PICTURE_TYPE_IDR /\
  prev p2 = Some p1_kept /\
  Z.of_nat (length (filter (fun c => addr c ∈ (addr <$> dpb p2))
                      (dpb p1_kept))) <= dpb_frames priv0 /\
  (length (filter (fun c => addr c ∉ (addr <$> dpb p2)) (dpb p1_kept))
   < length mmco0)%nat /\
  filter (fun c => addr c ∉ (addr <$> dpb p2)) (dpb p1_kept) <> [] /\
  Forall (fun old => fn old < fn p2)
    (filter (fun c => addr c ∉ (addr <$> dpb p2)) (dpb p1_kept)) /\
  exists stale,
    slice_marking priv0 p2 0 mmco0
    = Ok (1, ((fun old => mkMMCO 1 (fn p2 - fn old - 1))
                <$> filter (fun c => addr c ∉ (addr <$> dpb p2))
                      (dpb p1_kept))
             ++ mkMMCO 0 stale
                :: drop (S (length (filter
                              (fun c => addr c ∉ (addr <$> dpb p2))
                              (dpb p1_kept)))) mmco0).
Proof.
  assert (type p2 <> FF_HW_PICTURE_TYPE_IDR) as Hty by discriminate.
  assert (filter (fun c => addr c ∉ (addr <$> dpb p2)) (dpb p1_kept)
          = [idr]) as Hd by (vm_compute; reflexivity).
  assert (filter (fun c => addr c ∈ (addr <$> dpb p2)) (dpb p1_kept)
          = [p1]) as Hk by (vm_compute; reflexivity).
  assert (Z.of_nat (length (filter (fun c => addr c ∈ (addr <$> dpb p2))
                              (dpb p1_kept))) <= dpb_frames priv0) as Hkeep
    by (rewrite Hk; cbn; lia).
  assert (length (filter (fun c => addr c ∉ (addr <$> dpb p2)) (dpb p1_kept))
          < length mmco0)%nat as Hlen by (rewrite Hd; cbn; lia).
  assert (filter (fun c => addr c ∉ (addr <$> dpb p2)) (dpb p1_kept) <> [])
    as Hne by (rewrite Hd; discriminate).
  assert (Forall (fun old => fn old < fn p2)
            (filter (fun c => addr c ∉ (addr <$> dpb p2)) (dpb p1_kept)))
    as Hall by (rewrite Hd; concrete_Forall).
  split; [reflexivity|]. split; [exact Hty|]. split; [reflexivity|].
  split; [exact Hkeep|]. split; [exact Hlen|]. split; [exact Hne|].
  split; [exact Hall|].
  exact (proj1 (proj2 (slice_marking_discards priv0 p2 p1_kept 0 mmco0
                         eq_refl Hty eq_refl Hkeep Hlen)) Hne Hall).
Defined.

Lemma write_header_capacity_error_and_reset_witness :
  writes WriteSequenceHeader priv0 = true /\
  (forall au u, 0 <= never_fails au u) /\
  one_byte_per_unit (pending_units WriteSequenceHeader priv0)
    = (0, (replicate 3 Byte.x00, 0)) /\
  23 < (8 * Z.of_nat (length (replicate 3 Byte.x00)) - 0) mod size_t_modulus
  /\
  let '(err, priv', buf', data_len') :=
    run_writer never_fails one_byte_per_unit WriteSequenceHeader priv0
      [Byte.x2a] 23 in
  err = AVERROR ENOSPC /\ buf' = [Byte.x2a] /\ data_len' = 23 /\
  units (current_access_unit priv') = [].
Proof.
  assert (forall au u, 0 <= never_fails au u) as Hok
    by (intros; unfold never_fails; lia).
  assert (one_byte_per_unit (pending_units WriteSequenceHeader priv0)
          = (0, (replicate 3 Byte.x00, 0))) as Hs by reflexivity.
  assert (23 < (8 * Z.of_nat (length (replicate 3 Byte.x00)) - 0)
                 mod size_t_modulus) as Hlt by (vm_compute; reflexivity).
  split; [reflexivity|]. split; [exact Hok|]. split; [exact Hs|].
  split; [exact Hlt|].
  pose proof (write_header_capacity_error_and_reset never_fails
                one_byte_per_unit WriteSequenceHeader priv0 [Byte.x2a] 23)
    as H.
  destruct (run_writer never_fails one_byte_per_unit WriteSequenceHeader
              priv0 [Byte.x2a] 23) as [[[err priv'] buf'] data_len'].
  destruct H as (_ & _ & _ & H).
  exact (H eq_refl Hok 0 (replicate 3 Byte.x00) 0 Hs (Z.le_refl 0) Hlt).
Defined.

Lemma short_term_ref_pic_set_chained_witness :
  NoDup (fst <$> H265.rps_entries h4) /\
  Forall (fun e => e.1 <> H265.poc h4) (H265.rps_entries h4) /\
  exists rps before after,
    H265.short_term_ref_pic_set h4 = Ok rps /\
    before ++ after ≡ₚ H265.rps_entries h4 /\
    StronglySorted H265.poc_lt (before ++ after) /\
    Forall (fun e => e.1 < H265.poc h4) before /\
    Forall (fun e => e.1 > H265.poc h4) after /\
    H265.num_negative_pics rps = Z.of_nat (length before) /\
    H265.num_positive_pics rps = Z.of_nat (length after) /\
    H265.delta_poc_s0_minus1 rps
      = fst <$> H265.s0_deltas (H265.poc h4) (rev before) /\
    H265.used_by_curr_pic_s0_flag rps = snd <$> rev before /\
    H265.delta_poc_s1_minus1 rps
      = fst <$> H265.s1_deltas (H265.poc h4) after /\
    H265.used_by_curr_pic_s1_flag rps = snd <$> after /\
    H265.s0_pocs (H265.poc h4) (H265.delta_poc_s0_minus1 rps)
      = fst <$> rev before /\
    H265.s1_pocs (H265.poc h4) (H265.delta_poc_s1_minus1 rps)
      = fst <$> after.
Proof.
  assert (NoDup (fst <$> H265.rps_entries h4)) as Hnd by concrete_NoDup.
  assert (Forall (fun e => e.1 <> H265.poc h4) (H265.rps_entries h4)) as Hne
    by concrete_Forall.
  split; [exact Hnd|]. split; [exact Hne|].
  exact (proj1 (short_term_ref_pic_set_chained h4) Hnd Hne).
Defined.

(** C5 as worded.  At the sample picture (POC 4, entries with POC 2 and
    POC 0 before it) the second delta of the negative partition is
    2 - 0 - 1 = 1, not 4 - 0 - 1 = 3: the deltas are not all taken from the
    current POC. *)
Lemma short_term_ref_pic_set_not_from_current :
  H265.short_term_ref_pic_set h4 = Ok h4_rps /\
  H265.delta_poc_s0_minus1 h4_rps = [1; 1] /\
  H265.s0_from_current (H265.poc h4) [(2, 1); (0, 0)] = [1; 3] /\
  H265.delta_poc_s0_minus1 h4_rps
  <> H265.s0_from_current (H265.poc h4) [(2, 1); (0, 0)].
Proof.
  split; [vm_compute; reflexivity|]. split; [reflexivity|].
  split; [reflexivity|]. discriminate.
Qed.

Lemma rps_excludes_current_picture_witness :
  H265.short_term_ref_pic_set h4 = Ok h4_rps /\
  Forall (fun e => e.1 <> H265.poc h4) (H265.rps_entries h4) /\
  Forall (fun p => p <> H265.poc h4)
    (H265.s0_pocs (H265.poc h4) (H265.delta_poc_s0_minus1 h4_rps)
     ++ H265.s1_pocs (H265.poc h4) (H265.delta_poc_s1_minus1 h4_rps)).
Proof.
  assert (H265.short_term_ref_pic_set h4 = Ok h4_rps) as H
    by (vm_compute; reflexivity).
  split; [exact H|].
  exact (proj2 (rps_excludes_current_picture h4) h4_rps H).
Defined.
End Witnesses.


(** * Further properties of the code *)

(** ** H.264 access-unit writers: what a call hands back *)

Section H264WritersResults.
Import H264.
Variable cbs_insert_err : CodedBitstreamFragment -> au_unit -> Z.
Variable cbs_serialize : list au_unit -> Z * (list Byte.byte * Z).

Abbreviation run_w := (run_writer cbs_insert_err cbs_serialize).
Abbreviation write_extra_header :=
  (vaapi_encode_h264_write_extra_header cbs_insert_err cbs_serialize).

Lemma write_access_unit_cases buf data_len au :
  let '(err, au', buf', data_len') :=
    vaapi_encode_h264_write_access_unit cbs_serialize buf data_len au in
  err <= 0 /\ (err <> 0 -> buf' = buf /\ data_len' = data_len).
Proof.
  unfold vaapi_encode_h264_write_access_unit, ff_cbs_write_fragment_data.
  destruct (cbs_serialize (units au)) as [e [bytes pad]].
  destruct (Z.ltb_spec e 0) as [Hlt|Hge]; cbv beta iota zeta.
  - replace (e <? 0) with true by lia. split; [lia|done].
  - change (0 <? 0) with false. cbv iota.
    destruct (data_len <? _); (split; [by vm_compute|done]).
Qed.

Lemma add_nal_cases au u :
  let '(err, au') := vaapi_encode_h264_add_nal cbs_insert_err au u in
  err < 0 \/ err = 0 /\ units au' = units au ++ [u].
Proof.
  unfold vaapi_encode_h264_add_nal, ff_cbs_insert_unit_content.
  destruct (Z.ltb_spec (cbs_insert_err au u) 0) as [Hlt|Hge].
  - replace (cbs_insert_err au u <? 0) with true by lia. by left.
  - cbn. by right.
Qed.

Lemma add_sei_messages_cases msgs : forall au,
  let '(err, au') := add_sei_messages cbs_insert_err au msgs in
  err < 0 \/ err = 0.
Proof.
  induction msgs as [|t msgs IH]; intros au; cbn [add_sei_messages].
  - by right.
  - unfold ff_cbs_sei_add_message, ff_cbs_insert_unit_content.
    destruct (Z.ltb_spec (cbs_insert_err au (SEIMessage t)) 0) as [Hlt|Hge].
    + replace (cbs_insert_err au (SEIMessage t) <? 0) with true by lia.
      by left.
    + cbn [Z.ltb Z.compare]. apply IH.
Qed.

Lemma add_aud_if_needed_cases priv :
  match add_aud_if_needed cbs_insert_err priv with
  | inl (err, _) => err < 0
  | inr _ => True
  end.
Proof.
  unfold add_aud_if_needed. destruct (aud_needed priv); [|done].
  pose proof (add_nal_cases (current_access_unit priv) RawAUD) as H.
  destruct (vaapi_encode_h264_add_nal _ _ _) as [e au].
  destruct (Z.ltb_spec e 0); [done|done].
Qed.

(** X1.  The writers return 0 or a negative error code, and whenever the code is
    not 0 the caller's buffer and [*data_len] are as they were: nothing is
    copied before the last check has passed. *)
Theorem write_header_failure_leaves_buffer
    (call : writer_call) (priv : VAAPIEncodeH264Context)
    (buf : list Byte.byte) (data_len : Z) :
  let '(err, priv', buf', data_len') := run_w call priv buf data_len in
  err <= 0 /\ (err <> 0 -> buf' = buf /\ data_len' = data_len).
Proof.
  destruct call as [| |pic]; cbn [run_writer].
  - unfold vaapi_encode_h264_write_sequence_header.
    pose proof (add_aud_if_needed_cases priv) as Ha.
    destruct (add_aud_if_needed _ priv) as [[e p]|p];
      [cbn; split; [lia|done]|].
    pose proof (add_nal_cases (current_access_unit p) RawSPS) as H1.
    destruct (vaapi_encode_h264_add_nal _ _ RawSPS) as [e1 au1].
    destruct (Z.ltb_spec e1 0); [cbn; split; [lia|done]|].
    pose proof (add_nal_cases (current_access_unit (set_au p au1)) RawPPS)
      as H2.
    destruct (vaapi_encode_h264_add_nal _ _ RawPPS) as [e2 au2].
    destruct (Z.ltb_spec e2 0); [cbn; split; [lia|done]|].
    pose proof (write_access_unit_cases buf data_len
                  (current_access_unit (set_au (set_au p au1) au2))) as H3.
    by destruct (vaapi_encode_h264_write_access_unit _ _ _ _)
      as [[[e3 au3] b3] l3].
  - unfold vaapi_encode_h264_write_slice_header.
    pose proof (add_aud_if_needed_cases priv) as Ha.
    destruct (add_aud_if_needed _ priv) as [[e p]|p];
      [cbn; split; [lia|done]|].
    pose proof (add_nal_cases (current_access_unit p) RawSlice) as H1.
    destruct (vaapi_encode_h264_add_nal _ _ RawSlice) as [e1 au1].
    destruct (Z.ltb_spec e1 0); [cbn; split; [lia|done]|].
    pose proof (write_access_unit_cases buf data_len
                  (current_access_unit (set_au p au1))) as H3.
    by destruct (vaapi_encode_h264_write_access_unit _ _ _ _)
      as [[[e3 au3] b3] l3].
  - unfold vaapi_encode_h264_write_extra_header.
    destruct (negb (sei_needed priv =? 0)); [|cbn; split; [by vm_compute|done]].
    pose proof (add_aud_if_needed_cases priv) as Ha.
    destruct (add_aud_if_needed _ priv) as [[e p]|p];
      [cbn; split; [lia|done]|].
    pose proof (add_sei_messages_cases
                  (sei_messages_due (sei_needed p) pic)
                  (current_access_unit p)) as H1.
    destruct (add_sei_messages _ _ _) as [e1 au1].
    destruct (Z.ltb_spec e1 0); [cbn; split; [lia|done]|].
    pose proof (write_access_unit_cases buf data_len
                  (current_access_unit
                     (set_sei_needed (set_au p au1) 0))) as H3.
    destruct (vaapi_encode_h264_write_access_unit _ _ _ _)
      as [[[e3 au3] b3] l3].
    destruct (Z.ltb_spec e3 0); cbn; [split; [lia|tauto]|].
    split; [lia|done].
Qed.

Lemma write_access_unit_success buf data_len au e bytes pad :
  cbs_serialize (units au) = (e, (bytes, pad)) -> 0 <= e ->
  (8 * Z.of_nat (length bytes) - pad) mod size_t_modulus <= data_len ->
  vaapi_encode_h264_write_access_unit cbs_serialize buf data_len au
  = (0, mkFragment bytes (Z.of_nat (length bytes)) pad (units au),
     bytes ++ drop (length bytes) buf,
     (8 * Z.of_nat (length bytes) - pad) mod size_t_modulus).
Proof.
  intros Hs He Hle. unfold vaapi_encode_h264_write_access_unit,
    ff_cbs_write_fragment_data. rewrite Hs.
  replace (e <? 0) with false by lia. cbn [Z.ltb Z.compare].
  unfold au_bit_length. cbn [data data_size data_bit_padding].
  replace (data_len <? _) with false by lia.
  unfold memcpy. by rewrite Nat2Z.id, firstn_all.
Qed.

Lemma add_aud_if_needed_clears priv :
  (forall au u, 0 <= cbs_insert_err au u) ->
  exists priv', add_aud_if_needed cbs_insert_err priv = inr priv' /\
    units (current_access_unit priv')
    = units (current_access_unit priv)
      ++ (if aud_needed priv then [RawAUD] else []) /\
    sei_needed priv' = sei_needed priv /\
    aud_needed priv' = false.
Proof.
  intros Hok. unfold add_aud_if_needed. destruct (aud_needed priv) eqn:E.
  - rewrite (add_nal_ok _ Hok). cbn. eauto.
  - exists priv. by rewrite app_nil_r.
Qed.

(** X2.  When no insertion fails, the serializer succeeds and the caller's
    buffer offers enough bits, a writer returns 0, the first bytes of the
    buffer are the serialized units (a pending delimiter first, then the
    call's own units), [*data_len] is their length in bits, the pending list
    is empty again, no delimiter is pending any more and, for the metadata
    writer, no message is due any more. *)
Theorem write_header_success
    (call : writer_call) (priv : VAAPIEncodeH264Context)
    (buf : list Byte.byte) (data_len : Z)
    (e : Z) (bytes : list Byte.byte) (pad : Z) :
  (forall au u, 0 <= cbs_insert_err au u) ->
  writes call priv = true ->
  cbs_serialize (pending_units call priv) = (e, (bytes, pad)) ->
  0 <= e ->
  (8 * Z.of_nat (length bytes) - pad) mod size_t_modulus <= data_len ->
  exists priv',
    run_w call priv buf data_len
    = (0, priv', bytes ++ drop (length bytes) buf,
       (8 * Z.of_nat (length bytes) - pad) mod size_t_modulus) /\
    units (current_access_unit priv') = [] /\
    aud_needed priv' = false /\
    sei_needed priv'
    = match call with
      | WriteExtraHeader _ => 0
      | _ => sei_needed priv
      end.
Proof.
  intros Hok Hw Hs He Hle. unfold pending_units in Hs.
  destruct (add_aud_if_needed_clears priv Hok) as (p & Hp & Hu & Hsn & Haud).
  destruct call as [| |pic]; cbn [run_writer].
  - unfold vaapi_encode_h264_write_sequence_header. rewrite Hp.
    rewrite !(add_nal_ok _ Hok). cbn [Z.ltb Z.compare].
    cbn [current_access_unit set_au units].
    erewrite write_access_unit_success; [|cbn [units]|done|done].
    + cbn. eexists. split; [reflexivity|]. by rewrite <- Hsn.
    + rewrite Hu, <- Hs. f_equal. by rewrite <- !app_assoc.
  - unfold vaapi_encode_h264_write_slice_header. rewrite Hp.
    rewrite !(add_nal_ok _ Hok). cbn [Z.ltb Z.compare].
    cbn [current_access_unit set_au units].
    erewrite write_access_unit_success; [|cbn [units]|done|done].
    + cbn. eexists. split; [reflexivity|]. by rewrite <- Hsn.
    + rewrite Hu, <- Hs. f_equal. by rewrite <- !app_assoc.
  - unfold vaapi_encode_h264_write_extra_header.
    cbn [writes] in Hw. rewrite Hw, Hp.
    rewrite (add_sei_messages_ok _ Hok). cbn [Z.ltb Z.compare].
    cbn [current_access_unit set_au set_sei_needed units].
    erewrite write_access_unit_success; [|cbn [units]|done|done].
    + cbn. eexists. split; [reflexivity|]. done.
    + rewrite Hu, Hsn, <- Hs. f_equal. by rewrite <- !app_assoc.
Qed.

(** X3.  A call of the metadata writer that returns 0 has written a raw-data
    header and leaves no message due: called again for the same picture it
    returns the nothing-pending code and touches nothing, which is how the
    caller's loop over the extra headers ends. *)
Theorem write_extra_header_once
    (priv : VAAPIEncodeH264Context) (pic : Picture)
    (buf : list Byte.byte) (data_len : Z)
    (priv' : VAAPIEncodeH264Context) (buf' : list Byte.byte) (data_len' : Z)
    (ty : option packed_header_type) :
  write_extra_header priv pic buf data_len
    = (0, priv', buf', data_len', ty) ->
  ty = Some VAEncPackedHeaderRawData /\
  sei_needed priv' = 0 /\
  forall pic2 buf2 data_len2,
    write_extra_header priv' pic2 buf2 data_len2
    = (AVERROR_EOF, priv', buf2, data_len2, None).
Proof.
  unfold vaapi_encode_h264_write_extra_header at 1.
  destruct (negb (sei_needed priv =? 0)); [|intros [= H]; by vm_compute in H].
  pose proof (add_aud_if_needed_cases priv) as Ha.
  destruct (add_aud_if_needed _ priv) as [[e p]|p].
  { unfold reset_and_return. intros [= -> _ _ _ _]. lia. }
  pose proof (add_sei_messages_cases (sei_messages_due (sei_needed p) pic)
                (current_access_unit p)) as H1.
  destruct (add_sei_messages _ _ _) as [e1 au1].
  destruct (Z.ltb_spec e1 0).
  { unfold reset_and_return. intros [= -> _ _ _ _]. lia. }
  destruct (vaapi_encode_h264_write_access_unit _ _ _ _)
    as [[[e3 au3] b3] l3].
  destruct (Z.ltb_spec e3 0).
  { unfold reset_and_return. intros [= -> _ _ _ _]. lia. }
  unfold reset_and_return. intros [= <- <- <- <-].
  split; [done|]. split; [done|]. intros pic2 buf2 data_len2.
  unfold vaapi_encode_h264_write_extra_header. done.
Qed.

End H264WritersResults.

(** ** H.264 default reference lists: the arrays *)

Section H264DefaultListArrays.
Import H264.

Lemma shift_insert_room {A} (test : A -> outcome bool) n (a : list A) x a' :
  shift_insert test n a x = Ok a' -> (n < length a)%nat.
Proof.
  unfold shift_insert. intros ([j a1] & Hloop & Hset)%obind_Ok.
  pose proof (shift_loop_length _ _ _ _ _ Hloop) as Hlen.
  unfold aset in Hset. case_decide as Hj; [|done].
  destruct n as [|n']; cbn [shift_loop] in Hloop.
  - injection Hloop as <- <-. done.
  - apply obind_Ok in Hloop as (hc & _ & H).
    apply obind_Ok in H as ([|] & _ & H).
    + injection H as <- <-. done.
    + apply obind_Ok in H as (a2 & Ha2 & _).
      unfold aset in Ha2. by case_decide.
Qed.

Lemma insert_candidates_room pic cands : forall a0 a1 k r0 r1 n,
  ofold (add_candidate pic) (a0, a1, k) cands = Ok (r0, r1, n) ->
  n = (k + length cands)%nat /\
  (type pic = FF_HW_PICTURE_TYPE_P \/ type pic = FF_HW_PICTURE_TYPE_B ->
   (k <= length a0)%nat -> (n <= length a0)%nat) /\
  (type pic = FF_HW_PICTURE_TYPE_B -> (k <= length a1)%nat ->
   (n <= length a1)%nat).
Proof.
  induction cands as [|hn cands IH]; intros a0 a1 k r0 r1 n; cbn [ofold].
  - intros [= <- <- <-]. cbn. split; [lia|]. split; [intros; lia|done].
  - intros ([[b0 b1] k'] & Hstep & Hrest)%obind_Ok.
    unfold add_candidate in Hstep.
    apply obind_Ok in Hstep as ([] & _ & Hstep).
    destruct (type pic) eqn:Hty.
    + injection Hstep as <- <- <-.
      apply IH in Hrest as (-> & _ & _).
      cbn [length]. split; [lia|]. split; [by intros [?|?]|done].
    + injection Hstep as <- <- <-.
      apply IH in Hrest as (-> & _ & _).
      cbn [length]. split; [lia|]. split; [by intros [?|?]|done].
    + apply obind_Ok in Hstep as (c0 & H0 & [= <- <- <-]).
      pose proof (shift_insert_room _ _ _ _ _ H0) as Hroom.
      pose proof (shift_insert_length _ _ _ _ _ H0) as Hlen.
      apply IH in Hrest as (-> & Hn & _).
      cbn [length]. split; [lia|]. split; [|done].
      intros _ _. rewrite <- Hlen. apply Hn; [by left|lia].
    + apply obind_Ok in Hstep as (c0 & H0 & Hstep).
      apply obind_Ok in Hstep as (c1 & H1 & [= <- <- <-]).
      pose proof (shift_insert_room _ _ _ _ _ H0) as Hroom0.
      pose proof (shift_insert_length _ _ _ _ _ H0) as Hlen0.
      pose proof (shift_insert_room _ _ _ _ _ H1) as Hroom1.
      pose proof (shift_insert_length _ _ _ _ _ H1) as Hlen1.
      apply IH in Hrest as (-> & Hn0 & Hn1).
      cbn [length]. split; [lia|]. split.
      * intros _ _. rewrite <- Hlen0. apply Hn0; [by right|lia].
      * intros _ _. rewrite <- Hlen1. apply Hn1; [done|lia].
Qed.

Lemma insert_candidates_untouched pic cands : forall st r,
  ofold (add_candidate pic) st cands = Ok r ->
  (type pic <> FF_HW_PICTURE_TYPE_B -> r.1.2 = st.1.2) /\
  (type pic = FF_HW_PICTURE_TYPE_IDR \/ type pic = FF_HW_PICTURE_TYPE_I ->
   r.1.1 = st.1.1).
Proof.
  induction cands as [|hn cands IH]; intros st r; cbn [ofold].
  - by intros [= <-].
  - intros (st' & Hstep & Hrest)%obind_Ok.
    destruct (IH _ _ Hrest) as [IH1 IH2].
    destruct st as [[b0 b1] k0]. unfold add_candidate in Hstep.
    apply obind_Ok in Hstep as ([] & _ & Hstep).
    split.
    + intros Hty. rewrite (IH1 Hty). destruct (type pic); try done.
      * by injection Hstep as <-.
      * by injection Hstep as <-.
      * apply obind_Ok in Hstep as (c0 & _ & [= <-]). done.
    + intros Hty. rewrite (IH2 Hty).
      destruct Hty as [Hty|Hty]; rewrite Hty in Hstep;
        by injection Hstep as <-.
Qed.

Lemma FFSWAP_first_two_inv {A} (a a' : list A) :
  FFSWAP a 0 1 = Ok a' -> (2 <= length a)%nat /\ drop 2 a' = drop 2 a.
Proof.
  destruct a as [|x [|y rest]]; [done| |].
  - unfold FFSWAP, aget. cbn. done.
  - rewrite FFSWAP_first_two. intros [= <-]. cbn. split; [lia|done].
Qed.

(** X5.  A call that returns has found room for every candidate: [*rpl_size]
    is the number of pictures in the previous picture's DPB, for a P or B
    picture [rpl0] (and for a B picture [rpl1]) has at least that many
    cells, the cells from that index on are as the caller left them (in
    [rpl1] of a B picture when there are at least two candidates: the
    correction exchanges cells 0 and 1 whatever they hold), and for any other
    picture type neither array is written.  An array with fewer cells than
    candidates therefore never yields a result: the loop runs into a write
    behind its end. *)
Theorem default_ref_pic_list_within_arrays
    (pic prv : Picture) (rpl0 rpl1 d0 d1 : list Picture) (n : nat) :
  prev pic = Some prv ->
  vaapi_encode_h264_default_ref_pic_list pic rpl0 rpl1 = Ok (d0, d1, n) ->
  n = length (dpb prv) /\
  length d0 = length rpl0 /\ length d1 = length rpl1 /\
  (type pic = FF_HW_PICTURE_TYPE_P \/ type pic = FF_HW_PICTURE_TYPE_B ->
   (n <= length rpl0)%nat /\ drop n d0 = drop n rpl0) /\
  (type pic = FF_HW_PICTURE_TYPE_B ->
   (n <= length rpl1)%nat /\ (2 <= length rpl1)%nat /\
   ((2 <= n)%nat -> drop n d1 = drop n rpl1)) /\
  (type pic <> FF_HW_PICTURE_TYPE_B -> d1 = rpl1) /\
  (type pic = FF_HW_PICTURE_TYPE_IDR \/ type pic = FF_HW_PICTURE_TYPE_I ->
   d0 = rpl0).
Proof.
  intros Hprev Hdef.
  destruct (default_ref_pic_list_checked _ _ _ _ _ _ _ Hprev Hdef)
    as (_ & Hl0 & Hl1).
  unfold vaapi_encode_h264_default_ref_pic_list in Hdef.
  rewrite Hprev in Hdef.
  apply obind_Ok in Hdef as ([[a0 a1] k] & Hins & H).
  apply obind_Ok in H as (a1' & Hfix & [= -> -> ->]).
  unfold insert_candidates in Hins.
  destruct (insert_candidates_room pic (dpb prv) rpl0 rpl1 O d0 a1 n Hins)
    as (Hn & Hroom0 & Hroom1).
  cbn [Nat.add] in Hn. split; [done|]. split; [done|]. split; [done|].
  split; [|split; [|split]].
  - intros Hty. specialize (Hroom0 Hty ltac:(lia)). split; [done|].
    destruct Hty as [Hty|Hty].
    + change (rpl0, rpl1, O) with ([] ++ rpl0, rpl1, length (@nil Picture))
        in Hins.
      rewrite (insert_candidates_P_refine pic (dpb prv) Hty [] rpl0 rpl1 [])
        in Hins by lia.
      apply obind_Ok in Hins as ([l0 l1] & _ & [= <- _ Hk]).
      rewrite drop_app_length'; [by rewrite Hn|lia].
    + specialize (Hroom1 Hty ltac:(lia)).
      change (rpl0, rpl1, O)
        with ([] ++ rpl0, [] ++ rpl1, length (@nil Picture)) in Hins.
      rewrite (insert_candidates_B_refine pic (dpb prv) Hty [] rpl0 [] rpl1)
        in Hins by (done || lia).
      apply obind_Ok in Hins as ([l0 l1] & _ & [= <- _ Hk]).
      rewrite drop_app_length'; [by rewrite Hn|lia].
  - intros Hty. specialize (Hroom0 (or_intror Hty) ltac:(lia)).
    specialize (Hroom1 Hty ltac:(lia)). split; [done|].
    change (rpl0, rpl1, O)
      with ([] ++ rpl0, [] ++ rpl1, length (@nil Picture)) in Hins.
    pose proof Hins as Hins'.
    rewrite (insert_candidates_B_refine pic (dpb prv) Hty [] rpl0 [] rpl1)
      in Hins by (done || lia).
    apply obind_Ok in Hins as ([l0 l1] & Hfold & [= Hd0 <- Hk]).
    apply (fold_B_Permutation pic _ Hty) in Hfold as [Hp0 Hp1].
    cbn [app] in Hp0, Hp1.
    assert (length l1 = n) as Hl1n by (by rewrite Hp1, Hn).
    unfold degenerate_correction in Hfix. rewrite Hty in Hfix.
    apply obind_Ok in Hfix as (i & Hi & Hfix).
    destruct (i =? n)%nat eqn:E.
    + apply FFSWAP_first_two_inv in Hfix as [Hlen2 Hdrop].
      rewrite length_app, length_drop in Hlen2.
      split; [lia|]. intros Hn2.
      replace n with (2 + (n - 2))%nat at 1 by lia.
      rewrite <- drop_drop, Hdrop, drop_drop.
      replace (2 + (n - 2))%nat with n by lia.
      rewrite drop_app_length'; [by rewrite Hn|lia].
    + injection Hfix as <-. split.
      * apply Nat.eqb_neq in E.
        destruct n as [|[|n']]; [| |lia]; exfalso.
        -- cbn in Hi. by injection Hi as <-.
        -- destruct (dpb prv) as [|c [|c' rest]]; try done.
           apply Permutation_singleton_r in Hp0 as ->.
           apply Permutation_singleton_r in Hp1 as ->.
           subst d0. cbn in Hi. unfold ptr_eqb in Hi.
           rewrite N.eqb_refl in Hi. cbn in Hi. by injection Hi as <-.
      * intros _. rewrite drop_app_length'; [by rewrite Hn|lia].
  - intros Hty.
    destruct (insert_candidates_untouched _ _ _ _ Hins) as [Hun _].
    cbn [fst snd] in Hun. rewrite <- (Hun Hty).
    unfold degenerate_correction in Hfix.
    destruct (type pic); try done; by injection Hfix as <-.
  - intros Hty.
    destruct (insert_candidates_untouched _ _ _ _ Hins) as [_ Hun].
    by apply Hun.
Qed.
(** X6.  With a single candidate the two default lists of a B picture cannot
    differ, so the correction of lines 832-839 always applies: list 1 comes
    back with the candidate in cell 1 and, in cell 0, whatever the caller's
    array held in cell 1 on entry. *)
Theorem default_ref_pic_list_B_single_candidate
    (pic prv c x0 x y : Picture) (rest0 rest : list Picture) :
  type pic = FF_HW_PICTURE_TYPE_B ->
  prev pic = Some prv ->
  dpb prv = [c] ->
  fn c < fn pic ->
  vaapi_encode_h264_default_ref_pic_list pic (x0 :: rest0) (x :: y :: rest)
  = Ok (c :: rest0, y :: c :: rest, 1%nat).
Proof.
  intros Hty Hprev Hdpb Hfn.
  unfold vaapi_encode_h264_default_ref_pic_list, insert_candidates.
  rewrite Hprev, Hdpb. cbn [ofold add_candidate]. rewrite Hty.
  replace (fn c <? fn pic) with true by lia.
  cbn [av_assert0 obind shift_insert shift_loop].
  unfold aset. cbn [length].
  rewrite !decide_True by lia.
  cbn [obind insert list_insert]. unfold degenerate_correction.
  rewrite Hty. unfold first_difference, aget.
  cbn [lookup list_lookup obind].
  unfold ptr_eqb. rewrite N.eqb_refl.
  cbn [negb Nat.eqb obind]. by rewrite FFSWAP_first_two.
Qed.
End H264DefaultListArrays.

(** ** H.264 slice parameters: the assertions *)

Section H264SliceAssertions.
Import H264.

(** X7.  A reference picture that keeps more pictures of the previous DPB than
    the session's [dpb_frames] allows is not encoded: the marking block, and
    with it the whole function, dies in the assertion of line 927 before
    any operation is written. *)
Theorem slice_marking_dpb_overflow
    (priv : VAAPIEncodeH264Context) (pic prv : Picture)
    (flag : Z) (mmco : list MMCO) :
  is_reference pic = true ->
  type pic <> FF_HW_PICTURE_TYPE_IDR ->
  prev pic = Some prv ->
  dpb_frames priv
  < Z.of_nat (length (filter (fun c => addr c ∈ (addr <$> dpb pic))
                        (dpb prv))) ->
  slice_marking priv pic flag mmco = AssertionFailure /\
  forall block_start def_l0 def_l1 sh,
    vaapi_encode_h264_init_slice_params priv pic block_start def_l0 def_l1 sh
    = AssertionFailure.
Proof.
  intros Href Hty Hprev Hover.
  assert (slice_marking priv pic flag mmco = AssertionFailure
          /\ forall flag' mmco',
               slice_marking priv pic flag' mmco' = AssertionFailure)
    as [H1 H2].
  { assert (PictureType_eqb (type pic) FF_HW_PICTURE_TYPE_IDR = false) as Hb.
    { destruct (PictureType_eqb _ _) eqn:E; [|done].
      by apply PictureType_eqb_eq in E. }
    unfold slice_marking. rewrite Href, Hb, Hprev. cbn [andb negb].
    unfold discard_scan. rewrite discard_scan_fold. rewrite Z.add_0_l.
    replace (_ <=? dpb_frames priv) with false by lia. done. }
  split; [done|]. intros block_start def_l0 def_l1 sh.
  unfold vaapi_encode_h264_init_slice_params. by rewrite H2.
Qed.

(** X8.  The scheduler's reference arrays have to fit the picture type: with a
    list 0 reference on an IDR or I picture, or a list 1 reference on a
    picture that is not a B picture, the function never returns; for an IDR
    picture it ends in the assertion of line 1071 or 1077. *)
Theorem init_slice_params_reference_types
    (priv : VAAPIEncodeH264Context) (pic : Picture) (block_start : Z)
    (def_l0 def_l1 : list Picture) (sh : H264RawSliceHeader) :
  (refs0 pic <> [] /\
   (type pic = FF_HW_PICTURE_TYPE_IDR \/ type pic = FF_HW_PICTURE_TYPE_I)) \/
  (refs1 pic <> [] /\ type pic <> FF_HW_PICTURE_TYPE_B) ->
  (forall sh',
     vaapi_encode_h264_init_slice_params priv pic block_start def_l0 def_l1 sh
     <> Ok sh') /\
  (type pic = FF_HW_PICTURE_TYPE_IDR ->
   vaapi_encode_h264_init_slice_params priv pic block_start def_l0 def_l1 sh
   = AssertionFailure).
Proof.
  intros Hbad. split.
  - intros sh' H. unfold vaapi_encode_h264_init_slice_params in H.
    apply obind_Ok in H as ([flag m] & _ & H).
    apply obind_Ok in H as ([[[f0 r0] f1] r1] & _ & H).
    apply obind_Ok in H as ([] & H0%av_assert0_Ok & H).
    apply obind_Ok in H as ([] & H1%av_assert0_Ok & _).
    destruct Hbad as [[Hne [Hty|Hty]]|[Hne Hty]].
    + destruct (refs0 pic); [done|]. by rewrite Hty in H0.
    + destruct (refs0 pic); [done|]. by rewrite Hty in H0.
    + destruct (refs1 pic); [done|]. by destruct (type pic).
  - intros Hty. unfold vaapi_encode_h264_init_slice_params, slice_marking,
      slice_rplm.
    rewrite Hty. cbn [PictureType_eqb negb andb obind].
    rewrite andb_false_r. cbn [obind].
    destruct Hbad as [[Hne _]|[Hne _]].
    + destruct (refs0 pic); [done|]. done.
    + destruct (refs0 pic); destruct (refs1 pic); done.
Qed.
End H264SliceAssertions.

(** ** H.265 short-term reference picture set: ranges and failures *)

Section H265RPSRanges.
Import H265.






Lemma rps_partition_current cur (rps : list rps_entry) k : forall i j e,
  StronglySorted poc_lt rps ->
  (i <= j < i + k)%nat -> rps !! j = Some e -> e.1 = cur ->
  rps_partition cur rps i k = AssertionFailure.
Proof.
  induction k as [|k IH]; intros i j e Hs Hj He Hcur; [lia|].
  cbn [rps_partition].
  destruct (lookup_lt_is_Some_2 rps i) as [x Hx].
  { apply lookup_lt_Some in He. lia. }
  unfold aget. rewrite Hx. cbn [obind].
  destruct (decide (i = j)) as [->|Hne].
  - rewrite He in Hx. injection Hx as <-.
    replace (e.1 =? cur) with true by lia. done.
  - assert (x.1 < e.1) as Hlt.
    { rewrite <- (take_drop_middle rps j e He) in Hs, Hx.
      apply StronglySorted_app in Hs as (Hcross & _ & _).
      apply (Hcross x e); [|by left].
      rewrite lookup_app_l in Hx
        by (rewrite length_take; apply lookup_lt_Some in He; lia).
      by eapply list_elem_of_lookup_2. }
    replace (x.1 =? cur) with false by lia.
    cbn [negb av_assert0 obind].
    replace (x.1 >? cur) with false by lia.
    apply (IH (S i) j e); [done|lia|done|done].
Qed.

(** X10.  The function dies in an assertion, and only this way: when a collected
    entry (a reference, or another picture of the DPB) has the POC of the
    current picture the result is an assertion failure, and no input makes
    the sort or the partition loop read outside the collected entries. *)
Theorem short_term_ref_pic_set_current_poc (pic : Picture) :
  (Exists (fun e => e.1 = poc pic) (rps_entries pic) ->
   short_term_ref_pic_set pic = AssertionFailure) /\
  short_term_ref_pic_set pic <> Undefined.
Proof.
  assert (forall l, ofold rps_insert [] (rps_entries pic) = Ok l ->
            (Exists (fun e => e.1 = poc pic) (rps_entries pic) ->
             rps_partition (poc pic) l O (length l) = AssertionFailure) /\
            rps_partition (poc pic) l O (length l) <> Undefined) as Hpart.
  { intros l Hl. apply rps_fold_inv in Hl as [Hs Hp]; [|constructor].
    cbn [app] in Hp.
    assert (Exists (fun e => e.1 = poc pic) (rps_entries pic) ->
            rps_partition (poc pic) l O (length l) = AssertionFailure) as H1.
    { rewrite <- Hp. intros (e & He & Hcur)%Exists_exists.
      apply list_elem_of_lookup_1 in He as [j Hj].
      apply (rps_partition_current _ _ _ O j e); [done| |done|done].
      apply lookup_lt_Some in Hj. lia. }
    split; [done|].
    destruct (decide (Exists (fun e => e.1 = poc pic) (rps_entries pic)))
      as [Hex|Hnex]; [by rewrite H1|].
    destruct (rps_partition_total (poc pic) l (length l) O) as [i ->];
      [lia| |done].
    rewrite Hp. apply Forall_forall. intros e He Hcur. apply Hnex.
    apply Exists_exists. by exists e. }
  unfold short_term_ref_pic_set. rewrite rps_sort_insertion.
  destruct (decide (NoDup (fst <$> rps_entries pic))) as [Hnd|Hnd].
  - destruct (rps_fold_total (rps_entries pic) []) as [l Hl];
      [constructor|done|].
    destruct (Hpart l Hl) as [H1 H2]. rewrite Hl. cbn [obind]. split.
    + intros Hex. by rewrite (H1 Hex).
    + by destruct (rps_partition _ _ _ _).
  - by rewrite (rps_fold_dup (rps_entries pic) [] (SSorted_nil _) Hnd).
Qed.
End H265RPSRanges.

(** ** H.264 session set-up *)

Section H264SetupFacts.
Import H264 H264Setup.

Lemma land_lnot_255 (l : Z) : Z.land l (Z.lnot 255) = 0 <-> 0 <= l <= 255.
Proof.
  rewrite <- Z.ldiff_land. change 255 with (Z.ones 8).
  rewrite Z.ldiff_ones_r by lia.
  rewrite Z.shiftl_mul_pow2, Z.shiftr_div_pow2 by lia.
  change (2 ^ 8) with 256. change (Z.ones 8) with 255.
  pose proof (Z.div_mod l 256 ltac:(lia)).
  pose proof (Z.mod_pos_bound l 256 ltac:(lia)).
  split; [lia|]. intros H1. rewrite Z.div_small by lia. done.
Qed.

Lemma FFALIGN_16 (x : Z) : FFALIGN x 16 = 16 * ((x + 15) / 16).
Proof.
  unfold FFALIGN. rewrite <- Z.ldiff_land.
  replace (x + 16 - 1) with (x + 15) by lia.
  change (16 - 1) with (Z.ones 4).
  rewrite Z.ldiff_ones_r by lia.
  rewrite Z.shiftl_mul_pow2, Z.shiftr_div_pow2 by lia.
  change (2 ^ 4) with 16. lia.
Qed.

Lemma FFALIGN_16_bounds (x : Z) :
  (16 | FFALIGN x 16) /\ x <= FFALIGN x 16 < x + 16.
Proof.
  rewrite FFALIGN_16. split; [by exists ((x + 15) / 16); lia|].
  pose proof (Z.div_mod (x + 15) 16 ltac:(lia)).
  pose proof (Z.mod_pos_bound (x + 15) 16 ltac:(lia)). lia.
Qed.

Lemma existsb_eqb_elem_of (x : Z) (l : list Z) :
  existsb (Z.eqb x) l = true <-> x ∈ l.
Proof.
  rewrite existsb_exists. split.
  - intros (y & Hy%list_elem_of_In & ->%Z.eqb_eq). done.
  - intros H. exists x. split; [by apply list_elem_of_In|apply Z.eqb_refl].
Qed.

(** X11.  [vaapi_encode_h264_init] up to the call of the generic initialisation:
    it gives up with [AVERROR_PATCHWELCOME] exactly for the eight profiles
    of the [switch], and otherwise with [AVERROR(EINVAL)] exactly when a
    level is given that is not within 0..255 (the test is
    [level & ~0xff]); when it goes on, the baseline profile has been
    replaced by constrained baseline, the level fits eight bits or is
    unknown, and the surface is the picture rounded up to whole
    macroblocks: a multiple of 16 in each direction, less than 16 samples
    larger than the picture. *)
Theorem init_checks_profile_level_surface
    (width height priv_profile priv_level priv_quality priv_qp : Z)
    (st : InitState) :
  let profile :=
    if avctx_profile st =? AV_PROFILE_UNKNOWN then priv_profile
    else avctx_profile st in
  let level :=
    if avctx_level st =? AV_LEVEL_UNKNOWN then priv_level
    else avctx_level st in
  match init_checks width height priv_profile priv_level priv_quality
          priv_qp st with
  | inl (err, _) =>
      (err = AVERROR_PATCHWELCOME /\ profile ∈ rejected_profiles) \/
      (err = AVERROR EINVAL /\ (profile ∉ rejected_profiles) /\
       level <> AV_LEVEL_UNKNOWN /\ ~ (0 <= level <= 255))
  | inr st' =>
      (profile ∉ rejected_profiles) /\
      avctx_profile st' <> AV_PROFILE_H264_BASELINE /\
      (profile <> AV_PROFILE_H264_BASELINE -> avctx_profile st' = profile) /\
      (profile = AV_PROFILE_H264_BASELINE ->
       avctx_profile st' = AV_PROFILE_H264_CONSTRAINED_BASELINE) /\
      avctx_level st' = level /\
      (level = AV_LEVEL_UNKNOWN \/ 0 <= level <= 255) /\
      (16 | surface_width st') /\
      width <= surface_width st' < width + 16 /\
      (16 | surface_height st') /\
      height <= surface_height st' < height + 16
  end.
Proof.
  intros profile level. unfold init_checks. fold profile level.
  destruct (existsb (Z.eqb profile) rejected_profiles) eqn:Hrej.
  { left. split; [done|]. by apply existsb_eqb_elem_of. }
  assert (profile ∉ rejected_profiles) as Hnot.
  { rewrite <- existsb_eqb_elem_of. congruence. }
  destruct (Z.eqb_spec level AV_LEVEL_UNKNOWN) as [Hunk|Hknown];
    cbn [negb andb].
  - cbn [avctx_profile avctx_level surface_width surface_height].
    destruct (FFALIGN_16_bounds width) as [? ?].
    destruct (FFALIGN_16_bounds height) as [? ?].
    split; [done|]. split.
    { destruct (Z.eqb_spec profile AV_PROFILE_H264_BASELINE); [done|done]. }
    split.
    { intros Hp. by destruct (Z.eqb_spec profile AV_PROFILE_H264_BASELINE). }
    split.
    { intros Hp. by destruct (Z.eqb_spec profile AV_PROFILE_H264_BASELINE). }
    split; [done|]. split; [by left|]. done.
  - destruct (Z.eqb_spec (Z.land level (Z.lnot 255)) 0) as [Hfit|Hwide];
      cbn [negb].
    + apply land_lnot_255 in Hfit.
      cbn [avctx_profile avctx_level surface_width surface_height].
      destruct (FFALIGN_16_bounds width) as [? ?].
      destruct (FFALIGN_16_bounds height) as [? ?].
      split; [done|]. split.
      { destruct (Z.eqb_spec profile AV_PROFILE_H264_BASELINE); [done|done]. }
      split.
      { intros Hp.
        by destruct (Z.eqb_spec profile AV_PROFILE_H264_BASELINE). }
      split.
      { intros Hp.
        by destruct (Z.eqb_spec profile AV_PROFILE_H264_BASELINE). }
      split; [done|]. split; [by right|]. done.
    + right. split; [done|]. split; [done|]. split; [done|].
      by rewrite <- land_lnot_255.
Qed.

Section AfterConfigure.
Variable ff_h264_guess_level : Z -> Z -> Z -> Z -> Z -> Z -> option (Z * Z).

Abbreviation init_sequence_params :=
  (vaapi_encode_h264_init_sequence_params ff_h264_guess_level).

Lemma configure_inv c priv d err priv1 d1 :
  vaapi_encode_h264_configure c priv d = (err, priv1, d1) ->
  err = 0 ->
  mb_width d1 = FFALIGN (cfg_width c) 16 ÷ 16 /\
  mb_height d1 = FFALIGN (cfg_height c) 16 ÷ 16 /\
  fixed_qp_idr priv1 = fixed_qp_idr (configure_fixed_qp c priv) /\
  fixed_qp_p priv1 = fixed_qp_p (configure_fixed_qp c priv) /\
  fixed_qp_b priv1 = fixed_qp_b (configure_fixed_qp c priv) /\
  max_b_depth priv1 = max_b_depth priv.
Proof.
  unfold vaapi_encode_h264_configure.
  destruct (Z.ltb_spec (ff_cbs_init c) 0) as [Hlt|Hge].
  { intros [= <- _ _] He. lia. }
  assert (forall hrd p,
            fixed_qp_idr (vaapi_encode_h264_configure_sei hrd p)
            = fixed_qp_idr p /\
            fixed_qp_p (vaapi_encode_h264_configure_sei hrd p)
            = fixed_qp_p p /\
            fixed_qp_b (vaapi_encode_h264_configure_sei hrd p)
            = fixed_qp_b p /\
            max_b_depth (vaapi_encode_h264_configure_sei hrd p)
            = max_b_depth p) as Hsei.
  { intros [|] p; by cbn. }
  assert (max_b_depth (configure_fixed_qp c priv) = max_b_depth priv) as Hb.
  { unfold configure_fixed_qp. by destruct (va_rc_mode_is_CQP c). }
  destruct (Hsei (rc_mode_hrd c) (configure_fixed_qp c priv))
    as (H1 & H2 & H3 & H4).
  destruct (_ && _ && _).
  { intros [= <- _ _] He. by vm_compute in He. }
  intros [= _ <- <-] _. cbn [mb_width mb_height]. by rewrite H4.
Qed.

Lemma av_clip_1_51 a : 1 <= av_clip a 1 51 <= 51.
Proof.
  unfold av_clip. destruct (Z.ltb_spec a 1); [lia|].
  destruct (Z.gtb_spec a 51); lia.
Qed.

Lemma configure_fixed_qp_range c priv :
  let priv1 := configure_fixed_qp c priv in
  1 <= fixed_qp_idr priv1 <= 51 /\ 1 <= fixed_qp_p priv1 <= 51 /\
  1 <= fixed_qp_b priv1 <= 51 /\
  (va_rc_mode_is_CQP c = false ->
   fixed_qp_idr priv1 = 26 /\ fixed_qp_p priv1 = 26 /\ fixed_qp_b priv1 = 26).
Proof.
  unfold configure_fixed_qp. destruct (va_rc_mode_is_CQP c); cbn.
  - pose proof (av_clip_1_51 (rc_quality c)).
    split; [destruct (i_quant c); [apply av_clip_1_51|done]|].
    split; [done|].
    split; [destruct (b_quant c); [apply av_clip_1_51|done]|]. done.
  - lia.
Qed.

Lemma init_sequence_params_inv s d priv err priv2 sps :
  init_sequence_params s d priv = (err, priv2, sps) ->
  err = 0 ->
  fixed_qp_idr priv2 = fixed_qp_idr priv /\
  fixed_qp_p priv2 = fixed_qp_p priv /\
  fixed_qp_b priv2 = fixed_qp_b priv /\
  pic_init_qp_minus26 priv2 = fixed_qp_idr priv - 26 /\
  pic_parameter_set_id priv2 = 0 /\
  log2_max_frame_num_minus4 priv2 = 4 /\
  (log2_max_pic_order_cnt_lsb_minus4 priv2 = 0 \/
   log2_max_pic_order_cnt_lsb_minus4 priv2 = 4) /\
  pic_order_cnt_type priv2 = (if max_b_depth priv =? 0 then 2 else 0) /\
  dpb_frames priv2 = max_num_ref_frames sps /\
  max_num_ref_frames sps
  = (if gop_size s =? 1 then 0 else 1 + max_b_depth priv) /\
  max_num_reorder_frames sps = max_b_depth priv /\
  max_dec_frame_buffering sps = max_b_depth priv + 1 /\
  pic_width_in_mbs_minus1 sps = mb_width d - 1 /\
  pic_height_in_map_units_minus1 sps = mb_height d - 1 /\
  frame_cropping_flag sps
  = Z.b2z (negb (seq_width s =? 16 * mb_width d)
           || negb (seq_height s =? 16 * mb_height d)) /\
  frame_crop_left_offset sps = 0 /\ frame_crop_top_offset sps = 0 /\
  frame_crop_right_offset sps
  = (if frame_cropping_flag sps =? 1
     then (16 * mb_width d - seq_width s) ÷ 2 else 0) /\
  frame_crop_bottom_offset sps
  = (if frame_cropping_flag sps =? 1
     then (16 * mb_height d - seq_height s) ÷ 2 else 0).
Proof.
  unfold vaapi_encode_h264_init_sequence_params.
  destruct (_ || _ || _).
  { intros [= <- _ _] He. by vm_compute in He. }
  destruct (if negb (seq_level s =? AV_LEVEL_UNKNOWN) then _ else _)
    as [cs3 lvl].
  intros [= _ <- <-] _. cbn.
  destruct (max_b_depth priv =? 0); cbn;
    destruct (negb (seq_width s =? 16 * mb_width d)
              || negb (seq_height s =? 16 * mb_height d)); cbn;
    repeat split; auto.
Qed.

(** X12.  The cropping rectangle of the SPS gives the picture back.  With the
    macroblock counts of [vaapi_encode_h264_configure], the width a decoder
    derives from the SPS (16 times the width in macroblocks less twice the
    right crop offset: the crop unit of 4:2:0, the only chroma format
    accepted, is two samples) is the configured width when that is even and
    one more when it is odd, and likewise for the height; the offsets are
    at most 7, and cropping is signalled exactly when one of the two is not
    a multiple of 16. *)
Theorem sequence_cropping_roundtrip
    (c : ConfigureParams) (s : SequenceParams)
    (priv priv1 priv2 : VAAPIEncodeH264Context) (d d1 : Derived)
    (sps : RawSPS) :
  vaapi_encode_h264_configure c priv d = (0, priv1, d1) ->
  init_sequence_params s d1 priv1 = (0, priv2, sps) ->
  seq_width s = cfg_width c -> seq_height s = cfg_height c ->
  0 <= cfg_width c -> 0 <= cfg_height c ->
  16 * (pic_width_in_mbs_minus1 sps + 1) - 2 * frame_crop_right_offset sps
  = cfg_width c + cfg_width c mod 2 /\
  16 * (pic_height_in_map_units_minus1 sps + 1)
  - 2 * frame_crop_bottom_offset sps
  = cfg_height c + cfg_height c mod 2 /\
  0 <= frame_crop_right_offset sps <= 7 /\
  0 <= frame_crop_bottom_offset sps <= 7 /\
  frame_crop_left_offset sps = 0 /\ frame_crop_top_offset sps = 0 /\
  (frame_cropping_flag sps = 0 <->
   (16 | cfg_width c) /\ (16 | cfg_height c)) /\
  (frame_cropping_flag sps = 0 \/ frame_cropping_flag sps = 1).
Proof.
  intros Hcfg Hseq Hw Hh Hw0 Hh0.
  destruct (configure_inv _ _ _ _ _ _ Hcfg eq_refl)
    as (Hmw & Hmh & _).
  destruct (init_sequence_params_inv _ _ _ _ _ _ Hseq eq_refl)
    as (_ & _ & _ & _ & _ & _ & _ & _ & _ & _ & _ & _ & Hpw & Hph & Hflag
        & Hl & Ht & Hr & Hb).
  rewrite FFALIGN_16 in Hmw, Hmh.
  rewrite Z.mul_comm, Z.quot_mul in Hmw, Hmh by lia.
  rewrite Hw, Hh, Hmw, Hmh in *.
  set (mw := (cfg_width c + 15) / 16) in *.
  set (mh := (cfg_height c + 15) / 16) in *.
  assert (0 <= 16 * mw - cfg_width c <= 15) as Rw
    by (subst mw; Z.div_mod_to_equations; lia).
  assert (0 <= 16 * mh - cfg_height c <= 15) as Rh
    by (subst mh; Z.div_mod_to_equations; lia).
  assert ((16 | cfg_width c) <-> cfg_width c = 16 * mw) as Hdw.
  { split; [intros [k Hk]; lia|intros ->; by exists mw; lia]. }
  assert ((16 | cfg_height c) <-> cfg_height c = 16 * mh) as Hdh.
  { split; [intros [k Hk]; lia|intros ->; by exists mh; lia]. }
  rewrite Hdw, Hdh, Hpw, Hph, Hl, Ht.
  clearbody mw mh.
  destruct (Z.eqb_spec (cfg_width c) (16 * mw)) as [Ewm|Nwm];
    destruct (Z.eqb_spec (cfg_height c) (16 * mh)) as [Ehm|Nhm];
    cbn [negb orb Z.b2z] in Hflag; rewrite Hflag in Hr, Hb |- *;
    cbn [Z.eqb Pos.eqb] in Hr, Hb; rewrite Hr, Hb;
    rewrite ?Z.quot_div_nonneg by lia;
    (split; [Z.div_mod_to_equations; lia|]);
    (split; [Z.div_mod_to_equations; lia|]);
    (split; [Z.div_mod_to_equations; lia|]);
    (split; [Z.div_mod_to_equations; lia|]);
    (split; [done|]); (split; [done|]);
    (split; [split; [intros; lia|intros; lia]|lia]).
Qed.

Lemma init_slice_params_fields priv pic block_start def_l0 def_l1 sh sh' :
  vaapi_encode_h264_init_slice_params priv pic block_start def_l0 def_l1 sh
    = Ok sh' ->
  slice_qp_delta sh'
  = match type pic with
    | FF_HW_PICTURE_TYPE_B => fixed_qp_b priv
    | FF_HW_PICTURE_TYPE_P => fixed_qp_p priv
    | _ => fixed_qp_idr priv
    end - (pic_init_qp_minus26 priv + 26) /\
  sh_pic_parameter_set_id sh' = pic_parameter_set_id priv /\
  sh_frame_num sh' = slice_frame_num priv (priv_data pic) /\
  pic_order_cnt_lsb sh'
  = Z.land (pic_order_cnt (priv_data pic))
      (Z.shiftl 1 (4 + log2_max_pic_order_cnt_lsb_minus4 priv) - 1).
Proof.
  unfold vaapi_encode_h264_init_slice_params.
  intros ([flag m] & Hm & H)%obind_Ok.
  apply obind_Ok in H as ([[[f0 r0] f1] r1] & Hr & H).
  apply obind_Ok in H as ([] & _ & H).
  apply obind_Ok in H as ([] & _ & [= <-]). by cbn.
Qed.

(** X13.  The quantizer a decoder derives for a slice,
    [26 + pic_init_qp_minus26 + slice_qp_delta], is the fixed quantizer
    that [vaapi_encode_h264_configure] chose for the picture's type: within
    1..51 whatever the quality and the quantizer factors are, and 26 when
    the rate control is not constant-QP; the PPS value is within -25..25,
    and the slices of IDR and I pictures carry a delta of 0. *)
Theorem slice_qp_is_configured_qp
    (c : ConfigureParams) (s : SequenceParams)
    (priv priv1 priv2 : VAAPIEncodeH264Context) (d d1 : Derived)
    (sps : RawSPS) (pic : Picture) (block_start : Z)
    (def_l0 def_l1 : list Picture) (sh sh' : H264RawSliceHeader) :
  vaapi_encode_h264_configure c priv d = (0, priv1, d1) ->
  init_sequence_params s d1 priv1 = (0, priv2, sps) ->
  vaapi_encode_h264_init_slice_params priv2 pic block_start def_l0 def_l1 sh
    = Ok sh' ->
  let qp := 26 + pic_init_qp_minus26 priv2 + slice_qp_delta sh' in
  qp = match type pic with
       | FF_HW_PICTURE_TYPE_B => fixed_qp_b priv1
       | FF_HW_PICTURE_TYPE_P => fixed_qp_p priv1
       | _ => fixed_qp_idr priv1
       end /\
  1 <= qp <= 51 /\
  -25 <= pic_init_qp_minus26 priv2 <= 25 /\
  (type pic = FF_HW_PICTURE_TYPE_IDR \/ type pic = FF_HW_PICTURE_TYPE_I ->
   slice_qp_delta sh' = 0) /\
  (va_rc_mode_is_CQP c = false -> qp = 26 /\ slice_qp_delta sh' = 0).
Proof.
  intros Hcfg Hseq Hslice qp.
  destruct (configure_inv _ _ _ _ _ _ Hcfg eq_refl)
    as (_ & _ & Hi & Hp & Hb & _).
  destruct (configure_fixed_qp_range c priv) as (Ri & Rp & Rb & R26).
  cbn zeta in Ri, Rp, Rb, R26. rewrite <- Hi, <- Hp, <- Hb in *.
  destruct (init_sequence_params_inv _ _ _ _ _ _ Hseq eq_refl)
    as (Hi2 & Hp2 & Hb2 & Hinit & _).
  destruct (init_slice_params_fields _ _ _ _ _ _ _ Hslice) as (Hd & _).
  subst qp. rewrite Hd, Hinit, Hi2, Hp2, Hb2.
  split; [destruct (type pic); lia|].
  split; [destruct (type pic); lia|].
  split; [lia|].
  split; [intros [-> | ->]; lia|].
  intros Hcqp. destruct (R26 Hcqp) as (-> & -> & ->).
  destruct (type pic); lia.
Qed.

(** X14.  A slice header stays within what the parameter sets of
    [vaapi_encode_h264_init_sequence_params] announce: it names the PPS
    written, its [frame_num] is below [MaxFrameNum] = 256, its
    [pic_order_cnt_lsb] is below the announced maximum, and a reference
    picture keeps no more pictures of the previous DPB than
    [max_num_ref_frames], which is itself no more than
    [max_dec_frame_buffering], as is [max_num_reorder_frames]. *)
Theorem slice_header_within_sequence_limits
    (s : SequenceParams) (d : Derived)
    (priv priv2 : VAAPIEncodeH264Context) (sps : RawSPS)
    (pic : Picture) (block_start : Z)
    (def_l0 def_l1 : list Picture) (sh sh' : H264RawSliceHeader) :
  init_sequence_params s d priv = (0, priv2, sps) ->
  vaapi_encode_h264_init_slice_params priv2 pic block_start def_l0 def_l1 sh
    = Ok sh' ->
  sh_pic_parameter_set_id sh' = 0 /\
  0 <= sh_frame_num sh' < 2 ^ (log2_max_frame_num_minus4 priv2 + 4) /\
  2 ^ (log2_max_frame_num_minus4 priv2 + 4) = 256 /\
  0 <= pic_order_cnt_lsb sh'
    < 2 ^ (log2_max_pic_order_cnt_lsb_minus4 priv2 + 4) /\
  (is_reference pic = true -> type pic <> FF_HW_PICTURE_TYPE_IDR ->
   forall prv, prev pic = Some prv ->
   Z.of_nat (length (filter (fun c => addr c ∈ (addr <$> dpb pic))
                       (dpb prv)))
   <= max_num_ref_frames sps) /\
  (0 <= max_b_depth priv ->
   max_num_ref_frames sps <= max_dec_frame_buffering sps /\
   max_num_reorder_frames sps <= max_dec_frame_buffering sps).
Proof.
  intros Hseq Hslice.
  destruct (init_sequence_params_inv _ _ _ _ _ _ Hseq eq_refl)
    as (_ & _ & _ & _ & Hpps & Hfn & Hpoc & _ & Hdpb & Hmax & Hre & Hbuf & _).
  destruct (init_slice_params_fields _ _ _ _ _ _ _ Hslice)
    as (_ & Hid & Hnum & Hlsb).
  destruct (init_slice_params_inv _ _ _ _ _ _ _ Hslice) as (_ & Hmark & _).
  split; [by rewrite Hid|].
  split.
  { rewrite Hnum, slice_frame_num_mod by lia.
    rewrite (Z.add_comm 4). apply Z.mod_pos_bound. rewrite Hfn. lia. }
  split; [by rewrite Hfn|].
  split.
  { rewrite Hlsb, Z.shiftl_1_l, Z.sub_1_r, <- Z.ones_equiv.
    rewrite Z.land_ones by (destruct Hpoc as [-> | ->]; lia).
    rewrite (Z.add_comm 4). apply Z.mod_pos_bound.
    destruct Hpoc as [-> | ->]; lia. }
  split.
  - intros Href Hty prv Hprev. rewrite <- Hdpb.
    assert (PictureType_eqb (type pic) FF_HW_PICTURE_TYPE_IDR = false) as Hb.
    { destruct (PictureType_eqb _ _) eqn:E; [|done].
      by apply PictureType_eqb_eq in E. }
    unfold slice_marking in Hmark. rewrite Href, Hb, Hprev in Hmark.
    cbn [andb negb] in Hmark. unfold discard_scan in Hmark.
    rewrite discard_scan_fold, Z.add_0_l in Hmark. cbn [app] in Hmark.
    apply obind_Ok in Hmark as ([] & Hkeep%av_assert0_Ok & _). lia.
  - intros Hdepth. rewrite Hmax, Hre, Hbuf.
    destruct (gop_size s =? 1); lia.
Qed.
End AfterConfigure.
End H264SetupFacts.

(** ** H.264: pictures within their IDR period *)

Section H264IDRPeriod.
Import H264 H264Sequence.
Variable ff_alloc_a53_sei : Picture -> Z * option Z.

Lemma idr_pictures_snoc l p :
  idr_pictures (l ++ [p])
  = idr_pictures l
    ++ (if decide (type p = FF_HW_PICTURE_TYPE_IDR) then [p] else []).
Proof.
  unfold idr_pictures. rewrite filter_app. by f_equal.
Qed.

Lemma init_picture_params_keeps_settings priv pic err priv' pic' :
  vaapi_encode_h264_init_picture_params ff_alloc_a53_sei priv pic
    = Ok (err, priv', pic') ->
  pic_order_cnt_type priv' = pic_order_cnt_type priv /\
  max_b_depth priv' = max_b_depth priv.
Proof.
  unfold vaapi_encode_h264_init_picture_params.
  intros (h & _ & H)%obind_Ok.
  destruct (if negb _ then _ else _) as [e a53].
  destruct (negb _ && (e <? 0)).
  - by injection H as _ <- _.
  - apply obind_Ok in H as ([] & _ & [= _ <- _]). done.
Qed.

Lemma in_idr_period_settings priv priv' seen p :
  pic_order_cnt_type priv' = pic_order_cnt_type priv ->
  max_b_depth priv' = max_b_depth priv ->
  in_idr_period priv' seen p -> in_idr_period priv seen p.
Proof.
  intros H1 H2 (q & H). exists q. by rewrite <- H1, <- H2.
Qed.

(** One step: the picture encoded after the pictures [hist], the last of
    which is [prv]. *)
Lemma init_hpic_in_idr_period priv pic prv hist h :
  match prv with
  | None => hist = []
  | Some v => in_idr_period priv hist v
  end ->
  init_hpic priv (set_prev pic prv) = Ok h ->
  let pic' := set_priv_data (set_prev pic prv) h in
  in_idr_period priv (hist ++ [pic']) pic'.
Proof.
  intros Hinv Hh pic'. unfold init_hpic in Hh.
  cbn [type set_prev prev display_order encode_order] in Hh.
  unfold in_idr_period, last_idr. rewrite idr_pictures_snoc.
  cbn [type set_priv_data set_prev pic' priv_data display_order encode_order].
  destruct (PictureType_eqb (type pic) FF_HW_PICTURE_TYPE_IDR) eqn:E.
  - apply PictureType_eqb_eq in E.
    apply obind_Ok in Hh as ([[[[f l] i] pp] st] & Hh & [= <-]).
    apply obind_Ok in Hh as ([] & Hord%av_assert0_Ok & [= <- <- <- <- <-]).
    apply Z.eqb_eq in Hord.
    rewrite decide_True by done. rewrite last_snoc.
    exists pic'. split; [done|].
    cbn [last_idr_frame idr_pic_id pic_order_cnt cpb_delay dpb_delay pic'
         display_order set_priv_data set_prev].
    split; [done|]. rewrite length_app. cbn [length].
    split.
    + destruct prv as [v|]; cbn [option_map].
      * destruct Hinv as (q & _ & _ & -> & _).
        rewrite Zplus_mod_idemp_l. f_equal. lia.
      * subst hist. done.
    + subst pic'. cbn [encode_order set_priv_data set_prev].
      split; [destruct (pic_order_cnt_type priv =? 2); lia|].
      split; [lia|]. split; [lia|done].
  - assert (type pic <> FF_HW_PICTURE_TYPE_IDR) as Hne
      by (intros E'%PictureType_eqb_eq; congruence).
    destruct prv as [v|]; [|done].
    apply obind_Ok in Hh as ([[[[f l] i] pp] st] & [= <- <- <- <- <-] & [= <-]).
    destruct Hinv as (q & Hq & Hl & Hi & _ & _ & _ & Hqq).
    rewrite decide_False by done. rewrite app_nil_r.
    exists q. split; [done|].
    cbn [last_idr_frame idr_pic_id pic_order_cnt cpb_delay dpb_delay].
    rewrite Hl. split; [done|]. split; [done|].
    split; [destruct (pic_order_cnt_type priv =? 2); lia|].
    split; [lia|]. done.
Qed.

Lemma encode_pictures_in_idr_period pics : forall priv prv hist out,
  match prv with
  | None => hist = []
  | Some v => in_idr_period priv hist v
  end ->
  encode_pictures ff_alloc_a53_sei priv prv pics = Ok out ->
  forall i p, out !! i = Some p ->
  in_idr_period priv (hist ++ take (S i) out) p.
Proof.
  induction pics as [|pic pics IH]; intros priv prv hist out Hinv;
    cbn [encode_pictures].
  - intros [= <-] i p Hi. by rewrite lookup_nil in Hi.
  - intros ([[err priv'] pic'] & Hinit & H)%obind_Ok.
    destruct (init_picture_params_inv _ _ _ _ _ _ Hinit) as (h & Hh & ->).
    destruct (init_picture_params_keeps_settings _ _ _ _ _ Hinit)
      as [Hty Hdepth].
    pose proof (init_hpic_in_idr_period priv pic prv hist h Hinv Hh) as Hstep.
    cbn zeta in Hstep.
    destruct (err <? 0).
    + injection H as <-. intros i p Hi. by rewrite lookup_nil in Hi.
    + apply obind_Ok in H as (rest & Hrest & [= <-]).
      intros [|i] p Hi.
      * injection Hi as <-. cbn [take]. by rewrite take_0.
      * cbn in Hi.
        apply (in_idr_period_settings priv priv'); [done|done|].
        cbn [take]. rewrite (cons_middle _ hist), app_assoc.
        apply (IH priv' (Some (set_priv_data (set_prev pic prv) h))
                 _ rest); [|done|done].
        apply (in_idr_period_settings priv' priv); [done|done|].
        exact Hstep.
Qed.

(** X15.  Along any sequence of pictures encoded in order, every picture lies in
    the IDR period of the latest IDR picture up to and including it (there
    is one: a sequence cannot start otherwise): its [last_idr_frame] is the
    display order of that IDR picture, its POC counts the display distance
    from it (doubled when the SPS says [pic_order_cnt_type] 2), its
    [cpb_delay] the coding distance, and its [idr_pic_id] is the number of
    IDR pictures encoded before that one, modulo [2^16]; an IDR picture has
    POC 0 and [cpb_delay] 0. *)
Theorem encode_pictures_idr_period
    (priv : VAAPIEncodeH264Context) (pics out : list Picture) :
  encode_pictures ff_alloc_a53_sei priv None pics = Ok out ->
  forall i p, out !! i = Some p ->
  in_idr_period priv (take (S i) out) p /\
  (type p = FF_HW_PICTURE_TYPE_IDR ->
   pic_order_cnt (priv_data p) = 0 /\ cpb_delay (priv_data p) = 0 /\
   last_idr_frame (priv_data p) = display_order p) /\
  0 <= idr_pic_id (priv_data p) < 2^16.
Proof.
  intros Hrun i p Hi.
  pose proof (encode_pictures_in_idr_period pics priv None [] out eq_refl
                Hrun i p Hi) as Hper.
  cbn [app] in Hper. split; [done|].
  destruct Hper as (q & Hq & Hl & Hid & Hpoc & Hcpb & _ & Hqq).
  split.
  - intros Hty.
    assert (q = p) as ->.
    { unfold last_idr in Hq.
      rewrite (take_S_r _ _ _ Hi), idr_pictures_snoc in Hq.
      rewrite decide_True in Hq by done. rewrite last_snoc in Hq.
      by injection Hq as <-. }
    rewrite Hpoc, Hcpb, Hl. split; [lia|]. split; [lia|done].
  - rewrite Hid. apply Z.mod_pos_bound. lia.
Qed.
End H264IDRPeriod.

(** ** H.264: the reference entries handed to the hardware *)

Section H264HardwareFacts.
Import H264 H264Hardware.
Variable recon_surface : Picture -> Z.

Abbreviation entry := (reference_frame recon_surface).

Lemma fill_reference_frames_ok pic refs : forall pre suf,
  Forall (fun ref => encode_order ref < encode_order pic) refs ->
  (length refs <= length suf)%nat ->
  fill_reference_frames recon_surface pic refs (length pre) (pre ++ suf)
  = Ok ((length pre + length refs)%nat,
        pre ++ (entry <$> refs) ++ drop (length refs) suf).
Proof.
  induction refs as [|ref refs IH]; intros pre suf Hall Hlen.
  - cbn. by rewrite Nat.add_0_r, drop_0.
  - destruct suf as [|x suf]; [simpl in Hlen; lia|].
    apply Forall_cons in Hall as [Href Hall].
    cbn [fill_reference_frames].
    replace (encode_order ref <? encode_order pic) with true by lia.
    cbn [av_assert0 obind]. rewrite aset_app_r. cbn [obind].
    rewrite (cons_middle _ pre suf), app_assoc.
    replace (S (length pre)) with (length (pre ++ [entry ref]))
      by (rewrite length_app; simpl; lia).
    rewrite IH by (simpl in Hlen; done || lia).
    rewrite length_app. cbn [length fmap list_fmap drop].
    rewrite <- !app_assoc. cbn [app]. do 2 f_equal. lia.
Qed.

Lemma fill_reference_frames_fail pic refs : forall pre suf,
  ~ Forall (fun ref => encode_order ref < encode_order pic) refs ->
  (length refs <= length suf)%nat ->
  fill_reference_frames recon_surface pic refs (length pre) (pre ++ suf)
  = AssertionFailure.
Proof.
  induction refs as [|ref refs IH]; intros pre suf Hall Hlen.
  - exfalso. apply Hall. constructor.
  - destruct suf as [|x suf]; [simpl in Hlen; lia|].
    cbn [fill_reference_frames].
    destruct (Z.ltb_spec (encode_order ref) (encode_order pic)) as [Hlt|Hge];
      cbn [av_assert0 obind]; [|done].
    rewrite aset_app_r. cbn [obind].
    rewrite (cons_middle _ pre suf), app_assoc.
    replace (S (length pre)) with (length (pre ++ [entry ref]))
      by (rewrite length_app; simpl; lia).
    apply IH; [|simpl in Hlen; lia].
    intros H. apply Hall. by constructor.
Qed.

Lemma fill_reference_frames_inv pic refs : forall j frames j' frames',
  fill_reference_frames recon_surface pic refs j frames = Ok (j', frames') ->
  Forall (fun ref => encode_order ref < encode_order pic) refs /\
  j' = (j + length refs)%nat /\ length frames' = length frames /\
  (refs <> [] -> (j' <= length frames)%nat).
Proof.
  induction refs as [|ref refs IH]; intros j frames j' frames';
    cbn [fill_reference_frames].
  - intros [= <- <-]. cbn. split; [done|]. split; [lia|]. done.
  - intros ([] & Hlt%av_assert0_Ok & H)%obind_Ok.
    apply obind_Ok in H as (f1 & Hset & H).
    pose proof (aset_length _ _ _ _ Hset) as Hl1.
    unfold aset in Hset. case_decide as Hj; [|done].
    apply IH in H as (Hall & -> & Hl & Hroom).
    split; [constructor; [lia|done]|]. cbn [length].
    split; [lia|]. split; [congruence|]. intros _.
    destruct refs; [cbn; lia|]. rewrite <- Hl1. apply Hroom. done.
Qed.

Lemma init_reference_frames_ok pic ReferenceFrames :
  (length (refs0 pic ++ refs1 pic) <= length ReferenceFrames)%nat ->
  Forall (fun ref => encode_order ref < encode_order pic)
    (refs0 pic ++ refs1 pic) ->
  init_reference_frames recon_surface pic ReferenceFrames
  = Ok ((entry <$> refs0 pic ++ refs1 pic)
        ++ replicate (length ReferenceFrames
                      - length (refs0 pic ++ refs1 pic)) invalid_picture).
Proof.
  rewrite length_app. intros Hlen [H0 H1]%Forall_app.
  unfold init_reference_frames.
  pose proof (fill_reference_frames_ok pic (refs0 pic) []
                ReferenceFrames H0 ltac:(lia)) as E0.
  cbn [length app Nat.add] in E0. rewrite E0. cbn [obind].
  pose proof (fill_reference_frames_ok pic (refs1 pic)
                (entry <$> refs0 pic)
                (drop (length (refs0 pic)) ReferenceFrames) H1) as E1.
  rewrite length_fmap in E1. rewrite E1 by (rewrite length_drop; lia).
  cbn [obind]. rewrite drop_drop, app_assoc, <- fmap_app.
  rewrite take_app_length' by (rewrite length_fmap, length_app; lia).
  do 3 f_equal.
  rewrite !length_app, length_fmap, length_drop, !length_app. lia.
Qed.

Lemma init_reference_frames_inv pic ReferenceFrames frames :
  init_reference_frames recon_surface pic ReferenceFrames = Ok frames ->
  (length (refs0 pic ++ refs1 pic) <= length ReferenceFrames)%nat /\
  Forall (fun ref => encode_order ref < encode_order pic)
    (refs0 pic ++ refs1 pic) /\
  frames
  = (entry <$> refs0 pic ++ refs1 pic)
    ++ replicate (length ReferenceFrames - length (refs0 pic ++ refs1 pic))
         invalid_picture.
Proof.
  intros E. pose proof E as E'. unfold init_reference_frames in E.
  apply obind_Ok in E as ([j0 f0] & E0 & E).
  apply obind_Ok in E as ([j1 f1] & E1 & _).
  apply fill_reference_frames_inv in E0 as (H0 & -> & Hl0 & Hr0).
  apply fill_reference_frames_inv in E1 as (H1 & -> & Hl1 & Hr1).
  cbn [Nat.add] in *.
  assert (length (refs0 pic ++ refs1 pic) <= length ReferenceFrames)%nat
    as Hroom.
  { rewrite length_app. destruct (refs1 pic) as [|r1 l1].
    - destruct (refs0 pic) as [|r0 l0]; [cbn; lia|].
      cbn [length] in *. specialize (Hr0 ltac:(done)). lia.
    - rewrite <- Hl0. by apply Hr1. }
  assert (Forall (fun ref => encode_order ref < encode_order pic)
            (refs0 pic ++ refs1 pic)) as Hall by (by apply Forall_app).
  split; [done|]. split; [done|].
  rewrite (init_reference_frames_ok pic ReferenceFrames Hroom Hall) in E'.
  by injection E' as <-.
Qed.

(** X16.  [vpic->ReferenceFrames] holds one short-term entry per reference, those
    of list 0 before those of list 1, each with the reference's surface,
    [frame_num] and POC, and invalid entries behind them; a reference that
    is not earlier in coding order than the picture is an assertion
    failure, and a call that returns had room for every reference. *)
Theorem init_reference_frames_entries
    (pic : Picture) (ReferenceFrames : list VAPictureH264) :
  let refs := refs0 pic ++ refs1 pic in
  let filled :=
    (entry <$> refs)
    ++ replicate (length ReferenceFrames - length refs) invalid_picture in
  ((length refs <= length ReferenceFrames)%nat ->
   (Forall (fun ref => encode_order ref < encode_order pic) refs ->
    init_reference_frames recon_surface pic ReferenceFrames = Ok filled) /\
   (~ Forall (fun ref => encode_order ref < encode_order pic) refs ->
    init_reference_frames recon_surface pic ReferenceFrames
    = AssertionFailure)) /\
  (forall frames,
     init_reference_frames recon_surface pic ReferenceFrames = Ok frames ->
     (length refs <= length ReferenceFrames)%nat /\ frames = filled /\
     length frames = length ReferenceFrames).
Proof.
  intros refs filled. split.
  - intros Hlen. split; [by apply init_reference_frames_ok|].
    subst refs. rewrite length_app in Hlen.
    intros Hbad. unfold init_reference_frames.
    destruct (decide (Forall (fun ref => encode_order ref < encode_order pic)
                        (refs0 pic))) as [H0|H0].
    + pose proof (fill_reference_frames_ok pic (refs0 pic) []
                    ReferenceFrames H0 ltac:(lia)) as E0.
      cbn [length app Nat.add] in E0. rewrite E0. cbn [obind].
      pose proof (fill_reference_frames_fail pic (refs1 pic)
                    (entry <$> refs0 pic)
                    (drop (length (refs0 pic)) ReferenceFrames)) as E1.
      rewrite length_fmap in E1. rewrite E1; [done| |].
      * intros H1. apply Hbad. by apply Forall_app.
      * rewrite length_drop. lia.
    + pose proof (fill_reference_frames_fail pic (refs0 pic) []
                    ReferenceFrames H0 ltac:(lia)) as E0.
      cbn [length app] in E0. by rewrite E0.
  - intros frames (Hroom & _ & ->)%init_reference_frames_inv.
    split; [done|]. split; [done|].
    rewrite length_app, length_fmap, length_replicate. lia.
Qed.

(** X17.  The slice's reference entries.  After [ReferenceFrames] has been
    filled, [RefPicList0[0]] is the entry of the first list 0 reference;
    [RefPicList1[0]] is cell 1 of [ReferenceFrames]: the entry of the first
    list 1 reference when list 0 has exactly one reference, and the entry
    of the second list 0 reference when it has more.  Every other cell of
    the two arrays is marked invalid, and a picture without references
    gets two lists of invalid entries. *)
Theorem slice_ref_pic_lists_first_entries
    (pic : Picture)
    (ReferenceFrames frames RefPicList0 RefPicList1 : list VAPictureH264) :
  init_reference_frames recon_surface pic ReferenceFrames = Ok frames ->
  (2 <= length ReferenceFrames)%nat ->
  RefPicList0 <> [] -> RefPicList1 <> [] ->
  (refs0 pic <> [] ->
   type pic = FF_HW_PICTURE_TYPE_P \/ type pic = FF_HW_PICTURE_TYPE_B) ->
  (refs1 pic <> [] -> type pic = FF_HW_PICTURE_TYPE_B) ->
  exists l0 l1,
    slice_ref_pic_lists pic frames RefPicList0 RefPicList1 = Ok (l0, l1) /\
    tail l0 = invalidate <$> tail RefPicList0 /\
    tail l1 = invalidate <$> tail RefPicList1 /\
    head l0 = match refs0 pic with
              | r0 :: _ => Some (entry r0)
              | [] => invalidate <$> head RefPicList0
              end /\
    head l1 = match refs0 pic, refs1 pic with
              | _, [] => invalidate <$> head RefPicList1
              | [], [r1] => Some invalid_picture
              | [], _ :: r :: _ => Some (entry r)
              | [_], r1 :: _ => Some (entry r1)
              | _ :: r :: _, _ :: _ => Some (entry r)
              end.
Proof.
  intros (Hroom & _ & ->)%init_reference_frames_inv Hlen Hl0 Hl1 Hty0 Hty1.
  destruct RefPicList0 as [|x0 L0]; [done|].
  destruct RefPicList1 as [|x1 L1]; [done|].
  destruct ReferenceFrames as [|f0 [|f1 RF]]; [simpl in Hlen; lia..|].
  unfold slice_ref_pic_lists. cbn [fmap list_fmap].
  assert (forall A (x y : A) l, aset (x :: l) 0 y = Ok (y :: l)) as Haset.
  { intros. unfold aset. cbn [length]. by rewrite decide_True by lia. }
  destruct (refs0 pic) as [|r0 [|r0' rest0]] eqn:E0;
    destruct (refs1 pic) as [|r1 [|r1' rest1]] eqn:E1;
    cbn [app] in *;
    destruct (type pic) eqn:T;
    try (exfalso; by destruct (Hty0 ltac:(done)));
    try (exfalso; by specialize (Hty1 ltac:(done)));
    cbn [PictureType_eqb orb av_assert0 obind aget fmap list_fmap app
         lookup list_lookup length replicate Nat.sub];
    rewrite ?Haset; cbn [obind];
    eexists _, _; (split; [reflexivity|]); cbn [head tail option_fmap
      option_map fmap]; try done.
Qed.
End H264HardwareFacts.

(** ** H.265 access-unit writers *)

Section H265WriterFacts.
Import H265 H265Session.
Variable cbs_insert_err : CodedBitstreamFragment -> nal_unit -> Z.
Variable cbs_serialize : list nal_unit -> Z * (list Byte.byte * Z).

Abbreviation run_h265 := (run_writer cbs_insert_err cbs_serialize).

Lemma h265_write_access_unit_cases buf data_len au :
  let '(err, au', buf', data_len') :=
    vaapi_encode_h265_write_access_unit cbs_serialize buf data_len au in
  err <= 0 /\ (err <> 0 -> buf' = buf /\ data_len' = data_len) /\
  (err = AVERROR ENOSPC \/ units au' = units au).
Proof.
  unfold vaapi_encode_h265_write_access_unit, ff_cbs_write_fragment_data.
  destruct (cbs_serialize (units au)) as [e [bytes pad]].
  destruct (Z.ltb_spec e 0) as [Hlt|Hge]; cbv beta iota zeta.
  - replace (e <? 0) with true by lia. cbv iota.
    split; [lia|]. split; [done|by right].
  - change (0 <? 0) with false. cbv iota.
    destruct (data_len <? _);
      (split; [by vm_compute|]); (split; [done|]); [by left|by right].
Qed.

Lemma h265_add_nals_cases us : forall au,
  let '(err, au') := add_nals cbs_insert_err au us in
  err < 0 \/ err = 0 /\ units au' = units au ++ us.
Proof.
  induction us as [|u us IH]; intros au; cbn [add_nals].
  - right. by rewrite app_nil_r.
  - unfold vaapi_encode_h265_add_nal, ff_cbs_insert_unit_content.
    cbv zeta. destruct (cbs_insert_err au u <? 0) eqn:E; cbv beta iota.
    + repeat (rewrite E; cbv beta iota). left. by apply Z.ltb_lt.
    + repeat (change (0 <? 0) with false; cbv beta iota).
      specialize (IH (mkFragment (data au) (data_size au)
                        (data_bit_padding au) (units au ++ [u]))).
      destruct (add_nals _ _ us) as [e au'].
      destruct IH as [?|[-> ->]]; [by left|right].
      cbn [units]. by rewrite <- app_assoc.
Qed.

Lemma h265_add_sei_messages_cases msgs : forall au,
  let '(err, au') := add_sei_messages cbs_insert_err au msgs in
  err < 0 \/ err = 0 /\ units au' = units au ++ (SEIMessage <$> msgs).
Proof.
  induction msgs as [|t msgs IH]; intros au; cbn [add_sei_messages].
  - right. by rewrite app_nil_r.
  - unfold ff_cbs_sei_add_message, ff_cbs_insert_unit_content.
    cbv zeta. destruct (cbs_insert_err au (SEIMessage t) <? 0) eqn:E;
      cbv beta iota.
    + repeat (rewrite E; cbv beta iota). left. by apply Z.ltb_lt.
    + repeat (change (0 <? 0) with false; cbv beta iota).
      specialize (IH (mkFragment (data au) (data_size au)
                        (data_bit_padding au) (units au ++ [SEIMessage t]))).
      destruct (add_sei_messages _ _ msgs) as [e au'].
      destruct IH as [?|[-> ->]]; [by left|right].
      cbn [units fmap list_fmap]. by rewrite <- app_assoc.
Qed.

Lemma h265_add_aud_if_needed_cases delimiter priv :
  match add_aud_if_needed cbs_insert_err delimiter priv with
  | inl (err, _) => err < 0
  | inr priv' =>
      units (current_access_unit priv')
      = units (current_access_unit priv)
        ++ (if aud_needed priv then [delimiter] else []) /\
      aud_needed priv' = false /\ sei_needed priv' = sei_needed priv
  end.
Proof.
  unfold add_aud_if_needed. destruct (aud_needed priv) eqn:E.
  - pose proof (h265_add_nals_cases [delimiter] (current_access_unit priv))
      as H. cbn [add_nals] in H.
    destruct (vaapi_encode_h265_add_nal _ _ _) as [e au].
    destruct (Z.ltb_spec e 0); [done|].
    destruct H as [?|[_ Hu]]; [lia|]. done.
  - by rewrite app_nil_r.
Qed.

(** X18.  What every call of an H.265 writer does to its caller and to the
    pending list: the return value is 0 or negative; a writer with
    something to write leaves the pending list empty, whatever it held and
    whichever step failed; the metadata writer with nothing due returns the
    nothing-pending code and touches nothing; and whenever the return value
    is not 0 the caller's buffer and [*data_len] are as they were. *)
Theorem h265_write_header_reset_and_failure
    (call : writer_call) (priv : VAAPIEncodeH265Context)
    (buf : list Byte.byte) (data_len : Z) :
  let '(err, priv', buf', data_len') := run_h265 call priv buf data_len in
  err <= 0 /\
  (writes call priv = true -> units (current_access_unit priv') = []) /\
  (writes call priv = false ->
   (err, priv', buf', data_len') = (AVERROR_EOF, priv, buf, data_len)) /\
  (err <> 0 -> buf' = buf /\ data_len' = data_len).
Proof.
  destruct call; cbn [run_writer writes].
  - unfold vaapi_encode_h265_write_sequence_header.
    pose proof (h265_add_aud_if_needed_cases raw_aud priv) as Ha.
    destruct (add_aud_if_needed _ _ priv) as [[e p]|p];
      [cbn; split; [lia|done]|].
    pose proof (h265_add_nals_cases [raw_vps; raw_sps; raw_pps]
                  (current_access_unit p)) as H1.
    destruct (add_nals _ _ _) as [e1 au1].
    destruct (Z.ltb_spec e1 0); [cbn; split; [lia|done]|].
    pose proof (h265_write_access_unit_cases buf data_len
                  (current_access_unit (set_au p au1))) as H3.
    destruct (vaapi_encode_h265_write_access_unit _ _ _ _)
      as [[[e3 au3] b3] l3].
    cbn. destruct H3 as (? & ? & _). done.
  - unfold vaapi_encode_h265_write_slice_header.
    pose proof (h265_add_aud_if_needed_cases raw_aud priv) as Ha.
    destruct (add_aud_if_needed _ _ priv) as [[e p]|p];
      [cbn; split; [lia|done]|].
    pose proof (h265_add_nals_cases [raw_slice] (current_access_unit p))
      as H1.
    destruct (add_nals _ _ _) as [e1 au1].
    destruct (Z.ltb_spec e1 0); [cbn; split; [lia|done]|].
    pose proof (h265_write_access_unit_cases buf data_len
                  (current_access_unit (set_au p au1))) as H3.
    destruct (vaapi_encode_h265_write_access_unit _ _ _ _)
      as [[[e3 au3] b3] l3].
    cbn. destruct H3 as (? & ? & _). done.
  - unfold vaapi_encode_h265_write_extra_header.
    destruct (negb (sei_needed priv =? 0));
      [|cbn; split; [by vm_compute|done]].
    pose proof (h265_add_aud_if_needed_cases aud_option priv) as Ha.
    destruct (add_aud_if_needed _ _ priv) as [[e p]|p];
      [cbn; split; [lia|done]|].
    pose proof (h265_add_sei_messages_cases
                  (sei_messages_due (sei_needed p))
                  (current_access_unit p)) as H1.
    destruct (add_sei_messages _ _ _) as [e1 au1].
    destruct (Z.ltb_spec e1 0); [cbn; split; [lia|done]|].
    pose proof (h265_write_access_unit_cases buf data_len
                  (current_access_unit
                     (set_sei_needed (set_au p au1) 0))) as H3.
    destruct (vaapi_encode_h265_write_access_unit _ _ _ _)
      as [[[e3 au3] b3] l3].
    destruct H3 as (? & ? & _).
    destruct (Z.ltb_spec e3 0); cbn; [split; [lia|]; done|].
    split; [lia|]. done.
Qed.

Lemma h265_add_nals_ok us : forall au,
  (forall au u, 0 <= cbs_insert_err au u) ->
  add_nals cbs_insert_err au us
  = (0, mkFragment (data au) (data_size au) (data_bit_padding au)
          (units au ++ us)).
Proof.
  intros au Hok. revert au.
  induction us as [|u us IH]; intros au; cbn [add_nals].
  - rewrite app_nil_r. by destruct au.
  - unfold vaapi_encode_h265_add_nal, ff_cbs_insert_unit_content.
    cbv zeta. specialize (Hok au u).
    replace (cbs_insert_err au u <? 0) with false by lia.
    cbv beta iota. change (0 <? 0) with false. cbv iota.
    rewrite IH. cbn [data data_size data_bit_padding units].
    by rewrite <- app_assoc.
Qed.

Lemma h265_add_sei_messages_ok msgs : forall au,
  (forall au u, 0 <= cbs_insert_err au u) ->
  add_sei_messages cbs_insert_err au msgs
  = (0, mkFragment (data au) (data_size au) (data_bit_padding au)
          (units au ++ (SEIMessage <$> msgs))).
Proof.
  intros au Hok. revert au.
  induction msgs as [|t msgs IH]; intros au; cbn [add_sei_messages].
  - rewrite app_nil_r. by destruct au.
  - unfold ff_cbs_sei_add_message, ff_cbs_insert_unit_content.
    cbv zeta. specialize (Hok au (SEIMessage t)).
    replace (cbs_insert_err au (SEIMessage t) <? 0) with false by lia.
    cbv beta iota. change (0 <? 0) with false. cbv iota.
    rewrite IH. cbn [data data_size data_bit_padding units fmap list_fmap].
    by rewrite <- app_assoc.
Qed.

Lemma h265_add_aud_if_needed_ok delimiter priv :
  (forall au u, 0 <= cbs_insert_err au u) ->
  exists priv', add_aud_if_needed cbs_insert_err delimiter priv = inr priv' /\
    units (current_access_unit priv')
    = units (current_access_unit priv)
      ++ (if aud_needed priv then [delimiter] else []) /\
    aud_needed priv' = false /\ sei_needed priv' = sei_needed priv.
Proof.
  intros Hok. unfold add_aud_if_needed. destruct (aud_needed priv) eqn:E.
  - pose proof (h265_add_nals_ok [delimiter] (current_access_unit priv) Hok)
      as H. cbn [add_nals] in H.
    destruct (vaapi_encode_h265_add_nal _ _ _) as [e au].
    destruct (e <? 0) eqn:Ee; [injection H as ->; discriminate|].
    injection H as ->. cbn. eauto.
  - exists priv. by rewrite app_nil_r.
Qed.

Lemma h265_write_access_unit_result buf data_len au e bytes pad :
  cbs_serialize (units au) = (e, (bytes, pad)) -> 0 <= e ->
  let bits := (8 * Z.of_nat (length bytes) - pad) mod size_t_modulus in
  vaapi_encode_h265_write_access_unit cbs_serialize buf data_len au
  = if data_len <? bits
    then (AVERROR ENOSPC,
          mkFragment bytes (Z.of_nat (length bytes)) pad (units au),
          buf, data_len)
    else (0, mkFragment bytes (Z.of_nat (length bytes)) pad (units au),
          bytes ++ drop (length bytes) buf, bits).
Proof.
  intros Hs He bits. unfold vaapi_encode_h265_write_access_unit,
    ff_cbs_write_fragment_data. rewrite Hs.
  replace (e <? 0) with false by lia. cbn [Z.ltb Z.compare].
  unfold au_bit_length. cbn [data data_size data_bit_padding]. fold bits.
  destruct (data_len <? bits); [done|].
  unfold memcpy. by rewrite Nat2Z.id, firstn_all.
Qed.

(** X19.  What an H.265 writer hands to the serializer and back to its caller
    when no insertion fails: the units pending on entry, then a pending
    delimiter, then the call's own units (VPS, SPS and PPS; the slice; the
    messages due, in the order mastering display, content light level,
    captions).  If the serialized units need more bits than [*data_len]
    offers, the result is [AVERROR(ENOSPC)] with the buffer untouched;
    otherwise the result is 0, the buffer starts with the serialized bytes
    and [*data_len] is their length in bits.  Either way the pending list
    is empty and no delimiter is pending afterwards.  The delimiter of the
    two header writers is [raw_aud]; the metadata writer passes the address
    of the [aud] option instead (line 213), so [raw_aud] is not among the
    units it adds. *)
Theorem h265_write_header_output
    (call : writer_call) (priv : VAAPIEncodeH265Context)
    (buf : list Byte.byte) (data_len : Z)
    (e : Z) (bytes : list Byte.byte) (pad : Z) :
  (forall au u, 0 <= cbs_insert_err au u) ->
  writes call priv = true ->
  cbs_serialize (pending_units call priv) = (e, (bytes, pad)) ->
  0 <= e ->
  let bits := (8 * Z.of_nat (length bytes) - pad) mod size_t_modulus in
  exists priv',
    run_h265 call priv buf data_len
    = (if data_len <? bits
       then (AVERROR ENOSPC, priv', buf, data_len)
       else (0, priv', bytes ++ drop (length bytes) buf, bits)) /\
    units (current_access_unit priv') = [] /\
    aud_needed priv' = false /\
    sei_needed priv'
    = match call with
      | WriteExtraHeader => 0
      | _ => sei_needed priv
      end /\
    (raw_aud ∈ pending_units call priv <->
     raw_aud ∈ units (current_access_unit priv) \/
     aud_needed priv = true /\ call <> WriteExtraHeader).
Proof.
  intros Hok Hw Hs He bits.
  assert (raw_aud ∈ pending_units call priv <->
          raw_aud ∈ units (current_access_unit priv) \/
          aud_needed priv = true /\ call <> WriteExtraHeader) as Haud.
  { unfold pending_units. rewrite elem_of_app.
    assert (forall msgs : list sei_payload_type,
              raw_aud ∉ (SEIMessage <$> msgs)) as Hsei.
    { intros msgs (t & Ht & _)%list_elem_of_fmap. discriminate. }
    destruct call; destruct (aud_needed priv); cbn [app];
      rewrite ?elem_of_cons, ?elem_of_nil;
      (split; intros [H|H]; [by left| |by left|]);
      try (right; split; [done|discriminate]);
      try (right; by left);
      try (by destruct H as [? ?]);
      try (by apply Hsei in H);
      try (exfalso; destruct H as [H|[H|[H|H]]]; discriminate || done);
      try (exfalso; destruct H as [H|[H|H]]; discriminate || done);
      try (exfalso; destruct H as [H|H]; discriminate || done);
      try (exfalso; destruct H as [H|H];
           [discriminate|by apply Hsei in H]). }
  unfold pending_units in Hs.
  destruct call; cbn [run_writer].
  - destruct (h265_add_aud_if_needed_ok raw_aud priv Hok)
      as (p & Hp & Hu & Ha & Hsn).
    unfold vaapi_encode_h265_write_sequence_header. rewrite Hp.
    rewrite (h265_add_nals_ok _ _ Hok). cbn [Z.ltb Z.compare].
    cbn [current_access_unit set_au].
    rewrite (h265_write_access_unit_result buf data_len _ e bytes pad);
      [|cbn [units]; rewrite Hu, <- Hs; by rewrite <- !app_assoc|done].
    cbn zeta. fold bits. destruct (data_len <? bits); cbn;
      (eexists; split; [reflexivity|]); by rewrite <- Hsn.
  - destruct (h265_add_aud_if_needed_ok raw_aud priv Hok)
      as (p & Hp & Hu & Ha & Hsn).
    unfold vaapi_encode_h265_write_slice_header. rewrite Hp.
    rewrite (h265_add_nals_ok _ _ Hok). cbn [Z.ltb Z.compare].
    cbn [current_access_unit set_au].
    rewrite (h265_write_access_unit_result buf data_len _ e bytes pad);
      [|cbn [units]; rewrite Hu, <- Hs; by rewrite <- !app_assoc|done].
    cbn zeta. fold bits. destruct (data_len <? bits); cbn;
      (eexists; split; [reflexivity|]); by rewrite <- Hsn.
  - destruct (h265_add_aud_if_needed_ok aud_option priv Hok)
      as (p & Hp & Hu & Ha & Hsn).
    unfold vaapi_encode_h265_write_extra_header.
    cbn [writes] in Hw. rewrite Hw, Hp.
    rewrite (h265_add_sei_messages_ok _ _ Hok). cbn [Z.ltb Z.compare].
    cbn [current_access_unit set_au set_sei_needed].
    rewrite (h265_write_access_unit_result buf data_len _ e bytes pad);
      [|cbn [units]; rewrite Hu, Hsn, <- Hs; by rewrite <- !app_assoc|done].
    cbn zeta. fold bits. destruct (data_len <? bits); cbn;
      (eexists; split; [reflexivity|]); done.
Qed.
End H265WriterFacts.

(** ** H.265: the picture parameters *)

Section H265PictureFacts.
Import H265 H265Session.
Variable ff_alloc_a53_sei : Picture -> Z * option Z.
Variable recon_surface : Picture -> Z.
Variable mastering_display_metadata : Picture -> option (bool * bool).
Variable content_light_metadata : Picture -> option (Z * Z).

Abbreviation h265_init_picture_params :=
  (vaapi_encode_h265_init_picture_params ff_alloc_a53_sei recon_surface
     mastering_display_metadata content_light_metadata).
Abbreviation h265_entry := (reference_frame recon_surface).

Lemma sei_messages_due_init priv pic mdm clm a53 :
  sei_messages_due (init_sei_needed priv pic mdm clm a53)
  = (if negb (Z.land (sei priv) SEI_MASTERING_DISPLAY =? 0)
        && (PictureType_eqb (type pic) FF_HW_PICTURE_TYPE_I
            || PictureType_eqb (type pic) FF_HW_PICTURE_TYPE_IDR)
        && match mdm with
           | Some (has_primaries, has_luminance) =>
               has_primaries && has_luminance
           | None => false
           end
     then [SEI_TYPE_MASTERING_DISPLAY_COLOUR_VOLUME] else []) ++
    (if negb (Z.land (sei priv) SEI_CONTENT_LIGHT_LEVEL =? 0)
        && (PictureType_eqb (type pic) FF_HW_PICTURE_TYPE_I
            || PictureType_eqb (type pic) FF_HW_PICTURE_TYPE_IDR)
        && clm
     then [SEI_TYPE_CONTENT_LIGHT_LEVEL_INFO] else []) ++
    (if negb (Z.land (sei priv) SEI_A53_CC =? 0) && a53
     then [SEI_TYPE_USER_DATA_REGISTERED_ITU_T_T35] else []).
Proof.
  unfold init_sei_needed, sei_messages_due.
  destruct (negb (Z.land (sei priv) SEI_MASTERING_DISPLAY =? 0));
    destruct (negb (Z.land (sei priv) SEI_CONTENT_LIGHT_LEVEL =? 0));
    destruct (negb (Z.land (sei priv) SEI_A53_CC =? 0));
    destruct (PictureType_eqb (type pic) FF_HW_PICTURE_TYPE_I
              || PictureType_eqb (type pic) FF_HW_PICTURE_TYPE_IDR);
    destruct mdm as [[[] []]|]; destruct clm; destruct a53; reflexivity.
Qed.

Lemma h265_intra_iff (pic : Picture) :
  PictureType_eqb (type pic) FF_HW_PICTURE_TYPE_I
  || PictureType_eqb (type pic) FF_HW_PICTURE_TYPE_IDR = true
  <-> type pic = FF_HW_PICTURE_TYPE_I \/ type pic = FF_HW_PICTURE_TYPE_IDR.
Proof. destruct (type pic); cbn; split; intros; try done; tauto || auto;
  try (destruct H; discriminate). Qed.

Lemma h265_init_picture_params_inv priv pic reference_frames err priv' pic'
    frames :
  h265_init_picture_params priv pic reference_frames
  = Ok (err, priv', pic', frames) ->
  let a53 := if negb (Z.land (sei priv) SEI_A53_CC =? 0)
             then ff_alloc_a53_sei pic else (0, None) in
  let failed := negb (Z.land (sei priv) SEI_A53_CC =? 0) && (a53.1 <? 0) in
  exists hpic,
    init_hpic priv pic = Ok hpic /\
    pic' = set_priv_data pic hpic /\
    sei_needed priv'
    = init_sei_needed priv pic (mastering_display_metadata pic)
        (match content_light_metadata pic with
         | Some _ => true
         | None => false
         end)
        (negb failed && match a53.2 with Some _ => true | None => false end) /\
    aud_needed priv' = aud priv /\
    raw_aud_pic_type priv'
    = (if aud priv then pic_type hpic else raw_aud_pic_type priv) /\
    p_to_gpb priv' = p_to_gpb priv /\
    (if failed then err = a53.1 /\ frames = reference_frames
     else err = 0 /\
          init_reference_frames recon_surface pic' reference_frames
          = Ok frames).
Proof.
  unfold vaapi_encode_h265_init_picture_params.
  intros (hpic & Hh & H)%obind_Ok. cbv zeta in H |- *.
  exists hpic. split; [done|].
  destruct (negb (Z.land (sei priv) SEI_A53_CC =? 0)) eqn:Ew.
  - destruct (ff_alloc_a53_sei pic) as [e a] eqn:Ea. cbn [fst snd andb] in *.
    destruct (e <? 0) eqn:Ee; cbn [andb negb] in *.
    + injection H as <- <- <- <-. done.
    + apply obind_Ok in H as (f & Hf & [= <- <- <- <-]). done.
  - cbn [fst snd andb negb] in *.
    apply obind_Ok in H as (f & Hf & [= <- <- <- <-]). done.
Qed.

Lemma due_list_facts (c1 c2 c3 : bool) :
  let due :=
    (if c1 then [SEI_TYPE_MASTERING_DISPLAY_COLOUR_VOLUME] else []) ++
    (if c2 then [SEI_TYPE_CONTENT_LIGHT_LEVEL_INFO] else []) ++
    (if c3 then [SEI_TYPE_USER_DATA_REGISTERED_ITU_T_T35] else []) in
  (SEI_TYPE_MASTERING_DISPLAY_COLOUR_VOLUME ∈ due <-> c1 = true) /\
  (SEI_TYPE_CONTENT_LIGHT_LEVEL_INFO ∈ due <-> c2 = true) /\
  (SEI_TYPE_USER_DATA_REGISTERED_ITU_T_T35 ∈ due <-> c3 = true) /\
  due `sublist_of` [SEI_TYPE_MASTERING_DISPLAY_COLOUR_VOLUME;
                    SEI_TYPE_CONTENT_LIGHT_LEVEL_INFO;
                    SEI_TYPE_USER_DATA_REGISTERED_ITU_T_T35] /\
  (due = [] <-> c1 || c2 || c3 = false).
Proof.
  destruct c1, c2, c3; cbn [app orb];
    rewrite ?elem_of_cons, ?elem_of_nil;
    (split; [|split; [|split; [|split]]]);
    try (split; intros H; done || auto;
         repeat (destruct H as [H|H]; try done));
    repeat (apply sublist_skip || apply sublist_cons || apply sublist_nil_l).
Qed.

Lemma init_sei_needed_zero priv pic mdm clm a53 :
  negb (init_sei_needed priv pic mdm clm a53 =? 0)
  = negb (Z.land (sei priv) SEI_MASTERING_DISPLAY =? 0)
    && (PictureType_eqb (type pic) FF_HW_PICTURE_TYPE_I
        || PictureType_eqb (type pic) FF_HW_PICTURE_TYPE_IDR)
    && match mdm with
       | Some (has_primaries, has_luminance) => has_primaries && has_luminance
       | None => false
       end
    || negb (Z.land (sei priv) SEI_CONTENT_LIGHT_LEVEL =? 0)
       && (PictureType_eqb (type pic) FF_HW_PICTURE_TYPE_I
           || PictureType_eqb (type pic) FF_HW_PICTURE_TYPE_IDR)
       && clm
    || negb (Z.land (sei priv) SEI_A53_CC =? 0) && a53.
Proof.
  unfold init_sei_needed.
  destruct (negb (Z.land (sei priv) SEI_MASTERING_DISPLAY =? 0));
    destruct (negb (Z.land (sei priv) SEI_CONTENT_LIGHT_LEVEL =? 0));
    destruct (negb (Z.land (sei priv) SEI_A53_CC =? 0));
    destruct (PictureType_eqb (type pic) FF_HW_PICTURE_TYPE_I
              || PictureType_eqb (type pic) FF_HW_PICTURE_TYPE_IDR);
    destruct mdm as [[[] []]|]; destruct clm; destruct a53; reflexivity.
Qed.

(** X20.  The H.265 messages of a picture, from the picture parameters to the
    metadata writer: mastering display is due exactly on an I or IDR
    picture whose side data has both primaries and luminance, content light
    level exactly on an I or IDR picture with that side data, captions
    exactly when caption data was found, each only if its option is set;
    they are written in this order.  A negative return value is the one of
    the caption extraction, which leaves [vpic->reference_frames]
    untouched. *)
Theorem h265_metadata_schedule
    (priv priv' : VAAPIEncodeH265Context) (pic pic' : Picture)
    (reference_frames frames : list VAPictureHEVC) (err : Z) :
  h265_init_picture_params priv pic reference_frames
  = Ok (err, priv', pic', frames) ->
  let intra :=
    type pic = FF_HW_PICTURE_TYPE_I \/ type pic = FF_HW_PICTURE_TYPE_IDR in
  let due := sei_messages_due (sei_needed priv') in
  (SEI_TYPE_MASTERING_DISPLAY_COLOUR_VOLUME ∈ due <->
   Z.land (sei priv) SEI_MASTERING_DISPLAY <> 0 /\ intra /\
   mastering_display_metadata pic = Some (true, true)) /\
  (SEI_TYPE_CONTENT_LIGHT_LEVEL_INFO ∈ due <->
   Z.land (sei priv) SEI_CONTENT_LIGHT_LEVEL <> 0 /\ intra /\
   is_Some (content_light_metadata pic)) /\
  (SEI_TYPE_USER_DATA_REGISTERED_ITU_T_T35 ∈ due <->
   Z.land (sei priv) SEI_A53_CC <> 0 /\ 0 <= (ff_alloc_a53_sei pic).1 /\
   is_Some (ff_alloc_a53_sei pic).2) /\
  due `sublist_of` [SEI_TYPE_MASTERING_DISPLAY_COLOUR_VOLUME;
                    SEI_TYPE_CONTENT_LIGHT_LEVEL_INFO;
                    SEI_TYPE_USER_DATA_REGISTERED_ITU_T_T35] /\
  (writes WriteExtraHeader priv' = false <-> due = []) /\
  (err <> 0 ->
   err < 0 /\ Z.land (sei priv) SEI_A53_CC <> 0 /\
   err = (ff_alloc_a53_sei pic).1 /\ frames = reference_frames).
Proof.
  intros (hpic & _ & _ & Hsei & _ & _ & _ & Hret)%h265_init_picture_params_inv
    intra due.
  subst due. unfold writes.
  rewrite Hsei, init_sei_needed_zero, sei_messages_due_init.
  pose proof (h265_intra_iff pic) as Hintra. fold intra in Hintra.
  match goal with
  | |- context [(if ?c1 then [SEI_TYPE_MASTERING_DISPLAY_COLOUR_VOLUME]
                 else []) ++
                (if ?c2 then _ else []) ++ (if ?c3 then _ else [])] =>
      destruct (due_list_facts c1 c2 c3) as (H1 & H2 & H3 & Hsub & Hnil);
      assert (c1 = true <->
              Z.land (sei priv) SEI_MASTERING_DISPLAY <> 0 /\ intra /\
              mastering_display_metadata pic = Some (true, true)) as B1;
      [|assert (c2 = true <->
                Z.land (sei priv) SEI_CONTENT_LIGHT_LEVEL <> 0 /\ intra /\
                is_Some (content_light_metadata pic)) as B2;
        [|assert (c3 = true <->
                  Z.land (sei priv) SEI_A53_CC <> 0 /\
                  0 <= (ff_alloc_a53_sei pic).1 /\
                  is_Some (ff_alloc_a53_sei pic).2) as B3]]
  end.
  - rewrite !andb_true_iff, negb_true_iff, Z.eqb_neq, Hintra.
    destruct (mastering_display_metadata pic) as [[[] []]|];
      cbn [andb]; intuition (done || discriminate).
  - rewrite !andb_true_iff, negb_true_iff, Z.eqb_neq, Hintra.
    destruct (content_light_metadata pic) as [clm|].
    + intuition eauto.
    + split; [intuition discriminate|]. intros (_ & _ & []). discriminate.
  - destruct (Z.eqb_spec (Z.land (sei priv) SEI_A53_CC) 0) as [E|E];
      cbn [negb andb fst snd] in *.
    + split; [done|]. intros [? _]. done.
    + destruct (ff_alloc_a53_sei pic) as [e [len|]]; cbn [fst snd];
        destruct (Z.ltb_spec e 0); cbn [negb andb].
      * split; [done|]. intros (_ & ? & _). lia.
      * split; [eauto|done].
      * split; [done|]. intros (_ & ? & _). lia.
      * split; [done|]. intros (_ & _ & []). discriminate.
  - rewrite Hnil, H1, H2, H3, B1, B2, B3. split; [done|]. split; [done|].
    split; [done|]. split; [done|]. split; [done|].
    intros Herr.
    destruct (Z.eqb_spec (Z.land (sei priv) SEI_A53_CC) 0) as [E|E];
      cbn [negb andb fst snd] in Hret; [by destruct Hret|].
    destruct (Z.ltb_spec (ff_alloc_a53_sei pic).1 0) as [Hlt|Hge];
      [|by destruct Hret].
    destruct Hret as [-> ->]. done.
Qed.

Lemma h265_fill_reference_frames_ok pic refs : forall pre suf,
  Forall (fun ref => encode_order ref < encode_order pic) refs ->
  (length refs <= length suf)%nat ->
  fill_reference_frames recon_surface pic refs (length pre) (pre ++ suf)
  = Ok ((length pre + length refs)%nat,
        pre ++ (h265_entry pic <$> refs) ++ drop (length refs) suf).
Proof.
  induction refs as [|ref refs IH]; intros pre suf Hall Hlen.
  - cbn. by rewrite Nat.add_0_r, drop_0.
  - destruct suf as [|x suf]; [simpl in Hlen; lia|].
    apply Forall_cons in Hall as [Href Hall].
    cbn [fill_reference_frames].
    replace (encode_order ref <? encode_order pic) with true by lia.
    cbn [av_assert0 obind]. rewrite aset_app_r. cbn [obind].
    rewrite (cons_middle _ pre suf), app_assoc.
    replace (S (length pre)) with (length (pre ++ [h265_entry pic ref]))
      by (rewrite length_app; simpl; lia).
    rewrite IH by (simpl in Hlen; done || lia).
    rewrite length_app. cbn [length fmap list_fmap drop].
    rewrite <- !app_assoc. cbn [app]. do 2 f_equal. lia.
Qed.

Lemma h265_fill_reference_frames_fail pic refs : forall pre suf,
  ~ Forall (fun ref => encode_order ref < encode_order pic) refs ->
  (length refs <= length suf)%nat ->
  fill_reference_frames recon_surface pic refs (length pre) (pre ++ suf)
  = AssertionFailure.
Proof.
  induction refs as [|ref refs IH]; intros pre suf Hall Hlen.
  - exfalso. apply Hall. constructor.
  - destruct suf as [|x suf]; [simpl in Hlen; lia|].
    cbn [fill_reference_frames].
    destruct (Z.ltb_spec (encode_order ref) (encode_order pic)) as [Hlt|Hge];
      cbn [av_assert0 obind]; [|done].
    rewrite aset_app_r. cbn [obind].
    rewrite (cons_middle _ pre suf), app_assoc.
    replace (S (length pre)) with (length (pre ++ [h265_entry pic ref]))
      by (rewrite length_app; simpl; lia).
    apply IH; [|simpl in Hlen; lia].
    intros H. apply Hall. by constructor.
Qed.

Lemma h265_fill_reference_frames_inv pic refs : forall j frames j' frames',
  fill_reference_frames recon_surface pic refs j frames = Ok (j', frames') ->
  Forall (fun ref => encode_order ref < encode_order pic) refs /\
  j' = (j + length refs)%nat /\ length frames' = length frames /\
  (refs <> [] -> (j' <= length frames)%nat).
Proof.
  induction refs as [|ref refs IH]; intros j frames j' frames';
    cbn [fill_reference_frames].
  - intros [= <- <-]. cbn. split; [done|]. split; [lia|]. done.
  - intros ([] & Hlt%av_assert0_Ok & H)%obind_Ok.
    apply obind_Ok in H as (f1 & Hset & H).
    pose proof (aset_length _ _ _ _ Hset) as Hl1.
    unfold aset in Hset. case_decide as Hj; [|done].
    apply IH in H as (Hall & -> & Hl & Hroom).
    split; [constructor; [lia|done]|]. cbn [length].
    split; [lia|]. split; [congruence|]. intros _.
    destruct refs; [cbn; lia|]. rewrite <- Hl1. apply Hroom. done.
Qed.

Lemma h265_init_reference_frames_ok pic reference_frames :
  (length (refs0 pic ++ refs1 pic) <= length reference_frames)%nat ->
  Forall (fun ref => encode_order ref < encode_order pic)
    (refs0 pic ++ refs1 pic) ->
  init_reference_frames recon_surface pic reference_frames
  = Ok ((h265_entry pic <$> refs0 pic ++ refs1 pic)
        ++ replicate (length reference_frames
                      - length (refs0 pic ++ refs1 pic)) invalid_picture).
Proof.
  rewrite length_app. intros Hlen [H0 H1]%Forall_app.
  unfold init_reference_frames.
  pose proof (h265_fill_reference_frames_ok pic (refs0 pic) []
                reference_frames H0 ltac:(lia)) as E0.
  cbn [length app Nat.add] in E0. rewrite E0. cbn [obind].
  pose proof (h265_fill_reference_frames_ok pic (refs1 pic)
                (h265_entry pic <$> refs0 pic)
                (drop (length (refs0 pic)) reference_frames) H1) as E1.
  rewrite length_fmap in E1. rewrite E1 by (rewrite length_drop; lia).
  cbn [obind]. rewrite drop_drop, app_assoc, <- fmap_app.
  rewrite take_app_length' by (rewrite length_fmap, length_app; lia).
  do 3 f_equal.
  rewrite !length_app, length_fmap, length_drop, !length_app. lia.
Qed.

Lemma h265_init_reference_frames_inv pic reference_frames frames :
  init_reference_frames recon_surface pic reference_frames = Ok frames ->
  (length (refs0 pic ++ refs1 pic) <= length reference_frames)%nat /\
  Forall (fun ref => encode_order ref < encode_order pic)
    (refs0 pic ++ refs1 pic) /\
  frames
  = (h265_entry pic <$> refs0 pic ++ refs1 pic)
    ++ replicate (length reference_frames - length (refs0 pic ++ refs1 pic))
         invalid_picture.
Proof.
  intros E. pose proof E as E'. unfold init_reference_frames in E.
  apply obind_Ok in E as ([j0 f0] & E0 & E).
  apply obind_Ok in E as ([j1 f1] & E1 & _).
  apply h265_fill_reference_frames_inv in E0 as (H0 & -> & Hl0 & Hr0).
  apply h265_fill_reference_frames_inv in E1 as (H1 & -> & Hl1 & Hr1).
  cbn [Nat.add] in *.
  assert (length (refs0 pic ++ refs1 pic) <= length reference_frames)%nat
    as Hroom.
  { rewrite length_app. destruct (refs1 pic) as [|r1 l1].
    - destruct (refs0 pic) as [|r0 l0]; [cbn; lia|].
      cbn [length] in *. specialize (Hr0 ltac:(done)). lia.
    - rewrite <- Hl0. by apply Hr1. }
  assert (Forall (fun ref => encode_order ref < encode_order pic)
            (refs0 pic ++ refs1 pic)) as Hall by (by apply Forall_app).
  split; [done|]. split; [done|].
  rewrite (h265_init_reference_frames_ok pic reference_frames Hroom Hall)
    in E'.
  by injection E' as <-.
Qed.

Lemma h265_entry_flags pic ref :
  let f := flags (h265_entry pic ref) in
  (f = VA_PICTURE_HEVC_RPS_ST_CURR_BEFORE <->
   display_order ref < display_order pic) /\
  (f = VA_PICTURE_HEVC_RPS_ST_CURR_AFTER <->
   display_order pic < display_order ref) /\
  (f = 0 <-> display_order ref = display_order pic).
Proof.
  unfold reference_frame. cbn [flags].
  destruct (Z.ltb_spec (display_order ref) (display_order pic));
    destruct (Z.gtb_spec (display_order ref) (display_order pic));
    cbn; (split; [|split]); split; intros; try done; lia.
Qed.

(** X21.  [vpic->reference_frames] of an H.265 picture whose parameters were
    set up without error: one entry per reference, those of list 0 before
    those of list 1, each with the reference's surface and POC; an entry
    is flagged as preceding the picture exactly when the reference is
    displayed before it, as following it exactly when displayed after it,
    never as both; the entries behind them are invalid.  Every reference
    precedes the picture in coding order (the opposite is an assertion
    failure), and the array had room for all of them. *)
Theorem h265_reference_frames_entries
    (priv priv' : VAAPIEncodeH265Context) (pic pic' : Picture)
    (reference_frames frames : list VAPictureHEVC) :
  h265_init_picture_params priv pic reference_frames
  = Ok (0, priv', pic', frames) ->
  let refs := refs0 pic ++ refs1 pic in
  (length refs <= length reference_frames)%nat /\
  length frames = length reference_frames /\
  Forall (fun ref => encode_order ref < encode_order pic) refs /\
  (forall i ref, refs !! i = Some ref ->
     exists e, frames !! i = Some e /\
       picture_id e = recon_surface ref /\
       va_pic_order_cnt e = poc ref /\
       (flags e = VA_PICTURE_HEVC_RPS_ST_CURR_BEFORE <->
        display_order ref < display_order pic) /\
       (flags e = VA_PICTURE_HEVC_RPS_ST_CURR_AFTER <->
        display_order pic < display_order ref) /\
       (flags e = 0 <-> display_order ref = display_order pic)) /\
  (forall i, (length refs <= i < length reference_frames)%nat ->
     frames !! i = Some invalid_picture).
Proof.
  intros (hpic & _ & -> & _ & _ & _ & _ & Hret)%h265_init_picture_params_inv.
  cbv zeta in Hret.
  match type of Hret with
  | if ?c then _ else _ => destruct c eqn:Ec
  end.
  { exfalso. destruct Hret as [He _].
    apply andb_true_iff in Ec as [Ew Elt]. rewrite Ew in *.
    cbn [fst] in *. lia. }
  destruct Hret as [_ Hf].
  apply h265_init_reference_frames_inv in Hf as (Hroom & Hall & ->).
  cbn [refs0 refs1 set_priv_data encode_order] in *.
  set (refs := refs0 pic ++ refs1 pic) in *.
  split; [done|]. split.
  { rewrite length_app, length_fmap, length_replicate. lia. }
  split; [done|]. split.
  - intros i ref Hi. exists (h265_entry (set_priv_data pic hpic) ref). split.
    { rewrite lookup_app_l by
        (rewrite length_fmap; by apply lookup_lt_Some in Hi).
      by rewrite list_lookup_fmap, Hi. }
    split; [done|]. split; [done|].
    apply (h265_entry_flags (set_priv_data pic hpic) ref).
  - intros i Hi.
    rewrite lookup_app_r by (rewrite length_fmap; lia).
    rewrite length_fmap. apply lookup_replicate_2. lia.
Qed.

Lemma h265_aset_0 {A} (x y : A) l : aset (x :: l) 0 y = Ok (y :: l).
Proof. unfold aset. cbn [length]. by rewrite decide_True by lia. Qed.

Lemma copy_list_invalid (l : list VAPictureHEVC) :
  copy_list (replicate (length l) invalid_picture)
    (replicate (length l) invalid_picture)
  = Ok (replicate (length l) invalid_picture).
Proof.
  induction l as [|x l IH]; [done|].
  cbn [length replicate copy_list]. rewrite IH. done.
Qed.

(** X22.  The reference lists of an H.265 slice, from the picture parameters on.
    [ref_pic_list0[0]] is the entry of the first list 0 reference.
    [ref_pic_list1[0]] is cell 1 of [vpic->reference_frames] for a B
    picture: the entry of the first list 1 reference when list 0 has one
    reference, and the entry of the second list 0 reference when it has
    more.  A P picture coded as a generalised B picture gets list 1 equal
    to list 0 and slice type B; without that option it keeps slice type P
    and an invalid list 1.  Every other cell of the two lists is invalid. *)
Theorem h265_slice_ref_pic_lists
    (priv priv' : VAAPIEncodeH265Context) (pic pic' : Picture)
    (reference_frames frames : list VAPictureHEVC) :
  h265_init_picture_params priv pic reference_frames
  = Ok (0, priv', pic', frames) ->
  (2 <= length reference_frames)%nat ->
  (refs0 pic <> [] ->
   type pic = FF_HW_PICTURE_TYPE_P \/ type pic = FF_HW_PICTURE_TYPE_B) ->
  (refs1 pic <> [] -> type pic = FF_HW_PICTURE_TYPE_B) ->
  let invalid := replicate (ref_pic_list_size - 1) invalid_picture in
  let first0 :=
    match refs0 pic with
    | r0 :: _ => h265_entry pic' r0
    | [] => invalid_picture
    end in
  exists slice_type l1,
    slice_ref_pic_lists priv' pic' frames
    = Ok (slice_type, first0 :: invalid, l1) /\
    match type pic with
    | FF_HW_PICTURE_TYPE_IDR | FF_HW_PICTURE_TYPE_I =>
        slice_type = HEVC_SLICE_I /\ l1 = invalid_picture :: invalid
    | FF_HW_PICTURE_TYPE_P =>
        if p_to_gpb priv
        then slice_type = HEVC_SLICE_B /\ l1 = first0 :: invalid
        else slice_type = HEVC_SLICE_P /\ l1 = invalid_picture :: invalid
    | FF_HW_PICTURE_TYPE_B =>
        slice_type = HEVC_SLICE_B /\
        l1 = match refs0 pic, refs1 pic with
             | [r0], r1 :: _ => h265_entry pic' r1
             | _ :: r :: _, _ => h265_entry pic' r
             | _, _ => invalid_picture
             end :: invalid
    end.
Proof.
  intros Hinit Hlen Hty0 Hty1.
  pose proof Hinit as
    (hpic & Hh & -> & _ & _ & _ & Hgpb & Hret)%h265_init_picture_params_inv.
  cbv zeta in Hret.
  match type of Hret with
  | if ?c then _ else _ => destruct c eqn:Ec
  end.
  { exfalso. destruct Hret as [He _].
    apply andb_true_iff in Ec as [Ew Elt]. rewrite Ew in *.
    cbn [fst] in *. lia. }
  destruct Hret as [_ Hf].
  apply h265_init_reference_frames_inv in Hf as (Hroom & Hall & ->).
  cbn [refs0 refs1 set_priv_data] in Hroom, Hall |- *.
  destruct reference_frames as [|f0 [|f1 RF]]; [simpl in Hlen; lia..|].
  unfold slice_ref_pic_lists, slice_header_type.
  cbn [refs0 refs1 type set_priv_data priv_data]. rewrite Hgpb.
  unfold init_hpic in Hh.
  destruct (type pic) eqn:T; cbn [PictureType_eqb] in Hh.
  - (* IDR *)
    apply obind_Ok in Hh as ([[[lif nal] st] pt] & Hb & [= <-]).
    apply obind_Ok in Hb as ([] & _ & [= <- <- <- <-]).
    destruct (refs0 pic) as [|r0 l0];
      [|exfalso; by destruct (Hty0 ltac:(done))].
    destruct (refs1 pic) as [|r1 l1]; [|exfalso; by specialize (Hty1 ltac:(done))].
    cbn. eexists _, _. split; [reflexivity|]. done.
  - (* I *)
    apply obind_Ok in Hh as ([[[lif nal] st] pt] & Hb & [= <-]).
    destruct (prev pic) as [prv|]; [|done]. injection Hb as <- <- <- <-.
    destruct (refs0 pic) as [|r0 l0];
      [|exfalso; by destruct (Hty0 ltac:(done))].
    destruct (refs1 pic) as [|r1 l1]; [|exfalso; by specialize (Hty1 ltac:(done))].
    cbn. eexists _, _. split; [reflexivity|]. done.
  - (* P *)
    apply obind_Ok in Hh as ([[[lif nal] st] pt] & Hb & [= <-]).
    destruct (prev pic) as [prv|]; [|done]. injection Hb as <- <- <- <-.
    destruct (refs1 pic) as [|r1 l1]; [|exfalso; by specialize (Hty1 ltac:(done))].
    cbn [slice_type]. change (HEVC_SLICE_P =? HEVC_SLICE_P) with true.
    destruct (refs0 pic) as [|r0 l0]; destruct (p_to_gpb priv);
      cbn [app fmap list_fmap PictureType_eqb orb andb av_assert0 obind aget
           lookup list_lookup ref_pic_list_size replicate Nat.sub length];
      rewrite ?h265_aset_0; cbn [obind];
      rewrite ?h265_aset_0; cbn [obind copy_list];
      try (pose proof (copy_list_invalid (replicate 14 invalid_picture))
             as Hc; rewrite length_replicate in Hc;
           cbn [replicate] in Hc; rewrite Hc; cbn [obind]);
      eexists _, _; (split; [reflexivity|]); done.
  - (* B *)
    apply obind_Ok in Hh as ([[[lif nal] st] pt] & Hb & [= <-]).
    destruct (prev pic) as [prv|]; [|done].
    apply obind_Ok in Hb as ([] & Hne%av_assert0_Ok & [= <- <- <- <-]).
    cbn [slice_type]. change (HEVC_SLICE_B =? HEVC_SLICE_P) with false.
    destruct (refs0 pic) as [|r0 [|r0' l0]]; [done|..];
      (destruct (refs1 pic) as [|r1 l1]; [done|]);
      cbn [app fmap list_fmap PictureType_eqb orb andb av_assert0 obind aget
           lookup list_lookup ref_pic_list_size replicate Nat.sub length];
      rewrite ?andb_false_r; rewrite ?h265_aset_0; cbn [obind];
      rewrite ?h265_aset_0; cbn [obind];
      eexists _, _; (split; [reflexivity|]); done.
Qed.
End H265PictureFacts.

(** ** H.265 session set-up *)

Section H265SetupFacts.
Import H265 H265Session H265Setup.






Lemma h265_init_sequence_params_inv s st priv err priv' ps :
  vaapi_encode_h265_init_sequence_params s st priv = Ok (err, priv', ps) ->
  err = 0 ->
  let window :=
    negb (seq_width s =? surface_width st)
    || negb (seq_height s =? surface_height st) in
  let use_bs :=
    seq_va_check_version_1_13 s
    && negb (block_sizes_value (va_bs st) =? 0) in
  fixed_qp_idr priv' = fixed_qp_idr priv /\
  fixed_qp_p priv' = fixed_qp_p priv /\
  fixed_qp_b priv' = fixed_qp_b priv /\
  init_qp_minus26 priv' = fixed_qp_idr priv - 26 /\
  log2_max_pic_order_cnt_lsb_minus4 priv' = 8 /\
  pps_pic_parameter_set_id priv' = 0 /\
  is_Some (chroma_format (desc s)) /\
  pic_width_in_luma_samples ps = surface_width st /\
  pic_height_in_luma_samples ps = surface_height st /\
  conformance_window_flag ps = Z.b2z window /\
  conf_win_left_offset ps = 0 /\ conf_win_top_offset ps = 0 /\
  conf_win_right_offset ps
  = (if window
     then Z.shiftr (surface_width st - seq_width s)
            (H264Setup.log2_chroma_w (desc s))
     else 0) /\
  conf_win_bottom_offset ps
  = (if window
     then Z.shiftr (surface_height st - seq_height s)
            (H264Setup.log2_chroma_h (desc s))
     else 0) /\
  sps_log2_min_luma_coding_block_size_minus3 ps
  = (if use_bs then ff_ctz (min_cb_size st) - 3 else 0) /\
  log2_diff_max_min_luma_coding_block_size ps
  = (if use_bs then ff_ctz (ctu_size st) - ff_ctz (min_cb_size st) else 2) /\
  tile_layout s
  = Ok (tiles_enabled_flag ps, num_tile_columns_minus1 ps,
        num_tile_rows_minus1 ps, uniform_spacing_flag ps,
        column_width_minus1 ps, row_height_minus1 ps).
Proof.
  unfold vaapi_encode_h265_init_sequence_params.
  destruct (chroma_format (desc s)) as [cf|] eqn:Ecf.
  2:{ intros [= <- _ _] He. done. }
  destruct (if negb (seq_level s =? H264Setup.AV_LEVEL_UNKNOWN)
            then _ else _) as [level_idc tier_flag].
  intros ([[[[[te nc] nr] us] cw] rh] & Ht & [= <- <- <-])%obind_Ok _.
  cbn. rewrite Ht. repeat (split; [done || eauto|]). done.
Qed.


(** X24.  The quantizer and the POC bits of an H.265 slice header, from the
    session set-up on.  After [vaapi_encode_h265_configure] and
    [vaapi_encode_h265_init_sequence_params], the quantizer a slice
    signals, [26 + init_qp_minus26 + slice_qp_delta], is the fixed
    quantizer of the picture's type and lies within 1..51 (30 for every
    type outside constant-QP mode); the pictures of the type the PPS is
    initialised with, IDR and I, have a delta of 0.  The slice carries the
    POC modulo 4096, the twelve bits the sequence header announces. *)
Theorem h265_slice_qp_and_poc_bits
    (c : ConfigureParams) (s : SequenceParams) (st : CapsState)
    (priv priv1 priv2 : VAAPIEncodeH265Context) (r r' : Z)
    (ps : ParameterSets) (pic : Picture) :
  vaapi_encode_h265_configure c priv r = (0, priv1, r') ->
  vaapi_encode_h265_init_sequence_params s st priv1 = Ok (0, priv2, ps) ->
  let qp := 26 + init_qp_minus26 priv2 + slice_qp_delta priv2 pic in
  qp = match type pic with
       | FF_HW_PICTURE_TYPE_B => fixed_qp_b priv2
       | FF_HW_PICTURE_TYPE_P => fixed_qp_p priv2
       | _ => fixed_qp_idr priv2
       end /\
  1 <= qp <= 51 /\
  -25 <= init_qp_minus26 priv2 <= 25 /\
  (type pic = FF_HW_PICTURE_TYPE_IDR \/ type pic = FF_HW_PICTURE_TYPE_I ->
   slice_qp_delta priv2 pic = 0) /\
  (va_rc_mode_is_CQP c = false -> qp = 30 /\ slice_qp_delta priv2 pic = 0) /\
  (va_rc_mode_is_CQP c = true ->
   fixed_qp_p priv2 = H264Setup.av_clip (rc_quality c) 1 51 /\
   (i_quant c = None -> fixed_qp_idr priv2 = fixed_qp_p priv2) /\
   (b_quant c = None -> fixed_qp_b priv2 = fixed_qp_p priv2)) /\
  r' = 51 + 6 * (profile_depth c - 8) /\
  slice_pic_order_cnt_lsb priv2 pic = poc pic mod 4096.
Proof.
  intros Hcfg Hseq.
  destruct (h265_init_sequence_params_inv _ _ _ _ _ _ Hseq eq_refl)
    as (Ei & Ep & Eb & Eq & Epoc & _).
  unfold vaapi_encode_h265_configure in Hcfg.
  destruct (ff_cbs_init c <? 0) eqn:Ecbs.
  { injection Hcfg as Hneg _ _. lia. }
  injection Hcfg as <- <-.
  assert (slice_pic_order_cnt_lsb priv2 pic = poc pic mod 4096) as Hlsb.
  { unfold slice_pic_order_cnt_lsb. rewrite Epoc.
    change (Z.shiftl 1 (8 + 4) - 1) with (Z.ones 12).
    by rewrite Z.land_ones by lia. }
  cbv zeta. unfold slice_qp_delta. rewrite Eq, Ei, Ep, Eb.
  pose proof (av_clip_1_51 (rc_quality c)) as Hp.
  destruct (va_rc_mode_is_CQP c); cbn [fixed_qp_idr fixed_qp_p fixed_qp_b
    set_fixed_qp].
  - assert (1 <= match i_quant c with
                 | Some f =>
                     H264Setup.av_clip
                       (f (H264Setup.av_clip (rc_quality c) 1 51)) 1 51
                 | None => H264Setup.av_clip (rc_quality c) 1 51
                 end <= 51) as Hi
      by (destruct (i_quant c); [apply av_clip_1_51|done]).
    assert (1 <= match b_quant c with
                 | Some f =>
                     H264Setup.av_clip
                       (f (H264Setup.av_clip (rc_quality c) 1 51)) 1 51
                 | None => H264Setup.av_clip (rc_quality c) 1 51
                 end <= 51) as Hb
      by (destruct (b_quant c); [apply av_clip_1_51|done]).
    split; [destruct (type pic); lia|].
    split; [destruct (type pic); lia|].
    split; [lia|].
    split; [intros [-> | ->]; lia|].
    split; [done|].
    split; [|done].
    intros _. split; [done|]. split; by intros ->.
  - split; [destruct (type pic); lia|].
    split; [destruct (type pic); lia|].
    split; [lia|].
    split; [intros [-> | ->]; lia|].
    split; [intros _; destruct (type pic); lia|].
    split; [done|]. done.
Qed.

Lemma uniform_spacing_loop_sum sizes blocks tiles : forall n i l,
  0 < tiles -> 0 <= blocks ->
  uniform_spacing_loop sizes blocks tiles i n = Ok true ->
  sizes_minus1 sizes i n = Ok l ->
  length l = n /\
  foldr Z.add 0 ((fun size => size + 1) <$> l)
  = ((Z.of_nat i + Z.of_nat n) * blocks) ÷ tiles
    - (Z.of_nat i * blocks) ÷ tiles /\
  Forall (fun size => blocks / tiles <= size + 1 <= blocks / tiles + 1) l.
Proof.
  induction n as [|n IH]; intros i l Ht Hb; cbn [uniform_spacing_loop
    sizes_minus1].
  - intros _ [= <-]. cbn. split; [done|]. split; [|done].
    rewrite Z.add_0_r. lia.
  - intros (size & Hsize & Hu)%obind_Ok (size' & Hsize' & Hl)%obind_Ok.
    rewrite Hsize in Hsize'. injection Hsize' as <-.
    apply obind_Ok in Hl as (rest & Hrest & [= <-]).
    destruct (Z.eqb_spec size
                (((Z.of_nat i + 1) * blocks) ÷ tiles
                 - (Z.of_nat i * blocks) ÷ tiles)) as [Hs|Hs];
      cbn [negb] in Hu; [|done].
    destruct (IH (S i) rest Ht Hb Hu Hrest) as (Hlen & Hsum & Hall).
    split; [cbn; lia|]. split.
    + cbn [fmap list_fmap foldr]. rewrite Hsum, Hs.
      replace (Z.of_nat (S i)) with (Z.of_nat i + 1) by lia.
      replace (Z.of_nat i + 1 + Z.of_nat n)
        with (Z.of_nat i + Z.of_nat (S n)) by lia. lia.
    + constructor; [|done]. rewrite Hs.
      rewrite !Z.quot_div_nonneg by nia.
      pose proof (Z.div_mod ((Z.of_nat i + 1) * blocks) tiles ltac:(lia)).
      pose proof (Z.mod_pos_bound ((Z.of_nat i + 1) * blocks) tiles
                    ltac:(lia)).
      pose proof (Z.div_mod (Z.of_nat i * blocks) tiles ltac:(lia)).
      pose proof (Z.mod_pos_bound (Z.of_nat i * blocks) tiles ltac:(lia)).
      pose proof (Z.div_mod blocks tiles ltac:(lia)).
      pose proof (Z.mod_pos_bound blocks tiles ltac:(lia)).
      nia.
Qed.

Lemma iterations_tiles (tiles : Z) :
  0 < tiles <= 256 -> iterations ((tiles - 1) mod 2 ^ 8) = Z.to_nat tiles.
Proof.
  intros Ht. unfold iterations. rewrite Z.mod_small by lia. f_equal. lia.
Qed.

(** X25.  Tiles with the uniform-spacing flag.  When the sequence parameters come
    out with [uniform_spacing_flag] set, tiles are enabled, the PPS has one
    width per tile column and one height per tile row, the widths add up
    to the block columns of the picture and the heights to its block rows,
    and any two tile columns (or rows) differ by at most one block: each
    size is the quotient of blocks by tiles or one more. *)
Theorem h265_uniform_tile_spacing
    (s : SequenceParams) (st : CapsState)
    (priv priv' : VAAPIEncodeH265Context) (ps : ParameterSets) :
  vaapi_encode_h265_init_sequence_params s st priv = Ok (0, priv', ps) ->
  uniform_spacing_flag ps = 1 ->
  0 < tile_cols s <= 256 -> 0 < tile_rows s <= 256 ->
  0 <= slice_block_cols s -> 0 <= slice_block_rows s ->
  tiles_enabled_flag ps = 1 /\
  num_tile_columns_minus1 ps = tile_cols s - 1 /\
  num_tile_rows_minus1 ps = tile_rows s - 1 /\
  length (column_width_minus1 ps) = Z.to_nat (tile_cols s) /\
  length (row_height_minus1 ps) = Z.to_nat (tile_rows s) /\
  foldr Z.add 0 ((fun size => size + 1) <$> column_width_minus1 ps)
  = slice_block_cols s /\
  foldr Z.add 0 ((fun size => size + 1) <$> row_height_minus1 ps)
  = slice_block_rows s /\
  Forall (fun size =>
            slice_block_cols s / tile_cols s <= size + 1
            <= slice_block_cols s / tile_cols s + 1)
    (column_width_minus1 ps) /\
  Forall (fun size =>
            slice_block_rows s / tile_rows s <= size + 1
            <= slice_block_rows s / tile_rows s + 1)
    (row_height_minus1 ps).
Proof.
  intros Hseq Hflag Hc Hr Hbc Hbr.
  destruct (h265_init_sequence_params_inv _ _ _ _ _ _ Hseq eq_refl)
    as (_ & _ & _ & _ & _ & _ & _ & _ & _ & _ & _ & _ & _ & _ & _ & _ & Ht).
  unfold tile_layout in Ht.
  replace (tile_rows s =? 0) with false in Ht by lia.
  replace (tile_cols s =? 0) with false in Ht by lia.
  cbn [negb andb] in Ht. rewrite !iterations_tiles in Ht by done.
  apply obind_Ok in Ht as (uc & Huc & Ht).
  apply obind_Ok in Ht as (ur & Hur & Ht).
  apply obind_Ok in Ht as (cw & Hcw & Ht).
  apply obind_Ok in Ht as (rh & Hrh & Ht).
  injection Ht as Hte Hnc Hnr Hus <- <-.
  rewrite <- Hus in Hflag. destruct ur; [|done].
  destruct uc; [|done].
  destruct (uniform_spacing_loop_sum _ _ _ _ _ _ (proj1 Hc) Hbc Huc Hcw)
    as (Hlc & Hsc & Hac).
  destruct (uniform_spacing_loop_sum _ _ _ _ _ _ (proj1 Hr) Hbr Hur Hrh)
    as (Hlr & Hsr & Har).
  rewrite Z2Nat.id in Hsc, Hsr by lia. cbn [Z.of_nat] in Hsc, Hsr.
  rewrite Z.add_0_l, Z.mul_0_l, Z.quot_0_l, Z.sub_0_r in Hsc, Hsr by lia.
  rewrite (Z.mul_comm (tile_cols s)), Z.quot_mul in Hsc by lia.
  rewrite (Z.mul_comm (tile_rows s)), Z.quot_mul in Hsr by lia.
  rewrite Z.mod_small in Hnc, Hnr by lia.
  repeat (split; [done|]). done.
Qed.

(** X26.  [vaapi_encode_h265_init] up to the call of the generic
    initialisation: it gives up, with [AVERROR(EINVAL)], exactly when a
    level is given (by the codec context or, if that has none, by the
    option) that does not fit eight bits; when it goes on, profile and
    level are those of the codec context where it has them and those of
    the options otherwise, and a positive [qp] option has become the
    explicit quantizer. *)
Theorem h265_init_checks_level
    (priv_profile priv_level priv_qp : Z) (st : InitState) :
  let profile :=
    if avctx_profile st =? H264Setup.AV_PROFILE_UNKNOWN then priv_profile
    else avctx_profile st in
  let level :=
    if avctx_level st =? H264Setup.AV_LEVEL_UNKNOWN then priv_level
    else avctx_level st in
  match init_checks priv_profile priv_level priv_qp st with
  | inl (err, st') =>
      err = AVERROR H264Setup.EINVAL /\
      level <> H264Setup.AV_LEVEL_UNKNOWN /\ ~ (0 <= level <= 255) /\
      explicit_qp st' = explicit_qp st
  | inr st' =>
      (level = H264Setup.AV_LEVEL_UNKNOWN \/ 0 <= level <= 255) /\
      avctx_profile st' = profile /\ avctx_level st' = level /\
      explicit_qp st' = (if 0 <? priv_qp then priv_qp else explicit_qp st)
  end.
Proof.
  intros profile level. unfold init_checks. fold profile level.
  destruct (Z.eqb_spec level H264Setup.AV_LEVEL_UNKNOWN) as [Hunk|Hknown];
    cbn [negb andb].
  - cbn. split; [by left|]. split; [done|]. split; [done|].
    by rewrite Z.gtb_ltb.
  - destruct (Z.eqb_spec (Z.land level (Z.lnot 255)) 0) as [Hfit|Hwide];
      cbn [negb].
    + apply land_lnot_255 in Hfit. cbn. split; [by right|].
      split; [done|]. split; [done|]. by rewrite Z.gtb_ltb.
    + split; [done|]. split; [done|]. split; [|done].
      by rewrite <- land_lnot_255.
Qed.
End H265SetupFacts.

(** ** H.264: the HRD parameters *)

Section H264HRDFacts.
Import H264 H264HRD.

Lemma scaled_value (v base : Z) :
  0 < v < 2 ^ 32 -> 1 <= base <= 6 ->
  let scale := av_clip_uintp2 (av_log2 v - 15 - base) 4 in
  let value := Z.shiftr v (scale + base) in
  0 <= scale <= 15 /\
  value * 2 ^ (scale + base) <= v < (value + 1) * 2 ^ (scale + base) /\
  value < 2 ^ 16 /\
  (2 ^ base <= v -> 1 <= value) /\
  (2 ^ (15 + base) <= v -> 2 ^ 15 <= value) /\
  (v < 2 ^ (16 + base) -> scale = 0).
Proof.
  intros Hv Hbase scale value.
  pose proof (Z.log2_spec v ltac:(lia)) as [Hlo Hhi].
  pose proof (Z.log2_nonneg v) as Hl0.
  assert (Z.log2 v < 32) as Hl32 by (apply Z.log2_lt_pow2; lia).
  unfold av_log2, av_clip_uintp2 in scale.
  change (2 ^ 4 - 1) with 15 in scale.
  assert (0 <= scale <= 15 /\
          (scale = 0 /\ Z.log2 v <= 15 + base \/
           scale = Z.log2 v - 15 - base /\ 15 + base <= Z.log2 v)) as [Hs Hcase].
  { subst scale. destruct (Z.ltb_spec (Z.log2 v - 15 - base) 0); [lia|].
    destruct (Z.gtb_spec (Z.log2 v - 15 - base) 15); lia. }
  clearbody scale.
  assert (0 < 2 ^ (scale + base)) as Hpos by (apply Z.pow_pos_nonneg; lia).
  assert (value = v / 2 ^ (scale + base)) as Hval
    by (subst value; apply Z.shiftr_div_pow2; lia).
  clearbody value.
  pose proof (Z.div_mod v (2 ^ (scale + base)) ltac:(lia)) as Hdm.
  pose proof (Z.mod_pos_bound v (2 ^ (scale + base)) ltac:(lia)) as Hmb.
  rewrite <- Hval in Hdm.
  split; [done|]. split; [lia|].
  assert (forall a b, 0 <= a <= b -> 2 ^ a <= 2 ^ b) as Hmono
    by (intros; apply Z.pow_le_mono_r; lia).
  split.
  { rewrite Hval. apply Z.div_lt_upper_bound; [lia|].
    rewrite <- Z.pow_add_r by lia.
    pose proof (Hmono (Z.log2 v + 1) (scale + base + 16)) as Hm.
    destruct Hcase as [[-> ?]|[-> ?]].
    - specialize (Hm ltac:(lia)). lia.
    - specialize (Hm ltac:(lia)). lia. }
  split.
  { intros Hb. rewrite Hval.
    apply Z.div_le_lower_bound; [lia|]. rewrite Z.mul_1_r.
    destruct Hcase as [[-> ?]|[-> ?]].
    - by rewrite Z.add_0_l.
    - pose proof (Hmono (Z.log2 v - 15 - base + base) (Z.log2 v)
                    ltac:(lia)). lia. }
  split.
  { intros Hb. rewrite Hval.
    apply Z.div_le_lower_bound; [lia|]. rewrite <- Z.pow_add_r by lia.
    destruct Hcase as [[-> ?]|[-> ?]].
    - replace (0 + base + 15) with (15 + base) by lia. done.
    - replace (Z.log2 v - 15 - base + base + 15) with (Z.log2 v) by lia.
      done. }
  intros Hsmall.
  assert (Z.log2 v < 16 + base) by (apply Z.log2_lt_pow2; lia).
  lia.
Qed.

(** X27.  The HRD parameters of an H.264 sequence header when timing messages
    are on.  The bit rate is signalled as a value minus one and a 4-bit
    scale; read back as [(value_minus1 + 1) << (6 + scale)] it is the
    target rate rounded down to a multiple of [2^(6 + scale)], the value
    fits 16 bits, and from [2^21] on it keeps 16 significant bits of the
    target, so the rate read back is off by less than 1/32768 of it.  The
    same holds for the buffer size with [4 + scale] and [2^19].  The
    initial removal delay is the buffer fullness in 90 kHz ticks of the
    time the buffer takes to fill, without overflow. *)
Theorem hrd_parameters_scaling
    (priv : VAAPIEncodeH264Context) (h : HRDInput) (hrd : RawHRD) :
  init_sequence_params_hrd priv h = Ok hrd ->
  Z.land (sei priv) SEI_TIMING <> 0 ->
  64 <= va_bit_rate h < 2 ^ 32 ->
  16 <= buffer_size h < 2 ^ 32 ->
  0 <= initial_buffer_fullness h <= buffer_size h ->
  let BitRate := (bit_rate_value_minus1 hrd + 1) * 2 ^ (6 + bit_rate_scale hrd) in
  let CpbSize := (cpb_size_value_minus1 hrd + 1) * 2 ^ (4 + cpb_size_scale hrd) in
  nal_hrd_parameters_present_flag hrd = 1 /\
  0 <= bit_rate_scale hrd <= 15 /\ 0 <= cpb_size_scale hrd <= 15 /\
  0 <= bit_rate_value_minus1 hrd < 2 ^ 16 /\
  0 <= cpb_size_value_minus1 hrd < 2 ^ 16 /\
  BitRate <= va_bit_rate h < BitRate + 2 ^ (6 + bit_rate_scale hrd) /\
  CpbSize <= buffer_size h < CpbSize + 2 ^ (4 + cpb_size_scale hrd) /\
  (2 ^ 21 <= va_bit_rate h ->
   2 ^ 15 <= bit_rate_value_minus1 hrd + 1 /\
   32768 * (va_bit_rate h - BitRate) < va_bit_rate h) /\
  (2 ^ 19 <= buffer_size h ->
   2 ^ 15 <= cpb_size_value_minus1 hrd + 1 /\
   32768 * (buffer_size h - CpbSize) < buffer_size h) /\
  (va_bit_rate h < 2 ^ 22 -> bit_rate_scale hrd = 0) /\
  (buffer_size h < 2 ^ 20 -> cpb_size_scale hrd = 0) /\
  initial_cpb_removal_delay hrd
  = 90000 * initial_buffer_fullness h / buffer_size h /\
  0 <= initial_cpb_removal_delay hrd <= 90000.
Proof.
  intros Hrun Hsei HR HB HF. unfold init_sequence_params_hrd in Hrun.
  replace (Z.land (sei priv) SEI_TIMING =? 0) with false in Hrun by lia.
  replace (buffer_size h =? 0) with false in Hrun by lia.
  cbn [negb] in Hrun. injection Hrun as <-.
  cbn [nal_hrd_parameters_present_flag bit_rate_scale bit_rate_value_minus1
       cpb_size_scale cpb_size_value_minus1 initial_cpb_removal_delay].
  destruct (scaled_value (va_bit_rate h) 6 ltac:(lia) ltac:(lia))
    as (Hs1 & Hr1 & Hfit1 & Hone1 & Hbig1 & Hz1).
  destruct (scaled_value (buffer_size h) 4 ltac:(lia) ltac:(lia))
    as (Hs2 & Hr2 & Hfit2 & Hone2 & Hbig2 & Hz2).
  set (s1 := av_clip_uintp2 (av_log2 (va_bit_rate h) - 15 - 6) 4) in *.
  set (s2 := av_clip_uintp2 (av_log2 (buffer_size h) - 15 - 4) 4) in *.
  set (v1 := Z.shiftr (va_bit_rate h) (s1 + 6)) in *.
  set (v2 := Z.shiftr (buffer_size h) (s2 + 4)) in *.
  clearbody v1 v2 s1 s2.
  specialize (Hone1 ltac:(lia)). specialize (Hone2 ltac:(lia)).
  change (2 ^ 16) with 65536 in *. change (2 ^ 32) with 4294967296 in *.
  rewrite (Z.mod_small (v1 - 1)) by lia.
  rewrite (Z.mod_small (v2 - 1)) by lia.
  rewrite (Z.mod_small (90000 * initial_buffer_fullness h)) by lia.
  replace (v1 - 1 + 1) with v1 by lia. replace (v2 - 1 + 1) with v2 by lia.
  replace (6 + s1) with (s1 + 6) by lia. replace (4 + s2) with (s2 + 4) by lia.
  assert (0 <= 90000 * initial_buffer_fullness h / buffer_size h <= 90000)
    as Hd.
  { split; [apply Z.div_pos; lia|].
    apply Z.div_le_upper_bound; lia. }
  rewrite (Z.mod_small (_ / _)) by lia.
  assert (0 < 2 ^ (s1 + 6)) by (apply Z.pow_pos_nonneg; lia).
  assert (0 < 2 ^ (s2 + 4)) by (apply Z.pow_pos_nonneg; lia).
  split; [done|]. split; [done|]. split; [done|].
  split; [lia|]. split; [lia|]. split; [lia|]. split; [lia|].
  split.
  { intros Hb. specialize (Hbig1 Hb). split; [done|].
    change (2 ^ 15) with 32768 in Hbig1. nia. }
  split.
  { intros Hb. specialize (Hbig2 Hb). split; [done|].
    change (2 ^ 15) with 32768 in Hbig2. nia. }
  split; [done|]. split; [done|]. split; [done|]. done.
Qed.
End H264HRDFacts.

(** ** H.265: pictures within their IDR period *)

Section H265IDRPeriod.
Import H265 H265Session H265Sequence.
Variable ff_alloc_a53_sei : Picture -> Z * option Z.
Variable recon_surface : Picture -> Z.
Variable mastering_display_metadata : Picture -> option (bool * bool).
Variable content_light_metadata : Picture -> option (Z * Z).

Abbreviation h265_encode_pictures :=
  (encode_pictures ff_alloc_a53_sei recon_surface mastering_display_metadata
     content_light_metadata).

Lemma h265_idr_pictures_snoc l p :
  idr_pictures (l ++ [p])
  = idr_pictures l
    ++ (if decide (type p = FF_HW_PICTURE_TYPE_IDR) then [p] else []).
Proof.
  unfold idr_pictures. rewrite filter_app. by f_equal.
Qed.

Lemma irap_ref_unfold (p : Picture) :
  irap_ref p
  = match type p with
    | FF_HW_PICTURE_TYPE_I => true
    | _ => match refs1 p with
           | [] => false
           | r :: _ => irap_ref r
           end
    end.
Proof. by destruct p. Qed.

(** One step: the picture encoded after the pictures [hist], the last of
    which is [prv]. *)
Lemma h265_init_hpic_in_idr_period priv pic prv hist h :
  match prv with
  | None => hist = []
  | Some v => in_idr_period hist v
  end ->
  init_hpic priv (set_prev pic prv) = Ok h ->
  let pic' := set_priv_data (set_prev pic prv) h in
  in_idr_period (hist ++ [pic']) pic' /\ nal_unit_ok priv pic' /\
  (type pic = FF_HW_PICTURE_TYPE_IDR -> display_order pic = encode_order pic).
Proof.
  intros Hinv Hh pic'. unfold init_hpic in Hh.
  cbn [type set_prev prev display_order encode_order] in Hh.
  unfold in_idr_period, last_idr, nal_unit_ok, poc.
  rewrite h265_idr_pictures_snoc.
  cbn [type set_priv_data set_prev pic' priv_data display_order encode_order
       refs0 refs1 b_depth].
  destruct (PictureType_eqb (type pic) FF_HW_PICTURE_TYPE_IDR) eqn:E.
  - apply PictureType_eqb_eq in E.
    apply obind_Ok in Hh as ([[[lif nal] st] pt] & Hh & [= <-]).
    apply obind_Ok in Hh as ([] & Hord%av_assert0_Ok & [= <- <- <- <-]).
    apply Z.eqb_eq in Hord.
    rewrite decide_True by done. rewrite last_snoc, E.
    split; [|split; [done|done]].
    exists pic'. split; [done|].
    cbn [last_idr_frame pic_order_cnt pic' display_order set_priv_data
         set_prev]. split; [done|lia].
  - assert (type pic <> FF_HW_PICTURE_TYPE_IDR) as Hne
      by (intros E'%PictureType_eqb_eq; congruence).
    destruct prv as [v|]; [|done].
    apply obind_Ok in Hh as ([[[lif nal] st] pt] & Hh & [= <-]).
    destruct Hinv as (q & Hq & Hl & _).
    rewrite decide_False by done. rewrite app_nil_r.
    cbn [last_idr_frame pic_order_cnt slice_nal_unit slice_type].
    destruct (type pic) eqn:T; [done|..].
    + injection Hh as <- <- <- <-.
      split; [exists q; rewrite Hl; done|]. split; [done|done].
    + injection Hh as <- <- <- <-.
      split; [exists q; rewrite Hl; done|]. split; [done|done].
    + apply obind_Ok in Hh as ([] & Hrefs%av_assert0_Ok & [= <- <- <- <-]).
      cbn [refs0 refs1 set_prev] in Hrefs.
      split; [exists q; rewrite Hl; done|]. split; [|done].
      split; [done|].
      rewrite (irap_ref_unfold pic').
      cbn [type refs1 set_prev set_priv_data pic']. rewrite T.
      destruct (refs0 pic) as [|r0 l0]; [done|].
      destruct (refs1 pic) as [|r1 l1]; [done|].
      split; [done|]. split; [done|].
      destruct (b_depth pic =? max_b_depth priv);
        destruct (irap_ref r1); done.
Qed.

Lemma h265_init_picture_params_keeps_depth priv pic frames err priv' pic' f :
  vaapi_encode_h265_init_picture_params ff_alloc_a53_sei recon_surface
    mastering_display_metadata content_light_metadata priv pic frames
  = Ok (err, priv', pic', f) ->
  max_b_depth priv' = max_b_depth priv /\
  exists h, init_hpic priv pic = Ok h /\ pic' = set_priv_data pic h.
Proof.
  unfold vaapi_encode_h265_init_picture_params.
  intros (h & Hh & H)%obind_Ok. cbv zeta in H.
  destruct (if negb _ then _ else _) as [e a53].
  destruct (negb _ && (e <? 0)).
  - injection H as _ <- <- _. eauto.
  - apply obind_Ok in H as (f' & _ & [= _ <- <- _]). eauto.
Qed.

Lemma h265_nal_unit_ok_depth priv priv' p :
  max_b_depth priv' = max_b_depth priv ->
  nal_unit_ok priv' p -> nal_unit_ok priv p.
Proof. unfold nal_unit_ok. by intros ->. Qed.

Lemma h265_encode_pictures_in_idr_period pics : forall priv prv hist frames out,
  match prv with
  | None => hist = []
  | Some v => in_idr_period hist v
  end ->
  h265_encode_pictures priv prv pics frames = Ok out ->
  forall i p, out !! i = Some p ->
  in_idr_period (hist ++ take (S i) out) p /\ nal_unit_ok priv p /\
  (type p = FF_HW_PICTURE_TYPE_IDR -> display_order p = encode_order p).
Proof.
  induction pics as [|pic pics IH]; intros priv prv hist frames out Hinv;
    cbn [encode_pictures].
  - intros [= <-] i p Hi. by rewrite lookup_nil in Hi.
  - intros ([[[err priv'] pic'] f] & Hinit & H)%obind_Ok.
    destruct (h265_init_picture_params_keeps_depth _ _ _ _ _ _ _ Hinit)
      as (Hdepth & h & Hh & ->).
    pose proof (h265_init_hpic_in_idr_period priv pic prv hist h Hinv Hh)
      as Hstep.
    cbn zeta in Hstep. destruct Hstep as (Hper & Hnal & Hidr).
    destruct (err <? 0).
    + injection H as <-. intros i p Hi. by rewrite lookup_nil in Hi.
    + apply obind_Ok in H as (rest & Hrest & [= <-]).
      intros [|i] p Hi.
      * injection Hi as <-. cbn [take]. by rewrite take_0.
      * cbn in Hi. cbn [take]. rewrite (cons_middle _ hist), app_assoc.
        destruct (IH priv' (Some (set_priv_data (set_prev pic prv) h))
                    _ frames rest Hper Hrest i p Hi) as (H1 & H2 & H3).
        split; [done|]. split; [|done].
        by apply (h265_nal_unit_ok_depth priv priv').
Qed.

(** X28.  Along any sequence of H.265 pictures encoded in order, every
    picture lies in the IDR period of the latest IDR picture up to and
    including it (there is one: a sequence cannot start otherwise), and
    its POC is its display distance from that IDR picture; so an IDR
    picture has POC 0, and two pictures of one IDR period have the same
    POC only if they have the same display order.  The NAL unit type tells
    the picture type: IDR_W_RADL for IDR, CRA for I, TRAIL_R for P; a B
    picture has two reference lists and a RASL type when the chain of
    first list 1 references reaches an I picture and a TRAIL type
    otherwise, the sub-layer non-reference one of the two exactly at the
    maximum B depth. *)
Theorem h265_encode_pictures_idr_period
    (priv : VAAPIEncodeH265Context) (pics out : list Picture)
    (frames : list VAPictureHEVC) :
  h265_encode_pictures priv None pics frames = Ok out ->
  forall i p, out !! i = Some p ->
  in_idr_period (take (S i) out) p /\
  (type p = FF_HW_PICTURE_TYPE_IDR -> poc p = 0) /\
  (forall j p', out !! j = Some p' ->
     last_idr (take (S j) out) = last_idr (take (S i) out) ->
     poc p' = poc p -> display_order p' = display_order p) /\
  match type p with
  | FF_HW_PICTURE_TYPE_IDR =>
      slice_nal_unit (priv_data p) = HEVC_NAL_IDR_W_RADL /\
      slice_type (priv_data p) = HEVC_SLICE_I
  | FF_HW_PICTURE_TYPE_I =>
      slice_nal_unit (priv_data p) = HEVC_NAL_CRA_NUT /\
      slice_type (priv_data p) = HEVC_SLICE_I
  | FF_HW_PICTURE_TYPE_P =>
      slice_nal_unit (priv_data p) = HEVC_NAL_TRAIL_R /\
      slice_type (priv_data p) = HEVC_SLICE_P
  | FF_HW_PICTURE_TYPE_B =>
      slice_type (priv_data p) = HEVC_SLICE_B /\
      refs0 p <> [] /\ refs1 p <> [] /\
      slice_nal_unit (priv_data p)
      = (if irap_ref p then HEVC_NAL_RASL_N else HEVC_NAL_TRAIL_N)
        + (if b_depth p =? max_b_depth priv then 0 else 1)
  end.
Proof.
  intros Hrun i p Hi.
  destruct (h265_encode_pictures_in_idr_period pics priv None [] frames out
              eq_refl Hrun i p Hi) as (Hper & Hnal & _).
  cbn [app] in Hper. split; [done|]. split.
  { intros Hty. destruct Hper as (q & Hq & _ & Hpoc).
    assert (q = p) as ->.
    { unfold last_idr in Hq.
      rewrite (take_S_r _ _ _ Hi), h265_idr_pictures_snoc in Hq.
      rewrite decide_True in Hq by done. rewrite last_snoc in Hq.
      by injection Hq as <-. }
    lia. }
  split; [|exact Hnal].
  intros j p' Hj Hsame Heq.
  destruct (h265_encode_pictures_in_idr_period pics priv None [] frames out
              eq_refl Hrun j p' Hj) as (Hper' & _).
  cbn [app] in Hper'.
  destruct Hper as (q & Hq & _ & Hpoc).
  destruct Hper' as (q' & Hq' & _ & Hpoc').
  rewrite Hsame, Hq in Hq'. injection Hq' as <-. lia.
Qed.
End H265IDRPeriod.

(** ** The further properties at the sample sessions *)

Section FurtherWitnesses.
Import Sample SampleSetup.

Lemma write_header_success_witness :
  (forall au u, 0 <= never_fails au u) /\
  H264.writes H264.WriteSliceHeader priv0 = true /\
  one_byte_per_unit (H264.pending_units H264.WriteSliceHeader priv0)
    = (0, (replicate 2 Byte.x00, 0)) /\
  exists priv',
    H264.run_writer never_fails one_byte_per_unit H264.WriteSliceHeader priv0
      buffer8 64
    = (0, priv', replicate 2 Byte.x00 ++ replicate 6 Byte.xff, 16) /\
    units (H264.current_access_unit priv') = [] /\
    H264.aud_needed priv' = false /\
    H264.sei_needed priv' = H264.sei_needed priv0.
Proof.
  assert (forall au u, 0 <= never_fails au u) as Hok
    by (intros; unfold never_fails; lia).
  assert (one_byte_per_unit (H264.pending_units H264.WriteSliceHeader priv0)
          = (0, (replicate 2 Byte.x00, 0))) as Hs by reflexivity.
  assert ((8 * Z.of_nat (length (replicate 2 Byte.x00)) - 0)
            mod size_t_modulus <= 64) as Hle by (vm_compute; discriminate).
  split; [exact Hok|]. split; [reflexivity|]. split; [exact Hs|].
  exact (write_header_success never_fails one_byte_per_unit
           H264.WriteSliceHeader priv0 buffer8 64 0 (replicate 2 Byte.x00) 0
           Hok eq_refl Hs (Z.le_refl 0) Hle).
Defined.

Lemma write_extra_header_once_witness :
  H264.vaapi_encode_h264_write_extra_header never_fails one_byte_per_unit
    priv0 idr buffer8 64
  = (0, extra_written.1.1.1.2, extra_written.1.1.2, extra_written.1.2,
     extra_written.2) /\
  extra_written.2 = Some H264.VAEncPackedHeaderRawData /\
  H264.sei_needed extra_written.1.1.1.2 = 0 /\
  forall pic2 buf2 data_len2,
    H264.vaapi_encode_h264_write_extra_header never_fails one_byte_per_unit
      extra_written.1.1.1.2 pic2 buf2 data_len2
    = (AVERROR_EOF, extra_written.1.1.1.2, buf2, data_len2, None).
Proof.
  assert (H264.vaapi_encode_h264_write_extra_header never_fails
            one_byte_per_unit priv0 idr buffer8 64
          = (0, extra_written.1.1.1.2, extra_written.1.1.2,
             extra_written.1.2, extra_written.2)) as Hrun
    by (vm_compute; reflexivity).
  split; [exact Hrun|].
  exact (write_extra_header_once never_fails one_byte_per_unit priv0 idr
           buffer8 64 _ _ _ _ Hrun).
Defined.


Lemma default_ref_pic_list_within_arrays_witness :
  prev b = Some pb_kept /\
  H264.vaapi_encode_h264_default_ref_pic_list b stack_array stack_array
  = Ok (idr :: pb :: replicate 14 stale, pb :: idr :: replicate 14 stale,
        2%nat) /\
  drop 2 (idr :: pb :: replicate 14 stale) = drop 2 stack_array /\
  drop 2 (pb :: idr :: replicate 14 stale) = drop 2 stack_array.
Proof.
  assert (H264.vaapi_encode_h264_default_ref_pic_list b stack_array
            stack_array
          = Ok (idr :: pb :: replicate 14 stale,
                pb :: idr :: replicate 14 stale, 2%nat)) as Hrun
    by (vm_compute; reflexivity).
  split; [reflexivity|]. split; [exact Hrun|].
  destruct (default_ref_pic_list_within_arrays b pb_kept stack_array
              stack_array _ _ _ eq_refl Hrun)
    as (_ & _ & _ & HPB & HB & _).
  split.
  - exact (proj2 (HPB (or_intror eq_refl))).
  - exact (proj2 (proj2 (HB eq_refl)) (le_n 2)).
Defined.

Lemma default_ref_pic_list_B_single_candidate_witness :
  type b_single = FF_HW_PICTURE_TYPE_B /\
  prev b_single = Some idr_kept /\
  dpb idr_kept = [idr] /\
  H264.fn idr < H264.fn b_single /\
  H264.vaapi_encode_h264_default_ref_pic_list b_single stack_array
    stack_array
  = Ok (idr :: replicate 15 stale, stale :: idr :: replicate 14 stale,
        1%nat).
Proof.
  assert (H264.fn idr < H264.fn b_single) as Hfn by (cbn; lia).
  split; [reflexivity|]. split; [reflexivity|]. split; [reflexivity|].
  split; [exact Hfn|].
  exact (default_ref_pic_list_B_single_candidate b_single idr_kept idr stale
           stale stale (replicate 15 stale) (replicate 14 stale)
           eq_refl eq_refl eq_refl Hfn).
Defined.

Lemma slice_marking_dpb_overflow_witness :
  is_reference crowded = true /\
  type crowded <> FF_HW_PICTURE_TYPE_IDR /\
  prev crowded = Some crowded_prev /\
  H264.dpb_frames priv0
  < Z.of_nat (length (filter (fun c => addr c ∈ addr <$> dpb crowded)
                        (dpb crowded_prev))) /\
  H264.slice_marking priv0 crowded 0 mmco0 = AssertionFailure /\
  H264.vaapi_encode_h264_init_slice_params priv0 crowded 0 stack_array
    stack_array sh0 = AssertionFailure.
Proof.
  assert (type crowded <> FF_HW_PICTURE_TYPE_IDR) as Hty by discriminate.
  assert (H264.dpb_frames priv0
          < Z.of_nat (length (filter (fun c => addr c ∈ addr <$> dpb crowded)
                                (dpb crowded_prev)))) as Hover
    by (vm_compute; reflexivity).
  split; [reflexivity|]. split; [exact Hty|]. split; [reflexivity|].
  split; [exact Hover|].
  destruct (slice_marking_dpb_overflow priv0 crowded crowded_prev 0 mmco0
              eq_refl Hty eq_refl Hover) as [Hm Hs].
  split; [exact Hm|]. exact (Hs 0 stack_array stack_array sh0).
Defined.

Lemma init_slice_params_reference_types_witness :
  refs0 idr_with_ref <> [] /\
  type idr_with_ref = FF_HW_PICTURE_TYPE_IDR /\
  H264.vaapi_encode_h264_init_slice_params priv0 idr_with_ref 0 stack_array
    stack_array sh0 = AssertionFailure.
Proof.
  assert (refs0 idr_with_ref <> []) as Hne by discriminate.
  split; [exact Hne|]. split; [reflexivity|].
  exact (proj2 (init_slice_params_reference_types priv0 idr_with_ref 0
                  stack_array stack_array sh0
                  (or_introl (conj Hne (or_introl eq_refl)))) eq_refl).
Defined.


Lemma sequence_cropping_roundtrip_witness :
  H264Setup.vaapi_encode_h264_configure cfg priv0 derived0
  = (0, configured.1.2, configured.2) /\
  H264Setup.vaapi_encode_h264_init_sequence_params level_4 seq configured.2
    configured.1.2
  = (0, sequenced.1.2, sequenced.2) /\
  16 * (H264Setup.pic_width_in_mbs_minus1 sequenced.2 + 1)
  - 2 * H264Setup.frame_crop_right_offset sequenced.2 = 1920 + 1920 mod 2 /\
  16 * (H264Setup.pic_height_in_map_units_minus1 sequenced.2 + 1)
  - 2 * H264Setup.frame_crop_bottom_offset sequenced.2 = 1080 + 1080 mod 2.
Proof.
  assert (H264Setup.vaapi_encode_h264_configure cfg priv0 derived0
          = (0, configured.1.2, configured.2)) as Hcfg
    by (vm_compute; reflexivity).
  assert (H264Setup.vaapi_encode_h264_init_sequence_params level_4 seq
            configured.2 configured.1.2
          = (0, sequenced.1.2, sequenced.2)) as Hseq
    by (vm_compute; reflexivity).
  assert (0 <= H264Setup.cfg_width cfg) as Hw by (cbn; lia).
  assert (0 <= H264Setup.cfg_height cfg) as Hh by (cbn; lia).
  split; [exact Hcfg|]. split; [exact Hseq|].
  destruct (sequence_cropping_roundtrip level_4 cfg seq priv0 _ _ derived0
              _ _ Hcfg Hseq eq_refl eq_refl Hw Hh) as (H1 & H2 & _).
  split; [exact H1|exact H2].
Defined.

Lemma slice_qp_is_configured_qp_witness :
  H264Setup.vaapi_encode_h264_configure cfg priv0 derived0
  = (0, configured.1.2, configured.2) /\
  H264Setup.vaapi_encode_h264_init_sequence_params level_4 seq configured.2
    configured.1.2
  = (0, sequenced.1.2, sequenced.2) /\
  H264.vaapi_encode_h264_init_slice_params sequenced.1.2 p2 0
    (p1 :: idr :: replicate 14 stale) stack_array sh0 = Ok p2_slice /\
  26 + H264.pic_init_qp_minus26 sequenced.1.2 + H264.slice_qp_delta p2_slice
  = H264.fixed_qp_p configured.1.2 /\
  1 <= 26 + H264.pic_init_qp_minus26 sequenced.1.2
       + H264.slice_qp_delta p2_slice <= 51.
Proof.
  assert (H264Setup.vaapi_encode_h264_configure cfg priv0 derived0
          = (0, configured.1.2, configured.2)) as Hcfg
    by (vm_compute; reflexivity).
  assert (H264Setup.vaapi_encode_h264_init_sequence_params level_4 seq
            configured.2 configured.1.2
          = (0, sequenced.1.2, sequenced.2)) as Hseq
    by (vm_compute; reflexivity).
  assert (H264.vaapi_encode_h264_init_slice_params sequenced.1.2 p2 0
            (p1 :: idr :: replicate 14 stale) stack_array sh0 = Ok p2_slice)
    as Hsl by (vm_compute; reflexivity).
  split; [exact Hcfg|]. split; [exact Hseq|]. split; [exact Hsl|].
  destruct (slice_qp_is_configured_qp level_4 cfg seq priv0 _ _ derived0 _ _
              p2 0 _ _ sh0 _ Hcfg Hseq Hsl) as (H1 & H2 & _).
  split; [exact H1|exact H2].
Defined.

Lemma slice_header_within_sequence_limits_witness :
  H264Setup.vaapi_encode_h264_init_sequence_params level_4 seq configured.2
    configured.1.2
  = (0, sequenced.1.2, sequenced.2) /\
  H264.vaapi_encode_h264_init_slice_params sequenced.1.2 p2 0
    (p1 :: idr :: replicate 14 stale) stack_array sh0 = Ok p2_slice /\
  H264.sh_pic_parameter_set_id p2_slice = 0 /\
  0 <= H264.sh_frame_num p2_slice
    < 2 ^ (H264.log2_max_frame_num_minus4 sequenced.1.2 + 4) /\
  0 <= H264.pic_order_cnt_lsb p2_slice
    < 2 ^ (H264.log2_max_pic_order_cnt_lsb_minus4 sequenced.1.2 + 4).
Proof.
  assert (H264Setup.vaapi_encode_h264_init_sequence_params level_4 seq
            configured.2 configured.1.2
          = (0, sequenced.1.2, sequenced.2)) as Hseq
    by (vm_compute; reflexivity).
  assert (H264.vaapi_encode_h264_init_slice_params sequenced.1.2 p2 0
            (p1 :: idr :: replicate 14 stale) stack_array sh0 = Ok p2_slice)
    as Hsl by (vm_compute; reflexivity).
  split; [exact Hseq|]. split; [exact Hsl|].
  destruct (slice_header_within_sequence_limits level_4 seq _ _ _ _ p2 0 _ _
              sh0 _ Hseq Hsl) as (H1 & H2 & _ & H3 & _).
  split; [exact H1|]. split; [exact H2|exact H3].
Defined.

Lemma encode_pictures_idr_period_witness :
  H264.encode_pictures no_captions priv0 None sequence = Ok encoded /\
  encoded !! 3%nat = Some encoded_last /\
  H264Sequence.in_idr_period priv0 (take 4 encoded) encoded_last /\
  0 <= H264.idr_pic_id (priv_data encoded_last) < 2 ^ 16.
Proof.
  assert (H264.encode_pictures no_captions priv0 None sequence = Ok encoded)
    as Hrun by (vm_compute; reflexivity).
  assert (encoded !! 3%nat = Some encoded_last) as Hget
    by (vm_compute; reflexivity).
  split; [exact Hrun|]. split; [exact Hget|].
  destruct (encode_pictures_idr_period no_captions priv0 sequence encoded
              Hrun 3%nat encoded_last Hget) as (H1 & _ & H2).
  split; [exact H1|exact H2].
Defined.

Lemma slice_ref_pic_lists_first_entries_witness :
  H264Hardware.init_reference_frames surface_of b (replicate 16 va_zero)
  = Ok b_frames /\
  exists l0 l1,
    H264Hardware.slice_ref_pic_lists b b_frames (replicate 32 va_zero)
      (replicate 32 va_zero) = Ok (l0, l1) /\
    head l0 = Some (H264Hardware.reference_frame surface_of idr) /\
    head l1 = Some (H264Hardware.reference_frame surface_of pb).
Proof.
  assert (H264Hardware.init_reference_frames surface_of b
            (replicate 16 va_zero) = Ok b_frames) as Hrun
    by (vm_compute; reflexivity).
  assert (2 <= length (replicate 16 va_zero))%nat as Hlen by (cbn; lia).
  assert (replicate 32 va_zero <> []) as Hne by discriminate.
  split; [exact Hrun|].
  destruct (slice_ref_pic_lists_first_entries surface_of b
              (replicate 16 va_zero) b_frames (replicate 32 va_zero)
              (replicate 32 va_zero) Hrun Hlen Hne Hne
              (fun _ => or_intror eq_refl) (fun _ => eq_refl))
    as (l0 & l1 & Hl & _ & _ & H0 & H1).
  exists l0, l1. split; [exact Hl|]. split; [exact H0|exact H1].
Defined.

Lemma hrd_parameters_scaling_witness :
  H264HRD.init_sequence_params_hrd priv0 hrd_input = Ok hrd_output /\
  Z.land (H264.sei priv0) H264.SEI_TIMING <> 0 /\
  (H264HRD.bit_rate_value_minus1 hrd_output + 1)
  * 2 ^ (6 + H264HRD.bit_rate_scale hrd_output) <= 4000000 /\
  H264HRD.initial_cpb_removal_delay hrd_output = 90000 * 6000000 / 8000000.
Proof.
  assert (H264HRD.init_sequence_params_hrd priv0 hrd_input = Ok hrd_output)
    as Hrun by (vm_compute; reflexivity).
  assert (Z.land (H264.sei priv0) H264.SEI_TIMING <> 0) as Hsei
    by (vm_compute; discriminate).
  assert (64 <= H264HRD.va_bit_rate hrd_input < 2 ^ 32) as HR
    by (cbn; lia).
  assert (16 <= H264HRD.buffer_size hrd_input < 2 ^ 32) as HB by (cbn; lia).
  assert (0 <= H264HRD.initial_buffer_fullness hrd_input
          <= H264HRD.buffer_size hrd_input) as HF by (cbn; lia).
  split; [exact Hrun|]. split; [exact Hsei|].
  destruct (hrd_parameters_scaling priv0 hrd_input hrd_output Hrun Hsei HR
              HB HF) as (_ & _ & _ & _ & _ & H1 & _ & _ & _ & _ & _ & H2 & _).
  split; [exact (proj1 H1)|exact H2].
Defined.

Lemma h265_write_header_output_witness :
  (forall au u, 0 <= h265_never_fails au u) /\
  H265Session.writes H265Session.WriteExtraHeader h265_priv0 = true /\
  h265_one_byte_per_unit
    (H265Session.pending_units H265Session.WriteExtraHeader h265_priv0)
  = (0, (replicate 2 Byte.x00, 0)) /\
  H265Session.pending_units H265Session.WriteExtraHeader h265_priv0
  = [H265Session.aud_option;
     H265Session.SEIMessage
       H265Session.SEI_TYPE_MASTERING_DISPLAY_COLOUR_VOLUME] /\
  exists priv',
    H265Session.run_writer h265_never_fails h265_one_byte_per_unit
      H265Session.WriteExtraHeader h265_priv0 buffer8 64
    = (0, priv', replicate 2 Byte.x00 ++ replicate 6 Byte.xff, 16) /\
    H265Session.sei_needed priv' = 0.
Proof.
  assert (forall au u, 0 <= h265_never_fails au u) as Hok
    by (intros; unfold h265_never_fails; lia).
  assert (h265_one_byte_per_unit
            (H265Session.pending_units H265Session.WriteExtraHeader
               h265_priv0)
          = (0, (replicate 2 Byte.x00, 0))) as Hs by reflexivity.
  split; [exact Hok|]. split; [reflexivity|]. split; [exact Hs|].
  split; [reflexivity|].
  destruct (h265_write_header_output h265_never_fails h265_one_byte_per_unit
              H265Session.WriteExtraHeader h265_priv0 buffer8 64 0
              (replicate 2 Byte.x00) 0 Hok eq_refl Hs (Z.le_refl 0))
    as (priv' & Hrun & _ & _ & Hsei & _).
  exists priv'. split; [exact Hrun|exact Hsei].
Defined.

Lemma h265_metadata_schedule_witness :
  H265Session.vaapi_encode_h265_init_picture_params h265_no_captions
    h265_surface_of hdr10 light_level h265_priv0 h0 (replicate 15 hevc_zero)
  = Ok ((h265_pictured h0).1.1.1, (h265_pictured h0).1.1.2,
        (h265_pictured h0).1.2, (h265_pictured h0).2) /\
  H265Session.sei_messages_due
    (H265Session.sei_needed (h265_pictured h0).1.1.2)
  `sublist_of` [H265Session.SEI_TYPE_MASTERING_DISPLAY_COLOUR_VOLUME;
                H265Session.SEI_TYPE_CONTENT_LIGHT_LEVEL_INFO;
                H265Session.SEI_TYPE_USER_DATA_REGISTERED_ITU_T_T35] /\
  (H265Session.SEI_TYPE_USER_DATA_REGISTERED_ITU_T_T35
   ∈ H265Session.sei_messages_due
       (H265Session.sei_needed (h265_pictured h0).1.1.2)
   <-> Z.land (H265Session.sei h265_priv0) H265Session.SEI_A53_CC <> 0 /\
       0 <= (h265_no_captions h0).1 /\ is_Some (h265_no_captions h0).2).
Proof.
  assert (H265Session.vaapi_encode_h265_init_picture_params h265_no_captions
            h265_surface_of hdr10 light_level h265_priv0 h0
            (replicate 15 hevc_zero)
          = Ok ((h265_pictured h0).1.1.1, (h265_pictured h0).1.1.2,
                (h265_pictured h0).1.2, (h265_pictured h0).2)) as Hrun
    by (vm_compute; reflexivity).
  split; [exact Hrun|].
  destruct (h265_metadata_schedule h265_no_captions h265_surface_of hdr10
              light_level h265_priv0 _ h0 _ _ _ _ Hrun)
    as (_ & _ & H3 & Hsub & _).
  split; [exact Hsub|exact H3].
Defined.

Lemma h265_reference_frames_entries_witness :
  H265Session.vaapi_encode_h265_init_picture_params h265_no_captions
    h265_surface_of hdr10 light_level h265_priv0 hb (replicate 15 hevc_zero)
  = Ok (0, (h265_pictured hb).1.1.2, (h265_pictured hb).1.2,
        (h265_pictured hb).2) /\
  length (h265_pictured hb).2 = length (replicate 15 hevc_zero) /\
  Forall (fun ref => encode_order ref < encode_order hb)
    (refs0 hb ++ refs1 hb) /\
  forall i, (length (refs0 hb ++ refs1 hb) <= i
             < length (replicate 15 hevc_zero))%nat ->
    (h265_pictured hb).2 !! i = Some H265Session.invalid_picture.
Proof.
  assert (H265Session.vaapi_encode_h265_init_picture_params h265_no_captions
            h265_surface_of hdr10 light_level h265_priv0 hb
            (replicate 15 hevc_zero)
          = Ok (0, (h265_pictured hb).1.1.2, (h265_pictured hb).1.2,
                (h265_pictured hb).2)) as Hrun
    by (vm_compute; reflexivity).
  split; [exact Hrun|].
  destruct (h265_reference_frames_entries h265_no_captions h265_surface_of
              hdr10 light_level h265_priv0 _ hb _ _ _ Hrun)
    as (_ & Hl & Hall & _ & Hinv).
  split; [exact Hl|]. split; [exact Hall|exact Hinv].
Defined.

Lemma h265_slice_ref_pic_lists_witness :
  H265Session.vaapi_encode_h265_init_picture_params h265_no_captions
    h265_surface_of hdr10 light_level h265_priv0 hb (replicate 15 hevc_zero)
  = Ok (0, (h265_pictured hb).1.1.2, (h265_pictured hb).1.2,
        (h265_pictured hb).2) /\
  exists slice_type l1,
    H265Session.slice_ref_pic_lists (h265_pictured hb).1.1.2
      (h265_pictured hb).1.2 (h265_pictured hb).2
    = Ok (slice_type,
          H265Session.reference_frame h265_surface_of (h265_pictured hb).1.2
            h0
          :: replicate 14 H265Session.invalid_picture, l1) /\
    slice_type = H265Session.HEVC_SLICE_B /\
    l1 = H265Session.reference_frame h265_surface_of (h265_pictured hb).1.2
           h2
         :: replicate 14 H265Session.invalid_picture.
Proof.
  assert (H265Session.vaapi_encode_h265_init_picture_params h265_no_captions
            h265_surface_of hdr10 light_level h265_priv0 hb
            (replicate 15 hevc_zero)
          = Ok (0, (h265_pictured hb).1.1.2, (h265_pictured hb).1.2,
                (h265_pictured hb).2)) as Hrun
    by (vm_compute; reflexivity).
  assert (2 <= length (replicate 15 hevc_zero))%nat as Hlen by (cbn; lia).
  split; [exact Hrun|].
  destruct (h265_slice_ref_pic_lists h265_no_captions h265_surface_of hdr10
              light_level h265_priv0 _ hb _ _ _ Hrun Hlen
              (fun _ => or_intror eq_refl) (fun _ => eq_refl))
    as (st & l1 & Hl & Hst & Hl1).
  exists st, l1. split; [exact Hl|]. split; [exact Hst|exact Hl1].
Defined.


Lemma h265_slice_qp_and_poc_bits_witness :
  H265Setup.vaapi_encode_h265_configure h265_cfg h265_priv0 0
  = (0, h265_configured.1.2, h265_configured.2) /\
  H265Setup.vaapi_encode_h265_init_sequence_params h265_seq h265_caps.2
    h265_configured.1.2
  = Ok (0, h265_sequenced.1.2, h265_sequenced.2) /\
  26 + H265Session.init_qp_minus26 h265_sequenced.1.2
  + H265Session.slice_qp_delta h265_sequenced.1.2 h4
  = H265Session.fixed_qp_p h265_sequenced.1.2 /\
  H265Session.slice_pic_order_cnt_lsb h265_sequenced.1.2 h4
  = H265.poc h4 mod 4096.
Proof.
  assert (H265Setup.vaapi_encode_h265_configure h265_cfg h265_priv0 0
          = (0, h265_configured.1.2, h265_configured.2)) as Hcfg
    by (vm_compute; reflexivity).
  assert (H265Setup.vaapi_encode_h265_init_sequence_params h265_seq
            h265_caps.2 h265_configured.1.2
          = Ok (0, h265_sequenced.1.2, h265_sequenced.2)) as Hseq
    by (vm_compute; reflexivity).
  split; [exact Hcfg|]. split; [exact Hseq|].
  destruct (h265_slice_qp_and_poc_bits h265_cfg h265_seq h265_caps.2
              h265_priv0 _ _ 0 _ _ h4 Hcfg Hseq)
    as (H1 & _ & _ & _ & _ & _ & _ & H2).
  split; [exact H1|exact H2].
Defined.

Lemma h265_uniform_tile_spacing_witness :
  H265Setup.vaapi_encode_h265_init_sequence_params h265_seq h265_caps.2
    h265_configured.1.2
  = Ok (0, h265_sequenced.1.2, h265_sequenced.2) /\
  H265Setup.uniform_spacing_flag h265_sequenced.2 = 1 /\
  foldr Z.add 0
    ((fun size => size + 1)
       <$> H265Setup.column_width_minus1 h265_sequenced.2) = 60 /\
  foldr Z.add 0
    ((fun size => size + 1)
       <$> H265Setup.row_height_minus1 h265_sequenced.2) = 34.
Proof.
  assert (H265Setup.vaapi_encode_h265_init_sequence_params h265_seq
            h265_caps.2 h265_configured.1.2
          = Ok (0, h265_sequenced.1.2, h265_sequenced.2)) as Hseq
    by (vm_compute; reflexivity).
  assert (H265Setup.uniform_spacing_flag h265_sequenced.2 = 1) as Hflag
    by (vm_compute; reflexivity).
  assert (0 < H265Setup.tile_cols h265_seq <= 256) as Hc by (cbn; lia).
  assert (0 < H265Setup.tile_rows h265_seq <= 256) as Hr by (cbn; lia).
  assert (0 <= H265Setup.slice_block_cols h265_seq) as Hbc by (cbn; lia).
  assert (0 <= H265Setup.slice_block_rows h265_seq) as Hbr by (cbn; lia).
  split; [exact Hseq|]. split; [exact Hflag|].
  destruct (h265_uniform_tile_spacing h265_seq h265_caps.2 _ _ _ Hseq Hflag
              Hc Hr Hbc Hbr)
    as (_ & _ & _ & _ & _ & Hsc & Hsr & _).
  split; [exact Hsc|exact Hsr].
Defined.

Lemma h265_encode_pictures_idr_period_witness :
  H265Sequence.encode_pictures h265_no_captions h265_surface_of hdr10
    light_level h265_priv0 None h265_sequence (replicate 15 hevc_zero)
  = Ok h265_encoded /\
  h265_encoded !! 2%nat = Some h265_encoded_last /\
  H265Sequence.in_idr_period (take 3 h265_encoded) h265_encoded_last /\
  (type h265_encoded_last = FF_HW_PICTURE_TYPE_IDR ->
   H265.poc h265_encoded_last = 0).
Proof.
  assert (H265Sequence.encode_pictures h265_no_captions h265_surface_of
            hdr10 light_level h265_priv0 None h265_sequence
            (replicate 15 hevc_zero) = Ok h265_encoded) as Hrun
    by (vm_compute; reflexivity).
  assert (h265_encoded !! 2%nat = Some h265_encoded_last) as Hget
    by (vm_compute; reflexivity).
  split; [exact Hrun|]. split; [exact Hget|].
  destruct (h265_encode_pictures_idr_period h265_no_captions h265_surface_of
              hdr10 light_level h265_priv0 h265_sequence h265_encoded
              (replicate 15 hevc_zero) Hrun 2%nat h265_encoded_last Hget)
    as (H1 & H2 & _).
  split; [exact H1|exact H2].
Defined.
End FurtherWitnesses.
